(** * Location hierarchy matching (match_locations.py)

    A shallow embedding of the location matching engine of
    [src/match_locations.py] and the proofs of its specified properties.

    Conventions of the embedding.
    - Text is [string], the bytes of its UTF-8 encoding.  The texts the
      matcher sees are outputs of [normalize_text] (lower-cased, accents
      stripped), so that they are ASCII text but for the rare character
      without a decomposition; searching, splitting and trimming are
      those of the source on ASCII text.  [normalize_text] knows the
      characters up to U+00FF and the combining marks U+0300 to U+036F.
    - A Python [dict] whose iteration order matters (a level of the
      hierarchy) is an association list in insertion order.
    - Text scores (1.0, 0.95, 0.9 and their weighted forms) are exact
      rationals [Q], rounded as the floats they stand for; coordinates
      and distances are real numbers [R].
    - The remote store is a response oracle and a log of the requests
      made; the in-memory hierarchy and the module-level cache are state. *)

From Stdlib Require Import Bool Arith ZArith QArith Qround List Ascii String.
From Stdlib Require Import Reals Lra Lia.
Import ListNotations.

(* ================================================================== *)
(** ** Python string operations *)
(* ================================================================== *)

Module Str.

Open Scope string_scope.
Open Scope char_scope.

Definition code (c : ascii) : nat := nat_of_ascii c.

Definition is_upper (c : ascii) : bool := (65 <=? code c)%nat && (code c <=? 90)%nat.
Definition is_lower (c : ascii) : bool := (97 <=? code c)%nat && (code c <=? 122)%nat.
Definition is_digit (c : ascii) : bool := (48 <=? code c)%nat && (code c <=? 57)%nat.

(** [str.isspace] on ASCII: tab, LF, VT, FF, CR, FS, GS, RS, US, space. *)
Definition is_space (c : ascii) : bool :=
  ((9 <=? code c)%nat && (code c <=? 13)%nat)
  || ((28 <=? code c)%nat && (code c <=? 32)%nat).

(** The regex class [\w] on ASCII: letters, digits and the underscore. *)
Definition is_word (c : ascii) : bool :=
  is_upper c || is_lower c || is_digit c || (code c =? 95)%nat.

Definition lower_char (c : ascii) : ascii :=
  if is_upper c then ascii_of_nat (code c + 32) else c.

Definition upper_char (c : ascii) : ascii :=
  if is_lower c then ascii_of_nat (code c - 32) else c.

(** A byte from 0xC0 to 0xDF starts a character of two bytes (U+0080 to
    U+07FF). *)
Definition is_lead2 (c : ascii) : bool := (192 <=? code c)%nat && (code c <=? 223)%nat.

(** Rewrite a text character by character: a lead byte of the above kind
    is read with the byte after it, every other byte by itself (so that a
    character of three or four bytes goes through [one] byte by byte). *)
Fixpoint map_chars (one : ascii -> string) (two : ascii -> ascii -> string)
    (s : string) : string :=
  match s with
  | EmptyString => EmptyString
  | String c1 rest =>
      if is_lead2 c1 then
        match rest with
        | String c2 rest' => two c1 c2 ++ map_chars one two rest'
        | EmptyString => one c1
        end
      else one c1 ++ map_chars one two rest
  end.

(** The second byte of an uppercase letter of Latin-1, whose first byte
    is 0xC3: U+00C0 to U+00DE without the sign U+00D7. *)
Definition is_latin1_upper (b : ascii) : bool :=
  (128 <=? code b)%nat && (code b <=? 158)%nat && negb (code b =? 151)%nat.

(** [s.lower()]: the letters A to Z, and the uppercase letters of Latin-1,
    which lie 32 places before their lowercase forms.  No other character
    up to U+00FF changes; the characters beyond are left as they are. *)
Definition lower (s : string) : string :=
  map_chars
    (fun c => String (lower_char c) EmptyString)
    (fun l b =>
       String l (String (if (code l =? 195)%nat && is_latin1_upper b
                         then ascii_of_nat (code b + 32) else b)
                        EmptyString))
    s.

(** [s.capitalize()] *)
Definition capitalize (s : string) : string :=
  match s with
  | EmptyString => EmptyString
  | String c s' => String (upper_char c) (lower s')
  end.

(** [s.lstrip()] *)
Fixpoint lstrip (s : string) : string :=
  match s with
  | EmptyString => EmptyString
  | String c s' => if is_space c then lstrip s' else s
  end.

(** [s.rstrip()] *)
Fixpoint rstrip (s : string) : string :=
  match s with
  | EmptyString => EmptyString
  | String c s' =>
      match rstrip s' with
      | EmptyString => if is_space c then EmptyString else String c EmptyString
      | r => String c r
      end
  end.

(** [s.strip()] *)
Definition strip (s : string) : string := rstrip (lstrip s).

(** Python truthiness of a string: [if text]. *)
Definition nonempty (s : string) : bool :=
  match s with EmptyString => false | String _ _ => true end.

(** [s.startswith(p)] *)
Fixpoint startswith (p s : string) : bool :=
  match p with
  | EmptyString => true
  | String a p' =>
      match s with
      | EmptyString => false
      | String b s' => Ascii.eqb a b && startswith p' s'
      end
  end.

(** [s[n:]] *)
Fixpoint drop (n : nat) (s : string) : string :=
  match n with
  | O => s
  | S n' => match s with EmptyString => EmptyString | String _ s' => drop n' s' end
  end.

(** [s[:n]] *)
Fixpoint take (n : nat) (s : string) : string :=
  match n with
  | O => EmptyString
  | S n' => match s with EmptyString => EmptyString | String c s' => String c (take n' s') end
  end.

(** [sub in s] *)
Fixpoint contains (sub s : string) : bool :=
  startswith sub s
  || match s with EmptyString => false | String _ s' => contains sub s' end.

(** [s.find(sub)], [None] for -1. *)
Fixpoint find (sub s : string) : option nat :=
  if startswith sub s then Some O
  else match s with
       | EmptyString => None
       | String _ s' => option_map S (find sub s')
       end.

Definition head (s : string) : option ascii :=
  match s with EmptyString => None | String c _ => Some c end.

Definition word_at (o : option ascii) : bool :=
  match o with Some c => is_word c | None => false end.

(** The regex assertion [\b] between two adjacent positions: exactly one
    side is a word character (the ends of the text count as non-word). *)
Definition boundary (before after : option ascii) : bool :=
  xorb (word_at before) (word_at after).

(** Match the literal [pat] at the start of [s]; returns the last character
    consumed (or [last] when [pat] is empty) and the remaining text. *)
Fixpoint match_literal (pat s : string) (last : option ascii)
  : option (option ascii * string) :=
  match pat with
  | EmptyString => Some (last, s)
  | String p pat' =>
      match s with
      | EmptyString => None
      | String c s' =>
          if Ascii.eqb p c then match_literal pat' s' (Some c) else None
      end
  end.

Definition word_match_here (prev : option ascii) (pat s : string) : bool :=
  boundary prev (head s)
  && match match_literal pat s prev with
     | Some (last, rest) => boundary last (head rest)
     | None => false
     end.

Fixpoint search_from (prev : option ascii) (pat s : string) : bool :=
  word_match_here prev pat s
  || match s with
     | EmptyString => false
     | String c s' => search_from (Some c) pat s'
     end.

(** [re.search(r'\b' + re.escape(pat) + r'\b', s)] as a boolean. *)
Definition word_search (pat s : string) : bool := search_from None pat s.

(** [sep.join(parts)] for [sep = ' ']. *)
Fixpoint join (parts : list string) : string :=
  match parts with
  | [] => EmptyString
  | [p] => p
  | p :: rest => p ++ String " " (join rest)
  end.

(** [s.split()]: maximal runs of non-whitespace characters. *)
Fixpoint split_acc (cur : string) (s : string) : list string :=
  match s with
  | EmptyString => if nonempty cur then [cur] else []
  | String c s' =>
      if is_space c
      then (if nonempty cur then cur :: split_acc EmptyString s'
            else split_acc EmptyString s')
      else split_acc (cur ++ String c EmptyString) s'
  end.

Definition split (s : string) : list string := split_acc EmptyString s.

(** [w.isdigit()] on ASCII. *)
Fixpoint all_digits (s : string) : bool :=
  match s with
  | EmptyString => true
  | String c s' => is_digit c && all_digits s'
  end.

Definition isdigit (s : string) : bool := nonempty s && all_digits s.

(** [w in words] for a collection of strings. *)
Definition mem (w : string) (ws : list string) : bool :=
  existsb (String.eqb w) ws.

End Str.

Import Str.

(* ================================================================== *)
(** ** Text normalisation *)
(* ================================================================== *)

Section Normalisation.

Open Scope string_scope.

(** The canonical decomposition of the letters of Latin-1, by the second
    byte of the letter (the first is 0xC3): the base letter and the second
    byte of the combining mark (the first is 0xCC).  The marks are grave
    U+0300, acute U+0301, circumflex U+0302, tilde U+0303, diaeresis
    U+0308, ring U+030A and cedilla U+0327.  The row is that of the
    uppercase letters U+00C0 to U+00DE; U+00C6, U+00D0, U+00D7, U+00D8
    and U+00DE have no decomposition. *)
Definition decompose_upper (j : nat) : option (nat * nat) :=
  match j with
  | 0 => Some (65, 128) | 1 => Some (65, 129) | 2 => Some (65, 130)
  | 3 => Some (65, 131) | 4 => Some (65, 136) | 5 => Some (65, 138)
  | 7 => Some (67, 167)
  | 8 => Some (69, 128) | 9 => Some (69, 129) | 10 => Some (69, 130)
  | 11 => Some (69, 136)
  | 12 => Some (73, 128) | 13 => Some (73, 129) | 14 => Some (73, 130)
  | 15 => Some (73, 136)
  | 17 => Some (78, 131)
  | 18 => Some (79, 128) | 19 => Some (79, 129) | 20 => Some (79, 130)
  | 21 => Some (79, 131) | 22 => Some (79, 136)
  | 25 => Some (85, 128) | 26 => Some (85, 129) | 27 => Some (85, 130)
  | 28 => Some (85, 136)
  | 29 => Some (89, 129)
  | _ => None
  end%nat.

(** The lowercase letters U+00E0 to U+00FE decompose as the uppercase
    ones, 32 places before them, with the lowercase base letter; U+00DF
    has no decomposition and U+00FF is y with a diaeresis. *)
Definition decompose (b : ascii) : option (ascii * ascii) :=
  let n := code b in
  if (128 <=? n)%nat && (n <=? 158)%nat then
    match decompose_upper (n - 128) with
    | Some (base, mark) => Some (ascii_of_nat base, ascii_of_nat mark)
    | None => None
    end
  else if (160 <=? n)%nat && (n <=? 190)%nat then
    match decompose_upper (n - 160) with
    | Some (base, mark) => Some (ascii_of_nat (base + 32), ascii_of_nat mark)
    | None => None
    end
  else if (n =? 191)%nat then Some (ascii_of_nat 121, ascii_of_nat 136)
  else None.

(** [unicodedata.normalize('NFD', text)]: every letter with a canonical
    decomposition becomes its base letter followed by the combining mark.
    NFD also puts adjacent combining marks in a canonical order and
    replaces four of them by others; the marks are left as they are here,
    the next step removes them all. *)
Definition nfd (text : string) : string :=
  map_chars
    (fun c => String c EmptyString)
    (fun l b =>
       if (code l =? 195)%nat then
         match decompose b with
         | Some (base, mark) =>
             String base (String (ascii_of_nat 204) (String mark EmptyString))
         | None => String l (String b EmptyString)
         end
       else String l (String b EmptyString))
    text.

(** [unicodedata.category(c) == 'Mn'] on the characters up to U+036F: the
    combining diacritical marks U+0300 to U+036F, which are the bytes
    0xCC 0x80 to 0xCD 0xAF. *)
Definition is_mark (l b : ascii) : bool :=
  ((code l =? 204)%nat && (128 <=? code b)%nat && (code b <=? 191)%nat)
  || ((code l =? 205)%nat && (128 <=? code b)%nat && (code b <=? 175)%nat).

(** [''.join(c for c in text if unicodedata.category(c) != 'Mn')] *)
Definition drop_marks (text : string) : string :=
  map_chars
    (fun c => String c EmptyString)
    (fun l b => if is_mark l b then EmptyString else String l (String b EmptyString))
    text.

(** [normalize_text]: lowercase, remove accents, strip.  This is the
    function of the source on text made of ASCII characters, the
    characters U+00A1 to U+00FF and the combining marks U+0300 to U+036F
    ([latin1_text] below), which holds the Spanish alphabet.  Outside
    that range the source lowers, decomposes and trims more characters
    than are listed here (among them the spaces U+0085 and U+00A0). *)
Definition normalize_text (text : string) : string :=
  if nonempty text then strip (drop_marks (nfd (lower text))) else "".

(** The prefix table of [remove_location_prefixes], in source order. *)
Definition prefixes : list string :=
  [ "residencial "; "colonia "; "urbanizacion "; "urbanizaci√≥n ";
    "barrio "; "lotificacion "; "lotificaci√≥n "; "reparto ";
    "comunidad "; "cant√≥n "; "canton "; "caserio ";
    "col. "; "res. "; "urb. "; "bo. ";
    "la "; "el "; "los "; "las " ].

(** One round of the [while changed] loop: the first prefix of the table
    that the text starts with. *)
Definition first_prefix (table : list string) (normalized : string) : option string :=
  List.find (fun prefix => startswith prefix normalized) table.

(** The [while changed] loop.  Every round removes a non-empty prefix, so
    [String.length normalized] rounds are enough (lemma
    [strip_prefixes_stable]). *)
Fixpoint strip_prefixes (fuel : nat) (normalized : string) : string :=
  match fuel with
  | O => normalized
  | S fuel' =>
      match first_prefix prefixes normalized with
      | Some prefix => strip_prefixes fuel' (drop (String.length prefix) normalized)
      | None => normalized
      end
  end.

Definition remove_location_prefixes (text : string) : string :=
  let normalized := normalize_text text in
  strip (strip_prefixes (String.length normalized) normalized).

End Normalisation.

(* ================================================================== *)
(** ** Data model *)
(* ================================================================== *)

(** Hierarchy levels: 2 = colonia, 3 = municipality, 4 = district,
    5 = department. *)
Inductive Level := L2 | L3 | L4 | L5.

Definition level_number (l : Level) : Z :=
  match l with L2 => 2 | L3 => 3 | L4 => 4 | L5 => 5 end.

Definition Level_eqb (a b : Level) : bool := (level_number a =? level_number b)%Z.

(** [current_level += 1]; level 5 is the top. *)
Definition level_up (l : Level) : option Level :=
  match l with L2 => Some L3 | L3 => Some L4 | L4 => Some L5 | L5 => None end.

(** One entry of a level, as built by [load_location_groups] and
    [insert_auto_l2]. *)
Record LocInfo := mkLocInfo {
  id : Z;
  name : string;
  normalized : string;
  no_prefix : string;
  alt_names : list string;
  parent_id : option Z;
  latitude : option R;
  longitude : option R
}.

(** A level of the hierarchy: a dict from id to entry, in insertion order. *)
Definition LevelData := list (Z * LocInfo).

(** [groups]: the four levels, always present after loading. *)
Record Groups := mkGroups {
  level2 : LevelData;
  level3 : LevelData;
  level4 : LevelData;
  level5 : LevelData
}.

(** [groups.get(level, {})] *)
Definition groups_get (groups : Groups) (level : Level) : LevelData :=
  match level with
  | L2 => level2 groups
  | L3 => level3 groups
  | L4 => level4 groups
  | L5 => level5 groups
  end.

(** [level_data.get(loc_id)] / [loc_id in level_data] *)
Fixpoint lookup (loc_id : Z) (level_data : LevelData) : option LocInfo :=
  match level_data with
  | [] => None
  | (k, info) :: rest => if (k =? loc_id)%Z then Some info else lookup loc_id rest
  end.

(** [level_data[loc_id] = entry]: replace in place or append. *)
Fixpoint assign (loc_id : Z) (entry : LocInfo) (level_data : LevelData) : LevelData :=
  match level_data with
  | [] => [(loc_id, entry)]
  | (k, info) :: rest =>
      if (k =? loc_id)%Z then (k, entry) :: rest
      else (k, info) :: assign loc_id entry rest
  end.

(** The four text fields of a listing. *)
Inductive Source := Title | Location | Details | Description.

Definition Source_eqb (a b : Source) : bool :=
  match a, b with
  | Title, Title | Location, Location | Details, Details
  | Description, Description => true
  | _, _ => false
  end.

(** [texts]: source -> normalized text. *)
Record Texts := mkTexts {
  title : string;
  location : string;
  details : string;
  description : string
}.

(** [texts.get(source, '')] *)
Definition texts_get (texts : Texts) (source : Source) : string :=
  match source with
  | Title => title texts
  | Location => location texts
  | Details => details texts
  | Description => description texts
  end.

(** [texts.items()]: both builders of the dict ([extract_searchable_text]
    and [match_scraped_listings]) insert title, location, details,
    description in this order. *)
Definition texts_items (texts : Texts) : list (Source * string) :=
  map (fun source => (source, texts_get texts source))
      [Title; Location; Details; Description].

(** [matchSource] *)
Inductive MatchSource :=
| FromText (source : Source)
| Coordinates            (* 'coordinates' *)
| CoordinatesAutoL2      (* 'coordinates+auto-l2' *)
| TextAutoL2.            (* 'text+auto-l2' *)

(** [matchedText]: plain evidence text, or the name and distance that the
    coordinate matcher renders as "name (d.ddkm)". *)
Inductive MatchedText :=
| Evidence (text : string)
| NameAndDistance (name : string) (km : R).

(** The four ids filled by [get_parent_chain]. *)
Record Chain := mkChain {
  chain2 : option Z;
  chain3 : option Z;
  chain4 : option Z;
  chain5 : option Z
}.

Record MatchResult := mkResult {
  externalId : option Z;
  locGroup2Id : option Z;
  locGroup3Id : option Z;
  locGroup4Id : option Z;
  locGroup5Id : option Z;
  matchLevel : option Level;
  matchScore : option Q;
  matchSource : option MatchSource;
  matchedText : option MatchedText
}.

(** Python truthiness of an optional integer: [if parent_id]. *)
Definition truthy_id (x : option Z) : bool :=
  match x with
  | Some v => negb (v =? 0)%Z
  | None => false
  end.

(** Python truthiness of an optional number: [if lat]. *)
Definition truthy_num (x : option R) : bool :=
  match x with
  | Some v => if Req_dec_T v 0%R then false else true
  | None => false
  end.

(** [a == b] on optional ids ([None] equals only [None]). *)
Definition opt_id_eqb (a b : option Z) : bool :=
  match a, b with
  | Some x, Some y => (x =? y)%Z
  | None, None => true
  | _, _ => false
  end.

(* ================================================================== *)
(** ** Scores *)
(* ================================================================== *)

Section Scores.

Open Scope Q_scope.

(** [a > b] and [a >= b] on scores. *)
Definition Qgtb (a b : Q) : bool := negb (Qle_bool a b).
Definition Qgeb (a b : Q) : bool := Qle_bool b a.

(** Round half to even, the rule of Python's [round]. *)
Definition round_half_even (q : Q) : Z :=
  let f := Qfloor q in
  match Qcompare (q - inject_Z f) (1 # 2) with
  | Lt => f
  | Gt => (f + 1)%Z
  | Eq => if Z.even f then f else (f + 1)%Z
  end.

(** Python's floats are binary64 numbers.  [to_double q] is the float
    nearest to [q] (ties to the even mantissa), as an exact rational: a
    mantissa of 53 bits at the exponent of [q].  Scores lie between 0 and
    2, far from the ends of the exponent range, which are left out. *)
Definition binade (q : Q) : Z :=
  let e0 := (Z.log2 (Qnum q) - Z.log2 (Zpos (Qden q)))%Z in
  if Qle_bool (2 ^ e0) q then e0 else (e0 - 1)%Z.

Definition nearest_double (q : Q) : Q :=
  let e := binade q in
  Qred (inject_Z (round_half_even (q * 2 ^ (52 - e))) * 2 ^ (e - 52)).

Definition to_double (q : Q) : Q :=
  match Qnum q with
  | Z0 => 0
  | Zpos _ => nearest_double q
  | Zneg _ => - nearest_double (- q)
  end.

(** [a * b] and [a + b] on floats written as decimal numbers. *)
Definition float_mul (a b : Q) : Q := to_double (to_double a * to_double b).
Definition float_add (a b : Q) : Q := to_double (to_double a + to_double b).

(** [round(x, 2)] on a float: Python rounds the exact value of the float,
    half to even. *)
Definition round2_float (x : Q) : Q := Qred (round_half_even (x * 100) # 100).

(** [round(score, 2)].  The scores of the matchers are kept as the exact
    decimal numbers that the floats of the source stand for, and the
    rounding is that of the float nearest to the score: 0.9 * 0.85 =
    0.765 is recorded as 0.77, the float lying above the decimal tie.  On
    every score that the matchers produce this is the rounding of the
    float that the source computes (lemma [round2_of_float_scores]). *)
Definition round2 (q : Q) : Q := round2_float (to_double q).

(** [MIN_SCORE = 0.9]  -- minimum score to accept a match. *)
Definition MIN_SCORE : Q := 9 # 10.

(** The source weights of [find_match_in_level] ("boost score based on
    source"). *)
Definition source_weight (source : Source) : Q :=
  match source with
  | Title => 1
  | Location => 95 # 100
  | Details => 85 # 100
  | Description => 75 # 100
  end.

(** [source_priority] of [match_listing_with_texts.find_match]. *)
Definition source_priority (source : Source) : Q :=
  match source with
  | Location => 4
  | Title => 3
  | Details => 2
  | Description => 1
  end.

End Scores.

(* ================================================================== *)
(** ** find_match_in_level and find_best_match_in_level *)
(* ================================================================== *)

Section TextMatching.

Open Scope string_scope.

(** The [for alt in alt_names] loops: the first non-empty alternative name
    satisfying [test]. *)
Definition first_alt (test : string -> bool) (alts : list string) : option string :=
  List.find (fun alt => nonempty alt && test alt) alts.

(** The raw score of one entry against one text in [find_match_in_level],
    with the matched name: the body of the loop up to "boost score based
    on source".  [None] stands for [continue] and for [score = 0]. *)
Definition raw_match (text : string) (loc_info : LocInfo) : option (Q * string) :=
  let normalized_name := normalized loc_info in
  let name_no_prefix := no_prefix loc_info in
  let alts := alt_names loc_info in
  if negb (nonempty normalized_name) then None
  else if negb (contains normalized_name text)
          && negb (existsb (fun alt => nonempty alt && contains alt text) alts)
  then None
  else if word_search normalized_name text then Some (1, name loc_info)
  else if nonempty name_no_prefix && word_search name_no_prefix text
  then Some (95 # 100, name loc_info)
  else match first_alt (fun alt => word_search alt text) alts with
       | Some alt => Some (9 # 10, name loc_info ++ " (" ++ alt ++ ")")
       | None => None
       end.

(** The update shared by the matching loops:
    [if score > best_score: best_score = score; best = candidate]. *)
Definition keep_best {B : Type} (acc : option B * Q) (candidate : option (B * Q))
  : option B * Q :=
  match candidate with
  | Some (b, score) => if Qgtb score (snd acc) then (Some b, score) else acc
  | None => acc
  end.

(** What one entry contributes in [find_match_in_level]: the tuple
    [(loc_id, score, matched_name)] with the score weighted by the source. *)
Definition level_candidate (text : string) (source : Source) (entry : Z * LocInfo)
  : option (Z * Q * string * Q) :=
  let '(loc_id, loc_info) := entry in
  match raw_match text loc_info with
  | Some (raw, matched_name) =>
      let score := (raw * source_weight source)%Q in
      Some (loc_id, score, matched_name, score)
  | None => None
  end.

(** [find_match_in_level(text, level_data, source)] *)
Definition find_match_in_level (text : string) (level_data : LevelData)
    (source : Source) : option (Z * Q * string) :=
  if negb (nonempty text) then None
  else fst (fold_left (fun acc entry => keep_best acc (level_candidate text source entry))
                      level_data (None, 0%Q)).

(** [{k: v for k, v in level_data.items() if v.get('parent_id') == parent_filter}] *)
Definition filter_by_parent (parent_filter : option Z) (level_data : LevelData)
  : LevelData :=
  match parent_filter with
  | Some p => filter (fun kv => opt_id_eqb (parent_id (snd kv)) (Some p)) level_data
  | None => level_data
  end.

(** What one source contributes in [find_best_match_in_level]: the best
    entry of the level for that text, the location source boosted by 0.01. *)
Definition source_candidate (texts : Texts) (level_data : LevelData)
    (parent_filter : option Z) (source : Source)
  : option (Z * Q * string * Source * Q) :=
  let text := texts_get texts source in
  if negb (nonempty text) then None
  else
    let filtered_data := filter_by_parent parent_filter level_data in
    match find_match_in_level text filtered_data source with
    | Some (loc_id, score, matched_text) =>
        let score := if Source_eqb source Location then (score + (1 # 100))%Q else score in
        Some (loc_id, score, matched_text, source, score)
    | None => None
    end.

(** [find_best_match_in_level(texts, level_data, parent_filter)]; the
    sources are visited location first. *)
Definition find_best_match_in_level (texts : Texts) (level_data : LevelData)
    (parent_filter : option Z) : option (Z * Q * string * Source) :=
  fst (fold_left (fun acc source =>
                    keep_best acc (source_candidate texts level_data parent_filter source))
                 [Location; Title; Details; Description] (None, 0%Q)).

(** The raw score of one entry against one text in
    [match_listing_with_texts.find_match]. *)
Definition raw_match_texts (text : string) (info : LocInfo) : option (Q * string) :=
  let search_name := normalized info in
  let no_pref := no_prefix info in
  let alts := alt_names info in
  let all_variants := filter nonempty (search_name :: no_pref :: alts) in
  if negb (existsb (fun v => nonempty v && word_search v text) all_variants) then None
  else if word_search search_name text then Some (1, name info)
  else if nonempty no_pref && word_search no_pref text
  then Some (95 # 100, name info ++ " (via " ++ no_pref ++ ")")
  else match first_alt (fun alt => word_search alt text) alts with
       | Some alt => Some (9 # 10, name info ++ " (" ++ alt ++ ")")
       | None => None
       end.

(** What one entry contributes for one text in [find_match]: the tuple
    [(loc_id, score, matched_name, source)] with the raw score, ranked by
    the score adjusted with the source priority. *)
Definition texts_candidate (loc_id : Z) (info : LocInfo) (item : Source * string)
  : option (Z * Q * string * Source * Q) :=
  let '(source, text) := item in
  if negb (nonempty text) then None
  else match raw_match_texts text info with
       | Some (score, matched_name) =>
           let priority := (source_priority source * (1 # 1000))%Q in
           let adjusted := (score + priority)%Q in
           Some (loc_id, score, matched_name, source, adjusted)
       | None => None
       end.

(** [if parent_filter and info.get('parent_id') != parent_filter: continue] *)
Definition skipped_by_parent (parent_filter : option Z) (info : LocInfo) : bool :=
  truthy_id parent_filter && negb (opt_id_eqb (parent_id info) parent_filter).

(** One iteration of the outer loop of [find_match]: the inner loop over
    [texts.items()] for one entry. *)
Definition find_match_entry (texts : Texts) (parent_filter : option Z)
    (acc : option (Z * Q * string * Source) * Q) (entry : Z * LocInfo)
  : option (Z * Q * string * Source) * Q :=
  let '(loc_id, info) := entry in
  if skipped_by_parent parent_filter info then acc
  else fold_left (fun acc item => keep_best acc (texts_candidate loc_id info item))
                 (texts_items texts) acc.

(** [find_match(level_data, parent_filter)] of [match_listing_with_texts];
    it returns the raw score, the adjusted one only ranks. *)
Definition find_match (texts : Texts) (level_data : LevelData)
    (parent_filter : option Z) : option (Z * Q * string * Source) :=
  fst (fold_left (find_match_entry texts parent_filter) level_data (None, 0%Q)).

End TextMatching.

(* ================================================================== *)
(** ** get_parent_chain *)
(* ================================================================== *)

Definition empty_chain : Chain := mkChain None None None None.

(** [result[f'locGroup{current_level}Id'] = current_id] *)
Definition chain_set (level : Level) (v : Z) (c : Chain) : Chain :=
  match level with
  | L2 => mkChain (Some v) (chain3 c) (chain4 c) (chain5 c)
  | L3 => mkChain (chain2 c) (Some v) (chain4 c) (chain5 c)
  | L4 => mkChain (chain2 c) (chain3 c) (Some v) (chain5 c)
  | L5 => mkChain (chain2 c) (chain3 c) (chain4 c) (Some v)
  end.

(** The levels strictly above a level, bottom up. *)
Definition levels_above (level : Level) : list Level :=
  match level with
  | L2 => [L3; L4; L5]
  | L3 => [L4; L5]
  | L4 => [L5]
  | L5 => []
  end.

(** The [while current_level <= 5] loop: record the id of the current
    level, then follow [parent_id] one level up; stop at level 5, at an
    unknown id or at a missing (None or 0) parent. *)
Fixpoint climb (above : list Level) (current_id : Z) (current_level : Level)
    (groups : Groups) (result : Chain) : Chain :=
  let result := chain_set current_level current_id result in
  match above with
  | [] => result
  | next :: above' =>
      match lookup current_id (groups_get groups current_level) with
      | Some info =>
          match parent_id info with
          | Some parent =>
              if (parent =? 0)%Z then result
              else climb above' parent next groups result
          | None => result
          end
      | None => result
      end
  end.

(** [get_parent_chain(loc_id, level, groups)] *)
Definition get_parent_chain (loc_id : Z) (level : Level) (groups : Groups) : Chain :=
  climb (levels_above level) loc_id level groups empty_chain.

(** [result.update(chain)] *)
Definition update_chain (result : MatchResult) (chain : Chain) : MatchResult :=
  mkResult (externalId result) (chain2 chain) (chain3 chain) (chain4 chain)
           (chain5 chain) (matchLevel result) (matchScore result)
           (matchSource result) (matchedText result).

(* ================================================================== *)
(** ** haversine_distance *)
(* ================================================================== *)

Section Haversine.

Open Scope R_scope.

(** [math.radians] *)
Definition radians (deg : R) : R := deg * (PI / 180).

(** [haversine_distance(lat1, lon1, lat2, lon2)], in km. *)
Definition haversine_distance (lat1 lon1 lat2 lon2 : R) : R :=
  let R_earth := 6371 in
  let dlat := radians (lat2 - lat1) in
  let dlon := radians (lon2 - lon1) in
  let a := sin (dlat / 2) ^ 2
           + cos (radians lat1) * cos (radians lat2) * sin (dlon / 2) ^ 2 in
  R_earth * 2 * asin (sqrt a).

(** [a < b] and [a <= b] on distances, as booleans. *)
Definition Rltb (a b : R) : bool := if Rlt_dec a b then true else false.
Definition Rleb (a b : R) : bool := if Rle_dec a b then true else false.

(** Round half to even on a real number. *)
Definition round_half_even_R (x : R) : Z :=
  let f := Int_part x in
  let r := x - IZR f in
  if Rltb r (1 / 2) then f
  else if Rltb (1 / 2) r then (f + 1)%Z
  else if Z.even f then f else (f + 1)%Z.

(** [round(x, 2)] of a real score, as an exact decimal. *)
Definition round2R (x : R) : Q := Qred (round_half_even_R (x * 100) # 100).

End Haversine.

(* ================================================================== *)
(** ** Neighbourhood discovery: candidate extraction *)
(* ================================================================== *)

Section Discovery.

Open Scope string_scope.

Definition COLONIA_PREFIXES : list string :=
  [ "residencial "; "urbanizacion "; "urbanizaci√≥n "; "lotificacion ";
    "lotificaci√≥n "; "comunidad "; "condominio "; "reparto "; "colonia ";
    "barrio "; "cant√≥n "; "canton "; "caserio "; "caser√≠o ";
    "parcelacion "; "parcelaci√≥n ";
    "res. "; "col. "; "urb. "; "bo. "; "cond. " ].

Definition MIN_COLONIA_NAME_LEN : nat := 4.
Definition MAX_COLONIA_NAME_WORDS : nat := 5.
Definition L2_DEDUP_RADIUS_KM : R := 1%R.

Definition _STOP_WORDS : list string :=
  [ "en"; "venta"; "alquiler"; "renta"; "precio"; "usd"; "dolares";
    "recamara"; "recamaras"; "habitacion"; "habitaciones"; "bano"; "banos";
    "dormitorio"; "dormitorios"; "garage"; "garaje"; "cochera";
    "casa"; "apartamento"; "terreno"; "local"; "bodega"; "oficina";
    "lote"; "lotes"; "pasaje"; "poligono"; "manzana"; "bloque"; "block";
    "edif"; "edificio"; "cluster"; "torre";
    "metros"; "mt2"; "m2"; "v2"; "varas";
    "distrito"; "carretera"; "carreterea"; "km"; "calle"; "avenida";
    "boulevard"; "bulevar"; "autopista";
    "por"; "con"; "cerca"; "frente"; "atras"; "junto"; "sobre";
    "minutos";
    "nueva"; "nuevo"; "exclusiva"; "exclusivo"; "hermosa"; "hermoso";
    "amplia"; "amplio"; "moderna"; "moderno"; "bonita"; "bonito";
    "porcion"; "jurisdiccion"; "etapa"; "fase";
    "primera"; "segunda"; "tercera"; "cuarta"; "quinta";
    "uno"; "dos"; "tres"; "cuatro"; "cinco";
    "i"; "ii"; "iii"; "iv"; "v"; "vi";
    "nor"; "poniente"; "oriente";
    "residencial"; "urbanizacion"; "lotificacion"; "comunidad"; "condominio";
    "reparto"; "colonia"; "barrio"; "canton"; "caserio"; "parcelacion";
    "comercial"; "industrial"; "recreativo" ].

Definition _INVALID_NAMES : list string :=
  [ "exclusiva"; "exclusivo"; "nueva"; "nuevo"; "hermosa"; "hermoso";
    "moderna"; "moderno"; "bonita"; "bonito"; "amplia"; "amplio";
    "grande"; "pequena"; "privada"; "privado"; "comercial"; "recreativo";
    "hacienda" ].

Definition _TRAILING_FILLER : list string :=
  [ "la"; "el"; "los"; "las"; "de"; "del"; "y"; "e"; "a";
    "san"; "santa"; "nor"; "sur"; "oriente"; "poniente" ].

(** The names of one level that [_build_location_stop_names] collects. *)
Definition level_stop_names (level_data : LevelData) : list string :=
  flat_map
    (fun kv =>
       let info := snd kv in
       ((if nonempty (normalized info) && (3 <=? String.length (normalized info))%nat
         then [normalized info] else [])
        ++ (if nonempty (no_prefix info) && (3 <=? String.length (no_prefix info))%nat
            then [no_prefix info] else []))%list)
    level_data.

(** [_build_location_stop_names(groups)] with the module-level cache
    [_loc_stop_names_cache] passed in and out: the set is computed from
    levels 3, 4 and 5 once and reused afterwards. *)
Definition _build_location_stop_names (cache : option (list string)) (groups : Groups)
  : list string * option (list string) :=
  match cache with
  | Some stop_names => (stop_names, cache)
  | None =>
      let stop_names :=
        flat_map (fun level => level_stop_names (groups_get groups level)) [L3; L4; L5] in
      (stop_names, Some stop_names)
  end.

(** [while words and words[-1] in _TRAILING_FILLER: words = words[:-1]] *)
Fixpoint drop_leading_filler (rev_words : list string) : list string :=
  match rev_words with
  | [] => []
  | w :: rest => if mem w _TRAILING_FILLER then drop_leading_filler rest else rev_words
  end.

Definition strip_trailing_filler (words : list string) : list string :=
  rev (drop_leading_filler (rev words)).

(** [range(lo, hi)] *)
Definition range (lo hi : nat) : list nat := seq lo (hi - lo).

Section StripLocationNames.

Variable loc_stop_names : list string.

(** Pass 1 of [_strip_location_names]: the inner loop over window lengths
    at one start position. *)
Definition window_hit (words : list string) (start : nat) : bool :=
  existsb
    (fun window_len => mem (join (firstn window_len (skipn start words))) loc_stop_names)
    (range 1 (Nat.min 4 (List.length words - start + 1))).

Definition forward_cut (words : list string) : list string :=
  let best_cut :=
    match List.find (window_hit words) (range 2 (List.length words)) with
    | Some start => start
    | None => List.length words
    end in
  firstn best_cut words.

(** Pass 2, the [for suffix_len] loop: drop the shortest trailing run of
    one to three words (never all of them) that is a location name. *)
Definition strip_suffix_name (words : list string) : list string * bool :=
  let n := List.length words in
  match List.find (fun suffix_len => mem (join (skipn (n - suffix_len) words)) loc_stop_names)
                  (range 1 (Nat.min 4 n)) with
  | Some suffix_len => (firstn (n - suffix_len) words, true)
  | None => (words, false)
  end.

(** Pass 2, the [while changed and len(words) > 1] loop.  A round that
    changes the list shortens it, so [length words] rounds are enough. *)
Fixpoint backward_strip (fuel : nat) (words : list string) : list string :=
  match fuel with
  | O => words
  | S fuel' =>
      if (1 <? List.length words)%nat then
        let '(words1, changed1) := strip_suffix_name words in
        let words2 := strip_trailing_filler words1 in
        let changed2 := negb (List.length words2 =? List.length words1)%nat in
        if changed1 || changed2 then backward_strip fuel' words2 else words2
      else words
  end.

(** [_strip_location_names(words)] *)
Definition _strip_location_names (words : list string) : list string :=
  match loc_stop_names with
  | [] => words
  | _ =>
      if (List.length words <=? 1)%nat then words
      else
        let words := forward_cut words in
        backward_strip (S (List.length words)) words
  end.

End StripLocationNames.

(** The scanner state of [re.finditer(r'[a-z]+(?:\d+)?', after)]. *)
Inductive ScanState :=
| Idle
| InLetters (cur : string)
| InDigits (cur : string).

Definition push (cur : string) (c : ascii) : string := cur ++ String c EmptyString.

Fixpoint scan (state : ScanState) (s : string) : list string :=
  match s with
  | EmptyString =>
      match state with
      | Idle => []
      | InLetters cur | InDigits cur => [cur]
      end
  | String c s' =>
      match state with
      | Idle =>
          if is_lower c then scan (InLetters (push EmptyString c)) s'
          else scan Idle s'
      | InLetters cur =>
          if is_lower c then scan (InLetters (push cur c)) s'
          else if is_digit c then scan (InDigits (push cur c)) s'
          else cur :: scan Idle s'
      | InDigits cur =>
          if is_digit c then scan (InDigits (push cur c)) s'
          else if is_lower c then cur :: scan (InLetters (push EmptyString c)) s'
          else cur :: scan Idle s'
      end
  end.

(** All matches of the word pattern, left to right. *)
Definition finditer_words (after : string) : list string := scan Idle after.

(** The collecting loop of [_find_in_text]: stop at a stop word, at a bare
    number after the first word, or at the cap plus lookahead. *)
Fixpoint collect_words (matches : list string) (words : list string) : list string :=
  match matches with
  | [] => words
  | w :: rest =>
      if mem w _STOP_WORDS then words
      else if isdigit w && (0 <? List.length words)%nat then words
      else
        let words := (words ++ [w])%list in
        if (MAX_COLONIA_NAME_WORDS + 4 <=? List.length words)%nat then words
        else collect_words rest words
  end.

(** The title-casing of the display name: Spanish function words stay
    lowercase. *)
Definition display_word (w : string) : string :=
  if mem w ["de"; "del"; "la"; "las"; "los"; "el"; "y"] then w else capitalize w.

(** The body of the [for prefix in COLONIA_PREFIXES] loop of
    [_find_in_text]; [None] stands for [continue]. *)
Definition candidate_for_prefix (loc_stop_names : list string) (text : string)
    (source : Source) (prefix : string) : option (string * string * Source) :=
  match find prefix text with
  | None => None
  | Some idx =>
      let after := drop (idx + String.length prefix) text in
      let words := collect_words (finditer_words after) [] in
      match words with
      | [] => None
      | _ =>
          let words := _strip_location_names loc_stop_names words in
          match words with
          | [] => None
          | _ =>
              let words := firstn MAX_COLONIA_NAME_WORDS words in
              let words := strip_trailing_filler words in
              match words with
              | [] => None
              | _ =>
                  let raw_name := strip (join words) in
                  if (String.length raw_name <? MIN_COLONIA_NAME_LEN)%nat then None
                  else
                    let content_words :=
                      filter (fun w => negb (mem w _TRAILING_FILLER)) words in
                    match content_words with
                    | [] => None
                    | _ =>
                        if forallb (fun w => mem w _INVALID_NAMES) content_words then None
                        else
                          let display := strip (strip prefix ++ " " ++ raw_name) in
                          let display := join (map display_word (split display)) in
                          Some (display, normalize_text display, source)
                    end
              end
          end
      end
  end.

(** The first [Some] of a function over a list: a [for] loop that returns
    at the first hit. *)
Fixpoint first_some {A B : Type} (f : A -> option B) (l : list A) : option B :=
  match l with
  | [] => None
  | x :: rest => match f x with Some y => Some y | None => first_some f rest end
  end.

(** [_find_in_text(text, source)] *)
Definition _find_in_text (loc_stop_names : list string) (text : string)
    (source : Source) : option (string * string * Source) :=
  if negb (nonempty text) then None
  else first_some (candidate_for_prefix loc_stop_names text source) COLONIA_PREFIXES.

(** [extract_colonia_candidate(texts, groups)] given the stop names:
    high-confidence sources first, then low-confidence ones. *)
Definition extract_with (loc_stop_names : list string) (texts : Texts)
  : option (string * string * Source) :=
  first_some (fun source => _find_in_text loc_stop_names (texts_get texts source) source)
             ([Title; Location] ++ [Details; Description])%list.

(** [extract_colonia_candidate(texts, groups)], threading the cache. *)
Definition extract_colonia_candidate (texts : Texts) (groups : Groups)
    (cache : option (list string))
  : option (string * string * Source) * option (list string) :=
  let '(loc_stop_names, cache) := _build_location_stop_names cache groups in
  (extract_with loc_stop_names texts, cache).

End Discovery.

(* ================================================================== *)
(** ** The external store and the mutable state *)
(* ================================================================== *)

(** The payload of a POST to [sv_loc_group2]. *)
Record L2Row := mkL2Row {
  row_id : Z;
  row_loc_name : string;
  row_loc_name_search : string;
  row_parent_loc_group : Z;
  row_latitude : R;
  row_longitude : R
}.

(** The payload of a POST to [unmatched_locations] (status 'l2_candidate'). *)
Record StagingRow := mkStagingRow {
  staged_external_id : Z;
  staged_l2_name : string;
  staged_l2_normalized : string;
  staged_latitude : R;
  staged_longitude : R;
  staged_parent_l3_id : Z;
  staged_extracted_from : Source
}.

Inductive Request :=
| PostLocGroup2 (row : L2Row)
| PostUnmatched (row : StagingRow).

(** What a POST can come back with: 200/201 with the id of the returned
    representation (if it has one), 409, or anything else (another status,
    a malformed body or an exception). *)
Inductive Response :=
| Created (returned_id : option Z)
| Conflict
| Failed.

(** The state a listing is matched in: the in-memory hierarchy (shared and
    updated in place), the module-level stop-name cache, the store (its
    answer to a request given the requests made so far) and the log of
    requests made. *)
Record World := mkWorld {
  w_groups : Groups;
  w_cache : option (list string);
  w_store : list Request -> Request -> Response;
  w_log : list Request
}.

Definition set_groups (w : World) (groups : Groups) : World :=
  mkWorld groups (w_cache w) (w_store w) (w_log w).

Definition set_cache (w : World) (cache : option (list string)) : World :=
  mkWorld (w_groups w) cache (w_store w) (w_log w).

(** [requests.post(...)]: ask the store, record the request. *)
Definition post (request : Request) (w : World) : Response * World :=
  (w_store w (w_log w) request,
   mkWorld (w_groups w) (w_cache w) (w_store w) (w_log w ++ [request])).

(* ================================================================== *)
(** ** Duplicate check, insertion and staging *)
(* ================================================================== *)

Section Insertion.

Open Scope string_scope.

(** The test of one entry in [check_l2_duplicate]. *)
Definition is_duplicate_of (candidate_normalized candidate_stripped : string)
    (lat lng : R) (l3_id : Z) (info : LocInfo) : bool :=
  if negb (opt_id_eqb (parent_id info) (Some l3_id)) then false
  else
    let existing_normalized := normalized info in
    let existing_stripped := no_prefix info in
    if String.eqb candidate_normalized existing_normalized
       || String.eqb candidate_stripped existing_stripped
       || String.eqb candidate_normalized existing_stripped
       || String.eqb candidate_stripped existing_normalized
    then true
    else match latitude info, longitude info with
         | Some l2_lat, Some l2_lng =>
             Rltb (haversine_distance lat lng l2_lat l2_lng) L2_DEDUP_RADIUS_KM
         | _, _ => false
         end.

(** [check_l2_duplicate(candidate_normalized, lat, lng, l3_id, groups)] *)
Definition check_l2_duplicate (candidate_normalized : string) (lat lng : R)
    (l3_id : Z) (groups : Groups) : option Z :=
  let l2_data := groups_get groups L2 in
  let candidate_stripped := remove_location_prefixes candidate_normalized in
  option_map fst
    (List.find (fun kv => is_duplicate_of candidate_normalized candidate_stripped
                                          lat lng l3_id (snd kv))
               l2_data).

(** [max(keys, default=0)] *)
Definition max_key (level_data : LevelData) : Z :=
  match map fst level_data with
  | [] => 0%Z
  | k :: ks => fold_left Z.max ks k
  end.

(** [_next_l2_id(groups)] *)
Definition _next_l2_id (groups : Groups) : Z :=
  (max_key (groups_get groups L2) + 1)%Z.

(** The entry that [insert_auto_l2] adds to the in-memory level 2. *)
Definition auto_entry (actual_id : Z) (display_name normalized_name : string)
    (lat lng : R) (l3_id : Z) : LocInfo :=
  mkLocInfo actual_id display_name normalized_name
            (remove_location_prefixes display_name) [] (Some l3_id)
            (Some lat) (Some lng).

(** [groups.setdefault(2, {})[actual_id] = entry] *)
Definition add_l2 (actual_id : Z) (entry : LocInfo) (groups : Groups) : Groups :=
  mkGroups (assign actual_id entry (level2 groups)) (level3 groups)
           (level4 groups) (level5 groups).

(** The [for attempt in range(max_retries)] loop of [insert_auto_l2]. *)
Fixpoint insert_attempts (attempts : nat) (new_id : Z)
    (display_name normalized_name : string) (lat lng : R) (l3_id : Z)
    (w : World) : option Z * World :=
  match attempts with
  | O => (None, w)
  | S attempts' =>
      let payload := mkL2Row new_id display_name normalized_name l3_id lat lng in
      let '(resp, w) := post (PostLocGroup2 payload) w in
      match resp with
      | Created returned_id =>
          let actual_id := match returned_id with Some i => i | None => new_id end in
          let entry := auto_entry actual_id display_name normalized_name lat lng l3_id in
          (Some actual_id, set_groups w (add_l2 actual_id entry (w_groups w)))
      | Conflict =>
          insert_attempts attempts' (new_id + 1)%Z display_name normalized_name
                          lat lng l3_id w
      | Failed => (None, w)
      end
  end.

(** [insert_auto_l2(display_name, normalized_name, lat, lng, l3_id, groups)] *)
Definition insert_auto_l2 (display_name normalized_name : string) (lat lng : R)
    (l3_id : Z) (w : World) : option Z * World :=
  let max_retries := 3%nat in
  let new_id := _next_l2_id (w_groups w) in
  insert_attempts max_retries new_id display_name normalized_name lat lng l3_id w.

(** [stage_l2_candidate(...)]: True on 200/201. *)
Definition stage_l2_candidate (display_name normalized_name : string) (lat lng : R)
    (l3_id : Z) (source_field : Source) (external_id : Z) (w : World)
  : bool * World :=
  let payload := mkStagingRow external_id display_name normalized_name lat lng
                              l3_id source_field in
  let '(resp, w) := post (PostUnmatched payload) w in
  match resp with
  | Created _ => (true, w)
  | _ => (false, w)
  end.

(** [try_create_l2_from_listing(texts, lat, lng, l3_id, groups, external_id)] *)
Definition try_create_l2_from_listing (texts : Texts) (lat lng : R) (l3_id : Z)
    (external_id : option Z) (w : World) : option Z * World :=
  let '(candidate, cache) := extract_colonia_candidate texts (w_groups w) (w_cache w) in
  let w := set_cache w cache in
  match candidate with
  | None => (None, w)
  | Some (display_name, normalized_name, source_field) =>
      let existing_id := check_l2_duplicate normalized_name lat lng l3_id (w_groups w) in
      if truthy_id existing_id then (existing_id, w)
      else
        match source_field with
        | Title | Location =>
            insert_auto_l2 display_name normalized_name lat lng l3_id w
        | Details | Description =>
            match external_id with
            | Some ext =>
                if negb (ext =? 0)%Z
                then (None, snd (stage_l2_candidate display_name normalized_name
                                                    lat lng l3_id source_field ext w))
                else (None, w)
            | None => (None, w)
            end
        end
  end.

End Insertion.

(* ================================================================== *)
(** ** match_by_coordinates *)
(* ================================================================== *)

Section CoordinateMatching.

Open Scope string_scope.

(** One iteration of the Tier 1 loop.  [None] is the initial state
    ([best_l2_id = None], [best_l2_dist = inf]). *)
Definition nearest_step (lat lng : R) (best : option (Z * R * string))
    (entry : Z * LocInfo) : option (Z * R * string) :=
  let '(loc_id, info) := entry in
  match latitude info, longitude info with
  | Some l2_lat, Some l2_lng =>
      let dist := haversine_distance lat lng l2_lat l2_lng in
      match best with
      | Some (_, best_l2_dist, _) =>
          if Rltb dist best_l2_dist then Some (loc_id, dist, name info) else best
      | None => Some (loc_id, dist, name info)
      end
  | _, _ => best
  end.

(** Tier 1: the nearest level-2 entry with coordinates. *)
Definition nearest_l2 (lat lng : R) (l2_data : LevelData) : option (Z * R * string) :=
  fold_left (nearest_step lat lng) l2_data None.

(** [l3_centroids]: parent id -> (lat_sum, lng_sum, count), in insertion
    order. *)
Definition Centroids := list (Z * (R * R * nat)).

Fixpoint centroid_add (parent_l3 : Z) (l2_lat l2_lng : R) (cs : Centroids) : Centroids :=
  match cs with
  | [] => [(parent_l3, ((0 + l2_lat)%R, (0 + l2_lng)%R, 1%nat))]
  | (k, (lat_sum, lng_sum, count)) :: rest =>
      if (k =? parent_l3)%Z
      then (k, ((lat_sum + l2_lat)%R, (lng_sum + l2_lng)%R, S count)) :: rest
      else (k, (lat_sum, lng_sum, count)) :: centroid_add parent_l3 l2_lat l2_lng rest
  end.

Definition centroid_step (cs : Centroids) (entry : Z * LocInfo) : Centroids :=
  let info := snd entry in
  match latitude info, longitude info, parent_id info with
  | Some l2_lat, Some l2_lng, Some parent_l3 => centroid_add parent_l3 l2_lat l2_lng cs
  | _, _, _ => cs
  end.

Definition l3_centroids (l2_data : LevelData) : Centroids :=
  fold_left centroid_step l2_data [].

(** [groups.get(3, {}).get(l3_id, {}).get('name', '')] *)
Definition name_of (level_data : LevelData) (loc_id : Z) : string :=
  match lookup loc_id level_data with
  | Some info => name info
  | None => ""
  end.

(** One iteration of the Tier 2 loop over the centroids. *)
Definition nearest_centroid_step (lat lng : R) (groups : Groups)
    (best : option (Z * R * string)) (c : Z * (R * R * nat))
  : option (Z * R * string) :=
  let '(l3_id, (lat_sum, lng_sum, count)) := c in
  if (count =? 0)%nat then best
  else
    let c_lat := (lat_sum / INR count)%R in
    let c_lng := (lng_sum / INR count)%R in
    let dist := haversine_distance lat lng c_lat c_lng in
    let hit := Some (l3_id, dist, name_of (groups_get groups L3) l3_id) in
    match best with
    | Some (_, best_l3_dist, _) => if Rltb dist best_l3_dist then hit else best
    | None => hit
    end.

Definition nearest_l3 (lat lng : R) (groups : Groups) : option (Z * R * string) :=
  fold_left (nearest_centroid_step lat lng groups)
            (l3_centroids (groups_get groups L2)) None.

(** The result dict of a coordinate match before [result.update(chain)]. *)
Definition coordinate_result (level : Level) (score : R) (evidence : MatchedText)
  : MatchResult :=
  mkResult None None None None None (Some level) (Some (round2R score))
           (Some Coordinates) (Some evidence).

(** The upgrade of a result after a successful auto-creation:
    [result['locGroup2Id'] = auto_l2_id] and the three fields next to it. *)
Definition upgrade_auto_l2 (result : MatchResult) (auto_l2_id : Z)
    (source : MatchSource) (groups : Groups) (context : string) : MatchResult :=
  let auto_name := name_of (groups_get groups L2) auto_l2_id in
  mkResult (externalId result) (Some auto_l2_id) (locGroup3Id result)
           (locGroup4Id result) (locGroup5Id result) (Some L2) (matchScore result)
           (Some source)
           (Some (Evidence (take 255 (auto_name ++ " (auto, " ++ context ++ ")")))).

(** [match_by_coordinates(lat, lng, groups, max_l2_km, max_l3_km, texts,
    external_id)] *)
Definition match_by_coordinates (lat lng : R) (max_l2_km max_l3_km : R)
    (texts : option Texts) (external_id : option Z) (w : World)
  : option MatchResult * World :=
  if (if Req_dec_T lat 0%R then true else false)
     || (if Req_dec_T lng 0%R then true else false)
  then (None, w)
  else
    let groups := w_groups w in
    let l2_data := groups_get groups L2 in
    match l2_data with
    | [] => (None, w)
    | _ =>
        let tier1 :=
          match nearest_l2 lat lng l2_data with
          | Some (best_l2_id, best_l2_dist, best_l2_name) =>
              if Rleb best_l2_dist max_l2_km
              then Some (update_chain
                           (coordinate_result L2
                              (Rmax (1 / 2) (1 - best_l2_dist / max_l2_km))
                              (NameAndDistance best_l2_name best_l2_dist))
                           (get_parent_chain best_l2_id L2 groups))
              else None
          | None => None
          end in
        match tier1 with
        | Some result => (Some result, w)
        | None =>
            match nearest_l3 lat lng groups with
            | Some (best_l3_id, best_l3_dist, best_l3_name) =>
                if Rleb best_l3_dist max_l3_km then
                  let result :=
                    update_chain
                      (coordinate_result L3
                         (Rmax (4 / 10) (9 / 10 - best_l3_dist / max_l3_km))
                         (NameAndDistance best_l3_name best_l3_dist))
                      (get_parent_chain best_l3_id L3 groups) in
                  match texts with
                  | Some texts =>
                      let '(auto_l2_id, w) :=
                        try_create_l2_from_listing texts lat lng best_l3_id external_id w in
                      match auto_l2_id with
                      | Some auto =>
                          if negb (auto =? 0)%Z
                          then (Some (upgrade_auto_l2 result auto CoordinatesAutoL2
                                                      (w_groups w) best_l3_name), w)
                          else (Some result, w)
                      | None => (Some result, w)
                      end
                  | None => (Some result, w)
                  end
                else (None, w)
            | None => (None, w)
            end
        end
    end.

End CoordinateMatching.

(* ================================================================== *)
(** ** match_listing and match_listing_with_texts *)
(* ================================================================== *)

(** The [location] dict of a stored listing. *)
Record LocationData := mkLocationData {
  municipio_detectado : string;
  direccion : string;
  departamento : string;
  zona : string;
  loc_latitude : option R;
  loc_longitude : option R
}.

(** A row of [scrapped_data] as [match_listing] reads it; a missing or
    null text is the empty string. *)
Record Listing := mkListing {
  external_id : option Z;
  listing_title : string;
  listing_location : LocationData;
  listing_details : string;
  listing_description : string
}.

Section Orchestration.

Open Scope string_scope.

(** [extract_searchable_text(listing)] *)
Definition extract_searchable_text (listing : Listing) : Texts :=
  let loc := listing_location listing in
  let loc_parts :=
    map normalize_text
        (filter nonempty [municipio_detectado loc; direccion loc; departamento loc; zona loc]) in
  mkTexts (normalize_text (listing_title listing))
          (join loc_parts)
          (normalize_text (listing_details listing))
          (normalize_text (listing_description listing)).

(** [lat and lng]: both coordinates present and non-zero. *)
Definition usable_coordinates (lat lng : option R) : option (R * R) :=
  match lat, lng with
  | Some la, Some lo =>
      if truthy_num lat && truthy_num lng then Some (la, lo) else None
  | _, _ => None
  end.

(** The initial [result] dict: everything null but the listing id. *)
Definition empty_result (ext_id : option Z) : MatchResult :=
  mkResult ext_id None None None None None None None None.

(** [text[:255] if text else None] *)
Definition evidence (text : string) : option MatchedText :=
  if nonempty text then Some (Evidence (take 255 text)) else None.

(** The four assignments [matchLevel], [matchScore], [matchSource],
    [matchedText] after a text match. *)
Definition set_match (result : MatchResult) (level : Level) (score : Q)
    (source : Source) (text : option MatchedText) : MatchResult :=
  mkResult (externalId result) (locGroup2Id result) (locGroup3Id result)
           (locGroup4Id result) (locGroup5Id result) (Some level)
           (Some (round2 score)) (Some (FromText source)) text.

(** [result['locGroup2Id'] = l2_id] *)
Definition set_l2 (result : MatchResult) (l2_id : Z) : MatchResult :=
  mkResult (externalId result) (Some l2_id) (locGroup3Id result)
           (locGroup4Id result) (locGroup5Id result) (matchLevel result)
           (matchScore result) (matchSource result) (matchedText result).

(** [result['locGroup5Id'] = l5_id] *)
Definition set_l5 (result : MatchResult) (l5_id : Z) : MatchResult :=
  mkResult (externalId result) (locGroup2Id result) (locGroup3Id result)
           (locGroup4Id result) (Some l5_id) (matchLevel result)
           (matchScore result) (matchSource result) (matchedText result).

(** [id in ids] *)
Definition mem_id (x : Z) (ids : list Z) : bool := existsb (Z.eqb x) ids.

Definition parent_in (ids : list Z) (info : LocInfo) : bool :=
  match parent_id info with
  | Some p => mem_id p ids
  | None => false
  end.

(** [get_ids_under_department(level, dept_id)] (and its copy
    [get_ids_under_dept]). *)
Definition get_ids_under_department (groups : Groups) (level : Level) (dept_id : Z)
  : list Z :=
  let l4_ids :=
    map fst (filter (fun kv => opt_id_eqb (parent_id (snd kv)) (Some dept_id))
                    (groups_get groups L4)) in
  let l3_ids :=
    map fst (filter (fun kv => parent_in l4_ids (snd kv)) (groups_get groups L3)) in
  match level with
  | L4 => l4_ids
  | L3 => l3_ids
  | L2 => map fst (filter (fun kv => parent_in l3_ids (snd kv)) (groups_get groups L2))
  | L5 => []
  end.

(** A matcher of one level: [find_best_match_in_level] in [match_listing],
    [find_match] in [match_listing_with_texts]. *)
Definition Finder := Texts -> LevelData -> option Z -> option (Z * Q * string * Source).

(** "Try to get L2 within this L3": upgrade the result when a level-2
    entry under the municipality clears the threshold. *)
Definition try_l2_under (finder : Finder) (texts : Texts) (groups : Groups)
    (l3_id : Z) (result : MatchResult) : MatchResult :=
  match finder texts (groups_get groups L2) (Some l3_id) with
  | Some (l2_id, l2_score, l2_text, l2_source) =>
      if Qgeb l2_score MIN_SCORE
      then set_match (set_l2 result l2_id) L2 l2_score l2_source (evidence l2_text)
      else result
  | None => result
  end.

(** "If no L2 found but listing has coordinates, try auto-creating one". *)
Definition try_auto_l2 (texts : Texts) (lat lng : option R) (l3_id : Z)
    (l3_text : string) (ext_id : option Z) (result : MatchResult) (w : World)
  : MatchResult * World :=
  match locGroup2Id result, usable_coordinates lat lng with
  | None, Some (la, lo) =>
      let '(auto_l2_id, w) := try_create_l2_from_listing texts la lo l3_id ext_id w in
      match auto_l2_id with
      | Some auto =>
          if negb (auto =? 0)%Z
          then (upgrade_auto_l2 result auto TextAutoL2 (w_groups w) l3_text, w)
          else (result, w)
      | None => (result, w)
      end
  | _, _ => (result, w)
  end.

(** The disambiguation scan: the first municipality (in index order) whose
    normalized name properly contains the department name and occurs as
    whole words in a text field, with the first such field. *)
Definition disambiguation_hit (texts : Texts) (dept_name : string)
    (entry : Z * LocInfo) : option (Z * LocInfo * Source) :=
  let '(l3_id_check, l3_info) := entry in
  let l3_name := normalized l3_info in
  if contains dept_name l3_name && negb (String.eqb dept_name l3_name)
  then option_map (fun item => (l3_id_check, l3_info, fst item))
         (List.find (fun item => nonempty (snd item) && word_search l3_name (snd item))
                    (texts_items texts))
  else None.

Definition disambiguate (texts : Texts) (groups : Groups) (l5_id : Z)
  : option (Z * LocInfo * Source) :=
  let dept_name :=
    match lookup l5_id (groups_get groups L5) with
    | Some info => normalized info
    | None => ""
    end in
  if nonempty dept_name
  then first_some (disambiguation_hit texts dept_name) (groups_get groups L3)
  else None.

(** The result built when the disambiguation redirects to a municipality. *)
Definition disambiguated_result (finder : Finder) (texts : Texts) (groups : Groups)
    (result : MatchResult) (l5_score : Q) (hit : Z * LocInfo * Source) : MatchResult :=
  let '(l3_id_check, l3_info, src) := hit in
  let result := update_chain result (get_parent_chain l3_id_check L3 groups) in
  let result := set_match result L3 l5_score src
                          (Some (Evidence (take 255 (name l3_info)))) in
  try_l2_under finder texts groups l3_id_check result.

(** [{k: v for k, v in groups.get(level, {}).items() if k in valid_ids}] *)
Definition restrict_to (valid_ids : list Z) (level_data : LevelData) : LevelData :=
  filter (fun kv => mem_id (fst kv) valid_ids) level_data.

(** The state of the search of the lower levels in [match_listing]:
    [best_lower], [best_lower_level] (5 initially), [best_lower_score]. *)
Definition LowerState := (option (Z * Q * string * Source) * Level * Q)%type.

Definition lower_step (texts : Texts) (groups : Groups) (l5_id : Z)
    (st : LowerState) (level : Level) : LowerState :=
  let '(best_lower, best_lower_level, best_lower_score) := st in
  match get_ids_under_department groups level l5_id with
  | [] => st
  | valid_ids =>
      match restrict_to valid_ids (groups_get groups level) with
      | [] => st
      | filtered_data =>
          match find_best_match_in_level texts filtered_data None with
          | Some (loc_id, score, matched_text, source) =>
              if Qgeb score MIN_SCORE
                 && (level_number level <? level_number best_lower_level)%Z
              then (Some (loc_id, score, matched_text, source), level, score)
              else if Qgtb score best_lower_score && Level_eqb level best_lower_level
              then (Some (loc_id, score, matched_text, source), best_lower_level, score)
              else st
          | None => st
          end
      end
  end.

(** Step 3 of [match_listing]: no L5 and no L3, try L2 directly as last
    resort; [None] is "no match found". *)
Definition last_resort (texts : Texts) (groups : Groups) (result : MatchResult)
  : option MatchResult :=
  match find_best_match_in_level texts (groups_get groups L2) None with
  | Some (l2_id, l2_score, l2_text, l2_source) =>
      if Qgeb l2_score MIN_SCORE
      then Some (set_match (update_chain result (get_parent_chain l2_id L2 groups))
                           L2 l2_score l2_source (evidence l2_text))
      else None
  | None => None
  end.

(** Step 2 of [match_listing]: no L3 match, try L5 (department) with
    disambiguation, then the levels below the department; without an L5
    match go on to step 3. *)
Definition department_step (texts : Texts) (groups : Groups) (result : MatchResult)
  : option MatchResult :=
  match find_best_match_in_level texts (groups_get groups L5) None with
  | Some (l5_id, l5_score, l5_text, l5_source) =>
      match disambiguate texts groups l5_id with
      | Some hit =>
          Some (disambiguated_result find_best_match_in_level texts groups
                                     result l5_score hit)
      | None =>
          let result := set_match (set_l5 result l5_id) L5 l5_score l5_source
                                  (evidence l5_text) in
          let '(best_lower, best_lower_level, _) :=
            fold_left (lower_step texts groups l5_id) [L2; L3; L4] (None, L5, 0%Q) in
          match best_lower with
          | Some (loc_id, score, matched_text, source) =>
              Some (set_match
                      (update_chain result
                         (get_parent_chain loc_id best_lower_level groups))
                      best_lower_level score source (evidence matched_text))
          | None => Some result
          end
      end
  | None => last_resort texts groups result
  end.

(** The text part of [match_listing], from "Step 1: try L3 first" on. *)
Definition match_listing_text (texts : Texts) (lat lng : option R)
    (ext_id : option Z) (w : World) : option MatchResult * World :=
  let groups := w_groups w in
  let result := empty_result ext_id in
  match find_best_match_in_level texts (groups_get groups L3) None with
  | Some (l3_id, l3_score, l3_text, l3_source) =>
      if Qgeb l3_score MIN_SCORE then
        let result := update_chain result (get_parent_chain l3_id L3 groups) in
        let result := set_match result L3 l3_score l3_source (evidence l3_text) in
        let result := try_l2_under find_best_match_in_level texts groups l3_id result in
        let '(result, w) := try_auto_l2 texts lat lng l3_id l3_text ext_id result w in
        (Some result, w)
      else (department_step texts groups result, w)
  | None => (department_step texts groups result, w)
  end.

(** [coord_result['externalId'] = ext_id] *)
Definition set_external_id (r : MatchResult) (ext_id : option Z) : MatchResult :=
  mkResult ext_id (locGroup2Id r) (locGroup3Id r) (locGroup4Id r) (locGroup5Id r)
           (matchLevel r) (matchScore r) (matchSource r) (matchedText r).

(** The coordinate attempt that opens both orchestrators:
    [if lat and lng: coord_result = match_by_coordinates(...)]. *)
Definition coordinate_attempt (texts : Texts) (lat lng : option R)
    (ext_id : option Z) (w : World) : option MatchResult * World :=
  match usable_coordinates lat lng with
  | Some (la, lo) => match_by_coordinates la lo 3 20 (Some texts) ext_id w
  | None => (None, w)
  end.

(** [match_listing(listing, groups)] *)
Definition match_listing (listing : Listing) (w : World) : option MatchResult * World :=
  let lat := loc_latitude (listing_location listing) in
  let lng := loc_longitude (listing_location listing) in
  let texts := extract_searchable_text listing in
  let ext_id := external_id listing in
  let '(coord_result, w) := coordinate_attempt texts lat lng ext_id w in
  match coord_result with
  | Some r => (Some (set_external_id r ext_id), w)
  | None => match_listing_text texts lat lng ext_id w
  end.

End Orchestration.

Section OrchestrationWithTexts.

Open Scope string_scope.

(** [get_parent_chain_local(loc_id, level)]: the same loop as
    [get_parent_chain], closed over [groups]. *)
Definition get_parent_chain_local (groups : Groups) (loc_id : Z) (level : Level) : Chain :=
  climb (levels_above level) loc_id level groups empty_chain.

(** The state of the search of the lower levels in
    [match_listing_with_texts]: [best_lower] (with its level) and
    [best_lower_level]. *)
Definition LowerStateTexts := (option (Z * Level * Q * string * Source) * Level)%type.

Definition lower_step_texts (texts : Texts) (groups : Groups) (l5_id : Z)
    (st : LowerStateTexts) (level : Level) : LowerStateTexts :=
  let '(best_lower, best_lower_level) := st in
  match get_ids_under_department groups level l5_id with
  | [] => st
  | valid_ids =>
      let filtered := restrict_to valid_ids (groups_get groups level) in
      match find_match texts filtered None with
      | Some (loc_id, score, text, src) =>
          if Qgeb score MIN_SCORE
             && (level_number level <? level_number best_lower_level)%Z
          then (Some (loc_id, level, score, text, src), level)
          else st
      | None => st
      end
  end.

(** The result built when the disambiguation redirects to a municipality,
    with the local chain function. *)
Definition disambiguated_result_texts (texts : Texts) (groups : Groups)
    (result : MatchResult) (l5_score : Q) (hit : Z * LocInfo * Source) : MatchResult :=
  let '(l3_id_check, l3_info, src) := hit in
  let result := update_chain result (get_parent_chain_local groups l3_id_check L3) in
  let result := set_match result L3 l5_score src
                          (Some (Evidence (take 255 (name l3_info)))) in
  try_l2_under find_match texts groups l3_id_check result.

(** The last step of [match_listing_with_texts]: no L5 and no L3, try L2
    directly as last resort; the result stays all null without a match. *)
Definition last_resort_texts (texts : Texts) (groups : Groups) (result : MatchResult)
  : MatchResult :=
  match find_match texts (groups_get groups L2) None with
  | Some (l2_id, l2_score, l2_text, l2_source) =>
      if Qgeb l2_score MIN_SCORE
      then set_match (update_chain result (get_parent_chain_local groups l2_id L2))
                     L2 l2_score l2_source (evidence l2_text)
      else result
  | None => result
  end.

(** Step 2 of [match_listing_with_texts]: no L3 match, try L5 and search
    within it. *)
Definition department_step_texts (texts : Texts) (groups : Groups)
    (result : MatchResult) : MatchResult :=
  match find_match texts (groups_get groups L5) None with
  | Some (l5_id, l5_score, l5_text, l5_source) =>
      match disambiguate texts groups l5_id with
      | Some hit => disambiguated_result_texts texts groups result l5_score hit
      | None =>
          let result := set_match (set_l5 result l5_id) L5 l5_score l5_source
                                  (evidence l5_text) in
          let '(best_lower, _) :=
            fold_left (lower_step_texts texts groups l5_id) [L2; L3; L4] (None, L5) in
          match best_lower with
          | Some (loc_id, level, score, text, src) =>
              set_match
                (update_chain result (get_parent_chain_local groups loc_id level))
                level score src (evidence text)
          | None => result
          end
      end
  | None => last_resort_texts texts groups result
  end.

(** The text part of [match_listing_with_texts], from "Step 1: try L3
    globally first" on. *)
Definition match_texts_text (texts : Texts) (latitude longitude : option R)
    (external_id : option Z) (w : World) : MatchResult * World :=
  let groups := w_groups w in
  let result := empty_result None in
  match find_match texts (groups_get groups L3) None with
  | Some (l3_id, l3_score, l3_text, l3_source) =>
      if Qgeb l3_score MIN_SCORE then
        let result := update_chain result (get_parent_chain_local groups l3_id L3) in
        let result := set_match result L3 l3_score l3_source (evidence l3_text) in
        let result := try_l2_under find_match texts groups l3_id result in
        try_auto_l2 texts latitude longitude l3_id l3_text external_id result w
      else (department_step_texts texts groups result, w)
  | None => (department_step_texts texts groups result, w)
  end.

(** [match_listing_with_texts(texts, groups, latitude, longitude,
    external_id)] *)
Definition match_listing_with_texts (texts : Texts) (latitude longitude : option R)
    (external_id : option Z) (w : World) : MatchResult * World :=
  let '(coord_result, w) := coordinate_attempt texts latitude longitude external_id w in
  match coord_result with
  | Some r => (r, w)
  | None => match_texts_text texts latitude longitude external_id w
  end.

End OrchestrationWithTexts.


(* ================================================================== *)
(** ** load_location_groups: one row of a level *)
(* ================================================================== *)

(** A row of [sv_loc_group{level}] as the store returns it. *)
Record Row := mkRow {
  r_id : Z;
  r_loc_name : string;
  r_loc_name_search : string;
  r_details : string;
  r_parent_loc_group : option Z;
  r_cords : option (R * R)
}.

(** The entry that [load_location_groups] builds for a row: the search
    name normalized (the display name when it is empty), the display name
    without prefixes, the alternative names from [details], and the
    coordinates for level 2 when both are present and non-zero. *)
Definition load_entry (level : Level) (row : Row) : Z * LocInfo :=
  let name := r_loc_name row in
  let normalized_name :=
    normalize_text (if nonempty (r_loc_name_search row)
                    then r_loc_name_search row else name) in
  let alts :=
    if nonempty (r_details row)
    then [normalize_text (r_details row); remove_location_prefixes (r_details row)]
    else [] in
  let cords :=
    match level, r_cords row with
    | L2, Some (la, lo) =>
        if truthy_num (Some la) && truthy_num (Some lo) then Some (la, lo) else None
    | _, _ => None
    end in
  (r_id row,
   mkLocInfo (r_id row) name normalized_name (remove_location_prefixes name) alts
             (r_parent_loc_group row) (option_map fst cords) (option_map snd cords)).

Definition load_level (level : Level) (rows : list Row) : LevelData :=
  fold_left (fun level_data row =>
               let '(loc_id, entry) := load_entry level row in
               assign loc_id entry level_data)
            rows [].
(* ================================================================== *)
(** ** The callers: loading the hierarchy, matching in bulk, ingesting *)
(* ================================================================== *)

Section Callers.

Open Scope string_scope.

(** [PAGE_SIZE = 1000], [BATCH_SIZE = 100] *)
Definition PAGE_SIZE : nat := 1000.
Definition BATCH_SIZE : nat := 100.

(** The answer of the store to
    [supabase.table(name).select(...).range(first, last).execute()]: the
    rows of [result.data], or [None] when the request raises. *)
Definition RangeQuery (A : Type) : Type := nat -> nat -> option (list A).

(** How a pagination loop ends: with the rows collected, with the
    exception of a request, or not within the rounds it was given. *)
Inductive Fetched (A : Type) : Type :=
| Rows (all_rows : list A)
| Raised
| Unfinished.

Arguments Rows {A} all_rows.
Arguments Raised {A}.
Arguments Unfinished {A}.

(** The [while True] loop that pages through a table: ask for the range
    [offset .. offset + page_size - 1]; stop on an empty page, or after a
    page shorter than [page_size]; otherwise go on at
    [offset + page_size]. *)
Fixpoint fetch_all {A : Type} (rounds : nat) (query : RangeQuery A)
    (page_size offset : nat) (all_rows : list A) : Fetched A :=
  match rounds with
  | O => Unfinished
  | S rounds' =>
      match query offset (offset + page_size - 1)%nat with
      | None => Raised
      | Some [] => Rows all_rows
      | Some data =>
          let all_rows := (all_rows ++ data)%list in
          if (List.length data <? page_size)%nat then Rows all_rows
          else fetch_all rounds' query page_size (offset + page_size)%nat all_rows
      end
  end.

(** One level of [load_location_groups]: the [try] block pages through
    the table and indexes its rows; [except Exception] leaves the level
    empty. *)
Definition load_level_from (rounds : nat) (query : RangeQuery Row) (level : Level)
  : option LevelData :=
  match fetch_all rounds query PAGE_SIZE 0 [] with
  | Rows all_rows => Some (load_level level all_rows)
  | Raised => Some []
  | Unfinished => None
  end.

(** [load_location_groups(supabase)]: the levels 2, 3, 4 and 5 in turn;
    [None] when the rounds given were not enough. *)
Definition load_location_groups (rounds : nat) (supabase : Level -> RangeQuery Row)
  : option Groups :=
  match load_level_from rounds (supabase L2) L2,
        load_level_from rounds (supabase L3) L3,
        load_level_from rounds (supabase L4) L4,
        load_level_from rounds (supabase L5) L5 with
  | Some l2, Some l3, Some l4, Some l5 => Some (mkGroups l2 l3 l4 l5)
  | _, _, _, _ => None
  end.

(** [if limit > 0: listings = listings[:limit]] *)
Definition apply_limit {A : Type} (limit : Z) (listings : list A) : list A :=
  if (0 <? limit)%Z then firstn (Z.to_nat limit) listings else listings.

(** One iteration of the matching loop of [process_listings]:
    [match = match_listing(listing, groups)], appended to [matches], or
    the listing appended to [unmatched]. *)
Definition process_step (acc : list MatchResult * list Listing * World)
    (listing : Listing) : list MatchResult * list Listing * World :=
  let '(matches, unmatched, w) := acc in
  let '(m, w) := match_listing listing w in
  match m with
  | Some r => ((matches ++ [r])%list, unmatched, w)
  | None => (matches, (unmatched ++ [listing])%list, w)
  end.

(** The matching loop of [process_listings]. *)
Definition process_matches (listings : list Listing) (w : World)
  : list MatchResult * list Listing * World :=
  fold_left process_step listings ([], [], w).

(** [listing.get('external_id')] of a scraped listing: absent or [None],
    an integer, or a string (the scrapers hand over the id as they read
    it from the page). *)
Inductive RawId :=
| NoId
| IntId (i : Z)
| StrId (s : string).

(** Python truthiness of the id: [None], [0] and [''] are falsy. *)
Definition truthy_raw (ext_id : RawId) : bool :=
  match ext_id with
  | NoId => false
  | IntId i => negb (i =? 0)%Z
  | StrId s => nonempty s
  end.

(** A listing as the scraper hands it to [match_scraped_listings]: the
    location is raw text and the coordinates sit on the listing itself. *)
Record Scraped := mkScraped {
  scraped_external_id : RawId;
  scraped_title : string;
  scraped_location : string;
  scraped_details : string;
  scraped_description : string;
  scraped_latitude : option R;
  scraped_longitude : option R;
  scraped_url : string
}.

(** What [match_scraped_listings] keeps of a listing without a match. *)
Record UnmatchedScraped := mkUnmatchedScraped {
  unmatched_external_id : Z;
  unmatched_title : string;
  unmatched_location : string;
  unmatched_url : string
}.

(** The inline texts of [match_scraped_listings]. *)
Definition scraped_texts (listing : Scraped) : Texts :=
  mkTexts (normalize_text (scraped_title listing))
          (normalize_text (scraped_location listing))
          (normalize_text (scraped_details listing))
          (normalize_text (scraped_description listing)).

(** [any(v for k, v in match_result.items()
         if k.startswith('locGroup') and v is not None)] *)
Definition has_location (r : MatchResult) : bool :=
  truthy_id (locGroup2Id r) || truthy_id (locGroup3Id r)
  || truthy_id (locGroup4Id r) || truthy_id (locGroup5Id r).

(** The record appended to [unmatched]. *)
Definition unmatched_row (ext_id : Z) (listing : Scraped) : UnmatchedScraped :=
  mkUnmatchedScraped ext_id (take 60 (scraped_title listing))
                     (take 80 (scraped_location listing)) (scraped_url listing).

Section ScrapedListings.

(** Python's [int(s)] on a string: the integer it denotes, or [None]
    where it raises [ValueError]. *)
Variable int_of_str : string -> option Z.

(** [int(ext_id)]; on an integer it changes nothing. *)
Definition int_of (ext_id : RawId) : option Z :=
  match ext_id with
  | NoId => None
  | IntId i => Some i
  | StrId s => int_of_str s
  end.

(** The head of the loop body of [match_scraped_listings]:
    [if not ext_id: continue], then [int(ext_id)] in a [try] whose
    [except (ValueError, TypeError)] is [continue] as well.  [None]
    stands for [continue]. *)
Definition read_external_id (listing : Scraped) : option Z :=
  let ext_id := scraped_external_id listing in
  if negb (truthy_raw ext_id) then None else int_of ext_id.

(** One iteration of the matching loop of [match_scraped_listings]: a
    listing without a usable external id is skipped; a result with a
    location gets the listing's id and joins [matches]; otherwise a
    record of the listing joins [unmatched]. *)
Definition scraped_step (acc : list MatchResult * list UnmatchedScraped * World)
    (listing : Scraped) : list MatchResult * list UnmatchedScraped * World :=
  let '(matches, unmatched, w) := acc in
  match read_external_id listing with
  | None => acc
  | Some ext_id =>
      let texts := scraped_texts listing in
      let '(match_result, w) :=
        match_listing_with_texts texts (scraped_latitude listing)
                                 (scraped_longitude listing) (Some ext_id) w in
      if has_location match_result
      then ((matches ++ [set_external_id match_result (Some ext_id)])%list,
            unmatched, w)
      else (matches, (unmatched ++ [unmatched_row ext_id listing])%list, w)
  end.

(** The matching loop of [match_scraped_listings]. *)
Definition scraped_matches (listings : list Scraped) (w : World)
  : list MatchResult * list UnmatchedScraped * World :=
  fold_left scraped_step listings ([], [], w).

End ScrapedListings.

(** [range(0, n, step)] *)
Definition range_step (n step : nat) : list nat :=
  map (fun j => (j * step)%nat) (seq 0 ((n + step - 1) / step)).

(** [matches[i:j]] *)
Definition slice {A : Type} (i j : nat) (l : list A) : list A :=
  firstn (j - i) (skipn i l).

(** The batches of the ingest loops:
    [matches[i:i + BATCH_SIZE] for i in range(0, len(matches), BATCH_SIZE)]. *)
Definition batches {A : Type} (size : nat) (matches : list A) : list (list A) :=
  map (fun i => slice i (i + size) matches) (range_step (List.length matches) size).

(** One iteration of the ingest loop of [match_scraped_listings]: the
    store accepts the batch (200 or 201) or not (another status or an
    exception); [store] sees the batches posted before. *)
Definition ingest_step (store : list (list MatchResult) -> list MatchResult -> bool)
    (acc : list (list MatchResult) * nat * nat) (batch : list MatchResult)
  : list (list MatchResult) * nat * nat :=
  let '(posted, success, errors) := acc in
  if store posted batch
  then ((posted ++ [batch])%list, (success + List.length batch)%nat, errors)
  else ((posted ++ [batch])%list, success, (errors + List.length batch)%nat).

(** The end of [match_scraped_listings]: [(0, 0)] without matches,
    otherwise the counts [(success, errors)] of the ingest loop. *)
Definition ingest (store : list (list MatchResult) -> list MatchResult -> bool)
    (matches : list MatchResult) : nat * nat :=
  match matches with
  | [] => (0%nat, 0%nat)
  | _ =>
      let '(_, success, errors) :=
        fold_left (ingest_step store) (batches BATCH_SIZE matches) ([], 0%nat, 0%nat) in
      (success, errors)
  end.

(** [match_scraped_listings(listings)]: load the hierarchy, match every
    listing, ingest the matches; the answer is [(success, errors)].  The
    requests that record the unmatched listings in their tracking table
    between the two loops do not bear on the answer and are left out.
    [int_of_str] is Python's [int] on strings. *)
Definition match_scraped_listings (int_of_str : string -> option Z) (rounds : nat)
    (supabase : Level -> RangeQuery Row)
    (cache : option (list string))
    (l2_store : list Request -> Request -> Response)
    (ingest_store : list (list MatchResult) -> list MatchResult -> bool)
    (listings : list Scraped) : option (nat * nat) :=
  match load_location_groups rounds supabase with
  | Some groups =>
      let '(matches, _, _) :=
        scraped_matches int_of_str listings (mkWorld groups cache l2_store []) in
      Some (ingest ingest_store matches)
  | None => None
  end.

End Callers.

Arguments Rows {A} all_rows.
Arguments Raised {A}.
Arguments Unfinished {A}.

(* ================================================================== *)
(** ** Example data *)
(* ================================================================== *)

Section ExampleData.

Open Scope string_scope.
Open Scope Z_scope.

Definition row (i : Z) (loc_name : string) (parent : option Z) : Row :=
  mkRow i loc_name "" "" parent None.

(** Departments. *)
Definition ex_level5 : LevelData :=
  load_level L5 [ row 100 "La Libertad" None; row 101 "Cuscatlan" None ].

(** Districts. *)
Definition ex_level4 : LevelData :=
  load_level L4 [ row 10 "La Libertad Este" (Some 100);
                  row 11 "Cuscatlan Norte" (Some 101) ].

(** Municipalities. *)
Definition ex_level3 : LevelData :=
  load_level L3 [ row 1 "Antiguo Cuscatlan" (Some 10);
                  row 2 "Santa Tecla" (Some 10) ].

(** Two colonias as loaded from rows with coordinates; both sit on the
    same point. *)
Definition san_benito : LocInfo :=
  mkLocInfo 7 "Colonia San Benito" "colonia san benito" "san benito" []
            (Some 1) (Some 13.6969%R) (Some (-89.2341)%R).

Definition las_piletas : LocInfo :=
  mkLocInfo 8 "Residencial Las Piletas" "residencial las piletas" "piletas" []
            (Some 1) (Some 13.6969%R) (Some (-89.2341)%R).

Definition ex_level2 : LevelData := [ (7, san_benito); (8, las_piletas) ].

Definition ex_groups : Groups := mkGroups ex_level2 ex_level3 ex_level4 ex_level5.

(** The same hierarchy with no colonia loaded yet. *)
Definition ex_groups_no_l2 : Groups := mkGroups [] ex_level3 ex_level4 ex_level5.

(** A store that reports a duplicate key on every insert. *)
Definition always_conflict : list Request -> Request -> Response :=
  fun _ _ => Conflict.

(** A store that accepts every insert and echoes no id. *)
Definition always_created : list Request -> Request -> Response :=
  fun _ _ => Created None.

Definition ex_world (groups : Groups) (store : list Request -> Request -> Response)
  : World :=
  mkWorld groups None store [].

Definition no_location : LocationData := mkLocationData "" "" "" "" None None.

Definition text_listing (title details description : string) : Listing :=
  mkListing (Some 31885955) title no_location details description.

(** The municipality "Santa Tecla" of the example hierarchy. *)
Definition santa_tecla : LocInfo :=
  mkLocInfo 2 "Santa Tecla" "santa tecla" "santa tecla" [] (Some 10) None None.

(** Texts naming the municipality in the title and in the location. *)
Definition ex_texts_title_location : Texts :=
  mkTexts "casa en venta en santa tecla" "santa tecla" "" "".

(** A listing without coordinates that names the municipality only in its
    details. *)
Definition listing_details_only : Listing :=
  text_listing "Casa en venta" "Ubicada en Santa Tecla" "".

(** A listing without coordinates that names the municipality in its
    title and in the location dict. *)
Definition listing_title_and_location : Listing :=
  mkListing (Some 31885955) "Casa en venta en Santa Tecla"
            (mkLocationData "Santa Tecla" "" "" "" None None) "" "".

(** A listing whose latitude is exactly 0, naming a municipality and an
    unknown colonia in its title. *)
Definition listing_zero_latitude : Listing :=
  mkListing (Some 31885955)
            "Residencial Los Almendros, Santa Tecla, casa de 3 habitaciones"
            (mkLocationData "" "" "" "" (Some 0%R) (Some (-89.2341)%R)) "" "".

(** A listing without coordinates and without any hierarchy term. *)
Definition listing_no_signal : Listing :=
  text_listing "Casa en venta, 3 habitaciones" "" "Amplia casa con jardin".

(** The example hierarchy with the municipalities loaded in the other
    order. *)
Definition ex_level3_swapped : LevelData :=
  load_level L3 [ row 2 "Santa Tecla" (Some 10);
                  row 1 "Antiguo Cuscatlan" (Some 10) ].

Definition ex_groups_swapped : Groups :=
  mkGroups ex_level2 ex_level3_swapped ex_level4 ex_level5.

Definition antiguo_cuscatlan : LocInfo :=
  mkLocInfo 1 "Antiguo Cuscatlan" "antiguo cuscatlan" "antiguo cuscatlan" []
            (Some 10) None None.

Definition cuscatlan : LocInfo :=
  mkLocInfo 101 "Cuscatlan" "cuscatlan" "cuscatlan" [] None None None.

(** A listing whose title names two municipalities. *)
Definition listing_two_municipalities : Listing :=
  text_listing "Casa en Antiguo Cuscatlan, cerca de Santa Tecla" "" "".

(** The texts of the auto-creation scenario: an unknown "Residencial Los
    Almendros" in the title, in the municipality Santa Tecla. *)
Definition ex_texts_almendros : Texts :=
  mkTexts "residencial los almendros, santa tecla, casa de 3 habitaciones" "" "" "".

(** Coordinates of the scenario listing. *)
Definition ex_lat : R := 13.6769%R.
Definition ex_lng : R := (-89.2797)%R.

(** The point on which both example colonias sit. *)
Definition ex_point_lat : R := 13.6969%R.
Definition ex_point_lng : R := (-89.2341)%R.

End ExampleData.

(** ** Example data of the further properties *)

Section ExampleDataExtra.

Open Scope string_scope.
Open Scope Z_scope.

(** A store that reports a duplicate key on the first request it sees and
    accepts every later one, echoing no id. *)
Definition conflict_then_created : list Request -> Request -> Response :=
  fun history _ =>
    match history with
    | [] => Conflict
    | _ :: _ => Created None
    end.

(** The example world after "Residencial Los Almendros" was inserted under
    Santa Tecla at the second attempt. *)
Definition ex_world_after_insert : World :=
  mkWorld
    (mkGroups
       (ex_level2
        ++ [ (10, auto_entry 10 "Residencial Los Almendros" "residencial los almendros"
                             ex_lat ex_lng 2) ])%list
       ex_level3 ex_level4 ex_level5)
    None conflict_then_created
    [ PostLocGroup2 (mkL2Row 9 "Residencial Los Almendros" "residencial los almendros"
                             2 ex_lat ex_lng);
      PostLocGroup2 (mkL2Row 10 "Residencial Los Almendros" "residencial los almendros"
                             2 ex_lat ex_lng) ].

(** Texts that name an unknown "Residencial Los Almendros" in the
    description only. *)
Definition ex_texts_description_only : Texts :=
  mkTexts "casa en venta" "" "" "ubicada en residencial los almendros, santa tecla".

(** The stop names of the example hierarchy, as
    [_build_location_stop_names] collects them. *)
Definition ex_stop_names : list string :=
  [ "antiguo cuscatlan"; "antiguo cuscatlan"; "santa tecla"; "santa tecla";
    "la libertad este"; "libertad este"; "cuscatlan norte"; "cuscatlan norte";
    "la libertad"; "libertad"; "cuscatlan"; "cuscatlan" ].

(** The example world without colonias after discovery created
    "Residencial los Almendros" under Santa Tecla at the second attempt. *)
Definition ex_world_discovered : World :=
  mkWorld
    (mkGroups
       [ (2, auto_entry 2 "Residencial los Almendros" "residencial los almendros"
                        ex_lat ex_lng 2) ]
       ex_level3 ex_level4 ex_level5)
    (Some ex_stop_names) conflict_then_created
    [ PostLocGroup2 (mkL2Row 1 "Residencial los Almendros" "residencial los almendros"
                             2 ex_lat ex_lng);
      PostLocGroup2 (mkL2Row 2 "Residencial los Almendros" "residencial los almendros"
                             2 ex_lat ex_lng) ].

(** The same world after the candidate of the description was staged. *)
Definition ex_world_staged : World :=
  mkWorld ex_groups_no_l2 (Some ex_stop_names) always_created
    [ PostUnmatched (mkStagingRow 31885955 "Residencial los Almendros"
                                  "residencial los almendros" ex_lat ex_lng 2
                                  Description) ].

(** Texts that name the department "La Libertad" and nothing below it. *)
Definition ex_texts_department : Texts :=
  mkTexts "terreno en venta en la libertad" "" "" "".

(** The colonia "Colonia San Benito" as loaded from a row whose details
    give the alternative name "Zona Rosa". *)
Definition ex_level2_alias : LevelData :=
  load_level L2 [ mkRow 7 "Colonia San Benito" "" "Zona Rosa" (Some 1) None ].

Definition san_benito_alias : LocInfo :=
  mkLocInfo 7 "Colonia San Benito" "colonia san benito" "san benito"
            [ "zona rosa"; "zona rosa" ] (Some 1) None None.

(** Texts that name the colonia without its prefix, in the title and in
    the location; the location adds the alternative name. *)
Definition ex_texts_stripped_name : Texts :=
  mkTexts "casa en san benito" "san benito, zona rosa" "" "".

(** Texts that name the colonia without its prefix in the title only. *)
Definition ex_texts_stripped_title : Texts :=
  mkTexts "casa en san benito" "" "" "".

(** A colonia of the municipality Santa Tecla, on the example point. *)
Definition las_delicias : LocInfo :=
  mkLocInfo 9 "Colonia Las Delicias" "colonia las delicias" "delicias" []
            (Some 2) (Some 13.6969%R) (Some (-89.2341)%R).

Definition ex_groups_delicias : Groups :=
  mkGroups [ (9, las_delicias) ] ex_level3 ex_level4 ex_level5.

(** The scenario listing of the disambiguation property, with
    coordinates: it sits on the example point. *)
Definition listing_antiguo_cuscatlan_located : Listing :=
  mkListing (Some 31885955) "Casa en venta, Antiguo Cuscatlan"
            (mkLocationData "" "" "" "" (Some 13.6969%R) (Some (-89.2341)%R)) "" "".

(** A listing whose title contains the municipality name run together
    with what follows it. *)
Definition listing_run_together : Listing :=
  text_listing "Casa en venta, Antiguo Cuscatlan_Sur" "" "".

(** The listing of the auto-creation scenario, with its coordinates. *)
Definition listing_almendros : Listing :=
  mkListing (Some 31885955)
            "Residencial Los Almendros, Santa Tecla, casa de 3 habitaciones"
            (mkLocationData "" "" "" "" (Some ex_lat) (Some ex_lng)) "" "".

(** Two colonias of Santa Tecla with coordinates, a fifth of a degree of
    longitude east and west of the scenario listing: each is more than
    3 km away and their centroid is the listing's point. *)
Definition colonia_east : LocInfo :=
  mkLocInfo 11 "Colonia Utila" "colonia utila" "utila" []
            (Some 2) (Some 13.6769%R) (Some (-89.0797)%R).

Definition colonia_west : LocInfo :=
  mkLocInfo 12 "Colonia Quezaltepec" "colonia quezaltepec" "quezaltepec" []
            (Some 2) (Some 13.6769%R) (Some (-89.4797)%R).

Definition ex_groups_far : Groups :=
  mkGroups [ (11, colonia_east); (12, colonia_west) ] ex_level3 ex_level4 ex_level5.

(** The hierarchy of the disambiguation scenario, with its accents: the
    department "Cuscatlán", a district below it and the municipality
    "Antiguo Cuscatlán".  The names are normalized on load. *)
Definition ex_groups_accents : Groups :=
  mkGroups []
           (load_level L3 [ row 3 "Antiguo Cuscatlán" (Some 4) ])
           (load_level L4 [ row 4 "Cuscatlán Sur" (Some 5) ])
           (load_level L5 [ row 5 "Cuscatlán" None ]).

Definition dep_cuscatlan : LocInfo :=
  mkLocInfo 5 "Cuscatlán" "cuscatlan" "cuscatlan" [] None None None.

Definition mun_antiguo_cuscatlan : LocInfo :=
  mkLocInfo 3 "Antiguo Cuscatlán" "antiguo cuscatlan" "antiguo cuscatlan" []
            (Some 4) None None.

(** The listing of that scenario. *)
Definition listing_antiguo_cuscatlan_accents : Listing :=
  text_listing "Casa en venta, Antiguo Cuscatlán" "" "".

End ExampleDataExtra.

(* ================================================================== *)
(** ** Vocabulary of the specification *)
(* ================================================================== *)

Section Vocabulary.

Open Scope Q_scope.

(** The score by which [find_best_match_in_level] ranks an occurrence with
    raw score [raw] in a source: the weighted score, plus the 0.01 boost
    for the location source. *)
Definition ranking_score_listing (source : Source) (raw : Q) : Q :=
  if Source_eqb source Location
  then raw * source_weight source + (1 # 100)
  else raw * source_weight source.

(** The float that the source computes for that score: [score *= weight],
    then [score += 0.01] for the location source. *)
Definition float_score_listing (source : Source) (raw : Q) : Q :=
  if Source_eqb source Location
  then float_add (float_mul raw (source_weight source)) (1 # 100)
  else float_mul raw (source_weight source).

(** The score by which [find_match] ranks an occurrence: the raw score
    plus a thousandth of the source priority. *)
Definition ranking_score_texts (source : Source) (raw : Q) : Q :=
  raw + source_priority source * (1 # 1000).

(** The three raw scores: exact name 1.0, prefix-stripped name 0.95,
    alternative name 0.9. *)
Definition is_raw_score (raw : Q) : Prop :=
  raw = 1 \/ raw = 95 # 100 \/ raw = 9 # 10.

(** The order in which [find_best_match_in_level] prefers the sources of
    equal raw score (smaller is preferred). *)
Definition rank_listing (source : Source) : nat :=
  match source with
  | Title => 0 | Location => 1 | Details => 2 | Description => 3
  end.

(** The order in which [find_match] prefers the sources (smaller is
    preferred): its [source_priority] table, highest first. *)
Definition rank_texts (source : Source) : nat :=
  match source with
  | Location => 0 | Title => 1 | Details => 2 | Description => 3
  end.

(** The fields of a result that the two orchestrators are compared on:
    the four hierarchy ids, the level, the score and the source. *)
Definition observed (r : MatchResult)
  : option Z * option Z * option Z * option Z * option Level * option Q
    * option MatchSource :=
  (locGroup2Id r, locGroup3Id r, locGroup4Id r, locGroup5Id r,
   matchLevel r, matchScore r, matchSource r).

(** A latitude or longitude that is missing, None or exactly 0. *)
Definition no_coordinates (lat lng : option R) : Prop :=
  lat = None \/ lat = Some 0%R \/ lng = None \/ lng = Some 0%R.

(** The same listing with its coordinates removed. *)
Definition without_coordinates (listing : Listing) : Listing :=
  let loc := listing_location listing in
  mkListing (external_id listing) (listing_title listing)
            (mkLocationData (municipio_detectado loc) (direccion loc)
                            (departamento loc) (zona loc) None None)
            (listing_details listing) (listing_description listing).

(** The match source is one of the four text fields. *)
Definition from_text (r : MatchResult) : Prop :=
  exists source, matchSource r = Some (FromText source).

(** The name variants of an entry: normalized name, prefix-stripped name
    and alternative names. *)
Definition variants (info : LocInfo) : list string :=
  normalized info :: no_prefix info :: alt_names info.

(** No name variant of the entry occurs as whole words in any text
    field. *)
Definition unrecognized (texts : Texts) (info : LocInfo) : Prop :=
  forall source variant,
    In variant (variants info) -> nonempty variant = true ->
    word_search variant (texts_get texts source) = false.

(** No hierarchy term is recognizable in any text field. *)
Definition no_signal (texts : Texts) (groups : Groups) : Prop :=
  forall level k info, In (k, info) (groups_get groups level) -> unrecognized texts info.

(** The request of the [i]-th insertion attempt: the candidate under the
    id [max(existing level-2 ids) + i]. *)
Definition attempt (w : World) (display_name normalized_name : string)
    (lat lng : R) (l3_id : Z) (i : Z) : Request :=
  PostLocGroup2 (mkL2Row (max_key (level2 (w_groups w)) + i) display_name
                         normalized_name l3_id lat lng).

(** The store reports a duplicate key on every insert into level 2. *)
Definition always_conflicts (w : World) : Prop :=
  forall history row, w_store w history (PostLocGroup2 row) = Conflict.

(** No staging record was written. *)
Definition nothing_staged (log : list Request) : Prop :=
  forall row, ~ In (PostUnmatched row) log.

(** The ids of a level are non-zero, as the truthiness tests of the code
    on ids ([if existing_id], [if auto_l2_id], [if parent_id]) assume. *)
Definition nonzero_ids (level_data : LevelData) : Prop :=
  forall k info, In (k, info) level_data -> k <> 0%Z.

(** The result of a text match on a municipality, before any level-2
    id is added to it: the ids of the parent chain, level 3, the score,
    the source and the matched text. *)
Definition municipality_match (ext_id : option Z) (chain : Chain) (score : Q)
    (source : Source) (text : string) : MatchResult :=
  set_match (update_chain (empty_result ext_id) chain) L3 score source (evidence text).

End Vocabulary.

(** ** Vocabulary of the further properties *)

(** What [lstrip] leaves does not start with whitespace. *)
Definition starts_clean (s : string) : Prop :=
  match s with
  | EmptyString => True
  | String c _ => is_space c = false
  end.

(** The two bytes of a character that [normalize_text] knows beyond
    ASCII: U+00A1 to U+00BF (first byte 0xC2), U+00C0 to U+00FF (first
    byte 0xC3) and the combining marks U+0300 to U+036F. *)
Definition latin1_pair (l b : ascii) : bool :=
  ((code l =? 194)%nat && (161 <=? code b)%nat && (code b <=? 191)%nat)
  || ((code l =? 195)%nat && (128 <=? code b)%nat && (code b <=? 191)%nat)
  || is_mark l b.

(** The texts on which [normalize_text] is the function of the source:
    UTF-8 text of ASCII characters, the characters U+00A1 to U+00FF and
    the combining marks U+0300 to U+036F. *)
Fixpoint latin1_text (s : string) : bool :=
  match s with
  | EmptyString => true
  | String c1 rest =>
      if (code c1 <? 128)%nat then latin1_text rest
      else match rest with
           | String c2 rest' => latin1_pair c1 c2 && latin1_text rest'
           | EmptyString => false
           end
  end.

(** A character of two bytes that [lower], [nfd] and [drop_marks] leave
    as it is: one of U+0080 to U+00BF, or a character of U+00C0 to U+00FF
    that is not an uppercase letter and has no decomposition. *)
Definition settled_pair (l b : ascii) : bool :=
  (code l =? 194)%nat
  || ((code l =? 195)%nat && negb (is_latin1_upper b)
      && match decompose b with Some _ => false | None => true end).

(** The same, told of one byte and the byte after it. *)
Definition settled_byte (c : ascii) (next : option ascii) : bool :=
  if is_lead2 c
  then match next with Some b => settled_pair c b | None => true end
  else negb (is_upper c).

(** A text in which nothing is left to lower, to decompose or to remove.
    The condition is on each byte and its successor, so that it goes
    over to every part of the text. *)
Fixpoint settled (s : string) : bool :=
  match s with
  | EmptyString => true
  | String c rest => settled_byte c (Str.head rest) && settled rest
  end.

(** A text that [map_chars] reads to its end: no first byte of a
    character of two bytes is left without its second byte. *)
Fixpoint whole (s : string) : bool :=
  match s with
  | EmptyString => true
  | String c1 rest =>
      if is_lead2 c1 then
        match rest with
        | String _ rest' => whole rest'
        | EmptyString => false
        end
      else whole rest
  end.

(** A text whose last byte does not start a character of two bytes. *)
Fixpoint closed (s : string) : bool :=
  match s with
  | EmptyString => true
  | String c EmptyString => negb (is_lead2 c)
  | String _ rest => closed rest
  end.

(** What one character has to fulfil for [normalize_text] to settle the
    text it stands in: each step reads the character and what the
    earlier steps made of it as a whole, and the result is settled. *)
Definition settles (o : string) : bool :=
  whole o && whole (lower o) && whole (nfd (lower o))
  && settled (drop_marks (nfd (lower o)))
  && closed (drop_marks (nfd (lower o))).

(** Every byte. *)
Definition all_bytes : list ascii := map ascii_of_nat (seq 0%nat 256%nat).

(** [chain[f'locGroup{level}Id']] *)
Definition chain_get (c : Chain) (level : Level) : option Z :=
  match level with
  | L2 => chain2 c
  | L3 => chain3 c
  | L4 => chain4 c
  | L5 => chain5 c
  end.

(** The payload that [insert_auto_l2] posts under one id. *)
Definition insert_request (display_name normalized_name : string) (lat lng : R)
    (l3_id : Z) (new_id : Z) : Request :=
  PostLocGroup2 (mkL2Row new_id display_name normalized_name l3_id lat lng).

(** The first [m] requests of [insert_auto_l2]: consecutive ids from
    [first_id] on. *)
Definition insert_requests (display_name normalized_name : string) (lat lng : R)
    (l3_id : Z) (first_id : Z) (m : nat) : list Request :=
  map (fun i => insert_request display_name normalized_name lat lng l3_id
                               (first_id + Z.of_nat i))
      (seq 0 m).

(** What the store of [w] answers to [request] once the requests
    [earlier] have been made on top of the log of [w]. *)
Definition answer_to (w : World) (earlier : list Request) (request : Request) : Response :=
  w_store w (w_log w ++ earlier) request.

(** Levels 3 to 5, the store and the cache are what they were. *)
Definition same_reference_data (w w' : World) : Prop :=
  level3 (w_groups w') = level3 (w_groups w)
  /\ level4 (w_groups w') = level4 (w_groups w)
  /\ level5 (w_groups w') = level5 (w_groups w)
  /\ w_store w' = w_store w.

(** What a call of [insert_auto_l2] that starts in [w] and ends in [w']
    with the answer [r] has done: it made [m + 1] requests, at most
    three, under consecutive ids from [_next_l2_id] on; every request but
    the last was answered with a conflict; the cache, the store and the
    levels 3 to 5 are untouched; an id is returned exactly when the last
    request was accepted, it is the id the store echoes (the id posted if
    it echoes none), and the entry is assigned under it at level 2;
    otherwise the hierarchy is unchanged, and the last answer was a
    failure, or a conflict at the third attempt. *)
Definition retry_outcome (display_name normalized_name : string) (lat lng : R)
    (l3_id : Z) (w : World) (r : option Z) (w' : World) : Prop :=
  let first_id := _next_l2_id (w_groups w) in
  let request := insert_request display_name normalized_name lat lng l3_id in
  let requests := insert_requests display_name normalized_name lat lng l3_id first_id in
  exists m,
    (m < 3)%nat
    /\ w_log w' = (w_log w ++ requests (S m))%list
    /\ (forall j, (j < m)%nat ->
          answer_to w (requests j) (request (first_id + Z.of_nat j)%Z) = Conflict)
    /\ w_cache w' = w_cache w
    /\ same_reference_data w w'
    /\ match r with
       | Some i =>
           (exists returned_id,
               answer_to w (requests m) (request (first_id + Z.of_nat m)%Z)
               = Created returned_id
               /\ i = match returned_id with
                      | Some actual => actual
                      | None => (first_id + Z.of_nat m)%Z
                      end)
           /\ level2 (w_groups w')
              = assign i (auto_entry i display_name normalized_name lat lng l3_id)
                       (level2 (w_groups w))
       | None =>
           w_groups w' = w_groups w
           /\ (answer_to w (requests m) (request (first_id + Z.of_nat m)%Z) = Failed
               \/ (m = 2%nat
                   /\ answer_to w (requests m) (request (first_id + Z.of_nat m)%Z)
                      = Conflict))
       end.

(** The quick check of [find_match_in_level] lets the entry through: its
    normalized name, or one of its non-empty alternative names, is a
    substring of the text ([normalized_name in text], [alt in text]). *)
Definition passes_quick_check (text : string) (info : LocInfo) : Prop :=
  contains (normalized info) text = true
  \/ exists alt,
       In alt (alt_names info) /\ nonempty alt = true /\ contains alt text = true.

(** A name of the entry occurs in the text as whole words, with the raw
    score of its tier and the matched name reported for it: the
    normalized name (1.0); else the prefix-stripped name (0.95); else an
    alternative name (0.9, reported in brackets after the name). *)
Definition occurrence (text : string) (info : LocInfo) (raw : Q) (matched : string)
  : Prop :=
  (word_search (normalized info) text = true
   /\ raw = 1%Q /\ matched = name info)
  \/ (word_search (normalized info) text = false
      /\ nonempty (no_prefix info) = true
      /\ word_search (no_prefix info) text = true
      /\ raw = (95 # 100)%Q /\ matched = name info)
  \/ (word_search (normalized info) text = false
      /\ (nonempty (no_prefix info) = true -> word_search (no_prefix info) text = false)
      /\ exists alt,
           In alt (alt_names info) /\ nonempty alt = true
           /\ word_search alt text = true
           /\ raw = (9 # 10)%Q
           /\ matched = (name info ++ " (" ++ alt ++ ")")%string).

(** No non-empty name variant of the entry (normalized name,
    prefix-stripped name, alternative names) occurs in the text as whole
    words. *)
Definition no_variant_in (text : string) (info : LocInfo) : Prop :=
  forall variant,
    In variant (variants info) -> nonempty variant = true ->
    word_search variant text = false.

(** The four name comparisons of [check_l2_duplicate]. *)
Definition same_name (candidate_normalized : string) (info : LocInfo) : Prop :=
  candidate_normalized = normalized info
  \/ remove_location_prefixes candidate_normalized = no_prefix info
  \/ candidate_normalized = no_prefix info
  \/ remove_location_prefixes candidate_normalized = normalized info.

(** The entry has coordinates, less than [km] away from the point. *)
Definition closer_than (km : R) (lat lng : R) (info : LocInfo) : Prop :=
  exists l2_lat l2_lng,
    latitude info = Some l2_lat /\ longitude info = Some l2_lng
    /\ (haversine_distance lat lng l2_lat l2_lng < km)%R.

(** The log of [w'] is the log of [w] with at most [n] requests added. *)
Definition log_grows_by (n : nat) (w w' : World) : Prop :=
  exists more, w_log w' = (w_log w ++ more)%list /\ (List.length more <= n)%nat.

(** Level 2 is what it was, or one entry was assigned in it. *)
Definition at_most_one_assigned (w w' : World) : Prop :=
  level2 (w_groups w') = level2 (w_groups w)
  \/ exists i entry, level2 (w_groups w') = assign i entry (level2 (w_groups w)).

(** A word list that a round of the backward pass of
    [_strip_location_names] leaves as it is. *)
Definition left_alone (loc_stop_names : list string) (words : list string) : Prop :=
  strip_trailing_filler words = words
  /\ ((List.length words <= 1)%nat
      \/ snd (strip_suffix_name loc_stop_names words) = false).

(** The last word is not a filler word, and no run of one to three of
    the last words that is shorter than the whole list is a location
    name ([' '.join(words[-suffix_len:]) in loc_stop_names]). *)
Definition fully_stripped (loc_stop_names : list string) (words : list string) : Prop :=
  (forall init w, words = (init ++ [w])%list -> mem w _TRAILING_FILLER = false)
  /\ (forall suffix_len,
         (1 <= suffix_len <= 3)%nat -> (suffix_len < List.length words)%nat ->
         mem (join (skipn (List.length words - suffix_len) words)) loc_stop_names
         = false).

(** [result[f'locGroup{level}Id']] *)
Definition result_id (r : MatchResult) (level : Level) : option Z :=
  match level with
  | L2 => locGroup2Id r
  | L3 => locGroup3Id r
  | L4 => locGroup4Id r
  | L5 => locGroup5Id r
  end.

(** Every level-2 entry with coordinates is farther than [km] from the
    point. *)
Definition none_within (km : R) (lat lng : R) (l2_data : LevelData) : Prop :=
  forall k info l2_lat l2_lng,
    In (k, info) l2_data ->
    latitude info = Some l2_lat -> longitude info = Some l2_lng ->
    (km < haversine_distance lat lng l2_lat l2_lng)%R.

(** The entry [(k, info)] of [l2_data] has coordinates and is the nearest
    to the point: those stored before it are strictly farther, those
    stored after it at least as far. *)
Definition nearest_in (lat lng : R) (l2_data : LevelData) (k : Z) (info : LocInfo)
    (d : R) : Prop :=
  exists before after l2_lat l2_lng,
    l2_data = (before ++ (k, info) :: after)%list
    /\ latitude info = Some l2_lat /\ longitude info = Some l2_lng
    /\ d = haversine_distance lat lng l2_lat l2_lng
    /\ (forall k' info' la lo,
          In (k', info') before -> latitude info' = Some la -> longitude info' = Some lo ->
          (d < haversine_distance lat lng la lo)%R)
    /\ (forall k' info' la lo,
          In (k', info') after -> latitude info' = Some la -> longitude info' = Some lo ->
          (d <= haversine_distance lat lng la lo)%R).

(** What the Tier 1 loop holds after the entries [seen]. *)
Definition nearest_so_far (lat lng : R) (seen : LevelData)
    (best : option (Z * R * string)) : Prop :=
  match best with
  | Some (k, d, nm) =>
      exists info, nm = name info /\ nearest_in lat lng seen k info d
  | None =>
      forall k info la lo,
        In (k, info) seen -> latitude info = Some la -> longitude info = Some lo -> False
  end.


(** A result names a level and holds the id of that level, a score and a
    source. *)
Definition names_its_level (r : MatchResult) : Prop :=
  exists level,
    matchLevel r = Some level
    /\ result_id r level <> None
    /\ matchScore r <> None
    /\ matchSource r <> None.

(** What matching one listing can change in the state: nothing in levels
    3 to 5 or in the store, at most three requests more in the log, at
    most one entry assigned at level 2. *)
Definition changes_little (w w' : World) : Prop :=
  same_reference_data w w' /\ log_grows_by 3 w w' /\ at_most_one_assigned w w'.

(** A store that holds [table] and serves the rows asked for:
    [.range(first, last)] is inclusive on both ends. *)
Definition serving {A : Type} (table : list A) : RangeQuery A :=
  fun first last => Some (firstn (last + 1 - first) (skipn first table)).

(** A store whose requests raise. *)
Definition failing {A : Type} : RangeQuery A := fun _ _ => None.

(** What matching [n] listings in a row can change in the state: nothing
    in levels 3 to 5 or in the store, at most [3 * n] requests more in
    the log, and the level-2 ids stay unique if they were. *)
Definition batch_changes (n : nat) (w w' : World) : Prop :=
  same_reference_data w w'
  /\ log_grows_by (3 * n) w w'
  /\ (NoDup (map fst (level2 (w_groups w))) -> NoDup (map fst (level2 (w_groups w')))).

(** The listings that [match_scraped_listings] does not skip: those with
    a truthy external id that [int] accepts. *)
Definition with_external_id (int_of_str : string -> option Z) (listings : list Scraped)
  : list Scraped :=
  filter (fun listing =>
            match read_external_id int_of_str listing with
            | Some _ => true
            | None => false
            end)
         listings.

(** What [match_listing_with_texts] returns for a scraped listing that is
    processed under the id [ext_id]. *)
Definition scraped_result (listing : Scraped) (ext_id : Z) (w : World) : MatchResult :=
  fst (match_listing_with_texts (scraped_texts listing) (scraped_latitude listing)
                                (scraped_longitude listing) (Some ext_id) w).

(** The in-memory hierarchy is a well-formed one: the ids of levels 2, 3
    and 4 are unique keys, and the ids of levels 3, 4 and 5 are non-zero
    (a parent id of 0 counts as no parent for the code). *)
Definition consistent_hierarchy (groups : Groups) : Prop :=
  NoDup (map fst (level2 groups))
  /\ NoDup (map fst (level3 groups))
  /\ NoDup (map fst (level4 groups))
  /\ nonzero_ids (level3 groups)
  /\ nonzero_ids (level4 groups)
  /\ nonzero_ids (level5 groups).

(** What the search below a department holds: an id offered for its
    level. *)
Definition lower_found (groups : Groups) (l5_id : Z) (st : LowerState) : Prop :=
  match st with
  | (Some (loc_id, _, _, _), level, _) =>
      In loc_id (get_ids_under_department groups level l5_id)
  | (None, _, _) => True
  end.

Definition lower_found_texts (groups : Groups) (l5_id : Z) (st : LowerStateTexts)
  : Prop :=
  match st with
  | (Some (loc_id, level, _, _, _), _) =>
      In loc_id (get_ids_under_department groups level l5_id)
  | (None, _) => True
  end.

(* ================================================================== *)
(** * Properties *)
(* ================================================================== *)

(** ** The haversine distance *)

Section HaversineFacts.

Open Scope R_scope.

Lemma radians_0 : radians 0 = 0.
Proof. unfold radians. lra. Qed.

Lemma radians_opp (x : R) : radians (- x) = - radians x.
Proof. unfold radians. lra. Qed.

(** The squared half-angle sine does not see the sign of the angle. *)
Lemma sin_half_sqr_opp (x : R) : sin (- x / 2) ^ 2 = sin (x / 2) ^ 2.
Proof.
  replace (- x / 2) with (- (x / 2)) by lra.
  rewrite sin_neg. ring.
Qed.

Lemma haversine_self (lat lon : R) : haversine_distance lat lon lat lon = 0.
Proof.
  unfold haversine_distance.
  replace (lat - lat) with 0 by lra.
  replace (lon - lon) with 0 by lra.
  rewrite radians_0.
  replace (0 / 2) with 0 by lra.
  rewrite sin_0.
  replace (0 ^ 2 + cos (radians lat) * cos (radians lat) * 0 ^ 2) with 0 by ring.
  rewrite sqrt_0, asin_0. ring.
Qed.

Lemma haversine_sym (lat1 lon1 lat2 lon2 : R) :
  haversine_distance lat1 lon1 lat2 lon2 = haversine_distance lat2 lon2 lat1 lon1.
Proof.
  unfold haversine_distance.
  replace (lat1 - lat2) with (- (lat2 - lat1)) by lra.
  replace (lon1 - lon2) with (- (lon2 - lon1)) by lra.
  rewrite !radians_opp, !sin_half_sqr_opp.
  rewrite (Rmult_comm (cos (radians lat2)) (cos (radians lat1))).
  reflexivity.
Qed.

(** C10.  The haversine distance of a point to itself is 0, and the
    distance is symmetric in its two points (coordinates and distances
    modelled as real numbers). *)
Theorem haversine_sanity :
  (forall lat lon : R, haversine_distance lat lon lat lon = 0)
  /\ (forall lat1 lon1 lat2 lon2 : R,
        haversine_distance lat1 lon1 lat2 lon2
        = haversine_distance lat2 lon2 lat1 lon1).
Proof.
  split.
  - exact haversine_self.
  - exact haversine_sym.
Qed.

End HaversineFacts.

(** ** The "keep the best" loops *)

Section KeepBest.

Open Scope Q_scope.

Lemma Qgtb_true (a b : Q) : Qgtb a b = true <-> b < a.
Proof.
  unfold Qgtb. rewrite negb_true_iff.
  split; intro H.
  - apply Qnot_le_lt. intro Hle. apply Qle_bool_iff in Hle. congruence.
  - destruct (Qle_bool a b) eqn:E; [|reflexivity].
    apply Qle_bool_iff in E. exfalso. exact (Qlt_not_le _ _ H E).
Qed.

Lemma Qgtb_false (a b : Q) : Qgtb a b = false <-> a <= b.
Proof.
  unfold Qgtb. rewrite negb_false_iff. apply Qle_bool_iff.
Qed.

Lemma Qgeb_true (a b : Q) : Qgeb a b = true <-> b <= a.
Proof. unfold Qgeb. apply Qle_bool_iff. Qed.

Context {A B : Type}.
Variable cand : A -> option (B * Q).

(** The tracked score never decreases. *)
Lemma keep_best_ge (acc : option B * Q) (c : option (B * Q)) :
  snd acc <= snd (keep_best acc c).
Proof.
  unfold keep_best. destruct c as [[b s]|]; [|apply Qle_refl].
  destruct (Qgtb s (snd acc)) eqn:E; [|apply Qle_refl].
  simpl. apply Qgtb_true in E. apply Qlt_le_weak. exact E.
Qed.

Lemma fold_best_ge (l : list A) (acc : option B * Q) :
  snd acc <= snd (fold_left (fun acc x => keep_best acc (cand x)) l acc).
Proof.
  revert acc. induction l as [|x l IH]; intro acc; simpl.
  - apply Qle_refl.
  - eapply Qle_trans; [apply keep_best_ge | apply IH].
Qed.

(** Every candidate of the list is bounded by the final tracked score. *)
Lemma fold_best_max (l : list A) (acc : option B * Q) (x : A) (b : B) (s : Q) :
  In x l -> cand x = Some (b, s) ->
  s <= snd (fold_left (fun acc x => keep_best acc (cand x)) l acc).
Proof.
  revert acc. induction l as [|y l IH]; intros acc Hin Hc; simpl.
  - contradiction.
  - destruct Hin as [-> | Hin].
    + eapply Qle_trans; [|apply fold_best_ge].
      unfold keep_best. rewrite Hc.
      destruct (Qgtb s (snd acc)) eqn:E.
      * simpl. apply Qle_refl.
      * apply Qgtb_false in E. exact E.
    + apply IH; assumption.
Qed.

(** What the loop holds at the end was held at the start or is a
    candidate of the list, tracked with its own score. *)
Lemma fold_best_sound (l : list A) (acc : option B * Q) :
  fold_left (fun acc x => keep_best acc (cand x)) l acc = acc
  \/ exists x b s, In x l /\ cand x = Some (b, s)
       /\ fold_left (fun acc x => keep_best acc (cand x)) l acc = (Some b, s).
Proof.
  revert acc. induction l as [|y l IH]; intro acc; simpl.
  - left. reflexivity.
  - destruct (IH (keep_best acc (cand y))) as [Heq | (x & b & s & Hin & Hc & Heq)].
    + rewrite Heq. unfold keep_best.
      destruct (cand y) as [[b s]|] eqn:Hy; [|left; reflexivity].
      destruct (Qgtb s (snd acc)); [|left; reflexivity].
      right. exists y, b, s. auto.
    + right. exists x, b, s. auto.
Qed.

(** A loop that ends empty-handed started so, and no candidate beat the
    initial score. *)
Lemma fold_best_none (l : list A) (acc : option B * Q) :
  fst (fold_left (fun acc x => keep_best acc (cand x)) l acc) = None ->
  fst acc = None
  /\ forall x b s, In x l -> cand x = Some (b, s) -> s <= snd acc.
Proof.
  revert acc. induction l as [|y l IH]; intros acc H; simpl in *.
  - split; [exact H | intros; contradiction].
  - destruct (IH _ H) as [Hn Hmax].
    unfold keep_best in Hn, Hmax.
    destruct (cand y) as [[b s]|] eqn:Hy.
    + destruct (Qgtb s (snd acc)) eqn:E; [discriminate|].
      split; [exact Hn|].
      intros x b' s' [-> | Hin] Hc.
      * rewrite Hy in Hc. injection Hc as <- <-. apply Qgtb_false. exact E.
      * eapply Hmax; eassumption.
    + split; [exact Hn|].
      intros x b' s' [-> | Hin] Hc; [congruence|].
      eapply Hmax; eassumption.
Qed.

(** A candidate that beats everything held or met before it, and that
    nothing met after it beats, is what the loop ends with: on equal
    scores the first one met is kept. *)
Lemma fold_best_first (before after : list A) (x : A) (b : B) (s : Q)
    (acc : option B * Q) :
  cand x = Some (b, s) ->
  snd acc < s ->
  (forall y b' s', In y before -> cand y = Some (b', s') -> s' < s) ->
  (forall y b' s', In y after -> cand y = Some (b', s') -> s' <= s) ->
  fold_left (fun acc x => keep_best acc (cand x)) (before ++ x :: after) acc
  = (Some b, s).
Proof.
  intros Hx Hacc Hbefore Hafter.
  rewrite fold_left_app. cbn [fold_left].
  assert (Hb : snd (fold_left (fun acc x => keep_best acc (cand x)) before acc) < s).
  { clear Hx Hafter. revert acc Hacc.
    induction before as [|y l IH]; intros acc Hacc; cbn [fold_left]; [exact Hacc|].
    apply IH.
    - intros z b' s' Hin. apply (Hbefore z b' s'). right. exact Hin.
    - unfold keep_best. destruct (cand y) as [[b' s']|] eqn:Hy; [|exact Hacc].
      destruct (Qgtb s' (snd acc)); [|exact Hacc].
      simpl. exact (Hbefore y b' s' (or_introl eq_refl) Hy). }
  set (held := fold_left (fun acc x => keep_best acc (cand x)) before acc) in *.
  assert (Hstep : keep_best held (cand x) = (Some b, s)).
  { unfold keep_best. rewrite Hx.
    rewrite (proj2 (Qgtb_true s (snd held)) Hb). reflexivity. }
  rewrite Hstep. clear Hstep Hb held Hbefore Hacc Hx.
  induction after as [|y l IH]; cbn [fold_left]; [reflexivity|].
  assert (Hy : keep_best (Some b, s) (cand y) = (Some b, s)).
  { unfold keep_best. destruct (cand y) as [[b' s']|] eqn:Hy; [|reflexivity].
    cbn [snd]. rewrite (proj2 (Qgtb_false s' s) (Hafter y b' s' (or_introl eq_refl) Hy)).
    reflexivity. }
  rewrite Hy. apply IH.
  intros z b' s' Hin. apply (Hafter z b' s'). right. exact Hin.
Qed.

End KeepBest.

Section KeepBestNested.

Open Scope Q_scope.

Context {A C B : Type}.
Variable cand2 : A -> C -> option (B * Q).
Variable items : list C.
Variable skip : A -> bool.

(** An outer loop whose body is a "keep the best" loop over [items],
    skipped for some elements. *)
Let step (acc : option B * Q) (a : A) : option B * Q :=
  if skip a then acc
  else fold_left (fun acc c => keep_best acc (cand2 a c)) items acc.

Lemma nested_best_ge (l : list A) (acc : option B * Q) :
  snd acc <= snd (fold_left step l acc).
Proof.
  revert acc. induction l as [|a l IH]; intro acc; simpl.
  - apply Qle_refl.
  - eapply Qle_trans; [|apply IH].
    unfold step. destruct (skip a); [apply Qle_refl | apply fold_best_ge].
Qed.

Lemma nested_best_max (l : list A) (acc : option B * Q) (a : A) (c : C) (b : B) (s : Q) :
  In a l -> skip a = false -> In c items -> cand2 a c = Some (b, s) ->
  s <= snd (fold_left step l acc).
Proof.
  revert acc. induction l as [|y l IH]; intros acc Ha Hs Hc Hcand; simpl.
  - contradiction.
  - destruct Ha as [-> | Ha].
    + eapply Qle_trans; [|apply nested_best_ge].
      unfold step. rewrite Hs.
      eapply (fold_best_max (cand2 a)); eassumption.
    + apply IH; assumption.
Qed.

Lemma nested_best_sound (l : list A) (acc : option B * Q) :
  fold_left step l acc = acc
  \/ exists a c b s, In a l /\ skip a = false /\ In c items
       /\ cand2 a c = Some (b, s) /\ fold_left step l acc = (Some b, s).
Proof.
  revert acc. induction l as [|y l IH]; intro acc; simpl.
  - left. reflexivity.
  - destruct (IH (step acc y)) as [Heq | (a & c & b & s & Ha & Hs & Hc & Hcand & Heq)].
    + rewrite Heq. unfold step.
      destruct (skip y) eqn:Hsk; [left; reflexivity|].
      destruct (fold_best_sound (cand2 y) items acc)
        as [Hsame | (c & b & s & Hc & Hcand & Hres)].
      * left. exact Hsame.
      * right. exists y, c, b, s. auto 6.
    + right. exists a, c, b, s. auto 7.
Qed.

Lemma nested_best_none (l : list A) (acc : option B * Q) :
  fst (fold_left step l acc) = None ->
  fst acc = None
  /\ forall a c b s, In a l -> skip a = false -> In c items ->
       cand2 a c = Some (b, s) -> s <= snd acc.
Proof.
  revert acc. induction l as [|y l IH]; intros acc H; simpl in *.
  - split; [exact H | intros; contradiction].
  - destruct (IH _ H) as [Hn Hmax].
    assert (Hacc : fst acc = None
                   /\ (skip y = false -> forall c b s, In c items ->
                         cand2 y c = Some (b, s) -> s <= snd acc)).
    { unfold step in Hn. destruct (skip y) eqn:Hsk.
      - split; [exact Hn | discriminate].
      - destruct (fold_best_none (cand2 y) items acc Hn) as [Hn' Hm].
        split; [exact Hn' | intros _; exact Hm]. }
    destruct Hacc as [Hn0 Hy]. split; [exact Hn0|].
    intros a c b s [-> | Ha] Hs Hc Hcand.
    + eapply Hy; eassumption.
    + eapply Qle_trans; [eapply Hmax; eassumption|].
      (* the score tracked after the first element is still the initial
         one: the first component stayed [None] *)
      unfold step in *. destruct (skip y) eqn:Hsk; [apply Qle_refl|].
      destruct (fold_best_sound (cand2 y) items acc)
        as [Hsame | (c' & b' & s' & _ & _ & Hres)].
      * rewrite Hsame. apply Qle_refl.
      * rewrite Hres in Hn. discriminate.
Qed.

End KeepBestNested.

(** ** What the level matchers return *)

Section Finders.

Open Scope Q_scope.

Lemma fold_left_ext {S X : Type} (f g : S -> X -> S) (l : list X) (s : S) :
  (forall s x, f s x = g s x) -> fold_left f l s = fold_left g l s.
Proof.
  intro H. revert s. induction l as [|x l IH]; intro s; simpl.
  - reflexivity.
  - rewrite H. apply IH.
Qed.

Lemma startswith_empty_text (p : string) :
  nonempty p = true -> startswith p EmptyString = false.
Proof. destruct p; [discriminate | reflexivity]. Qed.

Lemma contains_empty_text (p : string) :
  nonempty p = true -> contains p EmptyString = false.
Proof.
  intro H. simpl. rewrite (startswith_empty_text p H). reflexivity.
Qed.

(** Nothing matches in an empty text. *)
Lemma raw_match_empty (info : LocInfo) : raw_match EmptyString info = None.
Proof.
  unfold raw_match.
  destruct (nonempty (normalized info)) eqn:Hn; [|reflexivity].
  rewrite (contains_empty_text _ Hn).
  assert (H : existsb (fun alt => nonempty alt && contains alt EmptyString)
                      (alt_names info) = false).
  { induction (alt_names info) as [|a l IH]; [reflexivity|].
    cbn [existsb]. rewrite IH. destruct (nonempty a) eqn:Ha; [|reflexivity].
    rewrite (contains_empty_text a Ha). reflexivity. }
  rewrite H. reflexivity.
Qed.

Lemma raw_match_nonempty (text : string) (info : LocInfo) (raw : Q) (t : string) :
  raw_match text info = Some (raw, t) -> nonempty text = true.
Proof.
  destruct text; [rewrite raw_match_empty; discriminate | reflexivity].
Qed.

(** The raw score is one of the three tiers. *)
Lemma raw_match_values (text : string) (info : LocInfo) (raw : Q) (t : string) :
  raw_match text info = Some (raw, t) -> is_raw_score raw.
Proof.
  unfold raw_match, is_raw_score.
  destruct (negb (nonempty (normalized info))); [discriminate|].
  destruct (_ && _); [discriminate|].
  destruct (word_search (normalized info) text).
  { intro H. injection H as <- _. auto. }
  destruct (_ && _).
  { intro H. injection H as <- _. auto. }
  destruct (first_alt _ _); [|discriminate].
  intro H. injection H as <- _. auto.
Qed.

Lemma raw_match_texts_values (text : string) (info : LocInfo) (raw : Q) (t : string) :
  raw_match_texts text info = Some (raw, t) -> is_raw_score raw.
Proof.
  unfold raw_match_texts, is_raw_score.
  destruct (negb _); [discriminate|].
  destruct (word_search (normalized info) text).
  { intro H. injection H as <- _. auto. }
  destruct (_ && _).
  { intro H. injection H as <- _. auto. }
  destruct (first_alt _ _); [|discriminate].
  intro H. injection H as <- _. auto.
Qed.

Lemma raw_score_pos (raw : Q) : is_raw_score raw -> 0 < raw.
Proof. intros [-> | [-> | ->]]; reflexivity. Qed.

Lemma source_weight_pos (source : Source) : 0 < source_weight source.
Proof. destruct source; reflexivity. Qed.

Lemma weighted_pos (source : Source) (raw : Q) :
  is_raw_score raw -> 0 < raw * source_weight source.
Proof.
  intros [-> | [-> | ->]]; destruct source; reflexivity.
Qed.

(** The scores are kept as exact decimal numbers.  On every score of the
    matchers, rounding the exact score as [round2] does gives what
    Python's [round] gives on the float that the source computes. *)
Lemma round2_of_float_scores (source : Source) (raw : Q) :
  is_raw_score raw ->
  round2 (ranking_score_listing source raw)
  = round2_float (float_score_listing source raw)
  /\ round2 (raw * source_weight source)
     = round2_float (float_mul raw (source_weight source))
  /\ round2 raw = round2_float (to_double raw).
Proof.
  intros [-> | [-> | ->]]; destruct source; repeat split; vm_compute; reflexivity.
Qed.

Lemma ranking_listing_pos (source : Source) (raw : Q) :
  is_raw_score raw -> 0 < ranking_score_listing source raw.
Proof.
  intros [-> | [-> | ->]]; destruct source; reflexivity.
Qed.

Lemma ranking_texts_pos (source : Source) (raw : Q) :
  is_raw_score raw -> 0 < ranking_score_texts source raw.
Proof.
  intros [-> | [-> | ->]]; destruct source; reflexivity.
Qed.

(** *** find_match_in_level *)

Lemma level_candidate_inv (text : string) (source : Source) (entry : Z * LocInfo)
    (b : Z * Q * string) (s : Q) :
  level_candidate text source entry = Some (b, s) ->
  exists raw t, raw_match text (snd entry) = Some (raw, t)
    /\ b = (fst entry, raw * source_weight source, t)
    /\ s = raw * source_weight source.
Proof.
  unfold level_candidate. destruct entry as [k info]. simpl.
  destruct (raw_match text info) as [[raw t]|]; [|discriminate].
  intro H. injection H as <- <-. exists raw, t. auto.
Qed.

Lemma find_match_in_level_sound (text : string) (level_data : LevelData)
    (source : Source) (k : Z) (sc : Q) (t : string) :
  find_match_in_level text level_data source = Some (k, sc, t) ->
  exists info raw,
    In (k, info) level_data /\ raw_match text info = Some (raw, t)
    /\ sc = raw * source_weight source.
Proof.
  unfold find_match_in_level.
  destruct (negb (nonempty text)); [discriminate|].
  destruct (fold_best_sound (level_candidate text source) level_data (None, 0))
    as [Heq | (x & b & s & Hin & Hc & Heq)]; rewrite Heq; simpl; [discriminate|].
  intro H. injection H as ->.
  apply level_candidate_inv in Hc. destruct Hc as (raw & t' & Hr & Hb & Hs).
  injection Hb as -> -> ->.
  exists (snd x), raw. destruct x; simpl in *. auto.
Qed.

Lemma find_match_in_level_max (text : string) (level_data : LevelData)
    (source : Source) (k : Z) (sc : Q) (t : string) :
  find_match_in_level text level_data source = Some (k, sc, t) ->
  forall k' info' raw' t',
    In (k', info') level_data -> raw_match text info' = Some (raw', t') ->
    raw' * source_weight source <= sc.
Proof.
  unfold find_match_in_level.
  destruct (negb (nonempty text)); [discriminate|].
  intros H k' info' raw' t' Hin' Hr'.
  assert (Hmax := fold_best_max (level_candidate text source) level_data (None, 0)
                                (k', info') (k', raw' * source_weight source, t')
                                (raw' * source_weight source) Hin').
  unfold level_candidate at 1 in Hmax. rewrite Hr' in Hmax.
  specialize (Hmax eq_refl).
  destruct (fold_best_sound (level_candidate text source) level_data (None, 0))
    as [Heq | (x & b & s & Hin & Hc & Heq)]; rewrite Heq in *; simpl in *;
    [discriminate|].
  injection H as ->.
  apply level_candidate_inv in Hc. destruct Hc as (raw & t'' & _ & Hb & Hs).
  injection Hb as _ Hsc _. subst. exact Hmax.
Qed.

Lemma find_match_in_level_complete (text : string) (level_data : LevelData)
    (source : Source) (k' : Z) (info' : LocInfo) (raw' : Q) (t' : string) :
  In (k', info') level_data -> raw_match text info' = Some (raw', t') ->
  find_match_in_level text level_data source <> None.
Proof.
  intros Hin Hr Hnone.
  unfold find_match_in_level in Hnone.
  rewrite (raw_match_nonempty _ _ _ _ Hr) in Hnone. simpl in Hnone.
  apply fold_best_none in Hnone. destruct Hnone as [_ Hmax].
  specialize (Hmax (k', info') (k', raw' * source_weight source, t')
                   (raw' * source_weight source) Hin).
  unfold level_candidate in Hmax. rewrite Hr in Hmax. specialize (Hmax eq_refl).
  simpl in Hmax.
  apply (Qlt_not_le _ _ (weighted_pos source _ (raw_match_values _ _ _ _ Hr))).
  exact Hmax.
Qed.

End Finders.

Section FindBest.

Open Scope Q_scope.

(** *** find_best_match_in_level *)

Lemma all_sources (source : Source) : In source [Location; Title; Details; Description].
Proof. destruct source; simpl; auto. Qed.

Lemma source_candidate_inv (texts : Texts) (level_data : LevelData)
    (parent_filter : option Z) (source : Source)
    (b : Z * Q * string * Source) (s : Q) :
  source_candidate texts level_data parent_filter source = Some (b, s) ->
  exists k sc t,
    find_match_in_level (texts_get texts source)
                        (filter_by_parent parent_filter level_data) source
    = Some (k, sc, t)
    /\ b = (k, s, t, source)
    /\ s = (if Source_eqb source Location then sc + (1 # 100) else sc).
Proof.
  unfold source_candidate.
  destruct (negb (nonempty (texts_get texts source))); [discriminate|].
  destruct (find_match_in_level _ _ _) as [[[k sc] t]|]; [|discriminate].
  intro H. injection H as <- <-. exists k, sc, t. auto.
Qed.

Lemma source_candidate_of_match (texts : Texts) (level_data : LevelData)
    (parent_filter : option Z) (source : Source) (k : Z) (sc : Q) (t : string) :
  find_match_in_level (texts_get texts source)
                      (filter_by_parent parent_filter level_data) source
  = Some (k, sc, t) ->
  source_candidate texts level_data parent_filter source
  = Some (k, (if Source_eqb source Location then sc + (1 # 100) else sc), t, source,
          (if Source_eqb source Location then sc + (1 # 100) else sc)).
Proof.
  intro H. unfold source_candidate.
  assert (Hne : nonempty (texts_get texts source) = true).
  { unfold find_match_in_level in H.
    destruct (nonempty (texts_get texts source)); [reflexivity | discriminate]. }
  rewrite Hne, H. reflexivity.
Qed.

Lemma find_best_sound (texts : Texts) (level_data : LevelData)
    (parent_filter : option Z) (k : Z) (sc : Q) (t : string) (source : Source) :
  find_best_match_in_level texts level_data parent_filter = Some (k, sc, t, source) ->
  exists info raw,
    In (k, info) (filter_by_parent parent_filter level_data)
    /\ raw_match (texts_get texts source) info = Some (raw, t)
    /\ sc = ranking_score_listing source raw.
Proof.
  unfold find_best_match_in_level.
  destruct (fold_best_sound (source_candidate texts level_data parent_filter)
                            [Location; Title; Details; Description] (None, 0))
    as [Heq | (x & b & s & Hin & Hc & Heq)]; rewrite Heq; simpl; [discriminate|].
  intro H. injection H as ->.
  apply source_candidate_inv in Hc. destruct Hc as (k' & sc' & t' & Hm & Hb & Hs).
  injection Hb as -> -> -> ->.
  apply find_match_in_level_sound in Hm. destruct Hm as (info & raw & Hin' & Hr & ->).
  exists info, raw. repeat split; try assumption;
    unfold ranking_score_listing; exact Hs.
Qed.

Lemma find_best_max (texts : Texts) (level_data : LevelData)
    (parent_filter : option Z) (k : Z) (sc : Q) (t : string) (source : Source) :
  find_best_match_in_level texts level_data parent_filter = Some (k, sc, t, source) ->
  forall source' k' info' raw' t',
    In (k', info') (filter_by_parent parent_filter level_data) ->
    raw_match (texts_get texts source') info' = Some (raw', t') ->
    ranking_score_listing source' raw' <= sc.
Proof.
  unfold find_best_match_in_level.
  intros H source' k' info' raw' t' Hin' Hr'.
  destruct (find_match_in_level (texts_get texts source')
              (filter_by_parent parent_filter level_data) source')
    as [[[k2 sc2] t2]|] eqn:Hm;
    [|exfalso; exact (find_match_in_level_complete _ _ source' _ _ _ _ Hin' Hr' Hm)].
  assert (Hle := find_match_in_level_max _ _ _ _ _ _ Hm _ _ _ _ Hin' Hr').
  assert (Hmax := fold_best_max (source_candidate texts level_data parent_filter)
                    [Location; Title; Details; Description] (None, 0) source' _ _
                    (all_sources source') (source_candidate_of_match texts level_data parent_filter source' _ _ _ Hm)).
  destruct (fold_best_sound (source_candidate texts level_data parent_filter)
                            [Location; Title; Details; Description] (None, 0))
    as [Heq | (x & b & s & Hin & Hc & Heq)]; rewrite Heq in *; simpl in H;
    [discriminate|].
  injection H as ->.
  apply source_candidate_inv in Hc. destruct Hc as (k3 & sc3 & t3 & _ & Hb & _).
  injection Hb as _ Hsc _ _. subst s.
  eapply Qle_trans; [|exact Hmax].
  unfold ranking_score_listing.
  destruct (Source_eqb source' Location).
  - apply Qplus_le_compat; [exact Hle | apply Qle_refl].
  - exact Hle.
Qed.

Lemma find_best_complete (texts : Texts) (level_data : LevelData)
    (parent_filter : option Z) (source' : Source) (k' : Z) (info' : LocInfo)
    (raw' : Q) (t' : string) :
  In (k', info') (filter_by_parent parent_filter level_data) ->
  raw_match (texts_get texts source') info' = Some (raw', t') ->
  find_best_match_in_level texts level_data parent_filter <> None.
Proof.
  intros Hin' Hr' Hnone.
  unfold find_best_match_in_level in Hnone.
  apply fold_best_none in Hnone. destruct Hnone as [_ Hmax].
  destruct (find_match_in_level (texts_get texts source')
              (filter_by_parent parent_filter level_data) source')
    as [[[k2 sc2] t2]|] eqn:Hm;
    [|exact (find_match_in_level_complete _ _ source' _ _ _ _ Hin' Hr' Hm)].
  specialize (Hmax source' _ _ (all_sources source')
                   (source_candidate_of_match texts level_data parent_filter source' _ _ _ Hm)).
  simpl in Hmax.
  apply find_match_in_level_sound in Hm. destruct Hm as (info & raw & _ & Hr & ->).
  apply raw_match_values in Hr.
  apply (Qlt_not_le _ _ (ranking_listing_pos source' _ Hr)).
  exact Hmax.
Qed.

(** When no entry of the level matches any text, the matcher returns
    nothing. *)
Lemma find_best_none (texts : Texts) (level_data : LevelData)
    (parent_filter : option Z) :
  (forall source k info, In (k, info) (filter_by_parent parent_filter level_data) ->
     raw_match (texts_get texts source) info = None) ->
  find_best_match_in_level texts level_data parent_filter = None.
Proof.
  intro H.
  destruct (find_best_match_in_level texts level_data parent_filter)
    as [[[[k sc] t] source]|] eqn:E; [|reflexivity].
  apply find_best_sound in E. destruct E as (info & raw & Hin & Hr & _).
  rewrite (H _ _ _ Hin) in Hr. discriminate.
Qed.

End FindBest.

Section FindMatch.

Open Scope Q_scope.

(** *** find_match of match_listing_with_texts *)

Lemma word_search_empty_text (pat : string) : word_search pat EmptyString = false.
Proof.
  unfold word_search. simpl. unfold word_match_here. reflexivity.
Qed.

Lemma raw_match_texts_empty (info : LocInfo) : raw_match_texts EmptyString info = None.
Proof.
  unfold raw_match_texts.
  assert (H : forall l, existsb (fun v => nonempty v && word_search v EmptyString) l = false).
  { induction l as [|a l IH]; [reflexivity|].
    cbn [existsb]. rewrite IH, word_search_empty_text.
    destruct (nonempty a); reflexivity. }
  rewrite H. reflexivity.
Qed.

Lemma raw_match_texts_nonempty (text : string) (info : LocInfo) (raw : Q) (t : string) :
  raw_match_texts text info = Some (raw, t) -> nonempty text = true.
Proof.
  destruct text; [rewrite raw_match_texts_empty; discriminate | reflexivity].
Qed.

Lemma in_texts_items (texts : Texts) (source : Source) :
  In (source, texts_get texts source) (texts_items texts).
Proof.
  unfold texts_items. apply (in_map (fun s => (s, texts_get texts s))).
  destruct source; simpl; auto.
Qed.

Lemma texts_items_inv (texts : Texts) (item : Source * string) :
  In item (texts_items texts) -> snd item = texts_get texts (fst item).
Proof.
  unfold texts_items. intro H. apply in_map_iff in H.
  destruct H as (s & <- & _). reflexivity.
Qed.

Lemma texts_candidate_inv (loc_id : Z) (info : LocInfo) (item : Source * string)
    (b : Z * Q * string * Source) (s : Q) :
  texts_candidate loc_id info item = Some (b, s) ->
  exists raw t,
    raw_match_texts (snd item) info = Some (raw, t)
    /\ b = (loc_id, raw, t, fst item)
    /\ s = ranking_score_texts (fst item) raw.
Proof.
  unfold texts_candidate. destruct item as [source text]. simpl.
  destruct (negb (nonempty text)); [discriminate|].
  destruct (raw_match_texts text info) as [[raw t]|]; [|discriminate].
  intro H. injection H as <- <-. exists raw, t. auto.
Qed.

Lemma texts_candidate_of_match (loc_id : Z) (info : LocInfo) (texts : Texts)
    (source : Source) (raw : Q) (t : string) :
  raw_match_texts (texts_get texts source) info = Some (raw, t) ->
  texts_candidate loc_id info (source, texts_get texts source)
  = Some (loc_id, raw, t, source, ranking_score_texts source raw).
Proof.
  intro H. unfold texts_candidate.
  rewrite (raw_match_texts_nonempty _ _ _ _ H), H. reflexivity.
Qed.

(** [find_match] as a nested "keep the best" loop. *)
Lemma find_match_unfold (texts : Texts) (level_data : LevelData)
    (parent_filter : option Z) (acc : option (Z * Q * string * Source) * Q) :
  fold_left (find_match_entry texts parent_filter) level_data acc
  = fold_left
      (fun acc a =>
         if skipped_by_parent parent_filter (snd a) then acc
         else fold_left
                (fun acc c => keep_best acc (texts_candidate (fst a) (snd a) c))
                (texts_items texts) acc)
      level_data acc.
Proof.
  apply fold_left_ext. intros s [k info]. reflexivity.
Qed.

Lemma find_match_sound (texts : Texts) (level_data : LevelData)
    (parent_filter : option Z) (k : Z) (raw : Q) (t : string) (source : Source) :
  find_match texts level_data parent_filter = Some (k, raw, t, source) ->
  exists info,
    In (k, info) level_data
    /\ skipped_by_parent parent_filter info = false
    /\ raw_match_texts (texts_get texts source) info = Some (raw, t).
Proof.
  unfold find_match. rewrite find_match_unfold.
  destruct (nested_best_sound
              (fun (a : Z * LocInfo) c => texts_candidate (fst a) (snd a) c)
              (texts_items texts)
              (fun a => skipped_by_parent parent_filter (snd a))
              level_data (None, 0))
    as [Heq | (a & c & b & s & Ha & Hs & Hc & Hcand & Heq)]; rewrite Heq; simpl;
    [discriminate|].
  intro H. injection H as ->.
  apply texts_candidate_inv in Hcand. destruct Hcand as (raw' & t' & Hr & Hb & _).
  injection Hb as -> -> -> ->.
  apply texts_items_inv in Hc. rewrite Hc in Hr.
  exists (snd a). destruct a; simpl in *. auto.
Qed.

Lemma find_match_max (texts : Texts) (level_data : LevelData)
    (parent_filter : option Z) (k : Z) (raw : Q) (t : string) (source : Source) :
  find_match texts level_data parent_filter = Some (k, raw, t, source) ->
  forall source' k' info' raw' t',
    In (k', info') level_data ->
    skipped_by_parent parent_filter info' = false ->
    raw_match_texts (texts_get texts source') info' = Some (raw', t') ->
    ranking_score_texts source' raw' <= ranking_score_texts source raw.
Proof.
  unfold find_match. rewrite find_match_unfold.
  intros H source' k' info' raw' t' Hin' Hsk' Hr'.
  assert (Hmax := nested_best_max
              (fun (a : Z * LocInfo) c => texts_candidate (fst a) (snd a) c)
              (texts_items texts)
              (fun a => skipped_by_parent parent_filter (snd a))
              level_data (None, 0) (k', info') (source', texts_get texts source')
              _ _ Hin' Hsk' (in_texts_items texts source')
              (texts_candidate_of_match k' info' texts source' raw' t' Hr')).
  cbv beta in Hmax.
  destruct (nested_best_sound
              (fun (a : Z * LocInfo) c => texts_candidate (fst a) (snd a) c)
              (texts_items texts)
              (fun a => skipped_by_parent parent_filter (snd a))
              level_data (None, 0))
    as [Heq | (a & c & b & s & Ha & Hs & Hc & Hcand & Heq)]; rewrite Heq in *;
    simpl in H; [discriminate|].
  injection H as ->.
  apply texts_candidate_inv in Hcand. destruct Hcand as (raw2 & t2 & _ & Hb & Hsc).
  injection Hb as -> -> -> ->. subst s. exact Hmax.
Qed.

Lemma find_match_complete (texts : Texts) (level_data : LevelData)
    (parent_filter : option Z) (source' : Source) (k' : Z) (info' : LocInfo)
    (raw' : Q) (t' : string) :
  In (k', info') level_data ->
  skipped_by_parent parent_filter info' = false ->
  raw_match_texts (texts_get texts source') info' = Some (raw', t') ->
  find_match texts level_data parent_filter <> None.
Proof.
  intros Hin' Hsk' Hr' Hnone.
  unfold find_match in Hnone. rewrite find_match_unfold in Hnone.
  apply nested_best_none in Hnone. destruct Hnone as [_ Hmax].
  specialize (Hmax (k', info') (source', texts_get texts source') _ _ Hin' Hsk'
                   (in_texts_items texts source')
                   (texts_candidate_of_match k' info' texts source' raw' t' Hr')).
  simpl in Hmax.
  apply (Qlt_not_le _ _ (ranking_texts_pos source' _
                           (raw_match_texts_values _ _ _ _ Hr'))).
  exact Hmax.
Qed.

Lemma find_match_none (texts : Texts) (level_data : LevelData)
    (parent_filter : option Z) :
  (forall source k info, In (k, info) level_data ->
     raw_match_texts (texts_get texts source) info = None) ->
  find_match texts level_data parent_filter = None.
Proof.
  intro H.
  destruct (find_match texts level_data parent_filter)
    as [[[[k raw] t] source]|] eqn:E; [|reflexivity].
  apply find_match_sound in E. destruct E as (info & Hin & _ & Hr).
  rewrite (H _ _ _ Hin) in Hr. discriminate.
Qed.

(** Every match [find_match] returns carries one of the three raw scores,
    so it clears [MIN_SCORE]. *)
Lemma find_match_clears (texts : Texts) (level_data : LevelData)
    (parent_filter : option Z) (k : Z) (raw : Q) (t : string) (source : Source) :
  find_match texts level_data parent_filter = Some (k, raw, t, source) ->
  Qgeb raw MIN_SCORE = true.
Proof.
  intro H. apply find_match_sound in H. destruct H as (info & _ & _ & Hr).
  apply raw_match_texts_values in Hr.
  destruct Hr as [-> | [-> | ->]]; reflexivity.
Qed.

End FindMatch.

(** ** The bounded loops run to their end *)

Section Fuel.

Open Scope string_scope.

Lemma length_drop (n : nat) (s : string) :
  String.length (drop n s) = (String.length s - n)%nat.
Proof.
  revert s. induction n as [|n IH]; intro s; simpl.
  - lia.
  - destruct s as [|c s]; simpl; [reflexivity | apply IH].
Qed.

Lemma startswith_length (p s : string) :
  startswith p s = true -> (String.length p <= String.length s)%nat.
Proof.
  revert s. induction p as [|a p IH]; intros s H; simpl; [lia|].
  destruct s as [|b s]; [discriminate|].
  simpl in H. apply andb_prop in H. destruct H as [_ H].
  apply IH in H. simpl. lia.
Qed.

Lemma prefixes_nonempty : forall p, In p prefixes -> (1 <= String.length p)%nat.
Proof.
  assert (H : forallb (fun p => (1 <=? String.length p)%nat) prefixes = true)
    by reflexivity.
  intros p Hin. rewrite forallb_forall in H. apply Nat.leb_le. exact (H p Hin).
Qed.

(** With the fuel it is given, the prefix loop of
    [remove_location_prefixes] stops because no prefix is left, not
    because the fuel ran out. *)
Lemma strip_prefixes_stable (fuel : nat) (s : string) :
  (String.length s <= fuel)%nat ->
  first_prefix prefixes (strip_prefixes fuel s) = None.
Proof.
  revert s. induction fuel as [|fuel IH]; intros s Hlen.
  - destruct s; [reflexivity | simpl in Hlen; lia].
  - cbn [strip_prefixes]. destruct (first_prefix prefixes s) as [p|] eqn:E; [|exact E].
    apply IH. unfold first_prefix in E. apply find_some in E.
    destruct E as [Hin Hs].
    assert (H1 := prefixes_nonempty p Hin).
    assert (H2 := startswith_length p s Hs).
    rewrite length_drop. lia.
Qed.

Lemma drop_leading_filler_length (ws : list string) :
  (List.length (drop_leading_filler ws) <= List.length ws)%nat.
Proof.
  induction ws as [|w l IH]; [simpl; lia|].
  cbn [drop_leading_filler].
  destruct (mem w _TRAILING_FILLER); cbn [List.length]; lia.
Qed.

Lemma strip_trailing_filler_length (ws : list string) :
  (List.length (strip_trailing_filler ws) <= List.length ws)%nat.
Proof.
  unfold strip_trailing_filler. rewrite length_rev.
  eapply Nat.le_trans; [apply drop_leading_filler_length|].
  rewrite length_rev. lia.
Qed.

Lemma strip_suffix_name_length (stop : list string) (ws : list string) :
  (List.length (fst (strip_suffix_name stop ws)) <= List.length ws)%nat
  /\ (snd (strip_suffix_name stop ws) = true ->
      (List.length (fst (strip_suffix_name stop ws)) < List.length ws)%nat).
Proof.
  unfold strip_suffix_name.
  destruct (List.find _ (range 1 (Nat.min 4 (List.length ws)))) as [k|] eqn:E; simpl.
  - apply find_some in E. destruct E as [Hin _].
    unfold range in Hin. apply in_seq in Hin.
    rewrite length_firstn. split; [lia|]. intros _. lia.
  - split; [lia | discriminate].
Qed.

(** One more round of the backward scan of [_strip_location_names]
    changes nothing: the fuel it is given is enough. *)
Lemma backward_strip_stable (stop : list string) (fuel : nat) (ws : list string) :
  (List.length ws <= fuel)%nat ->
  backward_strip stop (S fuel) ws = backward_strip stop fuel ws.
Proof.
  revert ws. induction fuel as [|fuel IH]; intros ws Hlen.
  - destruct ws; [reflexivity | simpl in Hlen; lia].
  - change (backward_strip stop (S (S fuel)) ws)
      with (if (1 <? List.length ws)%nat
            then let '(words1, changed1) := strip_suffix_name stop ws in
                 let words2 := strip_trailing_filler words1 in
                 let changed2 := negb (List.length words2 =? List.length words1)%nat in
                 if changed1 || changed2 then backward_strip stop (S fuel) words2
                 else words2
            else ws).
    change (backward_strip stop (S fuel) ws)
      with (if (1 <? List.length ws)%nat
            then let '(words1, changed1) := strip_suffix_name stop ws in
                 let words2 := strip_trailing_filler words1 in
                 let changed2 := negb (List.length words2 =? List.length words1)%nat in
                 if changed1 || changed2 then backward_strip stop fuel words2
                 else words2
            else ws).
    destruct (1 <? List.length ws)%nat; [|reflexivity].
    destruct (strip_suffix_name_length stop ws) as [Hle Hlt].
    destruct (strip_suffix_name stop ws) as [words1 changed1]. simpl in Hle, Hlt.
    cbv zeta.
    assert (H2 := strip_trailing_filler_length words1).
    destruct (changed1 || negb (List.length (strip_trailing_filler words1)
                                =? List.length words1)%nat) eqn:Hch; [|reflexivity].
    apply IH.
    apply orb_prop in Hch. destruct Hch as [-> | Hch].
    + specialize (Hlt eq_refl). lia.
    + apply negb_true_iff, Nat.eqb_neq in Hch. lia.
Qed.

End Fuel.

(** ** Source priority *)

Section SourcePriority.

Open Scope Q_scope.

Lemma in_filter_by_parent (parent_filter : option Z) (level_data : LevelData)
    (x : Z * LocInfo) :
  In x (filter_by_parent parent_filter level_data) -> In x level_data.
Proof.
  destruct parent_filter as [p|]; simpl; [|auto].
  intro H. apply filter_In in H. tauto.
Qed.

(** In a dict, a key has one entry. *)
Lemma unique_entry (level_data : LevelData) (k : Z) (a b : LocInfo) :
  NoDup (map fst level_data) -> In (k, a) level_data -> In (k, b) level_data -> a = b.
Proof.
  induction level_data as [|[k' c] l IH]; simpl; intros Hnd Ha Hb; [contradiction|].
  inversion Hnd as [|? ? Hnotin Hnd']; subst.
  destruct Ha as [Ha | Ha], Hb as [Hb | Hb].
  - congruence.
  - injection Ha as -> ->. exfalso. apply Hnotin.
    apply (in_map fst) in Hb. exact Hb.
  - injection Hb as -> ->. exfalso. apply Hnotin.
    apply (in_map fst) in Ha. exact Ha.
  - apply IH; assumption.
Qed.

(** With equal raw scores, the ranking of [find_best_match_in_level]
    follows title, location, details, description. *)
Lemma ranking_listing_order (hi lo : Source) (raw : Q) :
  is_raw_score raw -> (rank_listing hi < rank_listing lo)%nat ->
  ranking_score_listing lo raw < ranking_score_listing hi raw.
Proof.
  intros [-> | [-> | ->]] H; destruct hi, lo; simpl in H;
    try lia; reflexivity.
Qed.

(** With equal raw scores, the ranking of [find_match] follows location,
    title, details, description. *)
Lemma ranking_texts_order (hi lo : Source) (raw : Q) :
  is_raw_score raw -> (rank_texts hi < rank_texts lo)%nat ->
  ranking_score_texts lo raw < ranking_score_texts hi raw.
Proof.
  intros [-> | [-> | ->]] H; destruct hi, lo; simpl in H;
    try lia; reflexivity.
Qed.

End SourcePriority.

Section SourcePriorityExamples.

Open Scope Q_scope.
Open Scope string_scope.

Lemma ex_level3_keys : NoDup (map fst ex_level3).
Proof.
  vm_compute. repeat constructor; simpl; intuition discriminate.
Defined.

Lemma santa_tecla_in_level3 : In (2%Z, santa_tecla) ex_level3.
Proof. vm_compute. auto. Defined.

(** C2 (the code departs from the claim).  Two inputs on which a name
    occurs with the same raw score in the title and in the location and
    the match is taken from the location.

    On the first the municipality "Santa Tecla" is named in full (raw
    score 1.0) in both fields: [find_best_match_in_level] answers from
    the title, as the claim says, and [find_match], the matcher of
    [match_listing_with_texts], from the location, because its
    [source_priority] table puts location (4) above title (3).

    On the second the colonia "Colonia San Benito" occurs in both fields
    by its prefix-stripped name "san benito" only (raw score 0.95).  The
    quick substring check of [find_match_in_level] drops the entry for
    the title, where neither the full name nor an alternative name is a
    substring, and keeps it for the location, where the alternative name
    "zona rosa" is one; so [find_best_match_in_level] too answers from the
    location. *)
Theorem title_occurrence_loses_to_location :
  (word_search (normalized santa_tecla) (title ex_texts_title_location) = true
   /\ word_search (normalized santa_tecla) (location ex_texts_title_location) = true
   /\ find_best_match_in_level ex_texts_title_location ex_level3 None
      = Some (2%Z, 1 * 1, "Santa Tecla", Title)
   /\ find_match ex_texts_title_location ex_level3 None
      = Some (2%Z, 1, "Santa Tecla", Location))
  /\ (lookup 7%Z ex_level2_alias = Some san_benito_alias
      /\ word_search (normalized san_benito_alias) (title ex_texts_stripped_name) = false
      /\ word_search (normalized san_benito_alias) (location ex_texts_stripped_name)
         = false
      /\ word_search (no_prefix san_benito_alias) (title ex_texts_stripped_name) = true
      /\ word_search (no_prefix san_benito_alias) (location ex_texts_stripped_name)
         = true
      /\ find_match_in_level (title ex_texts_stripped_name) ex_level2_alias Title = None
      /\ find_best_match_in_level ex_texts_stripped_name ex_level2_alias None
         = Some (7%Z, (95 # 100) * (95 # 100) + (1 # 100), "Colonia San Benito",
                 Location)
      /\ find_match ex_texts_stripped_name ex_level2_alias None
         = Some (7%Z, 95 # 100, "Colonia San Benito (via san benito)", Location)).
Proof. repeat split; reflexivity. Qed.

End SourcePriorityExamples.

(** ** The acceptance threshold and the two orchestrators *)

Section ThresholdExamples.

Open Scope Q_scope.
Open Scope string_scope.

(** C1 (the code departs from the claim).  The municipality is named in
    the details with raw score 1.0, which is at least [MIN_SCORE]; but
    [match_listing] compares the weighted score 0.85 with [MIN_SCORE],
    rejects the match and returns nothing, while
    [match_listing_with_texts], which compares the raw score, resolves the
    same texts to the municipality. *)
Theorem threshold_on_weighted_score_in_match_listing :
  let texts := extract_searchable_text listing_details_only in
  let w := ex_world ex_groups always_conflict in
  raw_match (details texts) santa_tecla = Some (1, "Santa Tecla")
  /\ Qgeb 1 MIN_SCORE = true
  /\ find_best_match_in_level texts ex_level3 None
     = Some (2%Z, 1 * (85 # 100), "Santa Tecla", Details)
  /\ Qgeb (1 * (85 # 100)) MIN_SCORE = false
  /\ fst (match_listing listing_details_only w) = None
  /\ locGroup3Id (fst (match_listing_with_texts texts None None (Some 31885955%Z) w))
     = Some 2%Z.
Proof. repeat split; reflexivity. Qed.

(** C8 (the code departs from the claim).  On the same texts, index and
    (absent) coordinates the two orchestrators return different answers:
    for a municipality named only in the details, [match_listing] returns
    no match and [match_listing_with_texts] a level-3 match; for a
    municipality named in the title and in the location, they agree on the
    ids but report different sources. *)
Theorem match_listing_differs_from_with_texts :
  let w := ex_world ex_groups always_conflict in
  (fst (match_listing listing_details_only w) = None
   /\ observed (fst (match_listing_with_texts
                       (extract_searchable_text listing_details_only)
                       None None (Some 31885955%Z) w))
      = (None, Some 2%Z, Some 10%Z, Some 100%Z, Some L3, Some 1,
         Some (FromText Details)))
  /\ (option_map observed (fst (match_listing listing_title_and_location w))
      = Some (None, Some 2%Z, Some 10%Z, Some 100%Z, Some L3, Some 1,
              Some (FromText Title))
      /\ observed (fst (match_listing_with_texts
                          (extract_searchable_text listing_title_and_location)
                          None None (Some 31885955%Z) w))
         = (None, Some 2%Z, Some 10%Z, Some 100%Z, Some L3, Some 1,
            Some (FromText Location))).
Proof. repeat split; reflexivity. Qed.

End ThresholdExamples.

(** ** Listings without coordinates *)

Section NoCoordinates.

Lemma truthy_zero : truthy_num (Some 0%R) = false.
Proof.
  unfold truthy_num. destruct (Req_dec_T 0 0) as [_ | H]; [reflexivity|].
  exfalso. apply H. reflexivity.
Qed.

Lemma usable_coordinates_none (lat lng : option R) :
  no_coordinates lat lng -> usable_coordinates lat lng = None.
Proof.
  unfold usable_coordinates.
  intros [-> | [-> | [-> | ->]]].
  - reflexivity.
  - destruct lng; [rewrite truthy_zero|]; reflexivity.
  - destruct lat; reflexivity.
  - destruct lat; [|reflexivity].
    rewrite truthy_zero, andb_false_r. reflexivity.
Qed.

Lemma try_auto_l2_without_coordinates (texts : Texts) (lat lng : option R)
    (l3_id : Z) (l3_text : string) (ext_id : option Z) (result : MatchResult)
    (w : World) :
  usable_coordinates lat lng = None ->
  try_auto_l2 texts lat lng l3_id l3_text ext_id result w = (result, w).
Proof.
  intro H. unfold try_auto_l2. rewrite H.
  destruct (locGroup2Id result); reflexivity.
Qed.

Lemma set_match_from_text (r : MatchResult) (level : Level) (score : Q)
    (source : Source) (text : option MatchedText) :
  from_text (set_match r level score source text).
Proof. exists source. reflexivity. Qed.

Lemma try_l2_under_from_text (finder : Finder) (texts : Texts) (groups : Groups)
    (l3_id : Z) (r : MatchResult) :
  from_text r -> from_text (try_l2_under finder texts groups l3_id r).
Proof.
  intro H. unfold try_l2_under.
  destruct (finder texts (groups_get groups L2) (Some l3_id))
    as [[[[l2_id l2_score] l2_text] l2_source]|]; [|exact H].
  destruct (Qgeb l2_score MIN_SCORE); [apply set_match_from_text | exact H].
Qed.

Lemma last_resort_from_text (texts : Texts) (groups : Groups) (result r : MatchResult) :
  last_resort texts groups result = Some r -> from_text r.
Proof.
  unfold last_resort.
  destruct (find_best_match_in_level _ _ _) as [[[[k sc] t] src]|]; [|discriminate].
  destruct (Qgeb sc MIN_SCORE); [|discriminate].
  intro H. injection H as <-. apply set_match_from_text.
Qed.

Lemma department_step_from_text (texts : Texts) (groups : Groups)
    (result r : MatchResult) :
  department_step texts groups result = Some r -> from_text r.
Proof.
  unfold department_step.
  destruct (find_best_match_in_level texts (groups_get groups L5) None)
    as [[[[l5_id l5_score] l5_text] l5_source]|]; [|apply last_resort_from_text].
  destruct (disambiguate texts groups l5_id) as [[[k info] src]|].
  - intro H. injection H as <-. unfold disambiguated_result.
    apply try_l2_under_from_text, set_match_from_text.
  - destruct (fold_left _ _ _) as [[best_lower best_lower_level] best_lower_score].
    destruct best_lower as [[[[loc_id score] matched_text] source]|];
      intro H; injection H as <-; apply set_match_from_text.
Qed.

(** Without usable coordinates the text part of [match_listing] leaves
    the state untouched, and a result comes from a text field. *)
Lemma match_listing_text_only (texts : Texts) (lat lng : option R)
    (ext_id : option Z) (w : World) :
  usable_coordinates lat lng = None ->
  snd (match_listing_text texts lat lng ext_id w) = w
  /\ forall r, fst (match_listing_text texts lat lng ext_id w) = Some r -> from_text r.
Proof.
  intro H. unfold match_listing_text.
  destruct (find_best_match_in_level texts (groups_get (w_groups w) L3) None)
    as [[[[l3_id l3_score] l3_text] l3_source]|].
  - destruct (Qgeb l3_score MIN_SCORE).
    + rewrite try_auto_l2_without_coordinates by exact H. simpl.
      split; [reflexivity|]. intros r Hr. injection Hr as <-.
      apply try_l2_under_from_text, set_match_from_text.
    + simpl. split; [reflexivity | apply department_step_from_text].
  - simpl. split; [reflexivity | apply department_step_from_text].
Qed.

Lemma last_resort_texts_from_text (texts : Texts) (groups : Groups) :
  let r := last_resort_texts texts groups (empty_result None) in
  r = empty_result None \/ from_text r.
Proof.
  unfold last_resort_texts.
  destruct (find_match _ _ _) as [[[[k sc] t] src]|]; [|left; reflexivity].
  destruct (Qgeb sc MIN_SCORE); [|left; reflexivity].
  right. apply set_match_from_text.
Qed.

Lemma department_step_texts_from_text (texts : Texts) (groups : Groups) :
  let r := department_step_texts texts groups (empty_result None) in
  r = empty_result None \/ from_text r.
Proof.
  unfold department_step_texts.
  destruct (find_match texts (groups_get groups L5) None)
    as [[[[l5_id l5_score] l5_text] l5_source]|];
    [|apply last_resort_texts_from_text].
  right.
  destruct (disambiguate texts groups l5_id) as [[[k info] src]|].
  - unfold disambiguated_result_texts.
    apply try_l2_under_from_text, set_match_from_text.
  - destruct (fold_left _ _ _) as [best_lower best_lower_level].
    destruct best_lower as [[[[[loc_id level] score] text] source]|];
      apply set_match_from_text.
Qed.

(** The same for the text part of [match_listing_with_texts]: the result
    is the all-null one or comes from a text field. *)
Lemma match_texts_text_only (texts : Texts) (lat lng : option R)
    (ext_id : option Z) (w : World) :
  usable_coordinates lat lng = None ->
  snd (match_texts_text texts lat lng ext_id w) = w
  /\ (fst (match_texts_text texts lat lng ext_id w) = empty_result None
      \/ from_text (fst (match_texts_text texts lat lng ext_id w))).
Proof.
  intro H. unfold match_texts_text.
  destruct (find_match texts (groups_get (w_groups w) L3) None)
    as [[[[l3_id l3_score] l3_text] l3_source]|].
  - destruct (Qgeb l3_score MIN_SCORE).
    + rewrite try_auto_l2_without_coordinates by exact H. simpl.
      split; [reflexivity|]. right.
      apply try_l2_under_from_text, set_match_from_text.
    + simpl. split; [reflexivity | apply department_step_texts_from_text].
  - simpl. split; [reflexivity | apply department_step_texts_from_text].
Qed.

Lemma match_listing_text_ignores (texts : Texts) (lat lng : option R)
    (ext_id : option Z) (w : World) :
  usable_coordinates lat lng = None ->
  match_listing_text texts lat lng ext_id w = match_listing_text texts None None ext_id w.
Proof.
  intro H. unfold match_listing_text.
  destruct (find_best_match_in_level texts (groups_get (w_groups w) L3) None)
    as [[[[l3_id l3_score] l3_text] l3_source]|]; [|reflexivity].
  destruct (Qgeb l3_score MIN_SCORE); [|reflexivity].
  rewrite !try_auto_l2_without_coordinates by (exact H || reflexivity).
  reflexivity.
Qed.

Lemma match_texts_text_ignores (texts : Texts) (lat lng : option R)
    (ext_id : option Z) (w : World) :
  usable_coordinates lat lng = None ->
  match_texts_text texts lat lng ext_id w = match_texts_text texts None None ext_id w.
Proof.
  intro H. unfold match_texts_text.
  destruct (find_match texts (groups_get (w_groups w) L3) None)
    as [[[[l3_id l3_score] l3_text] l3_source]|]; [|reflexivity].
  destruct (Qgeb l3_score MIN_SCORE); [|reflexivity].
  rewrite !try_auto_l2_without_coordinates by (exact H || reflexivity).
  reflexivity.
Qed.

Lemma coordinate_attempt_skipped (texts : Texts) (lat lng : option R)
    (ext_id : option Z) (w : World) :
  usable_coordinates lat lng = None ->
  coordinate_attempt texts lat lng ext_id w = (None, w).
Proof. intro H. unfold coordinate_attempt. rewrite H. reflexivity. Qed.

(** [if not lat or not lng: return None] inside the coordinate matcher. *)
Lemma match_by_coordinates_zero (lat lng max_l2_km max_l3_km : R)
    (texts : option Texts) (ext_id : option Z) (w : World) :
  lat = 0%R \/ lng = 0%R ->
  match_by_coordinates lat lng max_l2_km max_l3_km texts ext_id w = (None, w).
Proof.
  intro H. unfold match_by_coordinates.
  destruct (Req_dec_T lat 0) as [_ | Hlat]; [reflexivity|].
  destruct (Req_dec_T lng 0) as [_ | Hlng]; [reflexivity|].
  exfalso. tauto.
Qed.

(** C9.  A listing whose latitude or longitude is missing, None or exactly
    0 has no coordinates: both orchestrators answer as for the same input
    with the coordinates removed, they leave the state untouched (no
    request to the store, no insertion in the hierarchy, so no
    auto-creation was attempted), and a match, if any, comes from a text
    field.  The coordinate matcher itself returns nothing for a zero
    coordinate. *)
Theorem zero_or_missing_coordinates_skip_coordinate_matching :
  forall (listing : Listing) (texts : Texts) (lat lng : option R)
         (ext_id : option Z) (w : World),
    no_coordinates (loc_latitude (listing_location listing))
                   (loc_longitude (listing_location listing)) ->
    no_coordinates lat lng ->
    (match_listing listing w = match_listing (without_coordinates listing) w
     /\ snd (match_listing listing w) = w
     /\ (forall r, fst (match_listing listing w) = Some r -> from_text r))
    /\ (match_listing_with_texts texts lat lng ext_id w
        = match_listing_with_texts texts None None ext_id w
        /\ snd (match_listing_with_texts texts lat lng ext_id w) = w
        /\ (fst (match_listing_with_texts texts lat lng ext_id w) = empty_result None
            \/ from_text (fst (match_listing_with_texts texts lat lng ext_id w))))
    /\ (forall la lo km2 km3 t, la = 0%R \/ lo = 0%R ->
          match_by_coordinates la lo km2 km3 t ext_id w = (None, w)).
Proof.
  intros listing texts lat lng ext_id w Hl Hc.
  apply usable_coordinates_none in Hl. apply usable_coordinates_none in Hc.
  split; [|split].
  - unfold match_listing.
    rewrite (coordinate_attempt_skipped _ _ _ _ _ Hl).
    destruct (match_listing_text_only (extract_searchable_text listing) _ _
                (external_id listing) w Hl) as [Hw Hsrc].
    split; [|split; assumption].
    rewrite (match_listing_text_ignores _ _ _ _ _ Hl).
    reflexivity.
  - unfold match_listing_with_texts.
    rewrite (coordinate_attempt_skipped _ _ _ _ _ Hc).
    destruct (match_texts_text_only texts _ _ ext_id w Hc) as [Hw Hsrc].
    split; [|split; assumption].
    rewrite (match_texts_text_ignores _ _ _ _ _ Hc).
    reflexivity.
  - intros la lo km2 km3 t H. apply match_by_coordinates_zero. exact H.
Qed.

(** The theorem at a listing with latitude 0 and a store that would accept
    an insert: the state is untouched by both orchestrators. *)
Lemma zero_or_missing_coordinates_witness :
  let w := ex_world ex_groups always_created in
  no_coordinates (Some 0%R) (Some (-89.2341)%R)
  /\ snd (match_listing listing_zero_latitude w) = w
  /\ snd (match_listing_with_texts (extract_searchable_text listing_zero_latitude)
                                   (Some 0%R) (Some (-89.2341)%R)
                                   (Some 31885955%Z) w) = w.
Proof.
  intro w.
  assert (H : no_coordinates (Some 0%R) (Some (-89.2341)%R))
    by (right; left; reflexivity).
  split; [exact H|].
  destruct (zero_or_missing_coordinates_skip_coordinate_matching
              listing_zero_latitude (extract_searchable_text listing_zero_latitude)
              (Some 0%R) (Some (-89.2341)%R) (Some 31885955%Z) w H H)
    as ((_ & Hw & _) & (_ & Hw2 & _) & _).
  split; assumption.
Defined.

End NoCoordinates.

(** ** The no-signal case *)

Section NoSignal.

Open Scope string_scope.

Lemma first_alt_none (test : string -> bool) (alts : list string) :
  (forall alt, In alt alts -> nonempty alt = true -> test alt = false) ->
  first_alt test alts = None.
Proof.
  intro H. unfold first_alt.
  induction alts as [|a l IH]; [reflexivity|].
  simpl. destruct (nonempty a) eqn:Ha; simpl.
  - rewrite (H a (or_introl eq_refl) Ha). apply IH.
    intros alt Hin. apply H. right. exact Hin.
  - apply IH. intros alt Hin. apply H. right. exact Hin.
Qed.

Lemma unrecognized_raw_match (texts : Texts) (info : LocInfo) (source : Source) :
  unrecognized texts info -> raw_match (texts_get texts source) info = None.
Proof.
  intro H. unfold raw_match, unrecognized, variants in *.
  destruct (nonempty (normalized info)) eqn:Hn; [|reflexivity].
  cbn [negb].
  destruct (_ && _); [reflexivity|].
  rewrite (H source (normalized info) (or_introl eq_refl) Hn).
  destruct (nonempty (no_prefix info)) eqn:Hp.
  - rewrite (H source (no_prefix info) (or_intror (or_introl eq_refl)) Hp).
    cbn [andb].
    rewrite first_alt_none; [reflexivity|].
    intros alt Hin Ha. apply H; [right; right; exact Hin | exact Ha].
  - cbn [andb].
    rewrite first_alt_none; [reflexivity|].
    intros alt Hin Ha. apply H; [right; right; exact Hin | exact Ha].
Qed.

Lemma unrecognized_raw_match_texts (texts : Texts) (info : LocInfo) (source : Source) :
  unrecognized texts info -> raw_match_texts (texts_get texts source) info = None.
Proof.
  intro H. unfold raw_match_texts, unrecognized in *.
  assert (E : existsb (fun v => nonempty v && word_search v (texts_get texts source))
                      (filter nonempty (normalized info :: no_prefix info :: alt_names info))
              = false).
  { fold (variants info).
    assert (G : forall l, (forall v, In v l -> In v (variants info)) ->
                existsb (fun v => nonempty v && word_search v (texts_get texts source))
                        (filter nonempty l) = false).
    { induction l as [|a l IH]; intro Hsub; [reflexivity|].
      simpl. destruct (nonempty a) eqn:Ha.
      - simpl. rewrite Ha, (H source a (Hsub a (or_introl eq_refl)) Ha).
        simpl. apply IH. intros v Hv. apply Hsub. right. exact Hv.
      - apply IH. intros v Hv. apply Hsub. right. exact Hv. }
    apply G. auto. }
  rewrite E. reflexivity.
Qed.

Lemma no_signal_find_best (texts : Texts) (groups : Groups) (level : Level) :
  no_signal texts groups ->
  find_best_match_in_level texts (groups_get groups level) None = None.
Proof.
  intro H. apply find_best_none. simpl.
  intros source k info Hin. apply unrecognized_raw_match. eapply H. exact Hin.
Qed.

Lemma no_signal_find_match (texts : Texts) (groups : Groups) (level : Level) :
  no_signal texts groups ->
  find_match texts (groups_get groups level) None = None.
Proof.
  intro H. apply find_match_none.
  intros source k info Hin. apply unrecognized_raw_match_texts. eapply H. exact Hin.
Qed.

(** C7, as amended.  For a listing with no coordinates and no recognizable
    hierarchy term in any text field, matching ends without error:
    [match_listing_with_texts] returns the result with the four hierarchy
    ids, the level and all other fields null; [match_listing] returns
    [None], no result record at all.  Both leave the state untouched. *)
Theorem no_signal_is_unmatched :
  forall (listing : Listing) (texts : Texts) (lat lng : option R)
         (ext_id : option Z) (w : World),
    no_coordinates (loc_latitude (listing_location listing))
                   (loc_longitude (listing_location listing)) ->
    no_signal (extract_searchable_text listing) (w_groups w) ->
    no_coordinates lat lng ->
    no_signal texts (w_groups w) ->
    match_listing listing w = (None, w)
    /\ match_listing_with_texts texts lat lng ext_id w
       = (mkResult None None None None None None None None None, w).
Proof.
  intros listing texts lat lng ext_id w Hl Hs Hc Hs'.
  apply usable_coordinates_none in Hl. apply usable_coordinates_none in Hc.
  split.
  - unfold match_listing.
    rewrite (coordinate_attempt_skipped _ _ _ _ _ Hl).
    unfold match_listing_text. rewrite (no_signal_find_best _ _ L3 Hs).
    unfold department_step. rewrite (no_signal_find_best _ _ L5 Hs).
    unfold last_resort. rewrite (no_signal_find_best _ _ L2 Hs).
    reflexivity.
  - unfold match_listing_with_texts.
    rewrite (coordinate_attempt_skipped _ _ _ _ _ Hc).
    unfold match_texts_text. rewrite (no_signal_find_match _ _ L3 Hs').
    unfold department_step_texts. rewrite (no_signal_find_match _ _ L5 Hs').
    unfold last_resort_texts. rewrite (no_signal_find_match _ _ L2 Hs').
    reflexivity.
Qed.

Lemma ex_no_signal :
  no_signal (extract_searchable_text listing_no_signal) (w_groups (ex_world ex_groups always_conflict)).
Proof.
  intros level k info Hin source variant Hv Hne.
  destruct level;
    [ change (In (k, info) ex_level2) in Hin; unfold ex_level2 in Hin
    | change (In (k, info) ex_level3) in Hin;
      let v := eval vm_compute in ex_level3 in change ex_level3 with v in Hin
    | change (In (k, info) ex_level4) in Hin;
      let v := eval vm_compute in ex_level4 in change ex_level4 with v in Hin
    | change (In (k, info) ex_level5) in Hin;
      let v := eval vm_compute in ex_level5 in change ex_level5 with v in Hin ];
    simpl in Hin;
    repeat (destruct Hin as [Hin | Hin]; [injection Hin as <- <- |]);
    try contradiction;
    simpl in Hv; repeat (destruct Hv as [<- | Hv]); try contradiction;
    try discriminate Hne;
    destruct source; reflexivity.
Defined.

(** The theorem at a listing that only says "Casa en venta". *)
Lemma no_signal_is_unmatched_witness :
  let w := ex_world ex_groups always_conflict in
  match_listing listing_no_signal w = (None, w)
  /\ match_listing_with_texts (extract_searchable_text listing_no_signal)
                              None None (Some 31885955%Z) w
     = (mkResult None None None None None None None None None, w).
Proof.
  intro w.
  apply (no_signal_is_unmatched listing_no_signal
           (extract_searchable_text listing_no_signal) None None
           (Some 31885955%Z) w).
  - left. reflexivity.
  - exact ex_no_signal.
  - left. reflexivity.
  - exact ex_no_signal.
Defined.

(** The claim C7 as stated fails for [match_listing]: on the no-signal
    listing it returns [None], not a result whose four ids and level are
    null. *)
Lemma match_listing_returns_no_record :
  let w := ex_world ex_groups always_conflict in
  fst (match_listing listing_no_signal w) = None
  /\ ~ (exists r, fst (match_listing listing_no_signal w) = Some r
                  /\ locGroup2Id r = None /\ locGroup3Id r = None
                  /\ locGroup4Id r = None /\ locGroup5Id r = None
                  /\ matchLevel r = None).
Proof.
  intro w.
  assert (H : fst (match_listing listing_no_signal w) = None) by reflexivity.
  split; [exact H|].
  intros (r & Hr & _). rewrite H in Hr. discriminate.
Qed.

End NoSignal.

(** ** Municipality before department *)

Section MunicipalityFirst.

Open Scope string_scope.

Lemma match_literal_startswith (pat s : string) (last : option ascii)
    (x : option ascii * string) :
  match_literal pat s last = Some x -> startswith pat s = true.
Proof.
  revert s last. induction pat as [|p pat IH]; intros s last H; [reflexivity|].
  destruct s as [|c s]; [discriminate|].
  simpl in *. destruct (Ascii.eqb p c); [|discriminate].
  simpl. eapply IH. exact H.
Qed.

Lemma search_from_contains (prev : option ascii) (pat s : string) :
  search_from prev pat s = true -> contains pat s = true.
Proof.
  revert prev. induction s as [|c s IH]; intros prev H.
  - simpl in H. rewrite orb_false_r in H.
    unfold word_match_here in H. apply andb_prop in H. destruct H as [_ H].
    destruct (match_literal pat EmptyString prev) as [[last rest]|] eqn:E;
      [|discriminate].
    simpl. rewrite (match_literal_startswith _ _ _ _ E). reflexivity.
  - cbn [search_from] in H. cbn [contains].
    apply orb_prop in H. destruct H as [H | H].
    + unfold word_match_here in H. apply andb_prop in H. destruct H as [_ H].
      destruct (match_literal pat (String c s) prev) as [[last rest]|] eqn:E;
        [|discriminate].
      rewrite (match_literal_startswith _ _ _ _ E). reflexivity.
    + rewrite (IH _ H). apply orb_true_r.
Qed.

(** A whole-word occurrence is an occurrence. *)
Lemma word_search_contains (pat s : string) :
  word_search pat s = true -> contains pat s = true.
Proof. apply search_from_contains. Qed.

(** An entry whose normalized name occurs as whole words has raw score 1. *)
Lemma raw_match_exact (text : string) (info : LocInfo) :
  nonempty (normalized info) = true ->
  word_search (normalized info) text = true ->
  raw_match text info = Some (1%Q, name info).
Proof.
  intros Hn Hw. unfold raw_match.
  rewrite Hn, (word_search_contains _ _ Hw), Hw. reflexivity.
Qed.

(** *** What the coordinate matcher can return *)

Lemma update_chain_level (r : MatchResult) (c : Chain) :
  matchLevel (update_chain r c) = matchLevel r.
Proof. reflexivity. Qed.

Lemma match_by_coordinates_cases (lat lng km2 km3 : R) (texts : option Texts)
    (ext_id : option Z) (w : World) :
  (fst (match_by_coordinates lat lng km2 km3 texts ext_id w) = None
   /\ snd (match_by_coordinates lat lng km2 km3 texts ext_id w) = w)
  \/ (exists r, fst (match_by_coordinates lat lng km2 km3 texts ext_id w) = Some r
                /\ (matchLevel r = Some L2 \/ matchLevel r = Some L3)).
Proof.
  unfold match_by_coordinates.
  destruct (_ || _); [left; split; reflexivity|].
  destruct (groups_get (w_groups w) L2) as [|e l2]; [left; split; reflexivity|].
  destruct (nearest_l2 lat lng (e :: l2)) as [[[id2 d2] n2]|].
  - destruct (Rleb d2 km2).
    + right. eexists. split; [reflexivity|]. left. reflexivity.
    + destruct (nearest_l3 lat lng (w_groups w)) as [[[id3 d3] n3]|];
        [|left; split; reflexivity].
      destruct (Rleb d3 km3); [|left; split; reflexivity].
      right. destruct texts as [t|].
      * destruct (try_create_l2_from_listing t lat lng id3 ext_id w) as [[auto|] w'].
        -- destruct (negb (auto =? 0)%Z); eexists; (split; [reflexivity|]);
             [left | right]; reflexivity.
        -- eexists. split; [reflexivity|]. right. reflexivity.
      * eexists. split; [reflexivity|]. right. reflexivity.
  - destruct (nearest_l3 lat lng (w_groups w)) as [[[id3 d3] n3]|];
      [|left; split; reflexivity].
    destruct (Rleb d3 km3); [|left; split; reflexivity].
    right. destruct texts as [t|].
    * destruct (try_create_l2_from_listing t lat lng id3 ext_id w) as [[auto|] w'].
      -- destruct (negb (auto =? 0)%Z); eexists; (split; [reflexivity|]);
           [left | right]; reflexivity.
      -- eexists. split; [reflexivity|]. right. reflexivity.
    * eexists. split; [reflexivity|]. right. reflexivity.
Qed.

Lemma coordinate_attempt_cases (texts : Texts) (lat lng : option R)
    (ext_id : option Z) (w : World) :
  (fst (coordinate_attempt texts lat lng ext_id w) = None
   /\ snd (coordinate_attempt texts lat lng ext_id w) = w)
  \/ (exists r, fst (coordinate_attempt texts lat lng ext_id w) = Some r
                /\ (matchLevel r = Some L2 \/ matchLevel r = Some L3)).
Proof.
  unfold coordinate_attempt.
  destruct (usable_coordinates lat lng) as [[la lo]|].
  - apply match_by_coordinates_cases.
  - left. split; reflexivity.
Qed.

(** *** The ids of a municipality result *)

Lemma chain_of_municipality (k : Z) (groups : Groups) :
  chain2 (get_parent_chain k L3 groups) = None
  /\ chain3 (get_parent_chain k L3 groups) = Some k.
Proof.
  unfold get_parent_chain. simpl.
  destruct (lookup k (level3 groups)) as [info|]; [|split; reflexivity].
  destruct (parent_id info) as [p|]; [|split; reflexivity].
  destruct (p =? 0)%Z; [split; reflexivity|].
  destruct (lookup p (level4 groups)) as [info4|]; [|split; reflexivity].
  destruct (parent_id info4) as [p4|]; [|split; reflexivity].
  destruct (p4 =? 0)%Z; split; reflexivity.
Qed.

Lemma try_l2_under_keeps (finder : Finder) (texts : Texts) (groups : Groups)
    (l3_id : Z) (r : MatchResult) :
  let r' := try_l2_under finder texts groups l3_id r in
  locGroup3Id r' = locGroup3Id r /\ locGroup4Id r' = locGroup4Id r
  /\ locGroup5Id r' = locGroup5Id r
  /\ (matchLevel r' = matchLevel r \/ matchLevel r' = Some L2).
Proof.
  unfold try_l2_under.
  destruct (finder texts (groups_get groups L2) (Some l3_id))
    as [[[[l2_id l2_score] l2_text] l2_source]|]; [|simpl; auto].
  destruct (Qgeb l2_score MIN_SCORE); simpl; auto.
Qed.

Lemma try_auto_l2_keeps (texts : Texts) (lat lng : option R) (l3_id : Z)
    (l3_text : string) (ext_id : option Z) (r : MatchResult) (w : World) :
  let r' := fst (try_auto_l2 texts lat lng l3_id l3_text ext_id r w) in
  locGroup3Id r' = locGroup3Id r /\ locGroup4Id r' = locGroup4Id r
  /\ locGroup5Id r' = locGroup5Id r
  /\ (matchLevel r' = matchLevel r \/ matchLevel r' = Some L2).
Proof.
  unfold try_auto_l2.
  destruct (locGroup2Id r); [simpl; auto|].
  destruct (usable_coordinates lat lng) as [[la lo]|]; [|simpl; auto].
  destruct (try_create_l2_from_listing texts la lo l3_id ext_id w) as [[auto|] w'];
    [|simpl; auto].
  destruct (negb (auto =? 0)%Z); simpl; auto.
Qed.

(** Step 1 of the text part, once a municipality clears the threshold. *)
Lemma match_listing_text_municipality (texts : Texts) (lat lng : option R)
    (ext_id : option Z) (w : World) (l3_id : Z) (l3_score : Q) (l3_text : string)
    (l3_source : Source) :
  find_best_match_in_level texts (groups_get (w_groups w) L3) None
  = Some (l3_id, l3_score, l3_text, l3_source) ->
  Qgeb l3_score MIN_SCORE = true ->
  exists r,
    fst (match_listing_text texts lat lng ext_id w) = Some r
    /\ locGroup3Id r = Some l3_id
    /\ locGroup4Id r = chain4 (get_parent_chain l3_id L3 (w_groups w))
    /\ locGroup5Id r = chain5 (get_parent_chain l3_id L3 (w_groups w))
    /\ (matchLevel r = Some L3 \/ matchLevel r = Some L2).
Proof.
  intros Hf Hs. unfold match_listing_text. rewrite Hf, Hs.
  set (r0 := set_match (update_chain (empty_result ext_id)
                          (get_parent_chain l3_id L3 (w_groups w)))
                       L3 l3_score l3_source (evidence l3_text)).
  set (r1 := try_l2_under find_best_match_in_level texts (w_groups w) l3_id r0).
  destruct (try_l2_under_keeps find_best_match_in_level texts (w_groups w) l3_id r0)
    as (H3 & H4 & H5 & Hl).
  destruct (try_auto_l2_keeps texts lat lng l3_id l3_text ext_id r1 w)
    as (A3 & A4 & A5 & Al).
  fold r1 in H3, H4, H5, Hl.
  destruct (try_auto_l2 texts lat lng l3_id l3_text ext_id r1 w) as [r2 w2].
  simpl in *. exists r2. split; [reflexivity|].
  rewrite A3, A4, A5, H3, H4, H5.
  destruct (chain_of_municipality l3_id (w_groups w)) as [_ C3].
  repeat split; try reflexivity; try exact C3.
  destruct Al as [Al | Al]; [|right; exact Al].
  rewrite Al. destruct Hl as [Hl | Hl]; [left | right]; rewrite Hl; reflexivity.
Qed.

Lemma named_municipality_found (texts : Texts) (groups : Groups) (m_key : Z)
    (m_info : LocInfo) :
  In (m_key, m_info) (groups_get groups L3) ->
  nonempty (normalized m_info) = true ->
  word_search (normalized m_info) (title texts) = true ->
  exists k sc t src,
    find_best_match_in_level texts (groups_get groups L3) None = Some (k, sc, t, src)
    /\ Qgeb sc MIN_SCORE = true.
Proof.
  intros Hin Hn Hw.
  assert (Hr : raw_match (texts_get texts Title) m_info = Some (1%Q, name m_info))
    by (apply raw_match_exact; assumption).
  destruct (find_best_match_in_level texts (groups_get groups L3) None)
    as [[[[k sc] t] src]|] eqn:E.
  - exists k, sc, t, src. split; [reflexivity|].
    assert (Hmax := find_best_max _ _ _ _ _ _ _ E Title m_key m_info _ _ Hin Hr).
    apply Qgeb_true. eapply Qle_trans; [|exact Hmax]. discriminate.
  - exfalso. exact (find_best_complete _ _ None Title _ _ _ _ Hin Hr E).
Qed.

(** In [find_match_in_level] an entry whose raw score is above that of
    every entry stored before it, and not below that of any entry stored
    after it, is the answer. *)
Lemma find_match_in_level_first (text : string) (before after : LevelData)
    (k : Z) (info : LocInfo) (source : Source) (raw : Q) (t : string) :
  raw_match text info = Some (raw, t) ->
  (forall k' info' raw' t',
      In (k', info') before -> raw_match text info' = Some (raw', t') ->
      (raw' < raw)%Q) ->
  (forall k' info' raw' t',
      In (k', info') after -> raw_match text info' = Some (raw', t') ->
      (raw' <= raw)%Q) ->
  find_match_in_level text (before ++ (k, info) :: after)%list source
  = Some (k, (raw * source_weight source)%Q, t).
Proof.
  intros Hr Hbefore Hafter. unfold find_match_in_level.
  rewrite (raw_match_nonempty _ _ _ _ Hr). cbn [negb].
  rewrite (fold_best_first (level_candidate text source) before after (k, info)
             (k, (raw * source_weight source)%Q, t) (raw * source_weight source)%Q
             (None, 0%Q)); [reflexivity | | | |].
  - unfold level_candidate. rewrite Hr. reflexivity.
  - exact (weighted_pos source raw (raw_match_values _ _ _ _ Hr)).
  - intros [k' info'] b' s' Hin Hc.
    apply level_candidate_inv in Hc. destruct Hc as (raw' & t' & Hr' & _ & ->).
    apply Qmult_lt_compat_r; [apply source_weight_pos|].
    exact (Hbefore k' info' raw' t' Hin Hr').
  - intros [k' info'] b' s' Hin Hc.
    apply level_candidate_inv in Hc. destruct Hc as (raw' & t' & Hr' & _ & ->).
    apply Qmult_le_compat_r; [|apply Qlt_le_weak, source_weight_pos].
    exact (Hafter k' info' raw' t' Hin Hr').
Qed.

(** An entry whose normalized name does not occur as whole words scores
    below 1. *)
Lemma raw_match_below_exact (text : string) (info : LocInfo) (raw : Q) (t : string) :
  (nonempty (normalized info) = true -> word_search (normalized info) text = false) ->
  raw_match text info = Some (raw, t) -> (raw < 1)%Q.
Proof.
  intro Hw. unfold raw_match.
  destruct (nonempty (normalized info)); [|discriminate].
  rewrite (Hw eq_refl). cbn [negb].
  destruct (_ && _); [discriminate|].
  destruct (_ && _).
  { intro H. injection H as <- _. reflexivity. }
  destruct (first_alt _ _); [|discriminate].
  intro H. injection H as <- _. reflexivity.
Qed.

Lemma raw_match_at_most_exact (text : string) (info : LocInfo) (raw : Q) (t : string) :
  raw_match text info = Some (raw, t) -> (raw <= 1)%Q.
Proof.
  intro H. apply raw_match_values in H.
  destruct H as [-> | [-> | ->]]; discriminate.
Qed.

(** A municipality named in full in the title, none stored before it
    being named in full there, is the answer of
    [find_best_match_in_level], from the title and with score 1. *)
Lemma exact_title_match_wins (texts : Texts) (before after : LevelData) (k : Z)
    (info : LocInfo) :
  nonempty (normalized info) = true ->
  word_search (normalized info) (title texts) = true ->
  (forall k' info', In (k', info') before -> nonempty (normalized info') = true ->
                    word_search (normalized info') (title texts) = false) ->
  find_best_match_in_level texts (before ++ (k, info) :: after)%list None
  = Some (k, (1 * 1)%Q, name info, Title).
Proof.
  intros Hn Hw Hbefore.
  assert (Hr : raw_match (texts_get texts Title) info = Some (1%Q, name info))
    by (apply raw_match_exact; assumption).
  assert (Hm : find_match_in_level (texts_get texts Title)
                 (filter_by_parent None (before ++ (k, info) :: after)%list) Title
               = Some (k, (1 * source_weight Title)%Q, name info)).
  { cbn [filter_by_parent]. apply find_match_in_level_first.
    - exact Hr.
    - intros k' info' raw' t' Hin. apply raw_match_below_exact.
      exact (Hbefore k' info' Hin).
    - intros k' info' raw' t' _. apply raw_match_at_most_exact. }
  unfold find_best_match_in_level.
  change [Location; Title; Details; Description]
    with ([Location] ++ Title :: [Details; Description])%list.
  rewrite (fold_best_first
             (source_candidate texts (before ++ (k, info) :: after)%list None)
             [Location] [Details; Description] Title
             (k, (1 * 1)%Q, name info, Title) (1 * 1)%Q (None, 0%Q));
    [reflexivity | | | |].
  - rewrite (source_candidate_of_match _ _ _ _ _ _ _ Hm). reflexivity.
  - reflexivity.
  - intros y b' s' [<- | []] Hc.
    apply source_candidate_inv in Hc. destruct Hc as (k' & sc & t' & Hf & _ & ->).
    apply find_match_in_level_sound in Hf.
    destruct Hf as (info' & raw' & _ & Hr' & ->).
    apply raw_match_values in Hr'.
    destruct Hr' as [-> | [-> | ->]]; reflexivity.
  - intros y b' s' Hin Hc.
    apply source_candidate_inv in Hc. destruct Hc as (k' & sc & t' & Hf & _ & ->).
    apply find_match_in_level_sound in Hf.
    destruct Hf as (info' & raw' & _ & Hr' & ->).
    apply raw_match_values in Hr'.
    destruct Hin as [<- | [<- | []]];
      destruct Hr' as [-> | [-> | ->]]; discriminate.
Qed.

(** C5, as amended.  Given a department whose normalized name is a proper
    substring of a municipality's normalized name, every listing whose
    title contains the full municipality name as whole words resolves to
    level 3 (or to level 2 below a municipality), never to the bare
    department.  When moreover the coordinate matcher gives no answer and
    no municipality stored before it in the index has its normalized name
    occurring as whole words in the title, the listing resolves to that
    municipality: [locGroup3Id] is its id and [locGroup4Id],
    [locGroup5Id] follow its parent chain. *)
Theorem municipality_never_bare_department :
  forall (listing : Listing) (w : World) (d_key m_key : Z) (d_info m_info : LocInfo),
    let texts := extract_searchable_text listing in
    let lat := loc_latitude (listing_location listing) in
    let lng := loc_longitude (listing_location listing) in
    In (d_key, d_info) (groups_get (w_groups w) L5) ->
    In (m_key, m_info) (groups_get (w_groups w) L3) ->
    contains (normalized d_info) (normalized m_info) = true ->
    normalized d_info <> normalized m_info ->
    nonempty (normalized m_info) = true ->
    word_search (normalized m_info) (title texts) = true ->
    (exists r, fst (match_listing listing w) = Some r
               /\ (matchLevel r = Some L3 \/ matchLevel r = Some L2))
    /\ (fst (coordinate_attempt texts lat lng (external_id listing) w) = None ->
        forall before after,
          groups_get (w_groups w) L3 = (before ++ (m_key, m_info) :: after)%list ->
          (forall k info, In (k, info) before -> nonempty (normalized info) = true ->
                          word_search (normalized info) (title texts) = false) ->
          exists r, fst (match_listing listing w) = Some r
                    /\ locGroup3Id r = Some m_key
                    /\ locGroup4Id r = chain4 (get_parent_chain m_key L3 (w_groups w))
                    /\ locGroup5Id r = chain5 (get_parent_chain m_key L3 (w_groups w))
                    /\ (matchLevel r = Some L3 \/ matchLevel r = Some L2)).
Proof.
  intros listing w d_key m_key d_info m_info texts lat lng Hd Hm Hsub Hneq Hn Hw.
  split.
  - destruct (named_municipality_found texts (w_groups w) m_key m_info Hm Hn Hw)
      as (k & sc & t & src & Hf & Hs).
    destruct (match_listing_text_municipality texts lat lng (external_id listing) w
                k sc t src Hf Hs) as (r & Hr & H3 & H4 & H5 & Hl).
    unfold match_listing. fold texts lat lng.
    destruct (coordinate_attempt_cases texts lat lng (external_id listing) w)
      as [[Hnone Hsame] | (rc & Hsome & Hlevel)].
    + destruct (coordinate_attempt texts lat lng (external_id listing) w) as [cr w'].
      simpl in Hnone, Hsame. subst cr w'.
      exists r. split; [exact Hr | exact Hl].
    + destruct (coordinate_attempt texts lat lng (external_id listing) w) as [cr w'].
      simpl in Hsome. subst cr. simpl.
      eexists. split; [reflexivity|]. simpl. tauto.
  - intros Hnone before after Hsplit Hbefore.
    assert (Hf : find_best_match_in_level texts (groups_get (w_groups w) L3) None
                 = Some (m_key, (1 * 1)%Q, name m_info, Title)).
    { rewrite Hsplit. apply exact_title_match_wins; assumption. }
    destruct (match_listing_text_municipality texts lat lng (external_id listing) w
                m_key (1 * 1)%Q (name m_info) Title Hf eq_refl)
      as (r & Hr & H3 & H4 & H5 & Hl).
    unfold match_listing. fold texts lat lng.
    destruct (coordinate_attempt_cases texts lat lng (external_id listing) w)
      as [[_ Hsame] | (rc & Hsome & _)]; [|rewrite Hnone in Hsome; discriminate].
    destruct (coordinate_attempt texts lat lng (external_id listing) w) as [cr w'].
    simpl in Hnone, Hsame. subst cr w'.
    exists r. auto.
Qed.

(** The theorem at the scenario of the specification: department
    "Cuscatlán", municipality "Antiguo Cuscatlán", title "Casa en venta,
    Antiguo Cuscatlán". *)
Lemma municipality_never_bare_department_witness :
  let w := ex_world ex_groups_accents always_conflict in
  exists r, fst (match_listing listing_antiguo_cuscatlan_accents w) = Some r
            /\ locGroup3Id r = Some 3%Z
            /\ locGroup4Id r = chain4 (get_parent_chain 3%Z L3 (w_groups w))
            /\ locGroup5Id r = chain5 (get_parent_chain 3%Z L3 (w_groups w))
            /\ (matchLevel r = Some L3 \/ matchLevel r = Some L2).
Proof.
  intro w.
  apply (proj2 (municipality_never_bare_department
                  listing_antiguo_cuscatlan_accents w 5%Z 3%Z
                  dep_cuscatlan mun_antiguo_cuscatlan
                  (or_introl eq_refl) (or_introl eq_refl)
                  eq_refl ltac:(discriminate) eq_refl eq_refl)
               eq_refl [] [] eq_refl).
  intros k info Hin. contradiction.
Defined.

End MunicipalityFirst.

(** ** Insert conflicts *)

Section InsertConflict.

Open Scope string_scope.

(** Three conflicts exhaust the retries: three requests, under the ids
    max + 1, max + 2 and max + 3, and nothing inserted in memory. *)
Lemma insert_auto_l2_conflicts (display_name normalized_name : string) (lat lng : R)
    (l3_id : Z) (w : World) :
  always_conflicts w ->
  insert_auto_l2 display_name normalized_name lat lng l3_id w
  = (None,
     mkWorld (w_groups w) (w_cache w) (w_store w)
             (w_log w ++ [ attempt w display_name normalized_name lat lng l3_id 1;
                           attempt w display_name normalized_name lat lng l3_id 2;
                           attempt w display_name normalized_name lat lng l3_id 3 ])).
Proof.
  intro H. unfold insert_auto_l2, _next_l2_id, attempt. simpl.
  unfold post. simpl. rewrite !H. simpl.
  rewrite <- !app_assoc. simpl.
  replace (max_key (level2 (w_groups w)) + 1 + 1)%Z
    with (max_key (level2 (w_groups w)) + 2)%Z by lia.
  replace (max_key (level2 (w_groups w)) + 2 + 1)%Z
    with (max_key (level2 (w_groups w)) + 3)%Z by lia.
  reflexivity.
Qed.

(** A high-confidence candidate without duplicate whose insertion runs out
    of retries: discovery returns nothing and makes the three insertion
    requests only. *)
Lemma try_create_conflicts (texts : Texts) (lat lng : R) (l3_id : Z)
    (ext_id : option Z) (w : World) (display_name normalized_name : string)
    (source : Source) (cache' : option (list string)) :
  always_conflicts w ->
  extract_colonia_candidate texts (w_groups w) (w_cache w)
  = (Some (display_name, normalized_name, source), cache') ->
  source = Title \/ source = Location ->
  truthy_id (check_l2_duplicate normalized_name lat lng l3_id (w_groups w)) = false ->
  try_create_l2_from_listing texts lat lng l3_id ext_id w
  = (None,
     mkWorld (w_groups w) cache' (w_store w)
             (w_log w ++ [ attempt w display_name normalized_name lat lng l3_id 1;
                           attempt w display_name normalized_name lat lng l3_id 2;
                           attempt w display_name normalized_name lat lng l3_id 3 ])).
Proof.
  intros Hc He Hs Hd. unfold try_create_l2_from_listing. rewrite He.
  simpl. rewrite Hd.
  assert (Hi := insert_auto_l2_conflicts display_name normalized_name lat lng l3_id
                  (set_cache w cache') Hc).
  destruct Hs as [-> | ->]; exact Hi.
Qed.

Lemma usable_nonzero (la lo : R) :
  la <> 0%R -> lo <> 0%R -> usable_coordinates (Some la) (Some lo) = Some (la, lo).
Proof.
  intros Ha Ho. unfold usable_coordinates, truthy_num.
  destruct (Req_dec_T la 0); [contradiction|].
  destruct (Req_dec_T lo 0); [contradiction|].
  reflexivity.
Qed.

Lemma nothing_staged_app (log : list Request) (rows : list L2Row) :
  nothing_staged log -> nothing_staged (log ++ map PostLocGroup2 rows).
Proof.
  intros H row Hin. apply in_app_or in Hin. destruct Hin as [Hin | Hin].
  - exact (H row Hin).
  - apply in_map_iff in Hin. destruct Hin as (r & Hr & _). discriminate.
Qed.

(** *** The three places where discovery is attempted *)

(** Tier 3 of [match_by_coordinates]: when discovery returns nothing, the
    answer is the municipality-level result of Tier 2, which is what the
    function answers when it is given no texts. *)
Lemma tier3_without_new_colonia (la lo km2 km3 : R) (texts : Texts)
    (ext_id : option Z) (w w' : World) (l3_id : Z) (r : MatchResult) :
  try_create_l2_from_listing texts la lo l3_id ext_id w = (None, w') ->
  fst (match_by_coordinates la lo km2 km3 None ext_id w) = Some r ->
  matchLevel r = Some L3 ->
  locGroup3Id r = Some l3_id ->
  match_by_coordinates la lo km2 km3 (Some texts) ext_id w = (Some r, w').
Proof.
  intros Ht Hr Hlevel Hid. unfold match_by_coordinates in *.
  destruct (_ || _); [discriminate|].
  destruct (groups_get (w_groups w) L2) as [|e l2]; [discriminate|].
  assert (Htier2 :
    forall id3 d3 n3,
      fst (Some (update_chain
                   (coordinate_result L3 (Rmax (4 / 10) (9 / 10 - d3 / km3))
                                      (NameAndDistance n3 d3))
                   (get_parent_chain id3 L3 (w_groups w))), w) = Some r ->
      (let '(auto_l2_id, w0) :=
         try_create_l2_from_listing texts la lo id3 ext_id w in
       match auto_l2_id with
       | Some auto =>
           if negb (auto =? 0)%Z
           then (Some (upgrade_auto_l2
                         (update_chain
                            (coordinate_result L3 (Rmax (4 / 10) (9 / 10 - d3 / km3))
                                               (NameAndDistance n3 d3))
                            (get_parent_chain id3 L3 (w_groups w)))
                         auto CoordinatesAutoL2 (w_groups w0) n3), w0)
           else (Some (update_chain
                         (coordinate_result L3 (Rmax (4 / 10) (9 / 10 - d3 / km3))
                                            (NameAndDistance n3 d3))
                         (get_parent_chain id3 L3 (w_groups w))), w0)
       | None => (Some (update_chain
                          (coordinate_result L3 (Rmax (4 / 10) (9 / 10 - d3 / km3))
                                             (NameAndDistance n3 d3))
                          (get_parent_chain id3 L3 (w_groups w))), w0)
       end) = (Some r, w')).
  { intros id3 d3 n3 H. cbn [fst] in H. injection H as H.
    assert (Hk : id3 = l3_id).
    { rewrite <- H in Hid. cbn [update_chain locGroup3Id] in Hid.
      destruct (chain_of_municipality id3 (w_groups w)) as [_ C3].
      rewrite C3 in Hid. injection Hid as ->. reflexivity. }
    subst id3. rewrite Ht, H. reflexivity. }
  destruct (nearest_l2 la lo (e :: l2)) as [[[id2 d2] n2]|].
  - destruct (Rleb d2 km2).
    + cbn [fst] in Hr. injection Hr as Hr. rewrite <- Hr in Hlevel. discriminate.
    + destruct (nearest_l3 la lo (w_groups w)) as [[[id3 d3] n3]|]; [|discriminate].
      destruct (Rleb d3 km3); [|discriminate].
      exact (Htier2 id3 d3 n3 Hr).
  - destruct (nearest_l3 la lo (w_groups w)) as [[[id3 d3] n3]|]; [|discriminate].
    destruct (Rleb d3 km3); [|discriminate].
    exact (Htier2 id3 d3 n3 Hr).
Qed.

(** The auto-creation step of the two text strategies: without a level-2
    id in the result and with coordinates, it leaves the result as it is
    when discovery returns nothing. *)
Lemma try_auto_l2_without_new_colonia (texts : Texts) (la lo : R) (l3_id : Z)
    (l3_text : string) (ext_id : option Z) (result : MatchResult) (w w' : World) :
  la <> 0%R -> lo <> 0%R ->
  try_create_l2_from_listing texts la lo l3_id ext_id w = (None, w') ->
  locGroup2Id result = None ->
  try_auto_l2 texts (Some la) (Some lo) l3_id l3_text ext_id result w = (result, w').
Proof.
  intros Hla Hlo Ht H2. unfold try_auto_l2.
  rewrite H2, (usable_nonzero la lo Hla Hlo), Ht. reflexivity.
Qed.

Lemma try_l2_under_nothing (finder : Finder) (texts : Texts) (groups : Groups)
    (l3_id : Z) (result : MatchResult) :
  (forall l2_id l2_score l2_text l2_source,
      finder texts (groups_get groups L2) (Some l3_id)
      = Some (l2_id, l2_score, l2_text, l2_source) ->
      Qgeb l2_score MIN_SCORE = false) ->
  try_l2_under finder texts groups l3_id result = result.
Proof.
  intro H. unfold try_l2_under.
  destruct (finder texts (groups_get groups L2) (Some l3_id))
    as [[[[l2_id l2_score] l2_text] l2_source]|]; [|reflexivity].
  rewrite (H _ _ _ _ eq_refl). reflexivity.
Qed.

(** The text strategy of [match_listing]. *)
Lemma match_listing_text_without_new_colonia (texts : Texts) (la lo : R)
    (ext_id : option Z) (w w' : World) (l3_id : Z) (l3_score : Q)
    (l3_text : string) (l3_source : Source) :
  la <> 0%R -> lo <> 0%R ->
  try_create_l2_from_listing texts la lo l3_id ext_id w = (None, w') ->
  find_best_match_in_level texts (groups_get (w_groups w) L3) None
  = Some (l3_id, l3_score, l3_text, l3_source) ->
  Qgeb l3_score MIN_SCORE = true ->
  (forall l2_id l2_score l2_text l2_source,
      find_best_match_in_level texts (groups_get (w_groups w) L2) (Some l3_id)
      = Some (l2_id, l2_score, l2_text, l2_source) ->
      Qgeb l2_score MIN_SCORE = false) ->
  match_listing_text texts (Some la) (Some lo) ext_id w
  = (Some (municipality_match ext_id (get_parent_chain l3_id L3 (w_groups w))
                              l3_score l3_source l3_text),
     w').
Proof.
  intros Hla Hlo Ht H3 Hs H2. unfold match_listing_text. rewrite H3, Hs.
  rewrite (try_l2_under_nothing find_best_match_in_level texts (w_groups w) l3_id _ H2).
  rewrite (try_auto_l2_without_new_colonia texts la lo l3_id l3_text ext_id _ w w'
             Hla Hlo Ht).
  - reflexivity.
  - destruct (chain_of_municipality l3_id (w_groups w)) as [C2 _].
    cbn [set_match update_chain locGroup2Id]. exact C2.
Qed.

(** The text strategy of [match_listing_with_texts]. *)
Lemma match_texts_text_without_new_colonia (texts : Texts) (la lo : R)
    (ext_id : option Z) (w w' : World) (l3_id : Z) (l3_score : Q)
    (l3_text : string) (l3_source : Source) :
  la <> 0%R -> lo <> 0%R ->
  try_create_l2_from_listing texts la lo l3_id ext_id w = (None, w') ->
  find_match texts (groups_get (w_groups w) L3) None
  = Some (l3_id, l3_score, l3_text, l3_source) ->
  find_match texts (groups_get (w_groups w) L2) (Some l3_id) = None ->
  match_texts_text texts (Some la) (Some lo) ext_id w
  = (municipality_match None (get_parent_chain_local (w_groups w) l3_id L3)
                        l3_score l3_source l3_text,
     w').
Proof.
  intros Hla Hlo Ht H3 H2. unfold match_texts_text.
  rewrite H3, (find_match_clears _ _ _ _ _ _ _ H3).
  rewrite (try_l2_under_nothing find_match texts (w_groups w) l3_id _
             ltac:(intros ? ? ? ? H; rewrite H2 in H; discriminate)).
  rewrite (try_auto_l2_without_new_colonia texts la lo l3_id l3_text ext_id _ w w'
             Hla Hlo Ht).
  - reflexivity.
  - destruct (chain_of_municipality l3_id (w_groups w)) as [C2 _].
    cbn [set_match update_chain locGroup2Id]. exact C2.
Qed.

(** When the coordinate attempt that opens the orchestrators gives no
    answer it leaves the state alone. *)
Lemma coordinate_attempt_none (texts : Texts) (lat lng : option R)
    (ext_id : option Z) (w : World) :
  fst (coordinate_attempt texts lat lng ext_id w) = None ->
  coordinate_attempt texts lat lng ext_id w = (None, w).
Proof.
  intro H.
  destruct (coordinate_attempt_cases texts lat lng ext_id w)
    as [[_ Hsame] | (r & Hsome & _)]; [|rewrite H in Hsome; discriminate].
  destruct (coordinate_attempt texts lat lng ext_id w) as [cr w0].
  cbn [fst snd] in *. subst. reflexivity.
Qed.

(** C3, as amended.  Inserting a newly discovered level-2 neighbourhood
    posts it under the id max(existing level-2 ids) + 1 and, on a
    duplicate-key conflict, retries under the next id, three attempts in
    all.  When the retries are exhausted the failure is non-fatal:
    nothing is inserted, no staging record is written, discovery returns
    no id, and the listing keeps the municipality-level match it had
    before discovery was attempted.  That holds at each of the three
    places where discovery is attempted: Tier 3 of
    [match_by_coordinates], whose answer is then the one it gives
    without texts, and the text strategies of [match_listing] and of
    [match_listing_with_texts]; hence for both orchestrators, whether the
    municipality was found by the coordinates or in the texts. *)
Theorem insert_conflict_keeps_municipality_match :
  forall (texts : Texts) (la lo : R) (ext_id : option Z) (w : World)
         (display_name normalized_name : string) (source : Source)
         (cache' : option (list string)) (l3_id : Z),
    always_conflicts w ->
    la <> 0%R -> lo <> 0%R ->
    extract_colonia_candidate texts (w_groups w) (w_cache w)
    = (Some (display_name, normalized_name, source), cache') ->
    source = Title \/ source = Location ->
    truthy_id (check_l2_duplicate normalized_name la lo l3_id (w_groups w)) = false ->
    let requests := [ attempt w display_name normalized_name la lo l3_id 1;
                      attempt w display_name normalized_name la lo l3_id 2;
                      attempt w display_name normalized_name la lo l3_id 3 ] in
    let w' := mkWorld (w_groups w) cache' (w_store w) (w_log w ++ requests) in
    (* the insertion and the discovery *)
    insert_auto_l2 display_name normalized_name la lo l3_id w
    = (None, mkWorld (w_groups w) (w_cache w) (w_store w) (w_log w ++ requests))
    /\ try_create_l2_from_listing texts la lo l3_id ext_id w = (None, w')
    /\ (nothing_staged (w_log w) -> nothing_staged (w_log w'))
    (* Tier 3 of match_by_coordinates, at any radii *)
    /\ (forall max_l2_km max_l3_km r,
          fst (match_by_coordinates la lo max_l2_km max_l3_km None ext_id w) = Some r ->
          matchLevel r = Some L3 ->
          locGroup3Id r = Some l3_id ->
          match_by_coordinates la lo max_l2_km max_l3_km (Some texts) ext_id w
          = (Some r, w'))
    (* the municipality found by the coordinates, in both orchestrators *)
    /\ (forall r,
          fst (match_by_coordinates la lo 3 20 None ext_id w) = Some r ->
          matchLevel r = Some L3 ->
          locGroup3Id r = Some l3_id ->
          match_listing_with_texts texts (Some la) (Some lo) ext_id w = (r, w')
          /\ forall listing,
               extract_searchable_text listing = texts ->
               loc_latitude (listing_location listing) = Some la ->
               loc_longitude (listing_location listing) = Some lo ->
               external_id listing = ext_id ->
               match_listing listing w = (Some (set_external_id r ext_id), w'))
    (* the municipality found in the texts by match_listing_with_texts *)
    /\ (forall l3_score l3_text l3_source,
          find_match texts (groups_get (w_groups w) L3) None
          = Some (l3_id, l3_score, l3_text, l3_source) ->
          find_match texts (groups_get (w_groups w) L2) (Some l3_id) = None ->
          let kept := municipality_match None
                        (get_parent_chain_local (w_groups w) l3_id L3)
                        l3_score l3_source l3_text in
          match_texts_text texts (Some la) (Some lo) ext_id w = (kept, w')
          /\ (fst (coordinate_attempt texts (Some la) (Some lo) ext_id w) = None ->
              match_listing_with_texts texts (Some la) (Some lo) ext_id w = (kept, w')))
    (* the municipality found in the texts by match_listing *)
    /\ (forall l3_score l3_text l3_source listing,
          extract_searchable_text listing = texts ->
          loc_latitude (listing_location listing) = Some la ->
          loc_longitude (listing_location listing) = Some lo ->
          external_id listing = ext_id ->
          find_best_match_in_level texts (groups_get (w_groups w) L3) None
          = Some (l3_id, l3_score, l3_text, l3_source) ->
          Qgeb l3_score MIN_SCORE = true ->
          (forall l2_id l2_score l2_text l2_source,
              find_best_match_in_level texts (groups_get (w_groups w) L2) (Some l3_id)
              = Some (l2_id, l2_score, l2_text, l2_source) ->
              Qgeb l2_score MIN_SCORE = false) ->
          fst (coordinate_attempt texts (Some la) (Some lo) ext_id w) = None ->
          match_listing listing w
          = (Some (municipality_match ext_id (get_parent_chain l3_id L3 (w_groups w))
                                      l3_score l3_source l3_text),
             w')).
Proof.
  intros texts la lo ext_id w display_name normalized_name source cache' l3_id
         Hc Hla Hlo He Hs Hd requests w'.
  assert (Ht := try_create_conflicts texts la lo l3_id ext_id w display_name
                  normalized_name source cache' Hc He Hs Hd).
  fold requests in Ht. fold w' in Ht.
  split; [apply insert_auto_l2_conflicts; exact Hc|].
  split; [exact Ht|].
  split.
  { intro Hn.
    exact (nothing_staged_app (w_log w)
             (map (fun i => mkL2Row (max_key (level2 (w_groups w)) + i) display_name
                                    normalized_name l3_id la lo) [1; 2; 3]%Z)
             Hn). }
  split; [|split; [|split]].
  - intros km2 km3 r Hr Hlevel Hid.
    exact (tier3_without_new_colonia la lo km2 km3 texts ext_id w w' l3_id r
             Ht Hr Hlevel Hid).
  - intros r Hr Hlevel Hid.
    assert (Hm := tier3_without_new_colonia la lo 3 20 texts ext_id w w' l3_id r
                    Ht Hr Hlevel Hid).
    split.
    + unfold match_listing_with_texts, coordinate_attempt.
      rewrite (usable_nonzero la lo Hla Hlo), Hm. reflexivity.
    + intros listing Htexts Hlat Hlng Hext.
      unfold match_listing, coordinate_attempt.
      rewrite Htexts, Hlat, Hlng, Hext, (usable_nonzero la lo Hla Hlo), Hm.
      reflexivity.
  - intros l3_score l3_text l3_source H3 H2 kept.
    assert (Hm := match_texts_text_without_new_colonia texts la lo ext_id w w' l3_id
                    l3_score l3_text l3_source Hla Hlo Ht H3 H2).
    split; [exact Hm|].
    intro Hnone. unfold match_listing_with_texts.
    rewrite (coordinate_attempt_none _ _ _ _ _ Hnone). exact Hm.
  - intros l3_score l3_text l3_source listing Htexts Hlat Hlng Hext H3 Hscore H2 Hnone.
    unfold match_listing. rewrite Htexts, Hlat, Hlng, Hext.
    rewrite (coordinate_attempt_none _ _ _ _ _ Hnone).
    exact (match_listing_text_without_new_colonia texts la lo ext_id w w' l3_id
             l3_score l3_text l3_source Hla Hlo Ht H3 Hscore H2).
Qed.

Lemma ex_always_conflicts (groups : Groups) :
  always_conflicts (ex_world groups always_conflict).
Proof. intros history row. reflexivity. Defined.

Lemma ex_lat_nonzero : ex_lat <> 0%R.
Proof. unfold ex_lat. lra. Defined.

Lemma ex_lng_nonzero : ex_lng <> 0%R.
Proof. unfold ex_lng. lra. Defined.

Lemma ex_almendros_candidate :
  extract_colonia_candidate ex_texts_almendros ex_groups_no_l2 None
  = (Some ("Residencial los Almendros", "residencial los almendros", Title),
     Some ["antiguo cuscatlan"; "antiguo cuscatlan"; "santa tecla"; "santa tecla";
           "la libertad este"; "libertad este"; "cuscatlan norte"; "cuscatlan norte";
           "la libertad"; "libertad"; "cuscatlan"; "cuscatlan"]).
Proof. reflexivity. Defined.

(** The claim C3 as stated fails: after three conflicts the candidate is
    not routed to the staging queue; the only requests made are the three
    insertion attempts. *)
Lemma exhausted_retries_are_not_staged :
  let w := ex_world ex_groups_no_l2 always_conflict in
  let outcome := try_create_l2_from_listing ex_texts_almendros ex_lat ex_lng 2%Z
                                            (Some 31885955%Z) w in
  fst outcome = None
  /\ w_log (snd outcome)
     = map (fun i => PostLocGroup2
                       (mkL2Row i "Residencial los Almendros"
                                "residencial los almendros" 2%Z ex_lat ex_lng))
           [1; 2; 3]%Z
  /\ ~ (exists row, In (PostUnmatched row) (w_log (snd outcome))).
Proof.
  intros w outcome.
  assert (H := try_create_conflicts ex_texts_almendros ex_lat ex_lng 2%Z
                 (Some 31885955%Z) w _ _ _ _
                 (ex_always_conflicts ex_groups_no_l2) ex_almendros_candidate
                 (or_introl eq_refl) eq_refl).
  subst outcome. rewrite H. simpl.
  split; [reflexivity|]. split; [reflexivity|].
  intros (row & Hin). simpl in Hin.
  repeat (destruct Hin as [Hin | Hin]; [discriminate|]). exact Hin.
Qed.

End InsertConflict.

(** ** Discovery is idempotent *)

Section Idempotence.

Open Scope string_scope.




(** A successful insertion adds the entry under the returned id and leaves
    the cache and the upper levels alone. *)
Lemma insert_attempts_created (attempts : nat) (new_id : Z)
    (display_name normalized_name : string) (lat lng : R) (l3_id : Z)
    (w w1 : World) (i : Z) :
  insert_attempts attempts new_id display_name normalized_name lat lng l3_id w
  = (Some i, w1) ->
  w_groups w1
  = add_l2 i (auto_entry i display_name normalized_name lat lng l3_id) (w_groups w)
  /\ w_cache w1 = w_cache w.
Proof.
  revert new_id w. induction attempts as [|n IH]; intros new_id w H; [discriminate|].
  simpl in H. unfold post in H.
  destruct (w_store w (w_log w)
              (PostLocGroup2 (mkL2Row new_id display_name normalized_name l3_id lat lng)))
    as [returned_id| |].
  - injection H as <- <-. simpl. split; reflexivity.
  - apply IH in H. simpl in H. exact H.
  - discriminate.
Qed.


Lemma auto_entry_is_duplicate (i : Z) (display_name normalized_name : string)
    (lat lng : R) (l3_id : Z) :
  is_duplicate_of normalized_name (remove_location_prefixes normalized_name)
                  lat lng l3_id
                  (auto_entry i display_name normalized_name lat lng l3_id) = true.
Proof.
  unfold is_duplicate_of, auto_entry. simpl.
  rewrite Z.eqb_refl. simpl. rewrite String.eqb_refl. reflexivity.
Qed.




End Idempotence.

(** ** Nearest neighbourhood *)

Section Nearest.

Open Scope R_scope.

Lemma atan_nonneg (y : R) : 0 <= y -> 0 <= atan y.
Proof.
  intros [Hy | <-].
  - left. rewrite <- atan_0. apply atan_increasing. exact Hy.
  - right. symmetry. exact atan_0.
Qed.

Lemma asin_nonneg (x : R) : 0 <= x -> 0 <= asin x.
Proof.
  intro Hx. unfold asin.
  destruct (Rle_dec x (-1)) as [H | _]; [lra|].
  destruct (Rle_dec 1 x) as [_ | H1].
  - left. apply Rdiv_lt_0_compat; [apply PI_RGT_0 | lra].
  - apply atan_nonneg.
    assert (Hlt : x < 1) by lra.
    assert (Hpos : 0 < 1 - x²).
    { unfold Rsqr. nra. }
    apply Rmult_le_pos; [exact Hx|].
    left. apply Rinv_0_lt_compat. apply sqrt_lt_R0. exact Hpos.
Qed.

(** The distance is never negative. *)
Lemma haversine_nonneg (lat1 lon1 lat2 lon2 : R) :
  0 <= haversine_distance lat1 lon1 lat2 lon2.
Proof.
  unfold haversine_distance.
  apply Rmult_le_pos; [lra|].
  apply asin_nonneg, sqrt_pos.
Qed.

Lemma Rltb_true (a b : R) : a < b -> Rltb a b = true.
Proof. intro H. unfold Rltb. destruct (Rlt_dec a b); [reflexivity | contradiction]. Qed.

Lemma Rltb_false (a b : R) : ~ a < b -> Rltb a b = false.
Proof. intro H. unfold Rltb. destruct (Rlt_dec a b); [contradiction | reflexivity]. Qed.

Lemma Rleb_true (a b : R) : a <= b -> Rleb a b = true.
Proof. intro H. unfold Rleb. destruct (Rle_dec a b); [reflexivity | contradiction]. Qed.

(** A score of exactly 1 is reported as 1.0. *)
Lemma round2R_one (x : R) : x = 1 -> round2R x = 1%Q.
Proof.
  intros ->. unfold round2R, round_half_even_R.
  assert (Hi : Int_part (1 * 100) = 100%Z).
  { symmetry. apply Int_part_spec. lra. }
  rewrite Hi. rewrite Rltb_true by lra. reflexivity.
Qed.

(** The loop of Tier 1 over entries that are all strictly farther than 0
    ends with nothing or with a positive distance. *)
Lemma nearest_all_farther (lat lng : R) (entries : LevelData)
    (best : option (Z * R * string)) :
  (forall k info la lo, In (k, info) entries ->
     latitude info = Some la -> longitude info = Some lo ->
     0 < haversine_distance lat lng la lo) ->
  (forall k d nm, best = Some (k, d, nm) -> 0 < d) ->
  forall k d nm, fold_left (nearest_step lat lng) entries best = Some (k, d, nm) -> 0 < d.
Proof.
  revert best. induction entries as [|[k0 info0] l IH]; intros best Hfar Hbest; simpl.
  - exact Hbest.
  - apply IH.
    + intros k info la lo Hin. apply (Hfar k info la lo). right. exact Hin.
    + intros k d nm. unfold nearest_step.
      destruct (latitude info0) as [la|] eqn:Hla; [|exact (Hbest k d nm)].
      destruct (longitude info0) as [lo|] eqn:Hlo; [|exact (Hbest k d nm)].
      assert (Hd := Hfar k0 info0 la lo (or_introl eq_refl) Hla Hlo).
      destruct best as [[[kb db] nb]|].
      * destruct (Rltb (haversine_distance lat lng la lo) db).
        -- intro H. injection H as <- <- <-. exact Hd.
        -- exact (Hbest k d nm).
      * intro H. injection H as <- <- <-. exact Hd.
Qed.

(** Once an entry at distance 0 is held, the loop keeps it. *)
Lemma nearest_keeps_zero (lat lng : R) (entries : LevelData) (k : Z) (d : R)
    (nm : string) :
  d <= 0 ->
  fold_left (nearest_step lat lng) entries (Some (k, d, nm)) = Some (k, d, nm).
Proof.
  intro Hd. induction entries as [|[k0 info0] l IH]; simpl; [reflexivity|].
  destruct (latitude info0) as [la|]; [|exact IH].
  destruct (longitude info0) as [lo|]; [|exact IH].
  rewrite Rltb_false; [exact IH|].
  assert (H := haversine_nonneg lat lng la lo). lra.
Qed.

(** Tier 1 on an index holding an entry at the listing's point, with
    everything stored before it strictly farther. *)
Lemma nearest_l2_exact (lat lng : R) (before after : LevelData) (n_key : Z)
    (n_info : LocInfo) :
  latitude n_info = Some lat -> longitude n_info = Some lng ->
  (forall k info la lo, In (k, info) before ->
     latitude info = Some la -> longitude info = Some lo ->
     0 < haversine_distance lat lng la lo) ->
  nearest_l2 lat lng (before ++ (n_key, n_info) :: after)%list
  = Some (n_key, haversine_distance lat lng lat lng, name n_info).
Proof.
  intros Hla Hlo Hfar. unfold nearest_l2. rewrite fold_left_app. cbn [fold_left].
  assert (Hb := nearest_all_farther lat lng before None Hfar
                  ltac:(intros; discriminate)).
  set (b := fold_left (nearest_step lat lng) before None) in *.
  assert (Hstep : nearest_step lat lng b (n_key, n_info)
                  = Some (n_key, haversine_distance lat lng lat lng, name n_info)).
  { unfold nearest_step. rewrite Hla, Hlo.
    destruct b as [[[kb db] nb]|]; [|reflexivity].
    rewrite Rltb_true; [reflexivity|].
    rewrite haversine_self. exact (Hb kb db nb eq_refl). }
  rewrite Hstep. apply nearest_keeps_zero. rewrite haversine_self. lra.
Qed.

Lemma lookup_middle (before after : LevelData) (k : Z) (info : LocInfo) :
  NoDup (map fst (before ++ (k, info) :: after)%list) ->
  lookup k (before ++ (k, info) :: after)%list = Some info.
Proof.
  induction before as [|[k0 i0] l IH]; simpl; intro Hnd.
  - rewrite Z.eqb_refl. reflexivity.
  - inversion Hnd as [|? ? Hnotin Hnd']; subst.
    destruct (k0 =? k)%Z eqn:E.
    + apply Z.eqb_eq in E. subst k0. exfalso. apply Hnotin.
      rewrite map_app. apply in_or_app. right. left. reflexivity.
    + apply IH. exact Hnd'.
Qed.

(** The ids that [get_parent_chain] fills from a level-2 entry: the entry
    itself, then its stored parent when it has one. *)
Lemma chain_of_colonia (k : Z) (info : LocInfo) (groups : Groups) :
  lookup k (level2 groups) = Some info ->
  chain2 (get_parent_chain k L2 groups) = Some k
  /\ chain3 (get_parent_chain k L2 groups)
     = (if truthy_id (parent_id info) then parent_id info else None).
Proof.
  intro Hl. unfold get_parent_chain. simpl. rewrite Hl.
  destruct (parent_id info) as [p|]; [|split; reflexivity].
  simpl. destruct (p =? 0)%Z; [split; reflexivity|]. simpl.
  destruct (lookup p (level3 groups)) as [i3|]; [|split; reflexivity].
  destruct (parent_id i3) as [p3|]; [|split; reflexivity].
  destruct (p3 =? 0)%Z; [split; reflexivity|]. simpl.
  destruct (lookup p3 (level4 groups)) as [i4|]; [|split; reflexivity].
  destruct (parent_id i4) as [p4|]; [|split; reflexivity].
  destruct (p4 =? 0)%Z; split; reflexivity.
Qed.

(** Tier 1 accepts the nearest level-2 entry when it lies within the
    3 km radius. *)
Lemma match_by_coordinates_tier1 (lat lng : R) (texts : option Texts)
    (ext_id : option Z) (w : World) (k : Z) (d : R) (nm : string) :
  lat <> 0 -> lng <> 0 ->
  nearest_l2 lat lng (level2 (w_groups w)) = Some (k, d, nm) ->
  d <= 3 ->
  match_by_coordinates lat lng 3 20 texts ext_id w
  = (Some (update_chain
             (coordinate_result L2 (Rmax (1 / 2) (1 - d / 3)) (NameAndDistance nm d))
             (get_parent_chain k L2 (w_groups w))),
     w).
Proof.
  intros Hlat Hlng Hn Hd. unfold match_by_coordinates.
  destruct (Req_dec_T lat 0) as [E | _]; [contradiction|].
  destruct (Req_dec_T lng 0) as [E | _]; [contradiction|].
  simpl orb. cbv iota. simpl groups_get.
  destruct (level2 (w_groups w)) as [|e l2] eqn:El2; [discriminate|].
  rewrite Hn, (Rleb_true d 3 Hd). reflexivity.
Qed.

(** The score of a match at distance 0. *)
Lemma score_at_distance_zero : round2R (Rmax (1 / 2) (1 - 0 / 3)) = 1%Q.
Proof.
  apply round2R_one. unfold Rmax.
  destruct (Rle_dec (1 / 2) (1 - 0 / 3)); lra.
Qed.

(** C4, as amended.  For every listing whose (non-zero) coordinates
    exactly equal the stored coordinates of a level-2 node, no node stored
    before it in the index being equally close, coordinate matching
    returns level 2, that node's id as the level-2 id, score 1.0, source
    "coordinates", and the ancestry ids of the node's stored parent chain,
    followed through [parent_id] up to level 5. *)
Theorem exact_coordinates_match_the_node :
  forall (lat lng : R) (texts : option Texts) (ext_id : option Z) (w : World)
         (before after : LevelData) (n_key : Z) (n_info : LocInfo),
    lat <> 0 -> lng <> 0 ->
    level2 (w_groups w) = (before ++ (n_key, n_info) :: after)%list ->
    NoDup (map fst (level2 (w_groups w))) ->
    latitude n_info = Some lat -> longitude n_info = Some lng ->
    (forall k info la lo, In (k, info) before ->
       latitude info = Some la -> longitude info = Some lo ->
       0 < haversine_distance lat lng la lo) ->
    exists r,
      match_by_coordinates lat lng 3 20 texts ext_id w = (Some r, w)
      /\ matchLevel r = Some L2
      /\ locGroup2Id r = Some n_key
      /\ matchScore r = Some 1%Q
      /\ matchSource r = Some Coordinates
      /\ locGroup3Id r = (if truthy_id (parent_id n_info) then parent_id n_info else None)
      /\ mkChain (locGroup2Id r) (locGroup3Id r) (locGroup4Id r) (locGroup5Id r)
         = get_parent_chain n_key L2 (w_groups w).
Proof.
  intros lat lng texts ext_id w before after n_key n_info
         Hlat Hlng Hl2 Hnd Hla Hlo Hfar.
  (* Tier 1 ends on the node, at distance 0 *)
  assert (Hn : nearest_l2 lat lng (level2 (w_groups w)) = Some (n_key, 0, name n_info)).
  { rewrite Hl2, (nearest_l2_exact lat lng before after n_key n_info Hla Hlo Hfar).
    rewrite haversine_self. reflexivity. }
  (* the node is found again under its key *)
  assert (Hlook : lookup n_key (level2 (w_groups w)) = Some n_info).
  { rewrite Hl2. apply lookup_middle. rewrite <- Hl2. exact Hnd. }
  destruct (chain_of_colonia n_key n_info (w_groups w) Hlook) as [C2 C3].
  eexists. split.
  - apply (match_by_coordinates_tier1 lat lng texts ext_id w n_key 0 (name n_info)
             Hlat Hlng Hn). lra.
  - simpl. rewrite C2, C3, score_at_distance_zero.
    repeat split; try reflexivity.
    destruct (get_parent_chain n_key L2 (w_groups w)). simpl in *.
    rewrite C2, C3. reflexivity.
Qed.

Lemma ex_point_lat_nonzero : ex_point_lat <> 0.
Proof. unfold ex_point_lat. lra. Defined.

Lemma ex_point_lng_nonzero : ex_point_lng <> 0.
Proof. unfold ex_point_lng. lra. Defined.

Lemma ex_level2_keys : NoDup (map fst (level2 (w_groups (ex_world ex_groups always_conflict)))).
Proof. simpl. repeat constructor; simpl; intuition discriminate. Defined.

(** The theorem at the scenario of the specification: the listing sits
    exactly on "Colonia San Benito". *)
Lemma exact_coordinates_match_the_node_witness :
  let w := ex_world ex_groups always_conflict in
  exists r,
    match_by_coordinates ex_point_lat ex_point_lng 3 20 None None w = (Some r, w)
    /\ matchLevel r = Some L2
    /\ locGroup2Id r = Some 7%Z
    /\ matchScore r = Some 1%Q
    /\ matchSource r = Some Coordinates
    /\ locGroup3Id r = Some 1%Z
    /\ mkChain (locGroup2Id r) (locGroup3Id r) (locGroup4Id r) (locGroup5Id r)
       = get_parent_chain 7%Z L2 (w_groups w).
Proof.
  intro w.
  apply (exact_coordinates_match_the_node ex_point_lat ex_point_lng None None w
           [] [(8%Z, las_piletas)] 7%Z san_benito
           ex_point_lat_nonzero ex_point_lng_nonzero eq_refl ex_level2_keys
           eq_refl eq_refl).
  intros k info la lo Hin. contradiction.
Defined.

(** The claim C4 as stated fails on a tie: the listing sits exactly on
    "Residencial Las Piletas" (id 8), no node is closer, and the matcher
    returns "Colonia San Benito" (id 7), which is stored first at the same
    point. *)
Lemma equally_close_node_stored_first_wins :
  let w := ex_world ex_groups always_conflict in
  In (8%Z, las_piletas) (level2 (w_groups w))
  /\ latitude las_piletas = Some ex_point_lat
  /\ longitude las_piletas = Some ex_point_lng
  /\ (forall k info la lo, In (k, info) (level2 (w_groups w)) ->
        latitude info = Some la -> longitude info = Some lo ->
        ~ haversine_distance ex_point_lat ex_point_lng la lo
          < haversine_distance ex_point_lat ex_point_lng ex_point_lat ex_point_lng)
  /\ exists r,
       match_by_coordinates ex_point_lat ex_point_lng 3 20 None None w = (Some r, w)
       /\ locGroup2Id r = Some 7%Z
       /\ locGroup2Id r <> Some 8%Z.
Proof.
  intro w.
  split; [right; left; reflexivity|].
  split; [reflexivity|]. split; [reflexivity|].
  split.
  - intros k info la lo _ _ _. rewrite haversine_self.
    assert (H := haversine_nonneg ex_point_lat ex_point_lng la lo). lra.
  - assert (Hn : nearest_l2 ex_point_lat ex_point_lng (level2 (w_groups w))
                 = Some (7%Z, 0, name san_benito)).
    { change (level2 (w_groups w)) with ([] ++ (7%Z, san_benito) :: [(8%Z, las_piletas)])%list.
      rewrite (nearest_l2_exact ex_point_lat ex_point_lng [] [(8%Z, las_piletas)]
                 7%Z san_benito eq_refl eq_refl
                 ltac:(intros k info la lo Hin; contradiction)).
      rewrite haversine_self. reflexivity. }
    eexists. split.
    + apply (match_by_coordinates_tier1 ex_point_lat ex_point_lng None None w 7%Z 0
               (name san_benito) ex_point_lat_nonzero ex_point_lng_nonzero Hn). lra.
    + split; [reflexivity | discriminate].
Qed.

End Nearest.

(** ** Municipality before department: where the claim fails *)

Section MunicipalityLoses.

Open Scope string_scope.

(** The listing on the example point is matched by its coordinates, to
    the colonia stored there. *)
Lemma located_listing_matches_by_coordinates :
  let w := ex_world ex_groups_delicias always_conflict in
  option_map locGroup3Id (fst (match_listing listing_antiguo_cuscatlan_located w))
  = Some (Some 2%Z).
Proof.
  intro w. unfold match_listing, coordinate_attempt.
  cbn [listing_antiguo_cuscatlan_located listing_location loc_latitude loc_longitude].
  change 13.6969%R with ex_point_lat. change (-89.2341)%R with ex_point_lng.
  rewrite (usable_nonzero ex_point_lat ex_point_lng
             ex_point_lat_nonzero ex_point_lng_nonzero).
  assert (Hn : nearest_l2 ex_point_lat ex_point_lng (level2 (w_groups w))
               = Some (9%Z, 0%R, name las_delicias)).
  { change (level2 (w_groups w)) with ([] ++ (9%Z, las_delicias) :: [])%list.
    rewrite (nearest_l2_exact ex_point_lat ex_point_lng [] [] 9%Z las_delicias
               eq_refl eq_refl ltac:(intros k info la lo Hin; contradiction)).
    rewrite haversine_self. reflexivity. }
  rewrite (match_by_coordinates_tier1 ex_point_lat ex_point_lng _ _ w 9%Z 0%R
             (name las_delicias) ex_point_lat_nonzero ex_point_lng_nonzero Hn
             ltac:(lra)).
  reflexivity.
Qed.

(** The claim C5 as stated fails in three ways.  The department name
    "cuscatlan" is a proper substring of the municipality name "antiguo
    cuscatlan", and the title contains the full municipality name; yet
    - a listing whose title also names "Santa Tecla", which comes first
      in the index, resolves to Santa Tecla;
    - a listing with coordinates is matched by them, here to a colonia of
      Santa Tecla, before any text is read;
    - a listing whose title contains the name, but not as whole words
      ("Antiguo Cuscatlan_Sur"), is not matched at all. *)
Lemma named_municipality_can_lose :
  (let w := ex_world ex_groups_swapped always_conflict in
   In (101%Z, cuscatlan) (groups_get (w_groups w) L5)
   /\ In (1%Z, antiguo_cuscatlan) (groups_get (w_groups w) L3)
   /\ contains (normalized cuscatlan) (normalized antiguo_cuscatlan) = true
   /\ normalized cuscatlan <> normalized antiguo_cuscatlan
   /\ word_search (normalized antiguo_cuscatlan)
                  (title (extract_searchable_text listing_two_municipalities)) = true
   /\ option_map locGroup3Id (fst (match_listing listing_two_municipalities w))
      = Some (Some 2%Z))
  /\ (let w := ex_world ex_groups_delicias always_conflict in
      In (101%Z, cuscatlan) (groups_get (w_groups w) L5)
      /\ In (1%Z, antiguo_cuscatlan) (groups_get (w_groups w) L3)
      /\ word_search (normalized antiguo_cuscatlan)
                     (title (extract_searchable_text listing_antiguo_cuscatlan_located))
         = true
      /\ option_map locGroup3Id
                    (fst (match_listing listing_antiguo_cuscatlan_located w))
         = Some (Some 2%Z))
  /\ (let w := ex_world ex_groups always_conflict in
      In (101%Z, cuscatlan) (groups_get (w_groups w) L5)
      /\ In (1%Z, antiguo_cuscatlan) (groups_get (w_groups w) L3)
      /\ contains (normalized antiguo_cuscatlan)
                  (title (extract_searchable_text listing_run_together)) = true
      /\ word_search (normalized antiguo_cuscatlan)
                     (title (extract_searchable_text listing_run_together)) = false
      /\ fst (match_listing listing_run_together w) = None).
Proof.
  split; [|split].
  - intro w. repeat split; try reflexivity.
    + right. left. reflexivity.
    + right. left. reflexivity.
    + discriminate.
  - intro w. split; [right; left; reflexivity|].
    split; [left; reflexivity|]. split; [reflexivity|].
    exact located_listing_matches_by_coordinates.
  - intro w. split; [right; left; reflexivity|].
    split; [left; reflexivity|]. repeat split; reflexivity.
Qed.

End MunicipalityLoses.

(** ** Insert conflicts: the scenario with and without colonias nearby *)

Section InsertConflictScenario.

Open Scope R_scope.
Open Scope string_scope.

(** *** Distances of the example *)

(** The arc sine of a positive number is above it. *)
Lemma asin_ge_arg (x : R) : 0 < x -> x <= 1 -> x < asin x.
Proof.
  intros Hpos Hle.
  assert (Hb := asin_bound x).
  assert (Hs : sin (asin x) = x) by (apply sin_asin; lra).
  destruct (Rle_or_lt (asin x) 0) as [Hneg | Hgt].
  - exfalso.
    assert (H0 : 0 <= sin (- asin x)).
    { apply sin_ge_0; [lra|]. assert (HP := PI_RGT_0). lra. }
    rewrite sin_neg, Hs in H0. lra.
  - assert (H := sin_lt_x (asin x) Hgt). lra.
Qed.

(** The first terms of the cosine and sine series bound them from
    below. *)
Lemma cos_lower (a : R) : 0 <= a -> a <= 1 -> 1 - a * a / 2 <= cos a.
Proof.
  intros H0 H1.
  assert (HP := PI2_1).
  assert (H := cos_bound a 0 ltac:(lra) ltac:(lra)).
  destruct H as [H _].
  unfold cos_approx, cos_term in H. simpl in H.
  lra.
Qed.

Lemma sin_lower (a : R) : 0 <= a -> a <= 1 -> a - a * a * a / 6 <= sin a.
Proof.
  intros H0 H1.
  assert (HP := PI2_1).
  assert (H := sin_bound a 0 H0 ltac:(lra)).
  destruct H as [H _].
  unfold sin_approx, sin_term in H. simpl in H.
  lra.
Qed.

Lemma PI_above_3 : 3 < PI.
Proof. assert (H := PI2_3_2). lra. Qed.

(** Two points on the parallel of the example listing, a fifth of a
    degree of longitude apart, are more than 3 km apart. *)
Lemma fifth_of_a_degree_apart (lo lo' : R) :
  lo' - lo = 2 / 10 \/ lo' - lo = - (2 / 10) ->
  3 < haversine_distance ex_lat lo ex_lat lo'.
Proof.
  intro Hd. unfold haversine_distance.
  replace (ex_lat - ex_lat) with 0 by lra.
  rewrite radians_0. replace (0 / 2) with 0 by lra. rewrite sin_0.
  assert (HP3 := PI_above_3). assert (HP4 := PI_4).
  set (x := radians ex_lat).
  set (y := PI / 1800).
  assert (Hx : 0 <= x <= 31 / 100).
  { unfold x, radians, ex_lat. split; nra. }
  assert (Hy : 1 / 600 < y <= 1 / 450) by (unfold y; lra).
  assert (Hc : 9 / 10 <= cos x).
  { assert (H := cos_lower x ltac:(lra) ltac:(lra)). nra. }
  assert (Hs : 16 / 10000 <= sin y).
  { assert (H := sin_lower y ltac:(lra) ltac:(lra)). nra. }
  assert (Hc1 : cos x <= 1) by (destruct (COS_bound x); lra).
  assert (Hs1 : sin y <= 1) by (destruct (SIN_bound y); lra).
  assert (Ha : sin (radians (lo' - lo) / 2) ^ 2 = sin y * sin y).
  { destruct Hd as [-> | ->].
    - replace (radians (2 / 10) / 2) with y by (unfold y, radians; lra). ring.
    - replace (radians (- (2 / 10)) / 2) with (- y) by (unfold y, radians; lra).
      rewrite sin_neg. ring. }
  rewrite Ha.
  replace (0 ^ 2 + cos x * cos x * (sin y * sin y))
    with ((cos x * sin y) * (cos x * sin y)) by ring.
  rewrite sqrt_square by nra.
  assert (Hcs : 144 / 100000 <= cos x * sin y) by nra.
  assert (Hcs1 : cos x * sin y <= 1) by nra.
  assert (H := asin_ge_arg (cos x * sin y) ltac:(lra) Hcs1).
  lra.
Qed.

Lemma Rleb_false (a b : R) : ~ a <= b -> Rleb a b = false.
Proof. intro H. unfold Rleb. destruct (Rle_dec a b); [contradiction | reflexivity]. Qed.

(** *** Two colonias nearby *)

Lemma ex_far_candidate :
  extract_colonia_candidate ex_texts_almendros ex_groups_far None
  = (Some ("Residencial los Almendros", "residencial los almendros", Title),
     Some ex_stop_names).
Proof. reflexivity. Qed.

Lemma ex_far_east : 3 < haversine_distance ex_lat ex_lng 13.6769 (-89.0797).
Proof.
  change 13.6769 with ex_lat. apply fifth_of_a_degree_apart. left. unfold ex_lng. lra.
Qed.

Lemma ex_far_west : 3 < haversine_distance ex_lat ex_lng 13.6769 (-89.4797).
Proof.
  change 13.6769 with ex_lat. apply fifth_of_a_degree_apart. right. unfold ex_lng. lra.
Qed.

(** Tier 1 finds no colonia within 3 km of the listing. *)
Lemma ex_far_nearest_l2 :
  forall k d nm,
    nearest_l2 ex_lat ex_lng (level2 ex_groups_far) = Some (k, d, nm) -> 3 < d.
Proof.
  intros k d nm. unfold nearest_l2.
  cbn [level2 ex_groups_far fold_left nearest_step colonia_east colonia_west
       latitude longitude name].
  destruct (Rltb _ _); intro H; injection H as _ <- _;
    [exact ex_far_west | exact ex_far_east].
Qed.

(** Tier 2: the centroid of the two colonias is the listing's point. *)
Lemma ex_far_nearest_l3 :
  nearest_l3 ex_lat ex_lng ex_groups_far = Some (2%Z, 0, "Santa Tecla").
Proof.
  unfold nearest_l3, l3_centroids.
  cbn [groups_get level2 ex_groups_far fold_left centroid_step centroid_add
       colonia_east colonia_west latitude longitude parent_id snd Z.eqb Pos.eqb
       nearest_centroid_step Nat.eqb].
  replace ((0 + 13.6769 + 13.6769) / INR 2) with ex_lat
    by (unfold ex_lat; simpl INR; lra).
  replace ((0 + -89.0797 + -89.4797) / INR 2) with ex_lng
    by (unfold ex_lng; simpl INR; lra).
  rewrite haversine_self. reflexivity.
Qed.

(** What the coordinate matcher answers for the listing before discovery
    is attempted: the municipality Santa Tecla, found by Tier 2. *)
Lemma ex_far_tier2 :
  match_by_coordinates ex_lat ex_lng 3 20 None (Some 31885955%Z)
                       (ex_world ex_groups_far always_conflict)
  = (Some (update_chain
             (coordinate_result L3 (Rmax (4 / 10) (9 / 10 - 0 / 20))
                                (NameAndDistance "Santa Tecla" 0))
             (get_parent_chain 2%Z L3 ex_groups_far)),
     ex_world ex_groups_far always_conflict).
Proof.
  unfold match_by_coordinates.
  destruct (Req_dec_T ex_lat 0) as [E | _]; [exact (False_ind _ (ex_lat_nonzero E))|].
  destruct (Req_dec_T ex_lng 0) as [E | _]; [exact (False_ind _ (ex_lng_nonzero E))|].
  cbn [orb w_groups ex_world groups_get].
  assert (H2 := ex_far_nearest_l2).
  destruct (nearest_l2 ex_lat ex_lng (level2 ex_groups_far)) as [[[k d] nm]|].
  - cbn [level2 ex_groups_far].
    rewrite (Rleb_false d 3) by (specialize (H2 k d nm eq_refl); lra).
    rewrite ex_far_nearest_l3, (Rleb_true 0 20) by lra. reflexivity.
  - cbn [level2 ex_groups_far].
    rewrite ex_far_nearest_l3, (Rleb_true 0 20) by lra. reflexivity.
Qed.

(** No colonia of the example is a duplicate of the candidate: the names
    differ and both are more than 1 km away. *)
Lemma ex_far_no_duplicate :
  truthy_id (check_l2_duplicate "residencial los almendros" ex_lat ex_lng 2%Z
                                (w_groups (ex_world ex_groups_far always_conflict)))
  = false.
Proof.
  unfold check_l2_duplicate.
  cbn [groups_get w_groups ex_world level2 ex_groups_far List.find snd].
  assert (He : is_duplicate_of "residencial los almendros"
                 (remove_location_prefixes "residencial los almendros")
                 ex_lat ex_lng 2 colonia_east
               = Rltb (haversine_distance ex_lat ex_lng 13.6769 (-89.0797))
                      L2_DEDUP_RADIUS_KM) by reflexivity.
  assert (Hw : is_duplicate_of "residencial los almendros"
                 (remove_location_prefixes "residencial los almendros")
                 ex_lat ex_lng 2 colonia_west
               = Rltb (haversine_distance ex_lat ex_lng 13.6769 (-89.4797))
                      L2_DEDUP_RADIUS_KM) by reflexivity.
  rewrite He, Hw.
  rewrite !Rltb_false; [reflexivity | |];
    unfold L2_DEDUP_RADIUS_KM;
    [assert (H := ex_far_west) | assert (H := ex_far_east)]; lra.
Qed.

(** *** No colonia loaded *)

Lemma ex_no_coordinate_match :
  fst (coordinate_attempt ex_texts_almendros (Some ex_lat) (Some ex_lng)
                          (Some 31885955%Z) (ex_world ex_groups_no_l2 always_conflict))
  = None.
Proof.
  unfold coordinate_attempt.
  rewrite (usable_nonzero ex_lat ex_lng ex_lat_nonzero ex_lng_nonzero).
  unfold match_by_coordinates.
  destruct (Req_dec_T ex_lat 0) as [E | _]; [exact (False_ind _ (ex_lat_nonzero E))|].
  destruct (Req_dec_T ex_lng 0) as [E | _]; [exact (False_ind _ (ex_lng_nonzero E))|].
  reflexivity.
Defined.

(** The theorem at the scenario "Residencial Los Almendros" in Santa
    Tecla, with a store that reports a conflict on every attempt.  With
    no colonia loaded the municipality is found in the title, and both
    orchestrators leave the listing with that level-3 match.  With two
    colonias of Santa Tecla loaded, both more than 3 km away, the
    municipality is found by the coordinates (Tier 2), and
    [match_by_coordinates] and both orchestrators leave the listing with
    that level-3 match. *)
Lemma insert_conflict_keeps_municipality_match_witness :
  (let w := ex_world ex_groups_no_l2 always_conflict in
   fst (try_create_l2_from_listing ex_texts_almendros ex_lat ex_lng 2%Z
                                   (Some 31885955%Z) w) = None
   /\ fst (match_listing_with_texts ex_texts_almendros (Some ex_lat) (Some ex_lng)
                                    (Some 31885955%Z) w)
      = municipality_match None (get_parent_chain_local (w_groups w) 2%Z L3)
                           1%Q Title "Santa Tecla"
   /\ fst (match_listing listing_almendros w)
      = Some (municipality_match (Some 31885955%Z)
                                 (get_parent_chain 2%Z L3 (w_groups w))
                                 (1 * 1)%Q Title "Santa Tecla"))
  /\ (let w := ex_world ex_groups_far always_conflict in
      let r := update_chain
                 (coordinate_result L3 (Rmax (4 / 10) (9 / 10 - 0 / 20))
                                    (NameAndDistance "Santa Tecla" 0))
                 (get_parent_chain 2%Z L3 ex_groups_far) in
      matchLevel r = Some L3
      /\ locGroup3Id r = Some 2%Z
      /\ fst (try_create_l2_from_listing ex_texts_almendros ex_lat ex_lng 2%Z
                                         (Some 31885955%Z) w) = None
      /\ fst (match_by_coordinates ex_lat ex_lng 3 20 (Some ex_texts_almendros)
                                   (Some 31885955%Z) w) = Some r
      /\ fst (match_listing_with_texts ex_texts_almendros (Some ex_lat) (Some ex_lng)
                                       (Some 31885955%Z) w) = r
      /\ fst (match_listing listing_almendros w)
         = Some (set_external_id r (Some 31885955%Z))).
Proof.
  split.
  - intro w.
    destruct (insert_conflict_keeps_municipality_match
                ex_texts_almendros ex_lat ex_lng (Some 31885955%Z) w
                "Residencial los Almendros" "residencial los almendros" Title _
                2%Z
                (ex_always_conflicts ex_groups_no_l2) ex_lat_nonzero ex_lng_nonzero
                ex_almendros_candidate (or_introl eq_refl) eq_refl)
      as (_ & Ht & _ & _ & _ & Htexts & Hlisting).
    split; [rewrite Ht; reflexivity|]. split.
    + destruct (Htexts 1%Q "Santa Tecla" Title eq_refl eq_refl) as [_ Hm].
      rewrite (Hm ex_no_coordinate_match). reflexivity.
    + rewrite (Hlisting (1 * 1)%Q "Santa Tecla" Title listing_almendros
                 eq_refl eq_refl eq_refl eq_refl eq_refl eq_refl
                 ltac:(intros l2_id l2_score l2_text l2_source H; discriminate H)
                 ex_no_coordinate_match).
      reflexivity.
  - intros w r.
    destruct (insert_conflict_keeps_municipality_match
                ex_texts_almendros ex_lat ex_lng (Some 31885955%Z) w
                "Residencial los Almendros" "residencial los almendros" Title _
                2%Z
                (ex_always_conflicts ex_groups_far) ex_lat_nonzero ex_lng_nonzero
                ex_far_candidate (or_introl eq_refl) ex_far_no_duplicate)
      as (_ & Ht & _ & Htier3 & Hcoords & _).
    assert (Hr : fst (match_by_coordinates ex_lat ex_lng 3 20 None (Some 31885955%Z) w)
                 = Some r) by (unfold w; rewrite ex_far_tier2; reflexivity).
    split; [reflexivity|]. split; [reflexivity|].
    split; [rewrite Ht; reflexivity|].
    split; [rewrite (Htier3 3 20 r Hr eq_refl eq_refl); reflexivity|].
    destruct (Hcoords r Hr eq_refl eq_refl) as [Htexts Hlisting].
    split; [rewrite Htexts; reflexivity|].
    rewrite (Hlisting listing_almendros eq_refl eq_refl eq_refl eq_refl). reflexivity.
Defined.

End InsertConflictScenario.

(* ================================================================== *)
(** * Further properties of the code *)
(* ================================================================== *)

(** ** normalize_text is idempotent *)

Section NormaliseTwice.

Open Scope string_scope.

Lemma rstrip_cons (c : ascii) (s : string) :
  rstrip (String c s)
  = match rstrip s with
    | EmptyString => if is_space c then EmptyString else String c EmptyString
    | r => String c r
    end.
Proof. reflexivity. Qed.

Lemma rstrip_idem (s : string) : rstrip (rstrip s) = rstrip s.
Proof.
  induction s as [|c s IH]; [reflexivity|].
  rewrite (rstrip_cons c s). destruct (rstrip s) as [|d r] eqn:E.
  - destruct (is_space c) eqn:Hc; [reflexivity|].
    rewrite rstrip_cons. cbn [rstrip]. rewrite Hc. reflexivity.
  - rewrite (rstrip_cons c (String d r)), IH. reflexivity.
Qed.

Lemma lstrip_clean (s : string) : starts_clean (lstrip s).
Proof.
  induction s as [|c s IH]; [exact I|].
  cbn [lstrip]. destruct (is_space c) eqn:Hc; [exact IH | exact Hc].
Qed.

Lemma lstrip_of_clean (s : string) : starts_clean s -> lstrip s = s.
Proof.
  destruct s as [|c s]; [reflexivity|].
  simpl. intros ->. reflexivity.
Qed.

Lemma rstrip_clean (s : string) : starts_clean s -> starts_clean (rstrip s).
Proof.
  destruct s as [|c s]; [intros _; exact I|].
  cbn [starts_clean rstrip]. intro Hc.
  destruct (rstrip s); [rewrite Hc|]; exact Hc.
Qed.

Lemma strip_idem (s : string) : strip (strip s) = strip s.
Proof.
  unfold strip.
  rewrite (lstrip_of_clean (rstrip (lstrip s))
             (rstrip_clean _ (lstrip_clean s))).
  apply rstrip_idem.
Qed.

(** *** Reading a text character by character *)

Lemma string_ind2 (P : string -> Prop) :
  P EmptyString ->
  (forall c, P (String c EmptyString)) ->
  (forall c1 c2 s, P s -> P (String c2 s) -> P (String c1 (String c2 s))) ->
  forall s, P s.
Proof.
  intros H0 H1 H2.
  assert (H : forall s, P s /\ forall c, P (String c s)).
  { induction s as [|d s [IHs IHc]].
    - split; [exact H0 | exact H1].
    - split; [apply IHc|]. intro c. apply H2; [exact IHs | apply IHc]. }
  intro s. apply H.
Qed.

Lemma append_empty (s : string) : s ++ "" = s.
Proof. induction s as [|c s IH]; [reflexivity|]. cbn [append]. rewrite IH. reflexivity. Qed.

Lemma append_assoc3 (a b c : string) : (a ++ b) ++ c = a ++ (b ++ c).
Proof. induction a as [|x a IH]; [reflexivity|]. cbn [append]. rewrite IH. reflexivity. Qed.

Lemma map_chars_cons (one : ascii -> string) (two : ascii -> ascii -> string)
    (c1 : ascii) (rest : string) :
  map_chars one two (String c1 rest)
  = if is_lead2 c1 then
      match rest with
      | String c2 rest' => two c1 c2 ++ map_chars one two rest'
      | EmptyString => one c1
      end
    else one c1 ++ map_chars one two rest.
Proof. reflexivity. Qed.

Lemma map_chars_app (one : ascii -> string) (two : ascii -> ascii -> string)
    (o r : string) :
  whole o = true ->
  map_chars one two (o ++ r) = map_chars one two o ++ map_chars one two r.
Proof.
  induction o as [|c|c1 c2 s IH1 IH2] using string_ind2; intro H.
  - reflexivity.
  - cbn [whole] in H. cbn [append]. rewrite !map_chars_cons.
    destruct (is_lead2 c); [discriminate H|].
    cbn [map_chars]. rewrite append_empty. reflexivity.
  - cbn [whole] in H.
    change (String c1 (String c2 s) ++ r) with (String c1 (String c2 s ++ r)).
    rewrite (map_chars_cons one two c1 (String c2 s ++ r)),
            (map_chars_cons one two c1 (String c2 s)).
    destruct (is_lead2 c1) eqn:E.
    + cbn [append]. rewrite (IH1 H), append_assoc3. reflexivity.
    + rewrite (IH2 H), append_assoc3. reflexivity.
Qed.

(** *** Settled text *)

Lemma settled_tail (c : ascii) (s : string) :
  settled (String c s) = true -> settled s = true.
Proof. cbn [settled]. intro H. apply andb_prop in H. tauto. Qed.

Lemma map_chars_settled (one : ascii -> string) (two : ascii -> ascii -> string) :
  (forall c, is_lead2 c || negb (is_upper c) = true -> one c = String c "") ->
  (forall l b, settled_pair l b = true -> two l b = String l (String b "")) ->
  forall s, settled s = true -> map_chars one two s = s.
Proof.
  intros Hone Htwo s.
  induction s as [|c|c1 c2 s IH1 IH2] using string_ind2; intro H.
  - reflexivity.
  - cbn [settled Str.head] in H. unfold settled_byte in H.
    rewrite map_chars_cons. cbn [map_chars]. destruct (is_lead2 c) eqn:E.
    + apply Hone. rewrite E. reflexivity.
    + rewrite Hone, append_empty; [reflexivity|].
      rewrite E. rewrite andb_true_r in H. exact H.
  - assert (Hrest := settled_tail _ _ H).
    cbn [settled Str.head] in H. apply andb_prop in H. destruct H as [Hb _].
    unfold settled_byte in Hb. rewrite map_chars_cons.
    destruct (is_lead2 c1) eqn:E.
    + rewrite (Htwo _ _ Hb), (IH1 (settled_tail _ _ Hrest)). reflexivity.
    + rewrite Hone, (IH2 Hrest); [reflexivity|]. rewrite E. exact Hb.
Qed.

Lemma lower_char_fixed (c : ascii) :
  is_lead2 c || negb (is_upper c) = true -> lower_char c = c.
Proof.
  destruct c as [[] [] [] [] [] [] [] []]; intro H;
    first [reflexivity | (vm_compute in H; discriminate H)].
Qed.

Lemma settled_pair_cases (l b : ascii) :
  settled_pair l b = true ->
  is_mark l b = false
  /\ ((code l =? 195)%nat = true ->
      is_latin1_upper b = false /\ decompose b = None).
Proof.
  unfold settled_pair, is_mark. intro H.
  destruct (code l =? 194)%nat eqn:E2.
  - apply Nat.eqb_eq in E2. rewrite E2. split; [reflexivity | discriminate].
  - cbn [orb] in H. apply andb_prop in H. destruct H as [H Hd].
    apply andb_prop in H. destruct H as [E3 Hu].
    apply Nat.eqb_eq in E3. rewrite E3. split; [reflexivity|]. intros _.
    split; [destruct (is_latin1_upper b); [discriminate Hu | reflexivity]|].
    destruct (decompose b); [discriminate Hd | reflexivity].
Qed.

Lemma lower_settled (s : string) : settled s = true -> lower s = s.
Proof.
  apply map_chars_settled.
  - intros c H. rewrite (lower_char_fixed c H). reflexivity.
  - intros l b H. destruct (settled_pair_cases l b H) as [_ H3].
    destruct (code l =? 195)%nat; [|reflexivity].
    destruct (H3 eq_refl) as [-> _]. reflexivity.
Qed.

Lemma nfd_settled (s : string) : settled s = true -> nfd s = s.
Proof.
  apply map_chars_settled.
  - reflexivity.
  - intros l b H. destruct (settled_pair_cases l b H) as [_ H3].
    destruct (code l =? 195)%nat; [|reflexivity].
    destruct (H3 eq_refl) as [_ ->]. reflexivity.
Qed.

Lemma drop_marks_settled (s : string) : settled s = true -> drop_marks s = s.
Proof.
  apply map_chars_settled.
  - reflexivity.
  - intros l b H. destruct (settled_pair_cases l b H) as [-> _]. reflexivity.
Qed.

Lemma settled_byte_last (c : ascii) (next : option ascii) :
  settled_byte c next = true -> settled_byte c None = true.
Proof. unfold settled_byte. destruct (is_lead2 c); [reflexivity | trivial]. Qed.

Lemma settled_drop (k : nat) (s : string) :
  settled s = true -> settled (drop k s) = true.
Proof.
  revert s. induction k as [|k IH]; intros s H; [exact H|].
  destruct s as [|c s]; [reflexivity|].
  cbn [drop]. apply IH. exact (settled_tail _ _ H).
Qed.

Lemma settled_lstrip (s : string) : settled s = true -> settled (lstrip s) = true.
Proof.
  induction s as [|c s IH]; [reflexivity|].
  cbn [lstrip]. destruct (is_space c); [|trivial].
  intro H. apply IH. exact (settled_tail _ _ H).
Qed.

Lemma head_rstrip (s : string) :
  rstrip s = EmptyString \/ Str.head (rstrip s) = Str.head s.
Proof.
  destruct s as [|c s]; [left; reflexivity|].
  rewrite rstrip_cons. destruct (rstrip s); [destruct (is_space c)|]; auto.
Qed.

Lemma settled_cons (c : ascii) (rest : string) :
  settled (String c rest) = settled_byte c (Str.head rest) && settled rest.
Proof. reflexivity. Qed.

Lemma settled_rstrip (s : string) : settled s = true -> settled (rstrip s) = true.
Proof.
  induction s as [|c s IH]; [reflexivity|].
  intro H. assert (Hs := IH (settled_tail _ _ H)).
  rewrite settled_cons in H. apply andb_prop in H. destruct H as [Hc _].
  rewrite rstrip_cons. destruct (head_rstrip s) as [E|E].
  - rewrite E. destruct (is_space c); [reflexivity|].
    cbn [settled Str.head]. rewrite (settled_byte_last _ _ Hc). reflexivity.
  - destruct (rstrip s) as [|d r] eqn:Er.
    + destruct (is_space c); [reflexivity|].
      cbn [settled Str.head]. rewrite (settled_byte_last _ _ Hc). reflexivity.
    + rewrite settled_cons, E, Hc. exact Hs.
Qed.

Lemma settled_strip (s : string) : settled s = true -> settled (strip s) = true.
Proof. intro H. unfold strip. apply settled_rstrip, settled_lstrip, H. Qed.

Lemma settled_app (x y : string) :
  settled x = true -> closed x = true -> settled y = true ->
  settled (x ++ y) = true.
Proof.
  intros Hx Hc Hy. induction x as [|c x IH]; [exact Hy|].
  assert (Hx' := settled_tail _ _ Hx).
  cbn [settled] in Hx. apply andb_prop in Hx. destruct Hx as [Hb _].
  cbn [append settled]. destruct x as [|d x].
  - cbn [append]. cbn [closed] in Hc. unfold settled_byte in *.
    destruct (is_lead2 c); [discriminate Hc|]. rewrite Hb, Hy. reflexivity.
  - cbn [append Str.head] in *. rewrite Hb. cbn [andb].
    apply IH; [exact Hx' | exact Hc].
Qed.

(** *** What the three steps make of a text *)

Lemma all_bytes_complete (c : ascii) : In c all_bytes.
Proof.
  unfold all_bytes. rewrite <- (ascii_nat_embedding c).
  apply in_map, in_seq. pose proof (nat_ascii_bounded c). lia.
Qed.

Lemma settles_ascii_all :
  forallb (fun c => if (code c <? 128)%nat then settles (String c "") else true)
          all_bytes = true.
Proof. vm_compute. reflexivity. Qed.

Lemma settles_pair_all :
  forallb (fun l =>
             forallb (fun b => if latin1_pair l b
                               then is_lead2 l && settles (String l (String b ""))
                               else true)
                     all_bytes)
          all_bytes = true.
Proof. vm_compute. reflexivity. Qed.

Lemma settles_ascii (c : ascii) :
  (code c <? 128)%nat = true -> settles (String c "") = true.
Proof.
  intro H. pose proof settles_ascii_all as A.
  rewrite forallb_forall in A. specialize (A c (all_bytes_complete c)).
  rewrite H in A. exact A.
Qed.

Lemma settles_pair (l b : ascii) :
  latin1_pair l b = true -> settles (String l (String b "")) = true.
Proof.
  intro H. pose proof settles_pair_all as A.
  rewrite forallb_forall in A. specialize (A l (all_bytes_complete l)).
  rewrite forallb_forall in A. specialize (A b (all_bytes_complete b)).
  rewrite H in A. apply andb_prop in A. tauto.
Qed.

Lemma settles_step (o r : string) :
  settles o = true -> settled (drop_marks (nfd (lower r))) = true ->
  settled (drop_marks (nfd (lower (o ++ r)))) = true.
Proof.
  unfold settles. intros H Hr.
  apply andb_prop in H. destruct H as [H Hc].
  apply andb_prop in H. destruct H as [H Hs].
  apply andb_prop in H. destruct H as [H H3].
  apply andb_prop in H. destruct H as [H1 H2].
  unfold lower at 1. rewrite (map_chars_app _ _ o r H1). fold (lower o) (lower r).
  unfold nfd at 1. rewrite (map_chars_app _ _ (lower o) (lower r) H2).
  fold (nfd (lower o)) (nfd (lower r)).
  unfold drop_marks at 1.
  rewrite (map_chars_app _ _ (nfd (lower o)) (nfd (lower r)) H3).
  fold (drop_marks (nfd (lower o))) (drop_marks (nfd (lower r))).
  apply settled_app; assumption.
Qed.

Lemma pipeline_settled (text : string) :
  latin1_text text = true -> settled (drop_marks (nfd (lower text))) = true.
Proof.
  induction text as [|c|c1 c2 s IH1 IH2] using string_ind2; intro H.
  - reflexivity.
  - cbn [latin1_text] in H. destruct (code c <? 128)%nat eqn:E; [|discriminate H].
    pose proof (settles_ascii c E) as A. unfold settles in A.
    apply andb_prop in A. destruct A as [A _].
    apply andb_prop in A. tauto.
  - cbn [latin1_text] in H. destruct (code c1 <? 128)%nat eqn:E.
    + change (String c1 (String c2 s)) with (String c1 "" ++ String c2 s).
      apply settles_step; [apply settles_ascii; exact E | apply IH2; exact H].
    + apply andb_prop in H. destruct H as [Hp Hs].
      change (String c1 (String c2 s)) with (String c1 (String c2 "") ++ s).
      apply settles_step; [apply settles_pair; exact Hp | apply IH1; exact Hs].
Qed.

Lemma normalize_text_settled (text : string) :
  latin1_text text = true -> settled (normalize_text text) = true.
Proof.
  intro H. unfold normalize_text. destruct (nonempty text); [|reflexivity].
  apply settled_strip, pipeline_settled, H.
Qed.

Lemma strip_normalize_text (text : string) :
  strip (normalize_text text) = normalize_text text.
Proof.
  unfold normalize_text. destruct (nonempty text); [apply strip_idem | reflexivity].
Qed.

(** A settled and trimmed text is in normal form. *)
Lemma normalize_text_of_settled (s : string) :
  settled s = true -> strip s = s -> normalize_text s = s.
Proof.
  intros H Hs. unfold normalize_text.
  destruct (nonempty s) eqn:E.
  - rewrite (lower_settled s H), (nfd_settled s H), (drop_marks_settled s H).
    exact Hs.
  - destruct s; [reflexivity | discriminate E].
Qed.

(** On text of ASCII characters, of the characters U+00A1 to U+00FF and
    of combining marks, which holds the Spanish alphabet, normalising a
    normalised text changes nothing: the normalised text has no uppercase
    letter, no letter with an accent and no combining mark left, and it
    is trimmed.  In particular a search name, normalised on load, can be
    normalised again by a caller without effect. *)
Theorem normalize_text_idempotent (text : string) :
  latin1_text text = true ->
  normalize_text (normalize_text text) = normalize_text text
  /\ lower (normalize_text text) = normalize_text text
  /\ nfd (normalize_text text) = normalize_text text
  /\ drop_marks (normalize_text text) = normalize_text text
  /\ strip (normalize_text text) = normalize_text text.
Proof.
  intro H. pose proof (normalize_text_settled text H) as Hs.
  split; [apply normalize_text_of_settled; [exact Hs | apply strip_normalize_text]|].
  split; [apply lower_settled; exact Hs|].
  split; [apply nfd_settled; exact Hs|].
  split; [apply drop_marks_settled; exact Hs | apply strip_normalize_text].
Qed.

Lemma normalize_text_idempotent_witness :
  normalize_text "  Colonia San José " = "colonia san jose"
  /\ normalize_text (normalize_text "  Colonia San José ") = "colonia san jose".
Proof.
  destruct (normalize_text_idempotent "  Colonia San José " eq_refl)
    as (Htwice & _).
  split; [reflexivity | rewrite Htwice; reflexivity].
Defined.

End NormaliseTwice.

(** ** What the level matchers return *)

Section FinderProperties.

Open Scope Q_scope.
Open Scope string_scope.

(** *** What [find_match_in_level] sees of an entry *)

Lemma quick_check_passed (text : string) (info : LocInfo) :
  negb (contains (normalized info) text)
  && negb (existsb (fun alt => nonempty alt && contains alt text) (alt_names info))
  = false
  <-> passes_quick_check text info.
Proof.
  unfold passes_quick_check. split.
  - intro H. destruct (contains (normalized info) text); [left; reflexivity|].
    cbn [negb andb] in H. apply negb_false_iff in H.
    apply existsb_exists in H. destruct H as (alt & Hin & Halt).
    apply andb_prop in Halt. right. exists alt. tauto.
  - intros [H | (alt & Hin & Hne & Hc)].
    + rewrite H. reflexivity.
    + assert (E : existsb (fun alt => nonempty alt && contains alt text)
                          (alt_names info) = true).
      { apply existsb_exists. exists alt. rewrite Hne, Hc. auto. }
      rewrite E. apply andb_false_r.
Qed.

Lemma first_alt_some (test : string -> bool) (alts : list string) (alt : string) :
  first_alt test alts = Some alt ->
  In alt alts /\ nonempty alt = true /\ test alt = true.
Proof.
  unfold first_alt. intro H. apply find_some in H. destruct H as [Hin H].
  apply andb_prop in H. tauto.
Qed.

Lemma first_alt_found (test : string -> bool) (alts : list string) (alt : string) :
  In alt alts -> nonempty alt = true -> test alt = true ->
  exists alt', first_alt test alts = Some alt'.
Proof.
  intros Hin Hne Ht. unfold first_alt.
  destruct (List.find (fun alt => nonempty alt && test alt) alts) as [a|] eqn:E.
  - exists a. reflexivity.
  - exfalso. assert (H := find_none _ _ E alt Hin). cbv beta in H.
    rewrite Hne, Ht in H. discriminate.
Qed.

(** What [find_match_in_level] scores for an entry is an occurrence of
    one of its names, of an entry with a name that went through the
    quick check. *)
Lemma raw_match_occurrence (text : string) (info : LocInfo) (raw : Q) (t : string) :
  raw_match text info = Some (raw, t) ->
  nonempty (normalized info) = true
  /\ passes_quick_check text info
  /\ occurrence text info raw t.
Proof.
  unfold raw_match, occurrence.
  destruct (nonempty (normalized info)); [|discriminate]. cbn [negb].
  destruct (negb (contains (normalized info) text) && _) eqn:Hq; [discriminate|].
  apply quick_check_passed in Hq.
  destruct (word_search (normalized info) text) eqn:Hw.
  { intro H. injection H as <- <-. split; [reflexivity|]. split; [exact Hq|].
    left. auto. }
  destruct (nonempty (no_prefix info)) eqn:Hp; cbn [andb].
  - destruct (word_search (no_prefix info) text) eqn:Hwp.
    { intro H. injection H as <- <-. split; [reflexivity|]. split; [exact Hq|].
      right. left. auto. }
    destruct (first_alt _ _) as [alt|] eqn:Ha; [|discriminate].
    intro H. injection H as <- <-. apply first_alt_some in Ha.
    split; [reflexivity|]. split; [exact Hq|].
    right. right. split; [reflexivity|]. split; [intros _; reflexivity|].
    exists alt. tauto.
  - destruct (first_alt _ _) as [alt|] eqn:Ha; [|discriminate].
    intro H. injection H as <- <-. apply first_alt_some in Ha.
    split; [reflexivity|]. split; [exact Hq|].
    right. right. split; [reflexivity|]. split; [intro; discriminate|].
    exists alt. tauto.
Qed.

(** Conversely every occurrence that goes through the quick check is
    scored, with the raw score of its tier. *)
Lemma occurrence_raw_match (text : string) (info : LocInfo) (raw : Q) (t : string) :
  nonempty (normalized info) = true ->
  passes_quick_check text info ->
  occurrence text info raw t ->
  exists t', raw_match text info = Some (raw, t').
Proof.
  intros Hn Hq Ho. unfold raw_match. rewrite Hn. cbn [negb].
  rewrite (proj2 (quick_check_passed text info) Hq).
  destruct Ho as [(Hw & -> & _) | [(Hw & Hp & Hwp & -> & _) | (Hw & Hp & alt & Hin & Hne & Ha & -> & _)]].
  - rewrite Hw. eexists. reflexivity.
  - rewrite Hw, Hp, Hwp. eexists. reflexivity.
  - rewrite Hw.
    assert (E : nonempty (no_prefix info) && word_search (no_prefix info) text = false).
    { destruct (nonempty (no_prefix info)); [rewrite (Hp eq_refl)|]; reflexivity. }
    rewrite E.
    destruct (first_alt_found (fun alt => word_search alt text) (alt_names info) alt
                Hin Hne Ha) as [alt' Halt'].
    rewrite Halt'. eexists. reflexivity.
Qed.

(** An entry that goes through the quick check is left unscored exactly
    when none of its names occurs as whole words. *)
Lemma raw_match_none_iff (text : string) (info : LocInfo) :
  nonempty (normalized info) = true ->
  passes_quick_check text info ->
  raw_match text info = None <-> no_variant_in text info.
Proof.
  intros Hn Hq. unfold raw_match, no_variant_in, variants. rewrite Hn. cbn [negb].
  rewrite (proj2 (quick_check_passed text info) Hq).
  split.
  - destruct (word_search (normalized info) text) eqn:Hw; [discriminate|].
    destruct (nonempty (no_prefix info) && word_search (no_prefix info) text) eqn:Hp;
      [discriminate|].
    destruct (first_alt _ _) as [alt|] eqn:Ha; [discriminate|].
    intros _ variant [<- | [<- | Hin]] Hne.
    + exact Hw.
    + rewrite Hne in Hp. exact Hp.
    + destruct (word_search variant text) eqn:Hv; [|reflexivity].
      destruct (first_alt_found (fun alt => word_search alt text) (alt_names info)
                  variant Hin Hne Hv) as [alt' Halt'].
      rewrite Halt' in Ha. discriminate.
  - intro H.
    rewrite (H (normalized info) (or_introl eq_refl) Hn).
    assert (E : nonempty (no_prefix info) && word_search (no_prefix info) text = false).
    { destruct (nonempty (no_prefix info)) eqn:Hp; [|reflexivity].
      rewrite (H (no_prefix info) (or_intror (or_introl eq_refl)) Hp). reflexivity. }
    rewrite E, first_alt_none; [reflexivity|].
    intros alt Hin Hne. apply H; [right; right; exact Hin | exact Hne].
Qed.

(** An entry that the quick check stops is left unscored. *)
Lemma raw_match_stopped (text : string) (info : LocInfo) :
  ~ (nonempty (normalized info) = true /\ passes_quick_check text info) ->
  raw_match text info = None.
Proof.
  intro H. destruct (raw_match text info) as [[raw t]|] eqn:E; [|reflexivity].
  exfalso. apply H. apply raw_match_occurrence in E. tauto.
Qed.

(** [find_match] leaves an entry unscored for a text exactly when none of
    its names occurs there as whole words. *)
Lemma raw_match_texts_none_iff (text : string) (info : LocInfo) :
  raw_match_texts text info = None <-> no_variant_in text info.
Proof.
  unfold raw_match_texts, no_variant_in. fold (variants info).
  assert (G : forall l,
             existsb (fun v => nonempty v && word_search v text) (filter nonempty l)
             = false
             <-> forall v, In v l -> nonempty v = true -> word_search v text = false).
  { induction l as [|a l IH]; [split; [intros _ v [] | reflexivity]|].
    cbn [filter]. destruct (nonempty a) eqn:Ha.
    - cbn [existsb]. rewrite Ha. cbn [andb]. rewrite orb_false_iff, IH. split.
      + intros [Hw Hl] v [<- | Hin] Hv; [exact Hw | exact (Hl v Hin Hv)].
      + intro H. split; [apply H; [left; reflexivity | exact Ha]|].
        intros v Hin. apply H. right. exact Hin.
    - rewrite IH. split.
      + intros Hl v [<- | Hin] Hv; [congruence | exact (Hl v Hin Hv)].
      + intros H v Hin. apply H. right. exact Hin. }
  split.
  - destruct (existsb _ _) eqn:E; cbn [negb].
    + destruct (word_search (normalized info) text) eqn:Hw; [discriminate|].
      destruct (nonempty (no_prefix info) && word_search (no_prefix info) text) eqn:Hp;
        [discriminate|].
      destruct (first_alt _ _) as [alt|] eqn:Ha; [discriminate|].
      intros _. exfalso.
      apply existsb_exists in E. destruct E as (v & Hin & Hv).
      apply filter_In in Hin. destruct Hin as [Hin Hne].
      rewrite Hne in Hv. cbn [andb] in Hv.
      destruct Hin as [<- | [<- | Hin]].
      * congruence.
      * rewrite Hne, Hv in Hp. discriminate.
      * destruct (first_alt_found (fun alt => word_search alt text) (alt_names info)
                    v Hin Hne Hv) as [alt' Halt'].
        rewrite Halt' in Ha. discriminate.
    + intros _. apply G. exact E.
  - intro H. rewrite (proj2 (G (variants info)) H). reflexivity.
Qed.

(** [find_best_match_in_level] answers with an occurrence that
    [find_match_in_level] sees, and with the best of those.  The entry
    passes the parent filter and the quick substring check on the text of
    the reported source, one of its names occurs there as whole words,
    and the score is the raw score of that occurrence weighted by the
    source (plus 0.01 for the location).  No occurrence, in any source,
    of an admitted entry that passes the quick check on that source ranks
    higher.  An occurrence of an entry that the quick check stops is not
    considered (see [matchers_return_none_iff_nothing_matches]). *)
Theorem find_best_match_in_level_is_best :
  forall texts level_data parent_filter k sc t source,
    find_best_match_in_level texts level_data parent_filter = Some (k, sc, t, source) ->
    (exists info raw,
        In (k, info) (filter_by_parent parent_filter level_data)
        /\ nonempty (normalized info) = true
        /\ passes_quick_check (texts_get texts source) info
        /\ occurrence (texts_get texts source) info raw t
        /\ sc = ranking_score_listing source raw)
    /\ (forall source' k' info' raw' t',
           In (k', info') (filter_by_parent parent_filter level_data) ->
           nonempty (normalized info') = true ->
           passes_quick_check (texts_get texts source') info' ->
           occurrence (texts_get texts source') info' raw' t' ->
           ranking_score_listing source' raw' <= sc).
Proof.
  intros texts level_data pf k sc t source H. split.
  - destruct (find_best_sound _ _ _ _ _ _ _ H) as (info & raw & Hin & Hr & Hsc).
    exists info, raw. apply raw_match_occurrence in Hr. tauto.
  - intros source' k' info' raw' t' Hin Hn Hq Ho.
    destruct (occurrence_raw_match _ _ _ _ Hn Hq Ho) as [t'' Hr].
    exact (find_best_max _ _ _ _ _ _ _ H source' k' info' raw' t'' Hin Hr).
Qed.

Lemma find_best_match_in_level_is_best_witness :
  exists info raw,
    In (2%Z, info) (filter_by_parent None ex_level3)
    /\ nonempty (normalized info) = true
    /\ passes_quick_check (texts_get ex_texts_title_location Title) info
    /\ occurrence (texts_get ex_texts_title_location Title) info raw "Santa Tecla"
    /\ 1 * 1 = ranking_score_listing Title raw.
Proof.
  exact (proj1 (find_best_match_in_level_is_best
                  ex_texts_title_location ex_level3 None
                  2%Z (1 * 1) "Santa Tecla" Title eq_refl)).
Defined.

(** [find_match] answers with a real occurrence and with the best one
    under its own ranking: raw score plus a thousandth of the source
    priority.  The score it returns is the raw one. *)
Theorem find_match_is_best :
  forall texts level_data parent_filter k raw t source,
    find_match texts level_data parent_filter = Some (k, raw, t, source) ->
    (exists info,
        In (k, info) level_data
        /\ skipped_by_parent parent_filter info = false
        /\ raw_match_texts (texts_get texts source) info = Some (raw, t))
    /\ (forall source' k' info' raw' t',
           In (k', info') level_data ->
           skipped_by_parent parent_filter info' = false ->
           raw_match_texts (texts_get texts source') info' = Some (raw', t') ->
           ranking_score_texts source' raw' <= ranking_score_texts source raw).
Proof.
  intros texts level_data pf k raw t source H. split.
  - exact (find_match_sound _ _ _ _ _ _ _ H).
  - exact (find_match_max _ _ _ _ _ _ _ H).
Qed.

Lemma find_match_is_best_witness :
  exists info,
    In (2%Z, info) ex_level3
    /\ skipped_by_parent None info = false
    /\ raw_match_texts (texts_get ex_texts_title_location Location) info
       = Some (1, "Santa Tecla").
Proof.
  exact (proj1 (find_match_is_best ex_texts_title_location ex_level3 None
                  2%Z 1 "Santa Tecla" Location eq_refl)).
Defined.

(** When the matchers come back empty-handed.  [find_match] does so
    exactly when no name variant of any admitted entry occurs as whole
    words in any text field.  [find_best_match_in_level] does so exactly
    when that holds of the entries that pass its quick substring check
    on the field in question: an entry whose normalized name and
    alternative names are not substrings of the text is passed over,
    although its prefix-stripped name may occur there.  So for the title
    "casa en san benito" and the entry "Colonia San Benito" [find_match]
    answers with the entry and [find_best_match_in_level] with nothing. *)
Theorem matchers_return_none_iff_nothing_matches :
  (forall texts level_data parent_filter,
      (find_best_match_in_level texts level_data parent_filter = None
       <-> forall source k info,
             In (k, info) (filter_by_parent parent_filter level_data) ->
             nonempty (normalized info) = true ->
             passes_quick_check (texts_get texts source) info ->
             no_variant_in (texts_get texts source) info)
      /\ (find_match texts level_data parent_filter = None
          <-> forall source k info,
                In (k, info) level_data ->
                skipped_by_parent parent_filter info = false ->
                no_variant_in (texts_get texts source) info))
  /\ (lookup 7%Z ex_level2_alias = Some san_benito_alias
      /\ word_search (no_prefix san_benito_alias) (title ex_texts_stripped_title) = true
      /\ ~ passes_quick_check (title ex_texts_stripped_title) san_benito_alias
      /\ find_match ex_texts_stripped_title ex_level2_alias None
         = Some (7%Z, 95 # 100, "Colonia San Benito (via san benito)", Title)
      /\ find_best_match_in_level ex_texts_stripped_title ex_level2_alias None = None).
Proof.
  split.
  - intros texts level_data pf. split; split.
    + intros Hnone source k info Hin Hn Hq.
      apply (raw_match_none_iff _ _ Hn Hq).
      destruct (raw_match (texts_get texts source) info) as [[raw t]|] eqn:E;
        [|reflexivity].
      exfalso. exact (find_best_complete _ _ pf source _ _ _ _ Hin E Hnone).
    + intro H. apply find_best_none. intros source k info Hin.
      destruct (raw_match (texts_get texts source) info) as [[raw t]|] eqn:E;
        [|reflexivity].
      exfalso. destruct (raw_match_occurrence _ _ _ _ E) as (Hn & Hq & _).
      rewrite (proj2 (raw_match_none_iff _ _ Hn Hq) (H source k info Hin Hn Hq)) in E.
      discriminate.
    + intros Hnone source k info Hin Hsk.
      apply raw_match_texts_none_iff.
      destruct (raw_match_texts (texts_get texts source) info) as [[raw t]|] eqn:E;
        [|reflexivity].
      exfalso. exact (find_match_complete _ _ pf source _ _ _ _ Hin Hsk E Hnone).
    + intro H.
      destruct (find_match texts level_data pf) as [[[[k raw] t] source]|] eqn:E;
        [|reflexivity].
      apply find_match_sound in E. destruct E as (info & Hin & Hsk & Hr).
      rewrite (proj2 (raw_match_texts_none_iff _ _) (H _ _ _ Hin Hsk)) in Hr.
      discriminate.
  - split; [reflexivity|]. split; [reflexivity|]. split; [|split; reflexivity].
    intro H. apply quick_check_passed in H. discriminate H.
Qed.

(** A match of [find_match] carries one of the three raw scores 1.0, 0.95
    and 0.9, so the test [score >= MIN_SCORE] of
    [match_listing_with_texts] never rejects a match it is given. *)
Theorem find_match_always_clears_min_score :
  forall texts level_data parent_filter k raw t source,
    find_match texts level_data parent_filter = Some (k, raw, t, source) ->
    is_raw_score raw /\ Qgeb raw MIN_SCORE = true.
Proof.
  intros texts level_data pf k raw t source H.
  destruct (find_match_sound _ _ _ _ _ _ _ H) as (info & _ & _ & Hr).
  assert (Hraw := raw_match_texts_values _ _ _ _ Hr).
  split; [exact Hraw|].
  destruct Hraw as [-> | [-> | ->]]; reflexivity.
Qed.

Lemma find_match_always_clears_min_score_witness :
  is_raw_score 1 /\ Qgeb 1 MIN_SCORE = true.
Proof.
  exact (find_match_always_clears_min_score ex_texts_title_location ex_level3 None
           2%Z 1 "Santa Tecla" Location eq_refl).
Defined.

Lemma skipped_zero_filter (info : LocInfo) : skipped_by_parent (Some 0%Z) info = false.
Proof. reflexivity. Qed.

(** The parent filter.  [find_best_match_in_level] answers only with
    entries whose parent is the filter; so does [find_match] for a
    non-zero filter, but a filter of 0 is falsy for it and filters
    nothing. *)
Theorem parent_filter_is_respected :
  (forall texts level_data p k sc t source,
      find_best_match_in_level texts level_data (Some p) = Some (k, sc, t, source) ->
      exists info, In (k, info) level_data /\ parent_id info = Some p)
  /\ (forall texts level_data p k raw t source,
         p <> 0%Z ->
         find_match texts level_data (Some p) = Some (k, raw, t, source) ->
         exists info, In (k, info) level_data /\ parent_id info = Some p)
  /\ (forall texts level_data,
         find_match texts level_data (Some 0%Z) = find_match texts level_data None).
Proof.
  split; [|split].
  - intros texts level_data p k sc t source H.
    destruct (find_best_sound _ _ _ _ _ _ _ H) as (info & raw & Hin & _ & _).
    simpl in Hin. apply filter_In in Hin. destruct Hin as [Hin Hp].
    exists info. split; [exact Hin|].
    simpl in Hp. destruct (parent_id info) as [q|]; [|discriminate].
    simpl in Hp. apply Z.eqb_eq in Hp. congruence.
  - intros texts level_data p k raw t source Hp H.
    destruct (find_match_sound _ _ _ _ _ _ _ H) as (info & Hin & Hsk & _).
    exists info. split; [exact Hin|].
    unfold skipped_by_parent in Hsk. simpl in Hsk.
    destruct (p =? 0)%Z eqn:E; [apply Z.eqb_eq in E; contradiction|].
    simpl in Hsk. apply negb_false_iff in Hsk.
    destruct (parent_id info) as [q|]; [|discriminate].
    simpl in Hsk. apply Z.eqb_eq in Hsk. congruence.
  - intros texts level_data. unfold find_match. f_equal.
Qed.

Lemma parent_filter_is_respected_witness :
  exists info, In (7%Z, info) ex_level2 /\ parent_id info = Some 1%Z.
Proof.
  exact (proj1 parent_filter_is_respected
           (mkTexts "casa en colonia san benito" "" "" "") ex_level2 1%Z
           7%Z (1 * 1) "Colonia San Benito" Title eq_refl).
Defined.

End FinderProperties.

(** ** The ancestor chain *)

Section ParentChain.

Ltac chain_cases :=
  repeat match goal with
         | |- context [match lookup ?k ?d with _ => _ end] =>
             let E := fresh "Elookup" in destruct (lookup k d) eqn:E
         | |- context [match parent_id ?i with _ => _ end] =>
             let E := fresh "Eparent" in destruct (parent_id i) eqn:E
         | |- context [if (?p =? 0)%Z then _ else _] =>
             let E := fresh "Ezero" in destruct (p =? 0)%Z eqn:E
         end.

Lemma get_parent_chain_start (loc_id : Z) (level : Level) (groups : Groups) :
  chain_get (get_parent_chain loc_id level groups) level = Some loc_id.
Proof.
  unfold get_parent_chain.
  destruct level; cbn [levels_above climb groups_get]; chain_cases; reflexivity.
Qed.

(** [get_parent_chain] records the id it is given at the level it is
    given and nothing below it; every id it records above is the non-zero
    [parent_id] of the entry recorded one level below; and it stops below
    level 5 only where the recorded id is unknown at its level or its
    entry has no parent (None or 0). *)
Theorem get_parent_chain_follows_parents :
  forall loc_id level groups,
    let chain := get_parent_chain loc_id level groups in
    chain_get chain level = Some loc_id
    /\ (forall l, (level_number l < level_number level)%Z -> chain_get chain l = None)
    /\ (forall l l' p,
           level_up l = Some l' ->
           (level_number level <= level_number l)%Z ->
           chain_get chain l' = Some p ->
           exists i info,
             chain_get chain l = Some i
             /\ lookup i (groups_get groups l) = Some info
             /\ parent_id info = Some p
             /\ p <> 0%Z)
    /\ (forall l l' i info,
           level_up l = Some l' ->
           chain_get chain l = Some i ->
           chain_get chain l' = None ->
           lookup i (groups_get groups l) = Some info ->
           truthy_id (parent_id info) = false).
Proof.
  intros loc_id level groups chain. subst chain.
  unfold get_parent_chain.
  destruct level; cbn [levels_above climb groups_get]; chain_cases;
    cbn [chain_set chain2 chain3 chain4 chain5 empty_chain chain_get];
    (split; [reflexivity|]);
    (split; [intros lv Hl; destruct lv; cbn in Hl |- *; (reflexivity || lia)|]);
    (split;
     [ intros lv lv' p Hup Hle Hp;
       destruct lv; cbn in Hup; try discriminate;
       injection Hup as <-; cbn in Hle, Hp |- *;
       try discriminate; try lia;
       injection Hp as <-;
       eexists; eexists; (split; [reflexivity|]);
       (split; [eassumption|]); (split; [assumption|]);
       apply Z.eqb_neq; assumption
     | intros lv lv' i info Hup Hi Hn Hl;
       destruct lv; cbn in Hup; try discriminate;
       injection Hup as <-; cbn in Hi, Hn, Hl |- *;
       try discriminate;
       injection Hi as <-;
       try congruence;
       match goal with
       | H1 : lookup ?k ?d = Some ?a, H2 : lookup ?k ?d = Some ?b |- _ =>
           rewrite H1 in H2; injection H2 as <-
       end;
       match goal with
       | H : parent_id _ = _ |- _ => rewrite H
       end;
       cbn; try reflexivity;
       match goal with
       | H : (_ =? 0)%Z = true |- _ => rewrite H; reflexivity
       end ]).
Qed.

End ParentChain.

(** ** Inserting a discovered neighbourhood *)

Section InsertProperties.

Open Scope string_scope.

Lemma fold_max_ge (ks : list Z) (k0 : Z) :
  (k0 <= fold_left Z.max ks k0)%Z
  /\ forall k, In k ks -> (k <= fold_left Z.max ks k0)%Z.
Proof.
  revert k0. induction ks as [|a ks IH]; intro k0; cbn [fold_left].
  - split; [lia | intros k []].
  - destruct (IH (Z.max k0 a)) as [H0 H1]. split; [lia|].
    intros k [<- | Hin]; [lia | exact (H1 k Hin)].
Qed.

Lemma max_key_ge (level_data : LevelData) (k : Z) (info : LocInfo) :
  In (k, info) level_data -> (k <= max_key level_data)%Z.
Proof.
  intro Hin. apply (in_map fst) in Hin. cbn [fst] in Hin.
  unfold max_key. destruct (map fst level_data) as [|k0 ks]; [destruct Hin|].
  destruct (fold_max_ge ks k0) as [H0 H1].
  destruct Hin as [<- | Hin]; [exact H0 | exact (H1 k Hin)].
Qed.

Lemma lookup_in (k : Z) (level_data : LevelData) (info : LocInfo) :
  lookup k level_data = Some info -> In (k, info) level_data.
Proof.
  induction level_data as [|[k' info'] l IH]; cbn [lookup]; [discriminate|].
  destruct (k' =? k)%Z eqn:E.
  - intro H. injection H as <-. apply Z.eqb_eq in E. subst k'. left. reflexivity.
  - intro H. right. exact (IH H).
Qed.

Lemma lookup_assign_same (k : Z) (entry : LocInfo) (level_data : LevelData) :
  lookup k (assign k entry level_data) = Some entry.
Proof.
  induction level_data as [|[k' info'] l IH]; cbn [assign lookup].
  - rewrite Z.eqb_refl. reflexivity.
  - destruct (k' =? k)%Z eqn:E; cbn [lookup]; rewrite E; [reflexivity | exact IH].
Qed.

Lemma lookup_assign_other (k k' : Z) (entry : LocInfo) (level_data : LevelData) :
  k' <> k -> lookup k' (assign k entry level_data) = lookup k' level_data.
Proof.
  intro Hne. induction level_data as [|[k0 info0] l IH]; cbn [assign lookup].
  - destruct (k =? k')%Z eqn:E; [apply Z.eqb_eq in E; congruence | reflexivity].
  - destruct (k0 =? k)%Z eqn:E; cbn [lookup].
    + apply Z.eqb_eq in E. subst k0.
      destruct (k =? k')%Z eqn:E'; [apply Z.eqb_eq in E'; congruence | reflexivity].
    + destruct (k0 =? k')%Z; [reflexivity | exact IH].
Qed.

Lemma in_assign (k : Z) (entry : LocInfo) (level_data : LevelData) (k' : Z)
    (info' : LocInfo) :
  In (k', info') (assign k entry level_data) ->
  (k' = k /\ info' = entry) \/ In (k', info') level_data.
Proof.
  induction level_data as [|[k0 info0] l IH]; cbn [assign].
  - intros [H | []]. injection H as <- <-. left. split; reflexivity.
  - destruct (k0 =? k)%Z eqn:E.
    + apply Z.eqb_eq in E. subst k0.
      intros [H | H]; [injection H as <- <-; left; split; reflexivity
                      | right; right; exact H].
    + intros [H | H]; [right; left; exact H|].
      destruct (IH H) as [H' | H']; [left; exact H' | right; right; exact H'].
Qed.

(** The id that [_next_l2_id] proposes is above every level-2 id in
    memory, so it is not one of them. *)
Theorem next_l2_id_is_fresh :
  forall groups,
    (forall k info, In (k, info) (groups_get groups L2) -> (k < _next_l2_id groups)%Z)
    /\ lookup (_next_l2_id groups) (groups_get groups L2) = None.
Proof.
  intro groups.
  assert (H : forall k info, In (k, info) (groups_get groups L2) ->
                             (k < _next_l2_id groups)%Z).
  { intros k info Hin. unfold _next_l2_id.
    assert (Hle := max_key_ge _ _ _ Hin). lia. }
  split; [exact H|].
  destruct (lookup (_next_l2_id groups) (groups_get groups L2)) as [info|] eqn:E;
    [|reflexivity].
  apply lookup_in in E. apply H in E. lia.
Qed.

Lemma insert_requests_succ (display_name normalized_name : string) (lat lng : R)
    (l3_id first_id : Z) (m : nat) :
  insert_requests display_name normalized_name lat lng l3_id first_id (S m)
  = insert_request display_name normalized_name lat lng l3_id first_id
    :: insert_requests display_name normalized_name lat lng l3_id (first_id + 1)%Z m.
Proof.
  unfold insert_requests. cbn [seq map]. rewrite Z.add_0_r. f_equal.
  rewrite <- seq_shift, map_map. apply map_ext. intro i.
  f_equal. lia.
Qed.

(** One round of the retry loop. *)
Lemma insert_attempts_step (display_name normalized_name : string) (lat lng : R)
    (l3_id : Z) (n : nat) (first_id : Z) (w : World) :
  insert_attempts (S n) first_id display_name normalized_name lat lng l3_id w
  = let request := insert_request display_name normalized_name lat lng l3_id first_id in
    let w1 := mkWorld (w_groups w) (w_cache w) (w_store w) (w_log w ++ [request]) in
    match w_store w (w_log w) request with
    | Created returned_id =>
        let actual_id := match returned_id with
                         | Some i => i
                         | None => first_id
                         end in
        (Some actual_id,
         set_groups w1 (add_l2 actual_id
                          (auto_entry actual_id display_name normalized_name
                                      lat lng l3_id) (w_groups w)))
    | Conflict =>
        insert_attempts n (first_id + 1)%Z display_name normalized_name lat lng l3_id w1
    | Failed => (None, w1)
    end.
Proof.
  cbn [insert_attempts]. unfold post, insert_request.
  destruct (w_store w (w_log w)
              (PostLocGroup2 (mkL2Row first_id display_name normalized_name l3_id lat lng)));
    reflexivity.
Qed.

(** What a run of the retry loop does, whatever the store answers. *)
Lemma insert_attempts_outcome (display_name normalized_name : string) (lat lng : R)
    (l3_id : Z) (n : nat) :
  forall (first_id : Z) (w : World) (r : option Z) (w' : World),
    insert_attempts (S n) first_id display_name normalized_name lat lng l3_id w
    = (r, w') ->
    let request := insert_request display_name normalized_name lat lng l3_id in
    let requests := insert_requests display_name normalized_name lat lng l3_id first_id in
    exists m,
      (m <= n)%nat
      /\ w_log w' = (w_log w ++ requests (S m))%list
      /\ (forall j, (j < m)%nat ->
            answer_to w (requests j) (request (first_id + Z.of_nat j)%Z) = Conflict)
      /\ w_cache w' = w_cache w
      /\ same_reference_data w w'
      /\ match r with
         | Some i =>
             (exists returned_id,
                 answer_to w (requests m) (request (first_id + Z.of_nat m)%Z)
                 = Created returned_id
                 /\ i = match returned_id with
                        | Some actual => actual
                        | None => (first_id + Z.of_nat m)%Z
                        end)
             /\ level2 (w_groups w')
                = assign i (auto_entry i display_name normalized_name lat lng l3_id)
                         (level2 (w_groups w))
         | None =>
             w_groups w' = w_groups w
             /\ (answer_to w (requests m) (request (first_id + Z.of_nat m)%Z) = Failed
                 \/ (m = n
                     /\ answer_to w (requests m) (request (first_id + Z.of_nat m)%Z)
                        = Conflict))
         end.
Proof.
  induction n as [|n IH]; intros first_id w r w' H request requests;
    rewrite insert_attempts_step in H; cbv zeta in H; fold (request first_id) in H;
    assert (Hans0 : answer_to w (requests 0%nat) (request (first_id + Z.of_nat 0)%Z)
                    = w_store w (w_log w) (request first_id))
      by (unfold answer_to, requests, insert_requests; cbn [seq map];
          rewrite app_nil_r, Z.add_0_r; reflexivity);
    assert (Hreq1 : requests 1%nat = [request first_id])
      by (unfold requests, insert_requests; cbn [seq map];
          rewrite Z.add_0_r; reflexivity);
    destruct (w_store w (w_log w) (request first_id)) as [returned_id| |] eqn:E.
  - injection H as <- <-. exists 0%nat. rewrite Hreq1, Hans0.
    cbn [w_log w_cache w_groups w_store set_groups add_l2 level2].
    split; [lia|]. split; [reflexivity|]. split; [intros j Hj; lia|].
    split; [reflexivity|]. split; [repeat split|].
    split; [|reflexivity]. exists returned_id. split; [reflexivity|].
    destruct returned_id; [reflexivity | lia].
  - cbn [insert_attempts] in H. injection H as <- <-. exists 0%nat.
    rewrite Hreq1, Hans0. cbn [w_log w_cache w_groups w_store].
    split; [lia|]. split; [reflexivity|]. split; [intros j Hj; lia|].
    split; [reflexivity|]. split; [repeat split|].
    split; [reflexivity|]. right. split; reflexivity.
  - injection H as <- <-. exists 0%nat. rewrite Hreq1, Hans0.
    cbn [w_log w_cache w_groups w_store].
    split; [lia|]. split; [reflexivity|]. split; [intros j Hj; lia|].
    split; [reflexivity|]. split; [repeat split|].
    split; [reflexivity|]. left. reflexivity.
  - injection H as <- <-. exists 0%nat. rewrite Hreq1, Hans0.
    cbn [w_log w_cache w_groups w_store set_groups add_l2 level2].
    split; [lia|]. split; [reflexivity|]. split; [intros j Hj; lia|].
    split; [reflexivity|]. split; [repeat split|].
    split; [|reflexivity]. exists returned_id. split; [reflexivity|].
    destruct returned_id; [reflexivity | lia].
  - apply IH in H.
    destruct H as (m & Hm & Hlog & Hconf & Hcache & Href & Hr).
    cbn [w_log w_cache w_groups w_store] in Hlog, Hcache, Hr.
    exists (S m).
    assert (Hshift : forall j,
               (w_log w ++ requests (S j))%list
               = ((w_log w ++ [request first_id])
                  ++ insert_requests display_name normalized_name lat lng l3_id
                       (first_id + 1)%Z j)%list).
    { intro j. unfold requests. rewrite insert_requests_succ.
      rewrite <- app_assoc. reflexivity. }
    assert (Hid : forall j, (first_id + 1 + Z.of_nat j = first_id + Z.of_nat (S j))%Z)
      by (intro j; lia).
    assert (Hans : forall j,
               answer_to w (requests (S j)) (request (first_id + Z.of_nat (S j))%Z)
               = answer_to (mkWorld (w_groups w) (w_cache w) (w_store w)
                                    (w_log w ++ [request first_id]))
                   (insert_requests display_name normalized_name lat lng l3_id
                      (first_id + 1)%Z j)
                   (request (first_id + 1 + Z.of_nat j)%Z)).
    { intro j. unfold answer_to. cbn [w_store w_log].
      rewrite Hshift, Hid. reflexivity. }
    split; [lia|].
    split; [rewrite Hlog; symmetry; apply Hshift|].
    split.
    { intros [|j] Hj; [exact Hans0|].
      rewrite Hans. apply Hconf. lia. }
    split; [exact Hcache|].
    split; [exact Href|].
    rewrite Hans. rewrite <- Hid.
    destruct r as [i|].
    + exact Hr.
    + destruct Hr as [Hg [Hf | [-> Hc]]].
      * split; [exact Hg | left; exact Hf].
      * split; [exact Hg | right; split; [reflexivity | exact Hc]].
  - injection H as <- <-. exists 0%nat. rewrite Hreq1, Hans0.
    cbn [w_log w_cache w_groups w_store].
    split; [lia|]. split; [reflexivity|]. split; [intros j Hj; lia|].
    split; [reflexivity|]. split; [repeat split|].
    split; [reflexivity|]. left. reflexivity.
Qed.

(** [insert_auto_l2] posts the candidate under [_next_l2_id] and retries
    under the next id only after a conflict, three attempts at most; any
    other failure ends it at once.  It touches nothing but level 2 and
    the request log, and level 2 only when an insert was accepted. *)
Theorem insert_auto_l2_retries_only_on_conflict :
  forall display_name normalized_name lat lng l3_id w r w',
    insert_auto_l2 display_name normalized_name lat lng l3_id w = (r, w') ->
    retry_outcome display_name normalized_name lat lng l3_id w r w'.
Proof.
  intros display_name normalized_name lat lng l3_id w r w' H.
  unfold insert_auto_l2 in H. cbv zeta in H.
  apply insert_attempts_outcome in H. cbv zeta in H.
  destruct H as (m & Hm & H). exists m. split; [lia|]. exact H.
Qed.

Lemma insert_auto_l2_retries_only_on_conflict_witness :
  retry_outcome "Residencial Los Almendros" "residencial los almendros"
                ex_lat ex_lng 2 (ex_world ex_groups conflict_then_created)
                (Some 10%Z) ex_world_after_insert.
Proof.
  exact (insert_auto_l2_retries_only_on_conflict
           "Residencial Los Almendros" "residencial los almendros"
           ex_lat ex_lng 2 (ex_world ex_groups conflict_then_created)
           (Some 10%Z) ex_world_after_insert eq_refl).
Defined.

Lemma find_is_some {A : Type} (f : A -> bool) (l : list A) (x : A) :
  In x l -> f x = true -> List.find f l <> None.
Proof.
  intros Hin Hf Hnone. rewrite (find_none f l Hnone x Hin) in Hf. discriminate.
Qed.

(** After a successful insert the new node is in memory under the id
    returned, every other level-2 id answers as before, the next id
    proposed is above it, and the same candidate is now a duplicate. *)
Theorem inserted_node_is_registered :
  forall display_name normalized_name lat lng l3_id w i w',
    insert_auto_l2 display_name normalized_name lat lng l3_id w = (Some i, w') ->
    lookup i (groups_get (w_groups w') L2)
    = Some (auto_entry i display_name normalized_name lat lng l3_id)
    /\ (forall k, k <> i ->
          lookup k (groups_get (w_groups w') L2) = lookup k (groups_get (w_groups w) L2))
    /\ (i < _next_l2_id (w_groups w'))%Z
    /\ check_l2_duplicate normalized_name lat lng l3_id (w_groups w') <> None.
Proof.
  intros display_name normalized_name lat lng l3_id w i w' H.
  unfold insert_auto_l2 in H. cbv zeta in H.
  apply insert_attempts_created in H. destruct H as [Hg _].
  assert (Hl : lookup i (groups_get (w_groups w') L2)
               = Some (auto_entry i display_name normalized_name lat lng l3_id)).
  { rewrite Hg. cbn [groups_get add_l2 level2]. apply lookup_assign_same. }
  split; [exact Hl|]. split; [|split].
  - intros k Hk. rewrite Hg. cbn [groups_get add_l2 level2].
    apply lookup_assign_other. exact Hk.
  - apply lookup_in in Hl.
    unfold _next_l2_id. assert (Hle := max_key_ge _ _ _ Hl). lia.
  - apply lookup_in in Hl. unfold check_l2_duplicate. cbv zeta.
    destruct (List.find
                (fun kv => is_duplicate_of normalized_name
                             (remove_location_prefixes normalized_name)
                             lat lng l3_id (snd kv))
                (groups_get (w_groups w') L2)) as [kv|] eqn:E; [discriminate|].
    exfalso. revert E. apply (find_is_some _ _ _ Hl).
    apply auto_entry_is_duplicate.
Qed.

Lemma inserted_node_is_registered_witness :
  lookup 10 (groups_get (w_groups ex_world_after_insert) L2)
  = Some (auto_entry 10 "Residencial Los Almendros" "residencial los almendros"
                     ex_lat ex_lng 2)
  /\ (forall k, k <> 10%Z ->
        lookup k (groups_get (w_groups ex_world_after_insert) L2)
        = lookup k (groups_get (w_groups (ex_world ex_groups conflict_then_created)) L2))
  /\ (10 < _next_l2_id (w_groups ex_world_after_insert))%Z
  /\ check_l2_duplicate "residencial los almendros" ex_lat ex_lng 2
       (w_groups ex_world_after_insert) <> None.
Proof.
  exact (inserted_node_is_registered
           "Residencial Los Almendros" "residencial los almendros"
           ex_lat ex_lng 2 (ex_world ex_groups conflict_then_created)
           10%Z ex_world_after_insert eq_refl).
Defined.

End InsertProperties.

(** ** Duplicate check and discovery *)

Section DiscoveryProperties.

Open Scope string_scope.

Lemma opt_id_eqb_some (a : option Z) (b : Z) :
  opt_id_eqb a (Some b) = true <-> a = Some b.
Proof.
  destruct a as [x|]; cbn [opt_id_eqb].
  - rewrite Z.eqb_eq. split; congruence.
  - split; discriminate.
Qed.

Lemma Rltb_iff (a b : R) : Rltb a b = true <-> (a < b)%R.
Proof. unfold Rltb. destruct (Rlt_dec a b); split; (assumption || discriminate || auto). Qed.

(** The test of one entry, as a proposition. *)
Lemma is_duplicate_of_iff (candidate_normalized : string) (lat lng : R) (l3_id : Z)
    (info : LocInfo) :
  is_duplicate_of candidate_normalized (remove_location_prefixes candidate_normalized)
                  lat lng l3_id info = true
  <-> parent_id info = Some l3_id
      /\ (same_name candidate_normalized info
          \/ closer_than L2_DEDUP_RADIUS_KM lat lng info).
Proof.
  unfold is_duplicate_of, same_name, closer_than.
  destruct (opt_id_eqb (parent_id info) (Some l3_id)) eqn:Ep; cbn [negb].
  - apply opt_id_eqb_some in Ep. cbv zeta.
    destruct (String.eqb candidate_normalized (normalized info)
              || String.eqb (remove_location_prefixes candidate_normalized) (no_prefix info)
              || String.eqb candidate_normalized (no_prefix info)
              || String.eqb (remove_location_prefixes candidate_normalized)
                            (normalized info)) eqn:En.
    + split; [|reflexivity]. intros _. split; [exact Ep|]. left.
      repeat (apply orb_prop in En; destruct En as [En | En]);
        apply String.eqb_eq in En; auto.
    + repeat (apply orb_false_elim in En; destruct En as [En ?]).
      repeat match goal with
             | H : String.eqb _ _ = false |- _ => apply String.eqb_neq in H
             end.
      destruct (latitude info) as [la|], (longitude info) as [lo|].
      * rewrite Rltb_iff. split.
        -- intro Hlt. split; [exact Ep|]. right. exists la, lo. auto.
        -- intros [_ [Hn | (la' & lo' & Ha & Ho & Hd)]].
           ++ destruct Hn as [Hn | [Hn | [Hn | Hn]]]; contradiction.
           ++ congruence.
      * split; [discriminate|].
        intros [_ [Hn | (la' & lo' & Ha & Ho & Hd)]]; [|discriminate].
        destruct Hn as [Hn | [Hn | [Hn | Hn]]]; contradiction.
      * split; [discriminate|].
        intros [_ [Hn | (la' & lo' & Ha & Ho & Hd)]]; [|discriminate].
        destruct Hn as [Hn | [Hn | [Hn | Hn]]]; contradiction.
      * split; [discriminate|].
        intros [_ [Hn | (la' & lo' & Ha & Ho & Hd)]]; [|discriminate].
        destruct Hn as [Hn | [Hn | [Hn | Hn]]]; contradiction.
  - split; [discriminate|]. intros [Hp _].
    apply opt_id_eqb_some in Hp. congruence.
Qed.

(** [check_l2_duplicate] reports only nodes of the municipality it is
    asked about, and only for one of its reasons: a name comparison that
    holds, or coordinates less than the dedup radius away.  It reports
    nothing exactly when no node of that municipality gives a reason. *)
Theorem duplicates_are_within_the_municipality :
  forall candidate_normalized lat lng l3_id groups,
    (forall k,
        check_l2_duplicate candidate_normalized lat lng l3_id groups = Some k ->
        exists info,
          In (k, info) (groups_get groups L2)
          /\ parent_id info = Some l3_id
          /\ (same_name candidate_normalized info
              \/ closer_than L2_DEDUP_RADIUS_KM lat lng info))
    /\ (check_l2_duplicate candidate_normalized lat lng l3_id groups = None
        <-> forall k info,
              In (k, info) (groups_get groups L2) ->
              parent_id info = Some l3_id ->
              ~ same_name candidate_normalized info
              /\ ~ closer_than L2_DEDUP_RADIUS_KM lat lng info).
Proof.
  intros candidate_normalized lat lng l3_id groups.
  unfold check_l2_duplicate. cbv zeta.
  destruct (List.find
              (fun kv => is_duplicate_of candidate_normalized
                           (remove_location_prefixes candidate_normalized)
                           lat lng l3_id (snd kv))
              (groups_get groups L2)) as [[k0 info0]|] eqn:E; cbn [option_map fst].
  - apply find_some in E. destruct E as [Hin Hd]. cbn [snd] in Hd.
    apply is_duplicate_of_iff in Hd. destruct Hd as [Hp Hr].
    split.
    + intros k Hk. injection Hk as <-. exists info0. auto.
    + split; [discriminate|]. intro H.
      destruct (H k0 info0 Hin Hp) as [Hn Hc].
      destruct Hr; contradiction.
  - split; [discriminate|]. split; [|reflexivity].
    intros _ k info Hin Hp.
    assert (Hd := find_none _ _ E (k, info) Hin). cbn [snd] in Hd.
    split; intro Hr;
      assert (Ht : is_duplicate_of candidate_normalized
                     (remove_location_prefixes candidate_normalized)
                     lat lng l3_id info = true)
        by (apply is_duplicate_of_iff; auto);
      congruence.
Qed.

Lemma lookup_unique (level_data : LevelData) (k : Z) (info : LocInfo) :
  NoDup (map fst level_data) -> In (k, info) level_data ->
  lookup k level_data = Some info.
Proof.
  intros Hnd Hin.
  destruct (lookup k level_data) as [info'|] eqn:E.
  - apply lookup_in in E. f_equal. exact (unique_entry _ _ _ _ Hnd E Hin).
  - exfalso. induction level_data as [|[k' c] l IH]; [destruct Hin|].
    cbn [lookup] in E. destruct (k' =? k)%Z eqn:Ek; [discriminate|].
    destruct Hin as [Hin | Hin].
    + injection Hin as -> _. rewrite Z.eqb_refl in Ek. discriminate.
    + inversion Hnd; subst. auto.
Qed.

(** What a call of discovery can change. *)
Lemma try_create_effects (texts : Texts) (lat lng : R) (l3_id : Z)
    (ext_id : option Z) (w : World) (r : option Z) (w' : World) :
  try_create_l2_from_listing texts lat lng l3_id ext_id w = (r, w') ->
  same_reference_data w w'
  /\ log_grows_by 3 w w'
  /\ at_most_one_assigned w w'.
Proof.
  unfold try_create_l2_from_listing.
  destruct (extract_colonia_candidate texts (w_groups w) (w_cache w))
    as [candidate cache] eqn:Ex.
  assert (Hsame : forall w0 : World,
             w_groups w0 = w_groups w -> w_store w0 = w_store w ->
             w_log w0 = w_log w ->
             same_reference_data w w0 /\ log_grows_by 3 w w0
             /\ at_most_one_assigned w w0).
  { intros w0 Hg Hs Hl. split; [|split].
    - unfold same_reference_data. rewrite Hg, Hs. repeat split.
    - exists []. rewrite app_nil_r. split; [exact Hl | cbn; lia].
    - left. rewrite Hg. reflexivity. }
  destruct candidate as [[[display_name normalized_name] source_field]|].
  - cbn [w_groups set_cache].
    destruct (truthy_id (check_l2_duplicate normalized_name lat lng l3_id (w_groups w))).
    + intro H. injection H as <- <-. apply Hsame; reflexivity.
    + assert (Hins : insert_auto_l2 display_name normalized_name lat lng l3_id
                       (set_cache w cache) = (r, w') ->
                     same_reference_data w w' /\ log_grows_by 3 w w'
                     /\ at_most_one_assigned w w').
      { intro H. unfold insert_auto_l2 in H. cbv zeta in H.
        apply insert_attempts_outcome in H. cbv zeta in H.
        destruct H as (m & Hm & Hlog & _ & _ & Href & Hr).
        cbn [w_log w_groups w_store set_cache] in Hlog, Hr.
        split; [exact Href|]. split.
        - eexists. split; [exact Hlog|].
          unfold insert_requests. rewrite length_map, length_seq. lia.
        - destruct r as [i|].
          + right. destruct Hr as [_ Hr]. eauto.
          + left. destruct Hr as [Hr _]. rewrite Hr. reflexivity. }
      assert (Hstage : forall ext,
                 (None, snd (stage_l2_candidate display_name normalized_name lat lng
                               l3_id source_field ext (set_cache w cache))) = (r, w') ->
                 same_reference_data w w' /\ log_grows_by 3 w w'
                 /\ at_most_one_assigned w w').
      { intros ext H. injection H as <- <-.
        unfold stage_l2_candidate, post. cbn [w_store w_log w_groups w_cache set_cache].
        destruct (w_store w (w_log w) _); cbn [snd];
          (split; [repeat split|]);
          (split; [eexists; split; [reflexivity | cbn; lia] | left; reflexivity]). }
      destruct source_field; try exact Hins;
        (destruct ext_id as [ext|];
         [ destruct (negb (ext =? 0)%Z); [apply Hstage|]
         | ]);
        intro H; injection H as <- <-; apply Hsame; reflexivity.
  - intro H. injection H as <- <-. apply Hsame; reflexivity.
Qed.

(** Whatever id discovery returns is, afterwards, a level-2 node in
    memory whose parent is the municipality discovery was asked about:
    the duplicate found, or the node just inserted. *)
Theorem discovery_returns_a_node_of_the_municipality :
  forall texts lat lng l3_id ext_id w i w',
    NoDup (map fst (groups_get (w_groups w) L2)) ->
    try_create_l2_from_listing texts lat lng l3_id ext_id w = (Some i, w') ->
    exists info,
      lookup i (groups_get (w_groups w') L2) = Some info
      /\ parent_id info = Some l3_id.
Proof.
  intros texts lat lng l3_id ext_id w i w' Hnd.
  unfold try_create_l2_from_listing.
  destruct (extract_colonia_candidate texts (w_groups w) (w_cache w))
    as [candidate cache] eqn:Ex.
  destruct candidate as [[[display_name normalized_name] source_field]|];
    [|discriminate].
  cbn [w_groups set_cache].
  destruct (truthy_id (check_l2_duplicate normalized_name lat lng l3_id (w_groups w)))
    eqn:Et.
  - intro H. injection H as Hi <-. cbn [w_groups set_cache].
    unfold check_l2_duplicate in Hi. cbv zeta in Hi.
    destruct (List.find
                (fun kv => is_duplicate_of normalized_name
                             (remove_location_prefixes normalized_name)
                             lat lng l3_id (snd kv))
                (groups_get (w_groups w) L2)) as [[k0 info0]|] eqn:E;
      [|discriminate].
    cbn [option_map fst] in Hi. injection Hi as ->.
    apply find_some in E. destruct E as [Hin Hd]. cbn [snd] in Hd.
    apply is_duplicate_of_iff in Hd. destruct Hd as [Hp _].
    exists info0. split; [exact (lookup_unique _ _ _ Hnd Hin) | exact Hp].
  - assert (Hins : insert_auto_l2 display_name normalized_name lat lng l3_id
                     (set_cache w cache) = (Some i, w') ->
                   exists info,
                     lookup i (groups_get (w_groups w') L2) = Some info
                     /\ parent_id info = Some l3_id).
    { intro H. unfold insert_auto_l2 in H. cbv zeta in H.
      apply insert_attempts_created in H. destruct H as [Hg _].
      exists (auto_entry i display_name normalized_name lat lng l3_id).
      split; [|reflexivity].
      rewrite Hg. cbn [groups_get add_l2 level2]. apply lookup_assign_same. }
    destruct source_field; try exact Hins;
      (destruct ext_id as [ext|]; [destruct (negb (ext =? 0)%Z)|]); discriminate.
Qed.

Lemma discovery_returns_a_node_of_the_municipality_witness :
  exists info,
    lookup 2 (groups_get (w_groups ex_world_discovered) L2) = Some info
    /\ parent_id info = Some 2%Z.
Proof.
  exact (discovery_returns_a_node_of_the_municipality
           ex_texts_almendros ex_lat ex_lng 2%Z (Some 31885955%Z)
           (ex_world ex_groups_no_l2 conflict_then_created) 2%Z ex_world_discovered
           (NoDup_nil Z) eq_refl).
Defined.

(** A candidate found only in the details or the description is never
    inserted: the hierarchy stays as it is, no insert request is made,
    and the answer is the duplicate found, if any, or nothing; the one
    request that can be made is the staging record of the candidate, and
    only for a listing with a non-zero external id. *)
Theorem low_confidence_candidates_are_only_staged :
  forall texts lat lng l3_id ext_id w display_name normalized_name source cache' r w',
    extract_colonia_candidate texts (w_groups w) (w_cache w)
    = (Some (display_name, normalized_name, source), cache') ->
    source = Details \/ source = Description ->
    try_create_l2_from_listing texts lat lng l3_id ext_id w = (r, w') ->
    w_groups w' = w_groups w
    /\ (r = None
        \/ (r = check_l2_duplicate normalized_name lat lng l3_id (w_groups w)
            /\ w_log w' = w_log w))
    /\ (w_log w' = w_log w
        \/ exists ext,
             ext_id = Some ext /\ ext <> 0%Z /\ r = None
             /\ w_log w'
                = (w_log w
                   ++ [PostUnmatched (mkStagingRow ext display_name normalized_name
                                                   lat lng l3_id source)])%list).
Proof.
  intros texts lat lng l3_id ext_id w display_name normalized_name source cache' r w'
         Hex Hsrc.
  unfold try_create_l2_from_listing. rewrite Hex. cbn [w_groups set_cache].
  destruct (truthy_id (check_l2_duplicate normalized_name lat lng l3_id (w_groups w))).
  - intro H. injection H as <- <-. cbn [w_groups w_log set_cache].
    split; [reflexivity|]. split; [right; split; reflexivity | left; reflexivity].
  - assert (Hlow :
              match ext_id with
              | Some ext =>
                  if negb (ext =? 0)%Z
                  then (None, snd (stage_l2_candidate display_name normalized_name
                                     lat lng l3_id source ext (set_cache w cache')))
                  else (None, set_cache w cache')
              | None => (None, set_cache w cache')
              end = (r, w') ->
              w_groups w' = w_groups w
              /\ (r = None
                  \/ (r = check_l2_duplicate normalized_name lat lng l3_id (w_groups w)
                      /\ w_log w' = w_log w))
              /\ (w_log w' = w_log w
                  \/ exists ext,
                       ext_id = Some ext /\ ext <> 0%Z /\ r = None
                       /\ w_log w'
                          = (w_log w
                             ++ [PostUnmatched
                                   (mkStagingRow ext display_name normalized_name
                                                 lat lng l3_id source)])%list)).
    { destruct ext_id as [ext|].
      - destruct (ext =? 0)%Z eqn:E; cbn [negb].
        + intro H. injection H as <- <-. cbn [w_groups w_log set_cache].
          split; [reflexivity|]. split; left; reflexivity.
        + apply Z.eqb_neq in E.
          unfold stage_l2_candidate, post.
          cbn [w_store w_log w_groups w_cache set_cache].
          intro H.
          assert (Hw : w' = mkWorld (w_groups w) cache' (w_store w)
                                    (w_log w
                                     ++ [PostUnmatched
                                           (mkStagingRow ext display_name normalized_name
                                                         lat lng l3_id source)])%list
                       /\ r = None).
          { destruct (w_store w (w_log w) _); cbn [snd] in H;
              injection H as <- <-; split; reflexivity. }
          destruct Hw as [-> ->]. cbn [w_groups w_log].
          split; [reflexivity|]. split; [left; reflexivity|].
          right. exists ext. repeat split; assumption.
      - intro H. injection H as <- <-. cbn [w_groups w_log set_cache].
        split; [reflexivity|]. split; left; reflexivity. }
    destruct Hsrc as [-> | ->]; exact Hlow.
Qed.

Lemma ex_description_candidate :
  extract_colonia_candidate ex_texts_description_only ex_groups_no_l2 None
  = (Some ("Residencial los Almendros", "residencial los almendros", Description),
     Some ex_stop_names).
Proof. reflexivity. Defined.

Lemma low_confidence_candidates_are_only_staged_witness :
  let w := ex_world ex_groups_no_l2 always_created in
  let w' := ex_world_staged in
  w_groups w' = w_groups w
  /\ (@None Z = None
      \/ (None = check_l2_duplicate "residencial los almendros" ex_lat ex_lng 2 (w_groups w)
          /\ w_log w' = w_log w))
  /\ (w_log w' = w_log w
      \/ exists ext,
           Some 31885955%Z = Some ext /\ ext <> 0%Z /\ @None Z = None
           /\ w_log w'
              = (w_log w
                 ++ [PostUnmatched (mkStagingRow ext "Residencial los Almendros"
                                                 "residencial los almendros"
                                                 ex_lat ex_lng 2 Description)])%list).
Proof.
  exact (low_confidence_candidates_are_only_staged
           ex_texts_description_only ex_lat ex_lng 2%Z (Some 31885955%Z)
           (ex_world ex_groups_no_l2 always_created)
           "Residencial los Almendros" "residencial los almendros" Description
           (Some ex_stop_names)
           None ex_world_staged ex_description_candidate (or_intror eq_refl) eq_refl).
Defined.

End DiscoveryProperties.

(** ** Candidate extraction *)

Section ExtractProperties.

Open Scope string_scope.

Lemma drop_leading_filler_skipn (ws : list string) :
  exists k, drop_leading_filler ws = skipn k ws.
Proof.
  induction ws as [|w l IH]; [exists 0%nat; reflexivity|].
  cbn [drop_leading_filler]. destruct (mem w _TRAILING_FILLER).
  - destruct IH as [k Hk]. exists (S k). exact Hk.
  - exists 0%nat. reflexivity.
Qed.

Lemma drop_leading_filler_idem (ws : list string) :
  drop_leading_filler (drop_leading_filler ws) = drop_leading_filler ws.
Proof.
  induction ws as [|w l IH]; [reflexivity|].
  cbn [drop_leading_filler]. destruct (mem w _TRAILING_FILLER) eqn:E; [exact IH|].
  cbn [drop_leading_filler]. rewrite E. reflexivity.
Qed.

Lemma strip_trailing_filler_firstn (ws : list string) :
  exists n, strip_trailing_filler ws = firstn n ws.
Proof.
  unfold strip_trailing_filler.
  destruct (drop_leading_filler_skipn (rev ws)) as [k Hk]. rewrite Hk.
  rewrite skipn_rev, rev_involutive. eexists. reflexivity.
Qed.

Lemma strip_trailing_filler_idem (ws : list string) :
  strip_trailing_filler (strip_trailing_filler ws) = strip_trailing_filler ws.
Proof.
  unfold strip_trailing_filler. rewrite rev_involutive, drop_leading_filler_idem.
  reflexivity.
Qed.

Lemma firstn_same_length {A : Type} (n : nat) (l : list A) :
  List.length (firstn n l) = List.length l -> firstn n l = l.
Proof.
  rewrite length_firstn. intro H. apply firstn_all2. lia.
Qed.

Lemma strip_suffix_name_firstn (stop ws : list string) :
  (exists n, fst (strip_suffix_name stop ws) = firstn n ws)
  /\ (snd (strip_suffix_name stop ws) = false -> fst (strip_suffix_name stop ws) = ws).
Proof.
  unfold strip_suffix_name.
  destruct (List.find _ (range 1 (Nat.min 4 (List.length ws)))) as [k|];
    cbn [fst snd].
  - split; [eexists; reflexivity | discriminate].
  - split; [|reflexivity]. exists (List.length ws). symmetry. apply firstn_all.
Qed.

Lemma backward_strip_step (stop : list string) (fuel : nat) (ws : list string) :
  backward_strip stop (S fuel) ws
  = if (1 <? List.length ws)%nat
    then
      let words1 := fst (strip_suffix_name stop ws) in
      let changed1 := snd (strip_suffix_name stop ws) in
      let words2 := strip_trailing_filler words1 in
      let changed2 := negb (List.length words2 =? List.length words1)%nat in
      if changed1 || changed2 then backward_strip stop fuel words2 else words2
    else ws.
Proof.
  cbn [backward_strip]. destruct (strip_suffix_name stop ws). reflexivity.
Qed.

Lemma backward_strip_firstn (stop : list string) (fuel : nat) :
  forall ws, exists n, backward_strip stop fuel ws = firstn n ws.
Proof.
  induction fuel as [|fuel IH]; intro ws.
  - exists (List.length ws). symmetry. apply firstn_all.
  - rewrite backward_strip_step.
    destruct (1 <? List.length ws)%nat;
      [|exists (List.length ws); symmetry; apply firstn_all].
    cbv zeta.
    destruct (strip_suffix_name_firstn stop ws) as [[n1 H1] _].
    destruct (strip_trailing_filler_firstn (fst (strip_suffix_name stop ws)))
      as [n2 H2].
    assert (H12 : exists n, strip_trailing_filler (fst (strip_suffix_name stop ws))
                            = firstn n ws).
    { rewrite H2, H1, firstn_firstn. eexists. reflexivity. }
    destruct (snd (strip_suffix_name stop ws)
              || negb (List.length (strip_trailing_filler (fst (strip_suffix_name stop ws)))
                       =? List.length (fst (strip_suffix_name stop ws)))%nat);
      [|exact H12].
    destruct H12 as [n Hn].
    destruct (IH (strip_trailing_filler (fst (strip_suffix_name stop ws)))) as [n' Hn'].
    rewrite Hn'. rewrite Hn, firstn_firstn. eexists. reflexivity.
Qed.

(** With enough fuel the backward pass ends on a list it would leave
    alone. *)
Lemma backward_strip_fully (stop : list string) (fuel : nat) :
  forall ws,
    (List.length ws <= fuel)%nat -> (1 < List.length ws)%nat ->
    left_alone stop (backward_strip stop (S fuel) ws).
Proof.
  induction fuel as [|fuel IH]; intros ws Hfuel Hlen; [lia|].
  rewrite backward_strip_step.
  assert (E : (1 <? List.length ws)%nat = true) by (apply Nat.ltb_lt; exact Hlen).
  rewrite E. cbv zeta.
  destruct (strip_suffix_name_length stop ws) as [Hle Hlt].
  destruct (strip_suffix_name_firstn stop ws) as [_ Hsame].
  assert (H2 := strip_trailing_filler_length (fst (strip_suffix_name stop ws))).
  set (words1 := fst (strip_suffix_name stop ws)) in *.
  set (changed1 := snd (strip_suffix_name stop ws)) in *.
  set (words2 := strip_trailing_filler words1) in *.
  destruct (changed1 || negb (List.length words2 =? List.length words1)%nat) eqn:Hch.
  - assert (Hshort : (List.length words2 < List.length ws)%nat).
    { apply orb_prop in Hch. destruct Hch as [Hch | Hch].
      - specialize (Hlt Hch). lia.
      - apply negb_true_iff, Nat.eqb_neq in Hch. lia. }
    destruct (Nat.lt_ge_cases 1 (List.length words2)) as [Hlong | Hone].
    + apply IH; [lia | exact Hlong].
    + assert (Hstop : backward_strip stop (S fuel) words2 = words2).
      { rewrite backward_strip_step.
        assert (E' : (1 <? List.length words2)%nat = false)
          by (apply Nat.ltb_ge; exact Hone).
        rewrite E'. reflexivity. }
      rewrite Hstop. split.
      * apply strip_trailing_filler_idem.
      * left. exact Hone.
  - apply orb_false_elim in Hch. destruct Hch as [Hc1 Hc2].
    apply negb_false_iff, Nat.eqb_eq in Hc2.
    assert (Hw1 : words1 = ws) by (apply Hsame; exact Hc1).
    assert (Hw2 : words2 = ws).
    { subst words2. destruct (strip_trailing_filler_firstn words1) as [n Hn].
      rewrite Hn in Hc2 |- *. rewrite (firstn_same_length _ _ Hc2). exact Hw1. }
    rewrite Hw2. split.
    + rewrite <- Hw2 at 2. subst words2. rewrite Hw1. reflexivity.
    + right. exact Hc1.
Qed.

Lemma forward_cut_length (stop ws : list string) :
  (1 < List.length ws)%nat -> (1 < List.length (forward_cut stop ws))%nat.
Proof.
  intro Hlen. unfold forward_cut.
  destruct (List.find (window_hit stop ws) (range 2 (List.length ws)))
    as [start|] eqn:E.
  - apply find_some in E. destruct E as [Hin _].
    unfold range in Hin. apply in_seq in Hin.
    rewrite length_firstn. lia.
  - rewrite firstn_all. exact Hlen.
Qed.

Lemma left_alone_fully_stripped (stop ws : list string) :
  left_alone stop ws -> fully_stripped stop ws.
Proof.
  intros [Hfiller Hname]. split.
  - intros init w Hsplit.
    destruct (mem w _TRAILING_FILLER) eqn:E; [exfalso | reflexivity].
    unfold strip_trailing_filler in Hfiller.
    rewrite Hsplit, rev_app_distr in Hfiller. cbn [rev app drop_leading_filler] in Hfiller.
    rewrite E in Hfiller.
    destruct (drop_leading_filler_skipn (rev init)) as [k Hk].
    rewrite Hk in Hfiller. apply (f_equal (@List.length string)) in Hfiller.
    rewrite length_rev, length_skipn, length_rev, length_app in Hfiller.
    cbn [List.length] in Hfiller. lia.
  - intros suffix_len Hrange Hshort.
    destruct Hname as [Hone | Hname]; [lia|].
    unfold strip_suffix_name in Hname.
    destruct (List.find
                (fun suffix_len =>
                   mem (join (skipn (List.length ws - suffix_len) ws)) stop)
                (range 1 (Nat.min 4 (List.length ws)))) eqn:E;
      [discriminate|].
    apply (find_none _ _ E). unfold range. apply in_seq. lia.
Qed.

(** [_strip_location_names] only cuts words off the end: its answer is a
    prefix of the words it is given.  When there are location names and
    more than one word, the answer does not end in a filler word, and no
    run of one to three of its last words that is shorter than the whole
    answer is a location name.  The answer as a whole can be one: the
    words "santa", "tecla", with the location name "santa tecla", come
    back as they are.  Without location names, or with at most one word,
    the words come back as they are. *)
Theorem strip_location_names_cuts_the_tail :
  (forall loc_stop_names words,
      (exists n, _strip_location_names loc_stop_names words = firstn n words)
      /\ (loc_stop_names <> [] -> (1 < List.length words)%nat ->
          fully_stripped loc_stop_names (_strip_location_names loc_stop_names words))
      /\ (loc_stop_names = [] \/ (List.length words <= 1)%nat ->
          _strip_location_names loc_stop_names words = words))
  /\ _strip_location_names ["santa tecla"] ["santa"; "tecla"] = ["santa"; "tecla"].
Proof.
  split; [|reflexivity].
  intros stop words. unfold _strip_location_names.
  destruct stop as [|s0 stop'].
  - split; [exists (List.length words); symmetry; apply firstn_all|].
    split; [intro H; contradiction | reflexivity].
  - set (stop := s0 :: stop').
    destruct (List.length words <=? 1)%nat eqn:E.
    + apply Nat.leb_le in E.
      split; [exists (List.length words); symmetry; apply firstn_all|].
      split; [intros _ H; lia | reflexivity].
    + apply Nat.leb_gt in E. cbv zeta. split; [|split].
      * destruct (backward_strip_firstn stop (S (List.length (forward_cut stop words)))
                    (forward_cut stop words)) as [n Hn].
        rewrite Hn. unfold forward_cut. rewrite firstn_firstn. eexists. reflexivity.
      * intros _ _. apply left_alone_fully_stripped.
        apply backward_strip_fully; [lia|].
        apply forward_cut_length. exact E.
      * intros [H | H]; [discriminate | lia].
Qed.

Lemma first_some_in {A B : Type} (f : A -> option B) (l : list A) (y : B) :
  first_some f l = Some y -> exists x, In x l /\ f x = Some y.
Proof.
  induction l as [|a l IH]; cbn [first_some]; [discriminate|].
  destruct (f a) as [b|] eqn:E.
  - intro H. injection H as <-. exists a. split; [left; reflexivity | exact E].
  - intro H. destruct (IH H) as (x & Hin & Hx). exists x. split; [right|]; assumption.
Qed.

(** What a candidate of one text field is made of. *)
Lemma find_in_text_some (stop : list string) (text : string) (source : Source)
    (display normalized : string) (source' : Source) :
  _find_in_text stop text source = Some (display, normalized, source') ->
  source' = source
  /\ normalized = normalize_text display
  /\ exists prefix idx, In prefix COLONIA_PREFIXES /\ find prefix text = Some idx.
Proof.
  unfold _find_in_text. destruct (negb (nonempty text)); [discriminate|].
  intro H. apply first_some_in in H. destruct H as (prefix & Hin & H).
  unfold candidate_for_prefix in H.
  destruct (find prefix text) as [idx|] eqn:Ef; [|discriminate].
  cbv zeta in H.
  destruct (collect_words _ _) as [|w0 ws0]; [discriminate|].
  destruct (_strip_location_names stop (w0 :: ws0)) as [|w1 ws1]; [discriminate|].
  destruct (strip_trailing_filler _) as [|w2 ws2]; [discriminate|].
  destruct (String.length _ <? MIN_COLONIA_NAME_LEN)%nat; [discriminate|].
  destruct (filter _ _) as [|w3 ws3]; [discriminate|].
  destruct (forallb _ _); [discriminate|].
  injection H as <- <- <-.
  split; [reflexivity|]. split; [reflexivity|].
  exists prefix, idx. split; assumption.
Qed.

(** [extract_colonia_candidate] reports the first field, in the order
    title, location, details, description, that yields a candidate: the
    candidate comes from the field it is attributed to, no earlier field
    yields one, its normalized name is the normalization of its display
    name, and the field contains one of the neighbourhood prefixes. *)
Theorem extraction_prefers_title_and_location :
  forall loc_stop_names texts display normalized source,
    extract_with loc_stop_names texts = Some (display, normalized, source) ->
    _find_in_text loc_stop_names (texts_get texts source) source
    = Some (display, normalized, source)
    /\ (forall earlier,
          (rank_listing earlier < rank_listing source)%nat ->
          _find_in_text loc_stop_names (texts_get texts earlier) earlier = None)
    /\ normalized = normalize_text display
    /\ exists prefix idx,
         In prefix COLONIA_PREFIXES
         /\ find prefix (texts_get texts source) = Some idx.
Proof.
  intros stop texts display normalized source H.
  unfold extract_with in H. cbn [app first_some] in H.
  assert (Hall : _find_in_text stop (texts_get texts source) source
                 = Some (display, normalized, source)
                 /\ forall earlier,
                      (rank_listing earlier < rank_listing source)%nat ->
                      _find_in_text stop (texts_get texts earlier) earlier = None).
  { destruct (_find_in_text stop (texts_get texts Title) Title)
      as [[[d n] s]|] eqn:E1.
    { injection H as -> -> ->.
      destruct (find_in_text_some _ _ _ _ _ _ E1) as [-> _].
      split; [exact E1|]. intros earlier Hr. destruct earlier; cbn in Hr; lia. }
    destruct (_find_in_text stop (texts_get texts Location) Location)
      as [[[d n] s]|] eqn:E2.
    { injection H as -> -> ->.
      destruct (find_in_text_some _ _ _ _ _ _ E2) as [-> _].
      split; [exact E2|].
      intros earlier Hr. destruct earlier; cbn in Hr; try lia; assumption. }
    destruct (_find_in_text stop (texts_get texts Details) Details)
      as [[[d n] s]|] eqn:E3.
    { injection H as -> -> ->.
      destruct (find_in_text_some _ _ _ _ _ _ E3) as [-> _].
      split; [exact E3|].
      intros earlier Hr. destruct earlier; cbn in Hr; try lia; assumption. }
    destruct (_find_in_text stop (texts_get texts Description) Description)
      as [[[d n] s]|] eqn:E4; [|discriminate].
    injection H as -> -> ->.
    destruct (find_in_text_some _ _ _ _ _ _ E4) as [-> _].
    split; [exact E4|].
    intros earlier Hr. destruct earlier; cbn in Hr; try lia; assumption. }
  destruct Hall as [Hfound Hearlier].
  split; [exact Hfound|]. split; [exact Hearlier|].
  destruct (find_in_text_some _ _ _ _ _ _ Hfound) as (_ & Hn & Hp).
  split; assumption.
Qed.

Lemma extraction_prefers_title_and_location_witness :
  _find_in_text ["santa tecla"] (texts_get ex_texts_description_only Description)
                Description
  = Some ("Residencial los Almendros", "residencial los almendros", Description)
  /\ (forall earlier,
        (rank_listing earlier < rank_listing Description)%nat ->
        _find_in_text ["santa tecla"] (texts_get ex_texts_description_only earlier)
                      earlier = None)
  /\ "residencial los almendros" = normalize_text "Residencial los Almendros"
  /\ exists prefix idx,
       In prefix COLONIA_PREFIXES
       /\ find prefix (texts_get ex_texts_description_only Description) = Some idx.
Proof.
  exact (extraction_prefers_title_and_location
           ["santa tecla"] ex_texts_description_only
           "Residencial los Almendros" "residencial los almendros" Description
           eq_refl).
Defined.

End ExtractProperties.

(** ** Coordinate matching *)

Section CoordinateProperties.

Open Scope R_scope.

Lemma Rleb_iff (a b : R) : Rleb a b = true <-> a <= b.
Proof.
  unfold Rleb. destruct (Rle_dec a b); split; (assumption || discriminate || auto).
Qed.

Lemma nearest_step_keeps (lat lng : R) (seen : LevelData)
    (best : option (Z * R * string)) (entry : Z * LocInfo) :
  nearest_so_far lat lng seen best ->
  nearest_so_far lat lng (seen ++ [entry])%list (nearest_step lat lng best entry).
Proof.
  destruct entry as [k0 info0]. intro Hinv.
  assert (Hkeep : (latitude info0 = None \/ longitude info0 = None
                   \/ exists la lo kb db nb,
                        latitude info0 = Some la /\ longitude info0 = Some lo
                        /\ best = Some (kb, db, nb)
                        /\ db <= haversine_distance lat lng la lo) ->
                  nearest_so_far lat lng (seen ++ [(k0, info0)])%list best).
  { intro Hno. destruct best as [[[kb db] nb]|]; cbn [nearest_so_far] in *.
    - destruct Hinv as (info & Hnm & before & after & la & lo & Hseen & Hla & Hlo
                        & Hd & Hbefore & Hafter).
      exists info. split; [exact Hnm|].
      exists before, (after ++ [(k0, info0)])%list, la, lo.
      split; [rewrite Hseen, <- app_assoc; reflexivity|].
      split; [exact Hla|]. split; [exact Hlo|]. split; [exact Hd|].
      split; [exact Hbefore|].
      intros k' info' la' lo' Hin Hla' Hlo'.
      apply in_app_or in Hin. destruct Hin as [Hin | [Hin | []]].
      + exact (Hafter k' info' la' lo' Hin Hla' Hlo').
      + injection Hin as <- <-.
        destruct Hno as [Hno | [Hno | (la0 & lo0 & kb' & db' & nb' & Ha & Ho & Hb & Hle)]];
          [congruence | congruence |].
        injection Hb as <- <- <-.
        assert (la0 = la') by congruence. assert (lo0 = lo') by congruence.
        subst la0 lo0. exact Hle.
    - intros k info la lo Hin Hla Hlo.
      apply in_app_or in Hin. destruct Hin as [Hin | [Hin | []]].
      + exact (Hinv k info la lo Hin Hla Hlo).
      + injection Hin as <- <-.
        destruct Hno as [Hno | [Hno | (la0 & lo0 & kb' & db' & nb' & _ & _ & Hb & _)]];
          congruence. }
  unfold nearest_step.
  destruct (latitude info0) as [la|] eqn:Hla; [|apply Hkeep; left; reflexivity].
  destruct (longitude info0) as [lo|] eqn:Hlo;
    [|apply Hkeep; right; left; reflexivity].
  assert (Hnew : (forall k info la' lo',
                     In (k, info) seen -> latitude info = Some la' ->
                     longitude info = Some lo' ->
                     haversine_distance lat lng la lo < haversine_distance lat lng la' lo') ->
                 nearest_so_far lat lng (seen ++ [(k0, info0)])%list
                   (Some (k0, haversine_distance lat lng la lo, name info0))).
  { intro Hall. cbn [nearest_so_far]. exists info0. split; [reflexivity|].
    exists seen, [], la, lo.
    split; [reflexivity|]. split; [exact Hla|]. split; [exact Hlo|].
    split; [reflexivity|]. split; [exact Hall|]. intros k' info' la' lo' []. }
  destruct best as [[[kb db] nb]|].
  - destruct (Rltb (haversine_distance lat lng la lo) db) eqn:Elt.
    + apply Rltb_iff in Elt. apply Hnew.
      cbn [nearest_so_far] in Hinv.
      destruct Hinv as (info & Hnm & before & after & lab & lob & Hseen & Hlab & Hlob
                        & Hd & Hbefore & Hafter).
      intros k info' la' lo' Hin Hla' Hlo'. rewrite Hseen in Hin.
      apply in_app_or in Hin. destruct Hin as [Hin | [Hin | Hin]].
      * assert (H := Hbefore k info' la' lo' Hin Hla' Hlo'). lra.
      * injection Hin as <- <-.
        assert (lab = la') by congruence. assert (lob = lo') by congruence.
        subst. exact Elt.
      * assert (H := Hafter k info' la' lo' Hin Hla' Hlo'). lra.
    + apply Hkeep. right. right. exists la, lo, kb, db, nb.
      repeat split.
      destruct (Rle_dec db (haversine_distance lat lng la lo)) as [Hle | Hnle];
        [exact Hle|].
      exfalso. assert (Ht : Rltb (haversine_distance lat lng la lo) db = true)
        by (apply Rltb_iff; lra).
      congruence.
  - apply Hnew. intros k info la' lo' Hin Hla' Hlo'.
    exfalso. exact (Hinv k info la' lo' Hin Hla' Hlo').
Qed.

Lemma nearest_fold_keeps (lat lng : R) (entries : LevelData) :
  forall seen best,
    nearest_so_far lat lng seen best ->
    nearest_so_far lat lng (seen ++ entries)%list
                   (fold_left (nearest_step lat lng) entries best).
Proof.
  induction entries as [|e l IH]; intros seen best Hinv; cbn [fold_left].
  - rewrite app_nil_r. exact Hinv.
  - replace (seen ++ e :: l)%list with ((seen ++ [e]) ++ l)%list
      by (rewrite <- app_assoc; reflexivity).
    apply IH. apply nearest_step_keeps. exact Hinv.
Qed.

(** Tier 1 ends on the nearest entry with coordinates, the first stored
    among equally near ones; on nothing when no entry has coordinates. *)
Lemma nearest_l2_spec (lat lng : R) (l2_data : LevelData) :
  nearest_so_far lat lng l2_data (nearest_l2 lat lng l2_data).
Proof.
  unfold nearest_l2.
  apply (nearest_fold_keeps lat lng l2_data [] None).
  intros k info la lo [].
Qed.

Lemma round_half_even_R_bounds (x : R) (lo hi : Z) :
  IZR lo <= x <= IZR hi -> (lo <= round_half_even_R x <= hi)%Z.
Proof.
  intros [Hlo Hhi]. unfold round_half_even_R.
  destruct (base_Int_part x) as [Hf1 Hf2].
  set (f := Int_part x) in *.
  assert (Hflo : (lo <= f)%Z).
  { assert (H : (lo < f + 1)%Z) by (apply lt_IZR; rewrite plus_IZR; lra). lia. }
  assert (Hfhi : (f <= hi)%Z) by (apply le_IZR; lra).
  assert (Hup : ~ x - IZR f < 1 / 2 -> (f + 1 <= hi)%Z).
  { intro Hr. assert (H : (f < hi)%Z) by (apply lt_IZR; lra). lia. }
  destruct (Rltb (x - IZR f) (1 / 2)) eqn:E1; [lia|].
  assert (Hr : ~ x - IZR f < 1 / 2).
  { intro H. apply Rltb_iff in H. congruence. }
  specialize (Hup Hr).
  destruct (Rltb (1 / 2) (x - IZR f)); [lia|].
  destruct (Z.even f); lia.
Qed.

Lemma round2R_bounds (x : R) (lo hi : Z) :
  IZR lo <= x * 100 <= IZR hi ->
  (lo # 100 <= round2R x)%Q /\ (round2R x <= hi # 100)%Q.
Proof.
  intro H. apply round_half_even_R_bounds in H. unfold round2R.
  split; rewrite Qred_correct; unfold Qle; cbn [Qnum Qden]; lia.
Qed.

Lemma tier1_score_bounds (d km : R) :
  0 <= d -> 0 < km ->
  ((1 # 2) <= round2R (Rmax (1 / 2) (1 - d / km)))%Q
  /\ (round2R (Rmax (1 / 2) (1 - d / km)) <= 1)%Q.
Proof.
  intros Hd Hkm.
  assert (Hq : 0 <= d / km).
  { apply Rmult_le_pos; [exact Hd|]. left. apply Rinv_0_lt_compat. exact Hkm. }
  assert (Hx : 1 / 2 <= Rmax (1 / 2) (1 - d / km) <= 1).
  { unfold Rmax. destruct (Rle_dec (1 / 2) (1 - d / km)); lra. }
  destruct (round2R_bounds (Rmax (1 / 2) (1 - d / km)) 50 100) as [H1 H2]; [lra|].
  split.
  - eapply Qle_trans; [|exact H1]. unfold Qle. cbn. lia.
  - eapply Qle_trans; [exact H2|]. unfold Qle. cbn. lia.
Qed.

Lemma tier2_score_bounds (d km : R) :
  0 <= d -> 0 < km ->
  ((4 # 10) <= round2R (Rmax (4 / 10) (9 / 10 - d / km)))%Q
  /\ (round2R (Rmax (4 / 10) (9 / 10 - d / km)) <= 9 # 10)%Q.
Proof.
  intros Hd Hkm.
  assert (Hq : 0 <= d / km).
  { apply Rmult_le_pos; [exact Hd|]. left. apply Rinv_0_lt_compat. exact Hkm. }
  assert (Hx : 4 / 10 <= Rmax (4 / 10) (9 / 10 - d / km) <= 9 / 10).
  { unfold Rmax. destruct (Rle_dec (4 / 10) (9 / 10 - d / km)); lra. }
  destruct (round2R_bounds (Rmax (4 / 10) (9 / 10 - d / km)) 40 90) as [H1 H2]; [lra|].
  split.
  - eapply Qle_trans; [|exact H1]. unfold Qle. cbn. lia.
  - eapply Qle_trans; [exact H2|]. unfold Qle. cbn. lia.
Qed.

Lemma nearest_l3_nonneg (lat lng : R) (groups : Groups) (cs : Centroids) :
  forall best,
    (forall k d nm, best = Some (k, d, nm) -> 0 <= d) ->
    forall k d nm,
      fold_left (nearest_centroid_step lat lng groups) cs best = Some (k, d, nm) ->
      0 <= d.
Proof.
  induction cs as [|[l3_id [[lat_sum lng_sum] count]] cs IH]; intros best Hbest;
    cbn [fold_left]; [exact Hbest|].
  apply IH. intros k d nm. cbn [nearest_centroid_step].
  destruct (count =? 0)%nat; [exact (Hbest k d nm)|].
  destruct best as [[[kb db] nb]|].
  - destruct (Rltb _ db).
    + intro H. injection H as <- <- <-. apply haversine_nonneg.
    + exact (Hbest k d nm).
  - intro H. injection H as <- <- <-. apply haversine_nonneg.
Qed.

(** The ways in which [match_by_coordinates] answers with a result. *)
Lemma match_by_coordinates_some (lat lng km2 km3 : R) (texts : option Texts)
    (ext_id : option Z) (w : World) (r : MatchResult) (w' : World) :
  match_by_coordinates lat lng km2 km3 texts ext_id w = (Some r, w') ->
  (exists k d nm,
      nearest_l2 lat lng (level2 (w_groups w)) = Some (k, d, nm)
      /\ d <= km2 /\ w' = w
      /\ r = update_chain
               (coordinate_result L2 (Rmax (1 / 2) (1 - d / km2)) (NameAndDistance nm d))
               (get_parent_chain k L2 (w_groups w)))
  \/ (match nearest_l2 lat lng (level2 (w_groups w)) with
      | Some (_, d, _) => km2 < d
      | None => True
      end
      /\ exists k3 d3 n3,
           nearest_l3 lat lng (w_groups w) = Some (k3, d3, n3)
           /\ d3 <= km3
           /\ (r = update_chain
                     (coordinate_result L3 (Rmax (4 / 10) (9 / 10 - d3 / km3))
                                        (NameAndDistance n3 d3))
                     (get_parent_chain k3 L3 (w_groups w))
               \/ exists t auto,
                    texts = Some t
                    /\ r = upgrade_auto_l2
                             (update_chain
                                (coordinate_result L3 (Rmax (4 / 10) (9 / 10 - d3 / km3))
                                                   (NameAndDistance n3 d3))
                                (get_parent_chain k3 L3 (w_groups w)))
                             auto CoordinatesAutoL2 (w_groups w') n3)).
Proof.
  unfold match_by_coordinates.
  destruct (_ || _); [discriminate|].
  cbn [groups_get].
  destruct (level2 (w_groups w)) as [|e l2] eqn:El2; [discriminate|].
  assert (Htier2 :
            match nearest_l2 lat lng (e :: l2) with
            | Some (_, d, _) => km2 < d
            | None => True
            end ->
            match nearest_l3 lat lng (w_groups w) with
            | Some (best_l3_id, best_l3_dist, best_l3_name) =>
                if Rleb best_l3_dist km3
                then
                  let result :=
                    update_chain
                      (coordinate_result L3
                         (Rmax (4 / 10) (9 / 10 - best_l3_dist / km3))
                         (NameAndDistance best_l3_name best_l3_dist))
                      (get_parent_chain best_l3_id L3 (w_groups w)) in
                  match texts with
                  | Some texts =>
                      let '(auto_l2_id, w0) :=
                        try_create_l2_from_listing texts lat lng best_l3_id ext_id w in
                      match auto_l2_id with
                      | Some auto =>
                          if negb (auto =? 0)%Z
                          then (Some (upgrade_auto_l2 result auto CoordinatesAutoL2
                                                      (w_groups w0) best_l3_name), w0)
                          else (Some result, w0)
                      | None => (Some result, w0)
                      end
                  | None => (Some result, w)
                  end
                else (None, w)
            | None => (None, w)
            end = (Some r, w') ->
            (exists k d nm,
                nearest_l2 lat lng (e :: l2) = Some (k, d, nm)
                /\ d <= km2 /\ w' = w
                /\ r = update_chain
                         (coordinate_result L2 (Rmax (1 / 2) (1 - d / km2))
                                            (NameAndDistance nm d))
                         (get_parent_chain k L2 (w_groups w)))
            \/ (match nearest_l2 lat lng (e :: l2) with
                | Some (_, d, _) => km2 < d
                | None => True
                end
                /\ exists k3 d3 n3,
                     nearest_l3 lat lng (w_groups w) = Some (k3, d3, n3)
                     /\ d3 <= km3
                     /\ (r = update_chain
                               (coordinate_result L3 (Rmax (4 / 10) (9 / 10 - d3 / km3))
                                                  (NameAndDistance n3 d3))
                               (get_parent_chain k3 L3 (w_groups w))
                         \/ exists t auto,
                              texts = Some t
                              /\ r = upgrade_auto_l2
                                       (update_chain
                                          (coordinate_result L3
                                             (Rmax (4 / 10) (9 / 10 - d3 / km3))
                                             (NameAndDistance n3 d3))
                                          (get_parent_chain k3 L3 (w_groups w)))
                                       auto CoordinatesAutoL2 (w_groups w') n3))).
  { intros Hmiss H. right. split; [exact Hmiss|].
    destruct (nearest_l3 lat lng (w_groups w)) as [[[k3 d3] n3]|]; [|discriminate].
    destruct (Rleb d3 km3) eqn:E3; [|discriminate].
    apply Rleb_iff in E3. exists k3, d3, n3.
    split; [reflexivity|]. split; [exact E3|].
    cbv zeta in H. destruct texts as [t|].
    - destruct (try_create_l2_from_listing t lat lng k3 ext_id w) as [[auto|] w0].
      + destruct (negb (auto =? 0)%Z); injection H as <- <-.
        * right. exists t, auto. split; reflexivity.
        * left. reflexivity.
      + injection H as <- <-. left. reflexivity.
    - injection H as <- <-. left. reflexivity. }
  destruct (nearest_l2 lat lng (e :: l2)) as [[[k d] nm]|].
  - destruct (Rleb d km2) eqn:E2.
    + apply Rleb_iff in E2. intro H. injection H as <- <-.
      left. exists k, d, nm. repeat split. exact E2.
    + apply Htier2.
      destruct (Rle_dec d km2) as [Hle | Hnle]; [|lra].
      apply Rleb_iff in Hle. congruence.
  - apply Htier2. exact I.
Qed.

(** A plain coordinate match at level 2 is the nearest level-2 node with
    coordinates, the first stored among equally near ones, and it lies
    within the radius; the result names it, at that distance, with the
    score max(0.5, 1 - distance / radius) rounded to two decimals, and
    carries its ancestor chain. *)
Theorem coordinate_match_picks_the_nearest_node :
  forall lat lng km2 km3 texts ext_id w r w',
    match_by_coordinates lat lng km2 km3 texts ext_id w = (Some r, w') ->
    matchLevel r = Some L2 -> matchSource r = Some Coordinates ->
    exists k info d,
      nearest_in lat lng (level2 (w_groups w)) k info d
      /\ d <= km2
      /\ locGroup2Id r = Some k
      /\ matchedText r = Some (NameAndDistance (name info) d)
      /\ matchScore r = Some (round2R (Rmax (1 / 2) (1 - d / km2)))
      /\ mkChain (locGroup2Id r) (locGroup3Id r) (locGroup4Id r) (locGroup5Id r)
         = get_parent_chain k L2 (w_groups w).
Proof.
  intros lat lng km2 km3 texts ext_id w r w' H Hlevel Hsource.
  apply match_by_coordinates_some in H.
  destruct H as [(k & d & nm & Hn & Hd & _ & ->)
                | (_ & k3 & d3 & n3 & _ & _ & [-> | (t & auto & _ & ->)])];
    [| discriminate | discriminate].
  assert (Hspec := nearest_l2_spec lat lng (level2 (w_groups w))).
  rewrite Hn in Hspec. cbn [nearest_so_far] in Hspec.
  destruct Hspec as (info & -> & Hnear).
  exists k, info, d.
  split; [exact Hnear|]. split; [exact Hd|].
  assert (Hstart := get_parent_chain_start k L2 (w_groups w)).
  cbn [chain_get] in Hstart.
  cbn [update_chain coordinate_result locGroup2Id locGroup3Id locGroup4Id locGroup5Id
       matchedText matchScore].
  split; [exact Hstart|]. split; [reflexivity|]. split; [reflexivity|].
  destruct (get_parent_chain k L2 (w_groups w)). reflexivity.
Qed.

(** The result of the example point, which sits on "Colonia San Benito". *)
Lemma ex_point_match :
  match_by_coordinates ex_point_lat ex_point_lng 3 20 None None
                       (ex_world ex_groups always_conflict)
  = (Some (update_chain
             (coordinate_result L2 (Rmax (1 / 2) (1 - 0 / 3))
                                (NameAndDistance (name san_benito) 0))
             (get_parent_chain 7%Z L2 ex_groups)),
     ex_world ex_groups always_conflict).
Proof.
  assert (Hn : nearest_l2 ex_point_lat ex_point_lng
                 (level2 (w_groups (ex_world ex_groups always_conflict)))
               = Some (7%Z, 0, name san_benito)).
  { change (level2 (w_groups (ex_world ex_groups always_conflict)))
      with ([] ++ (7%Z, san_benito) :: [(8%Z, las_piletas)])%list.
    rewrite (nearest_l2_exact ex_point_lat ex_point_lng [] [(8%Z, las_piletas)]
               7%Z san_benito eq_refl eq_refl
               ltac:(intros k info la lo Hin; contradiction)).
    rewrite haversine_self. reflexivity. }
  apply (match_by_coordinates_tier1 ex_point_lat ex_point_lng None None
           (ex_world ex_groups always_conflict) 7%Z 0 (name san_benito)
           ex_point_lat_nonzero ex_point_lng_nonzero Hn).
  lra.
Defined.

Lemma coordinate_match_picks_the_nearest_node_witness :
  exists k info d,
    nearest_in ex_point_lat ex_point_lng ex_level2 k info d
    /\ d <= 3
    /\ Some 7%Z = Some k
    /\ Some (NameAndDistance (name san_benito) 0) = Some (NameAndDistance (name info) d)
    /\ Some (round2R (Rmax (1 / 2) (1 - 0 / 3)))
       = Some (round2R (Rmax (1 / 2) (1 - d / 3)))
    /\ mkChain (Some 7%Z) (Some 1%Z) (Some 10%Z) (Some 100%Z)
       = get_parent_chain k L2 ex_groups.
Proof.
  exact (coordinate_match_picks_the_nearest_node
           ex_point_lat ex_point_lng 3 20 None None
           (ex_world ex_groups always_conflict) _ _ ex_point_match eq_refl eq_refl).
Defined.

(** Every result of [match_by_coordinates] has a level, 2 or 3, with the
    id of that level filled in, and a score.  It is either a plain
    level-2 match, which changes nothing and scores between 0.5 and 1.0;
    or no level-2 node with coordinates lies within the level-2 radius,
    the municipality is filled in and the score lies between 0.4 and 0.9:
    then the result is at level 3 with no level-2 id, or at level 2 with
    the source "coordinates+auto-l2", which takes listing texts. *)
Theorem coordinate_match_shape :
  forall lat lng km2 km3 texts ext_id w r w',
    0 < km2 -> 0 < km3 ->
    match_by_coordinates lat lng km2 km3 texts ext_id w = (Some r, w') ->
    exists level score,
      matchLevel r = Some level /\ matchScore r = Some score
      /\ result_id r level <> None
      /\ ((level = L2 /\ matchSource r = Some Coordinates /\ w' = w
           /\ ((1 # 2) <= score)%Q /\ (score <= 1)%Q)
          \/ (none_within km2 lat lng (level2 (w_groups w))
              /\ ((4 # 10) <= score)%Q /\ (score <= 9 # 10)%Q
              /\ result_id r L3 <> None
              /\ ((level = L3 /\ matchSource r = Some Coordinates
                   /\ locGroup2Id r = None)
                  \/ (level = L2 /\ matchSource r = Some CoordinatesAutoL2
                      /\ texts <> None)))).
Proof.
  intros lat lng km2 km3 texts ext_id w r w' Hkm2 Hkm3 H.
  apply match_by_coordinates_some in H.
  assert (Hspec := nearest_l2_spec lat lng (level2 (w_groups w))).
  destruct H as [(k & d & nm & Hn & Hd & -> & ->)
                | (Hmiss & k3 & d3 & n3 & Hn3 & Hd3 & Hr)].
  - rewrite Hn in Hspec. cbn [nearest_so_far] in Hspec.
    destruct Hspec as (info & _ & before & after & la & lo & _ & _ & _ & Hdist & _).
    assert (Hpos : 0 <= d) by (rewrite Hdist; apply haversine_nonneg).
    destruct (tier1_score_bounds d km2 Hpos Hkm2) as [Hs1 Hs2].
    assert (Hstart := get_parent_chain_start k L2 (w_groups w)).
    cbn [chain_get] in Hstart.
    exists L2, (round2R (Rmax (1 / 2) (1 - d / km2))).
    split; [reflexivity|]. split; [reflexivity|].
    split.
    { cbn [result_id update_chain locGroup2Id]. rewrite Hstart. discriminate. }
    left. repeat split; assumption.
  - assert (Hnone : none_within km2 lat lng (level2 (w_groups w))).
    { intros k info la lo Hin Hla Hlo.
      destruct (nearest_l2 lat lng (level2 (w_groups w))) as [[[kb db] nb]|];
        cbn [nearest_so_far] in Hspec.
      - destruct Hspec as (info0 & _ & before & after & la0 & lo0 & Hseen & Hla0 & Hlo0
                           & Hdist & Hbefore & Hafter).
        rewrite Hseen in Hin. apply in_app_or in Hin.
        destruct Hin as [Hin | [Hin | Hin]].
        + assert (Hlt := Hbefore k info la lo Hin Hla Hlo). lra.
        + injection Hin as <- <-.
          assert (la0 = la) by congruence. assert (lo0 = lo) by congruence.
          subst. lra.
        + assert (Hle := Hafter k info la lo Hin Hla Hlo). lra.
      - exfalso. exact (Hspec k info la lo Hin Hla Hlo). }
    assert (Hpos : 0 <= d3).
    { unfold nearest_l3 in Hn3.
      apply (nearest_l3_nonneg lat lng (w_groups w) _ None
               ltac:(intros; discriminate) k3 d3 n3 Hn3). }
    destruct (tier2_score_bounds d3 km3 Hpos Hkm3) as [Hs1 Hs2].
    assert (Hstart := get_parent_chain_start k3 L3 (w_groups w)).
    cbn [chain_get] in Hstart.
    destruct (chain_of_municipality k3 (w_groups w)) as [Hc2 _].
    destruct Hr as [-> | (t & auto & -> & ->)].
    + exists L3, (round2R (Rmax (4 / 10) (9 / 10 - d3 / km3))).
      split; [reflexivity|]. split; [reflexivity|].
      split.
      { cbn [result_id update_chain locGroup3Id]. rewrite Hstart. discriminate. }
      right. split; [exact Hnone|]. split; [exact Hs1|]. split; [exact Hs2|].
      split.
      { cbn [result_id update_chain locGroup3Id]. rewrite Hstart. discriminate. }
      left. split; [reflexivity|]. split; [reflexivity|].
      cbn [update_chain locGroup2Id]. exact Hc2.
    + exists L2, (round2R (Rmax (4 / 10) (9 / 10 - d3 / km3))).
      split; [reflexivity|]. split; [reflexivity|].
      split; [cbn [result_id upgrade_auto_l2 locGroup2Id]; discriminate|].
      right. split; [exact Hnone|]. split; [exact Hs1|]. split; [exact Hs2|].
      split.
      { cbn [result_id upgrade_auto_l2 update_chain locGroup3Id]. rewrite Hstart.
        discriminate. }
      right. split; [reflexivity|]. split; [reflexivity | discriminate].
Qed.

Lemma coordinate_match_shape_witness :
  let r := update_chain
             (coordinate_result L2 (Rmax (1 / 2) (1 - 0 / 3))
                                (NameAndDistance (name san_benito) 0))
             (get_parent_chain 7%Z L2 ex_groups) in
  let w := ex_world ex_groups always_conflict in
  exists level score,
    matchLevel r = Some level /\ matchScore r = Some score
    /\ result_id r level <> None
    /\ ((level = L2 /\ matchSource r = Some Coordinates /\ w = w
         /\ ((1 # 2) <= score)%Q /\ (score <= 1)%Q)
        \/ (none_within 3 ex_point_lat ex_point_lng (level2 (w_groups w))
            /\ ((4 # 10) <= score)%Q /\ (score <= 9 # 10)%Q
            /\ result_id r L3 <> None
            /\ ((level = L3 /\ matchSource r = Some Coordinates
                 /\ locGroup2Id r = None)
                \/ (level = L2 /\ matchSource r = Some CoordinatesAutoL2
                    /\ @None Texts <> None)))).
Proof.
  apply (coordinate_match_shape ex_point_lat ex_point_lng 3 20 None None
           (ex_world ex_groups always_conflict) _ _ ltac:(lra) ltac:(lra)
           ex_point_match).
Defined.

End CoordinateProperties.

(** ** The two orchestrators *)

Section OrchestrationProperties.

Open Scope string_scope.

Lemma result_id_set_match (r : MatchResult) (level : Level) (score : Q)
    (source : Source) (text : option MatchedText) (l : Level) :
  result_id (set_match r level score source text) l = result_id r l.
Proof. destruct l; reflexivity. Qed.

Lemma result_id_update_chain (r : MatchResult) (c : Chain) (l : Level) :
  result_id (update_chain r c) l = chain_get c l.
Proof. destruct l; reflexivity. Qed.

(** A match recorded with the chain of its own level names its level. *)
Lemma names_after_chain (r : MatchResult) (k : Z) (level : Level) (groups : Groups)
    (score : Q) (source : Source) (text : option MatchedText) :
  names_its_level
    (set_match (update_chain r (get_parent_chain k level groups))
               level score source text).
Proof.
  exists level. split; [reflexivity|]. split.
  - rewrite result_id_set_match, result_id_update_chain, get_parent_chain_start.
    discriminate.
  - split; discriminate.
Qed.

Lemma try_l2_under_names (finder : Finder) (texts : Texts) (groups : Groups)
    (l3_id : Z) (r : MatchResult) :
  names_its_level r -> names_its_level (try_l2_under finder texts groups l3_id r).
Proof.
  intro H. unfold try_l2_under.
  destruct (finder texts (groups_get groups L2) (Some l3_id))
    as [[[[l2_id l2_score] l2_text] l2_source]|]; [|exact H].
  destruct (Qgeb l2_score MIN_SCORE); [|exact H].
  exists L2. repeat split; discriminate.
Qed.

Lemma try_auto_l2_names (texts : Texts) (lat lng : option R) (l3_id : Z)
    (l3_text : string) (ext_id : option Z) (r : MatchResult) (w : World) :
  names_its_level r ->
  names_its_level (fst (try_auto_l2 texts lat lng l3_id l3_text ext_id r w)).
Proof.
  intro H. unfold try_auto_l2.
  destruct (locGroup2Id r); [exact H|].
  destruct (usable_coordinates lat lng) as [[la lo]|]; [|exact H].
  destruct (try_create_l2_from_listing texts la lo l3_id ext_id w) as [[auto|] w'];
    [|exact H].
  destruct (negb (auto =? 0)%Z); [|exact H].
  destruct H as (level & _ & _ & Hscore & _).
  exists L2. split; [reflexivity|]. split; [discriminate|].
  split; [exact Hscore | discriminate].
Qed.

Lemma try_auto_l2_external_id (texts : Texts) (lat lng : option R) (l3_id : Z)
    (l3_text : string) (ext_id : option Z) (r : MatchResult) (w : World) :
  externalId (fst (try_auto_l2 texts lat lng l3_id l3_text ext_id r w)) = externalId r.
Proof.
  unfold try_auto_l2.
  destruct (locGroup2Id r); [reflexivity|].
  destruct (usable_coordinates lat lng) as [[la lo]|]; [|reflexivity].
  destruct (try_create_l2_from_listing texts la lo l3_id ext_id w) as [[auto|] w'];
    [|reflexivity].
  destruct (negb (auto =? 0)%Z); reflexivity.
Qed.

Lemma try_l2_under_external_id (finder : Finder) (texts : Texts) (groups : Groups)
    (l3_id : Z) (r : MatchResult) :
  externalId (try_l2_under finder texts groups l3_id r) = externalId r.
Proof.
  unfold try_l2_under.
  destruct (finder texts (groups_get groups L2) (Some l3_id))
    as [[[[l2_id l2_score] l2_text] l2_source]|]; [|reflexivity].
  destruct (Qgeb l2_score MIN_SCORE); reflexivity.
Qed.

Lemma last_resort_names (texts : Texts) (groups : Groups) (result r : MatchResult) :
  last_resort texts groups result = Some r ->
  names_its_level r /\ externalId r = externalId result.
Proof.
  unfold last_resort.
  destruct (find_best_match_in_level _ _ _) as [[[[k sc] t] src]|]; [|discriminate].
  destruct (Qgeb sc MIN_SCORE); [|discriminate].
  intro H. injection H as <-. split; [apply names_after_chain | reflexivity].
Qed.

Lemma department_step_names (texts : Texts) (groups : Groups)
    (result r : MatchResult) :
  department_step texts groups result = Some r ->
  names_its_level r /\ externalId r = externalId result.
Proof.
  unfold department_step.
  destruct (find_best_match_in_level texts (groups_get groups L5) None)
    as [[[[l5_id l5_score] l5_text] l5_source]|]; [|apply last_resort_names].
  destruct (disambiguate texts groups l5_id) as [[[k info] src]|].
  - intro H. injection H as <-. unfold disambiguated_result. split.
    + apply try_l2_under_names, names_after_chain.
    + rewrite try_l2_under_external_id. reflexivity.
  - destruct (fold_left (lower_step texts groups l5_id) [L2; L3; L4] (None, L5, 0%Q))
      as [[best_lower best_lower_level] best_score].
    destruct best_lower as [[[[loc_id score] matched_text] source]|];
      intro H; injection H as <-.
    + split; [apply names_after_chain | reflexivity].
    + split; [|reflexivity]. exists L5. repeat split; discriminate.
Qed.

Lemma match_listing_text_names (texts : Texts) (lat lng : option R)
    (ext_id : option Z) (w : World) (r : MatchResult) :
  fst (match_listing_text texts lat lng ext_id w) = Some r ->
  names_its_level r /\ externalId r = ext_id.
Proof.
  unfold match_listing_text.
  assert (Hdept : fst (department_step texts (w_groups w) (empty_result ext_id), w)
                  = Some r ->
                  names_its_level r /\ externalId r = ext_id).
  { cbn [fst]. intro H. apply department_step_names in H. exact H. }
  destruct (find_best_match_in_level texts (groups_get (w_groups w) L3) None)
    as [[[[l3_id l3_score] l3_text] l3_source]|]; [|exact Hdept].
  destruct (Qgeb l3_score MIN_SCORE); [|exact Hdept].
  cbv zeta.
  set (r0 := set_match (update_chain (empty_result ext_id)
                          (get_parent_chain l3_id L3 (w_groups w)))
                       L3 l3_score l3_source (evidence l3_text)).
  set (r1 := try_l2_under find_best_match_in_level texts (w_groups w) l3_id r0).
  assert (H1 : names_its_level r1)
    by (apply try_l2_under_names, names_after_chain).
  assert (H2 := try_auto_l2_names texts lat lng l3_id l3_text ext_id r1 w H1).
  assert (E2 := try_auto_l2_external_id texts lat lng l3_id l3_text ext_id r1 w).
  destruct (try_auto_l2 texts lat lng l3_id l3_text ext_id r1 w) as [r2 w2].
  cbn [fst] in *. intro H. injection H as <-.
  split; [exact H2|]. rewrite E2. subst r1. rewrite try_l2_under_external_id.
  reflexivity.
Qed.

Lemma coordinate_result_names (lat lng km2 km3 : R) (texts : option Texts)
    (ext_id : option Z) (w : World) (r : MatchResult) :
  fst (match_by_coordinates lat lng km2 km3 texts ext_id w) = Some r ->
  names_its_level r.
Proof.
  destruct (match_by_coordinates lat lng km2 km3 texts ext_id w) as [r' w'] eqn:E.
  cbn [fst]. intros ->.
  apply match_by_coordinates_some in E.
  destruct E as [(k & d & nm & _ & _ & _ & ->)
                | (_ & k3 & d3 & n3 & _ & _ & [-> | (t & auto & _ & ->)])].
  - exists L2. split; [reflexivity|]. split; [|split; discriminate].
    rewrite result_id_update_chain, get_parent_chain_start. discriminate.
  - exists L3. split; [reflexivity|]. split; [|split; discriminate].
    rewrite result_id_update_chain, get_parent_chain_start. discriminate.
  - exists L2. repeat split; discriminate.
Qed.

Lemma coordinate_attempt_names (texts : Texts) (lat lng : option R)
    (ext_id : option Z) (w : World) (r : MatchResult) :
  fst (coordinate_attempt texts lat lng ext_id w) = Some r -> names_its_level r.
Proof.
  unfold coordinate_attempt.
  destruct (usable_coordinates lat lng) as [[la lo]|]; [|discriminate].
  apply coordinate_result_names.
Qed.

(** Every record that [match_listing] returns names the level it matched
    at and holds the id of that level, a score and a source; its
    [externalId] is the listing's. *)
Theorem match_listing_result_names_its_level :
  forall listing w r,
    fst (match_listing listing w) = Some r ->
    names_its_level r /\ externalId r = external_id listing.
Proof.
  intros listing w r. unfold match_listing. cbv zeta.
  assert (Hc := coordinate_attempt_names
                  (extract_searchable_text listing)
                  (loc_latitude (listing_location listing))
                  (loc_longitude (listing_location listing))
                  (external_id listing) w).
  destruct (coordinate_attempt _ _ _ _ w) as [[rc|] w1]; cbn [fst] in Hc.
  - cbn [fst]. intro H. injection H as <-.
    destruct (Hc rc eq_refl) as (level & Hl & Hid & Hs & Hsrc).
    split; [|reflexivity].
    exists level. split; [exact Hl|]. split; [|split; assumption].
    destruct level; exact Hid.
  - apply match_listing_text_names.
Qed.

Lemma match_listing_result_names_its_level_witness :
  names_its_level
    (mkResult (Some 31885955%Z) None (Some 2%Z) (Some 10%Z) (Some 100%Z) (Some L3)
              (Some 1%Q) (Some (FromText Title)) (Some (Evidence "Santa Tecla")))
  /\ Some 31885955%Z = external_id listing_title_and_location.
Proof.
  exact (match_listing_result_names_its_level
           listing_title_and_location (ex_world ex_groups_no_l2 always_conflict)
           (mkResult (Some 31885955%Z) None (Some 2%Z) (Some 10%Z) (Some 100%Z)
                     (Some L3) (Some 1%Q) (Some (FromText Title))
                     (Some (Evidence "Santa Tecla")))
           eq_refl).
Defined.

Lemma last_resort_texts_names (texts : Texts) (groups : Groups) (result : MatchResult) :
  names_its_level (last_resort_texts texts groups result)
  \/ last_resort_texts texts groups result = result.
Proof.
  unfold last_resort_texts.
  destruct (find_match texts (groups_get groups L2) None)
    as [[[[k sc] t] src]|]; [|right; reflexivity].
  destruct (Qgeb sc MIN_SCORE); [|right; reflexivity].
  left. apply (names_after_chain result k L2 groups).
Qed.

Lemma department_step_texts_names (texts : Texts) (groups : Groups)
    (result : MatchResult) :
  names_its_level (department_step_texts texts groups result)
  \/ department_step_texts texts groups result = result.
Proof.
  unfold department_step_texts.
  destruct (find_match texts (groups_get groups L5) None)
    as [[[[l5_id l5_score] l5_text] l5_source]|]; [|apply last_resort_texts_names].
  left. destruct (disambiguate texts groups l5_id) as [[[k info] src]|].
  - unfold disambiguated_result_texts.
    apply try_l2_under_names. apply (names_after_chain result k L3 groups).
  - destruct (fold_left (lower_step_texts texts groups l5_id) [L2; L3; L4] (None, L5))
      as [best_lower best_lower_level].
    destruct best_lower as [[[[[loc_id level] score] text] src]|].
    + apply (names_after_chain _ loc_id level groups).
    + exists L5. repeat split; discriminate.
Qed.

(** A record of [match_listing_with_texts] is all null, or it names the
    level it matched at and holds the id of that level, a score and a
    source. *)
Theorem match_listing_with_texts_names_its_level :
  forall texts latitude longitude ext_id w,
    let r := fst (match_listing_with_texts texts latitude longitude ext_id w) in
    names_its_level r \/ r = empty_result None.
Proof.
  intros texts latitude longitude ext_id w. cbv zeta.
  unfold match_listing_with_texts.
  assert (Hc := coordinate_attempt_names texts latitude longitude ext_id w).
  destruct (coordinate_attempt texts latitude longitude ext_id w) as [[rc|] w1];
    cbn [fst] in Hc.
  - left. exact (Hc rc eq_refl).
  - unfold match_texts_text.
    assert (Hdept : names_its_level
                      (fst (department_step_texts texts (w_groups w1) (empty_result None),
                            w1))
                    \/ fst (department_step_texts texts (w_groups w1) (empty_result None),
                            w1) = empty_result None).
    { cbn [fst]. apply department_step_texts_names. }
    destruct (find_match texts (groups_get (w_groups w1) L3) None)
      as [[[[l3_id l3_score] l3_text] l3_source]|]; [|exact Hdept].
    destruct (Qgeb l3_score MIN_SCORE); [|exact Hdept].
    left. cbv zeta. apply try_auto_l2_names, try_l2_under_names.
    apply (names_after_chain (empty_result None) l3_id L3 (w_groups w1)).
Qed.

(** *** What matching a listing changes *)

Lemma changes_little_refl (w : World) : changes_little w w.
Proof.
  split; [repeat split|]. split.
  - exists []. rewrite app_nil_r. split; [reflexivity | cbn; lia].
  - left. reflexivity.
Qed.

Lemma try_auto_l2_changes_little (texts : Texts) (lat lng : option R) (l3_id : Z)
    (l3_text : string) (ext_id : option Z) (r : MatchResult) (w : World) :
  changes_little w (snd (try_auto_l2 texts lat lng l3_id l3_text ext_id r w)).
Proof.
  unfold try_auto_l2.
  destruct (locGroup2Id r); [apply changes_little_refl|].
  destruct (usable_coordinates lat lng) as [[la lo]|]; [|apply changes_little_refl].
  assert (H := try_create_effects texts la lo l3_id ext_id w).
  destruct (try_create_l2_from_listing texts la lo l3_id ext_id w) as [auto w'].
  specialize (H auto w' eq_refl).
  destruct auto as [auto|]; [destruct (negb (auto =? 0)%Z)|]; exact H.
Qed.

Lemma match_by_coordinates_changes_little (lat lng km2 km3 : R)
    (texts : option Texts) (ext_id : option Z) (w : World) :
  changes_little w (snd (match_by_coordinates lat lng km2 km3 texts ext_id w)).
Proof.
  unfold match_by_coordinates.
  destruct (_ || _); [apply changes_little_refl|].
  destruct (groups_get (w_groups w) L2) as [|e l2]; [apply changes_little_refl|].
  assert (Htier2 :
            changes_little w
              (snd match nearest_l3 lat lng (w_groups w) with
                   | Some (best_l3_id, best_l3_dist, best_l3_name) =>
                       if Rleb best_l3_dist km3
                       then
                         let result :=
                           update_chain
                             (coordinate_result L3
                                (Rmax (4 / 10) (9 / 10 - best_l3_dist / km3))
                                (NameAndDistance best_l3_name best_l3_dist))
                             (get_parent_chain best_l3_id L3 (w_groups w)) in
                         match texts with
                         | Some texts =>
                             let '(auto_l2_id, w0) :=
                               try_create_l2_from_listing texts lat lng best_l3_id
                                                          ext_id w in
                             match auto_l2_id with
                             | Some auto =>
                                 if negb (auto =? 0)%Z
                                 then (Some (upgrade_auto_l2 result auto CoordinatesAutoL2
                                                             (w_groups w0) best_l3_name),
                                       w0)
                                 else (Some result, w0)
                             | None => (Some result, w0)
                             end
                         | None => (Some result, w)
                         end
                       else (None, w)
                   | None => (None, w)
                   end)).
  { destruct (nearest_l3 lat lng (w_groups w)) as [[[k3 d3] n3]|];
      [|apply changes_little_refl].
    destruct (Rleb d3 km3); [|apply changes_little_refl].
    cbv zeta. destruct texts as [t|]; [|apply changes_little_refl].
    assert (H := try_create_effects t lat lng k3 ext_id w).
    destruct (try_create_l2_from_listing t lat lng k3 ext_id w) as [auto w'].
    specialize (H auto w' eq_refl).
    destruct auto as [auto|]; [destruct (negb (auto =? 0)%Z)|]; exact H. }
  destruct (nearest_l2 lat lng (e :: l2)) as [[[k d] nm]|]; [|exact Htier2].
  destruct (Rleb d km2); [apply changes_little_refl | exact Htier2].
Qed.

Lemma coordinate_attempt_changes_little (texts : Texts) (lat lng : option R)
    (ext_id : option Z) (w : World) :
  changes_little w (snd (coordinate_attempt texts lat lng ext_id w))
  /\ (fst (coordinate_attempt texts lat lng ext_id w) = None ->
      snd (coordinate_attempt texts lat lng ext_id w) = w).
Proof.
  split.
  - unfold coordinate_attempt.
    destruct (usable_coordinates lat lng) as [[la lo]|];
      [apply match_by_coordinates_changes_little | apply changes_little_refl].
  - destruct (coordinate_attempt_cases texts lat lng ext_id w)
      as [[_ Hw] | (r & Hr & _)]; [intros _; exact Hw|].
    rewrite Hr. discriminate.
Qed.

(** Matching one listing, by either orchestrator, leaves levels 3 to 5
    and the store as they are, makes at most three requests, and assigns
    at most one entry at level 2. *)
Theorem matching_a_listing_changes_little :
  (forall listing w, changes_little w (snd (match_listing listing w)))
  /\ (forall texts latitude longitude ext_id w,
         changes_little w
           (snd (match_listing_with_texts texts latitude longitude ext_id w))).
Proof.
  split.
  - intros listing w. unfold match_listing. cbv zeta.
    destruct (coordinate_attempt_changes_little
                (extract_searchable_text listing)
                (loc_latitude (listing_location listing))
                (loc_longitude (listing_location listing))
                (external_id listing) w) as [Hc Hnone].
    destruct (coordinate_attempt _ _ _ _ w) as [[rc|] w1]; cbn [fst snd] in *.
    + exact Hc.
    + rewrite (Hnone eq_refl). unfold match_listing_text.
      destruct (find_best_match_in_level _ (groups_get (w_groups w) L3) None)
        as [[[[l3_id l3_score] l3_text] l3_source]|]; [|apply changes_little_refl].
      destruct (Qgeb l3_score MIN_SCORE); [|apply changes_little_refl].
      cbv zeta.
      match goal with
      | |- context [try_auto_l2 ?t ?la ?lo ?k ?tx ?e ?r0 w] =>
          assert (H := try_auto_l2_changes_little t la lo k tx e r0 w);
          destruct (try_auto_l2 t la lo k tx e r0 w) as [r2 w2]
      end.
      exact H.
  - intros texts latitude longitude ext_id w. unfold match_listing_with_texts.
    destruct (coordinate_attempt_changes_little texts latitude longitude ext_id w)
      as [Hc Hnone].
    destruct (coordinate_attempt texts latitude longitude ext_id w) as [[rc|] w1];
      cbn [fst snd] in *.
    + exact Hc.
    + rewrite (Hnone eq_refl). unfold match_texts_text.
      destruct (find_match texts (groups_get (w_groups w) L3) None)
        as [[[[l3_id l3_score] l3_text] l3_source]|]; [|apply changes_little_refl].
      destruct (Qgeb l3_score MIN_SCORE); [|apply changes_little_refl].
      cbv zeta. apply try_auto_l2_changes_little.
Qed.

End OrchestrationProperties.

(** ** Loading the hierarchy *)

Section LoadingProperties.

Open Scope string_scope.

Lemma firstn_nil_inv {A : Type} (n : nat) (l : list A) :
  (0 < n)%nat -> firstn n l = [] -> l = [].
Proof.
  intros Hn H. destruct l as [|x l]; [reflexivity|].
  destruct n as [|n]; [lia | discriminate].
Qed.

(** Paging through a table that the store serves, from any offset. *)
Lemma fetch_all_serving {A : Type} (table : list A) (page_size : nat) :
  (0 < page_size)%nat ->
  forall (rounds offset : nat) (all_rows : list A),
    (List.length (skipn offset table) / page_size < rounds)%nat ->
    fetch_all rounds (serving table) page_size offset all_rows
    = Rows (all_rows ++ skipn offset table)%list.
Proof.
  intro Hp. induction rounds as [|rounds IH]; intros offset all_rows Hr; [lia|].
  cbn [fetch_all]. unfold serving at 1.
  replace (offset + page_size - 1 + 1 - offset)%nat with page_size by lia.
  set (rest := skipn offset table) in *.
  destruct (firstn page_size rest) as [|x data] eqn:Ed.
  - apply firstn_nil_inv in Ed; [|exact Hp]. rewrite Ed, app_nil_r. reflexivity.
  - rewrite <- Ed.
    assert (Hlen : List.length (firstn page_size rest)
                   = Nat.min page_size (List.length rest)) by apply length_firstn.
    destruct (List.length (firstn page_size rest) <? page_size)%nat eqn:Elt.
    + apply Nat.ltb_lt in Elt.
      rewrite firstn_all2 by lia. reflexivity.
    + apply Nat.ltb_ge in Elt.
      assert (Hge : (page_size <= List.length rest)%nat) by lia.
      assert (Hskip : skipn (offset + page_size) table = skipn page_size rest).
      { subst rest. rewrite skipn_skipn. f_equal. lia. }
      rewrite IH.
      * rewrite Hskip, <- app_assoc, firstn_skipn. reflexivity.
      * rewrite Hskip, length_skipn.
        assert (Hdiv : (List.length rest / page_size
                        = (List.length rest - page_size) / page_size + 1)%nat).
        { replace (List.length rest)
            with ((List.length rest - page_size) + 1 * page_size)%nat at 1 by lia.
          apply Nat.div_add. lia. }
        lia.
Qed.

(** The pagination loop collects the whole table, in order, whatever its
    size (an exact multiple of the page size included), within
    [length table / page_size + 1] requests. *)
Theorem pagination_collects_the_table :
  forall (A : Type) (table : list A) (page_size rounds : nat),
    (0 < page_size)%nat ->
    (List.length table / page_size < rounds)%nat ->
    fetch_all rounds (serving table) page_size 0 [] = Rows table.
Proof.
  intros A table page_size rounds Hp Hr.
  rewrite (fetch_all_serving table page_size Hp rounds 0 []).
  - reflexivity.
  - exact Hr.
Qed.

Lemma pagination_collects_the_table_witness :
  fetch_all 3 (serving [1; 2; 3; 4]%Z) 2 0 [] = Rows [1; 2; 3; 4]%Z.
Proof.
  apply (pagination_collects_the_table Z [1; 2; 3; 4]%Z 2 3).
  - lia.
  - cbn. lia.
Defined.

Lemma fetch_all_failing {A : Type} (rounds page_size offset : nat) (all_rows : list A) :
  fetch_all (S rounds) failing page_size offset all_rows = Raised.
Proof. reflexivity. Qed.

(** [load_location_groups] indexes every row of every level that the
    store serves, and a level whose requests raise is loaded empty
    without affecting the other levels. *)
Theorem load_location_groups_loads_every_row :
  forall (tables : Level -> list Row) (raises : Level -> bool) (rounds : nat),
    (forall level, (List.length (tables level) / PAGE_SIZE < rounds)%nat) ->
    let supabase level := if raises level then failing else serving (tables level) in
    let loaded level := if raises level then [] else load_level level (tables level) in
    load_location_groups rounds supabase
    = Some (mkGroups (loaded L2) (loaded L3) (loaded L4) (loaded L5)).
Proof.
  intros tables raises rounds Hr supabase loaded.
  assert (Hone : forall level,
             load_level_from rounds (supabase level) level = Some (loaded level)).
  { intro level. unfold load_level_from, supabase, loaded.
    destruct (raises level).
    - specialize (Hr level). destruct rounds as [|rounds]; [lia|].
      rewrite fetch_all_failing. reflexivity.
    - rewrite (fetch_all_serving (tables level) PAGE_SIZE ltac:(unfold PAGE_SIZE; lia)
                 rounds 0 [] (Hr level)).
      reflexivity. }
  unfold load_location_groups. rewrite !Hone. reflexivity.
Qed.

Lemma load_location_groups_loads_every_row_witness :
  load_location_groups 1
    (fun level =>
       if Level_eqb level L2 then failing
       else serving (match level with
                     | L3 => [ row 1 "Antiguo Cuscatlan" (Some 10%Z);
                               row 2 "Santa Tecla" (Some 10%Z) ]
                     | _ => []
                     end))
  = Some (mkGroups [] ex_level3 [] []).
Proof.
  apply (load_location_groups_loads_every_row
           (fun level => match level with
                         | L3 => [ row 1 "Antiguo Cuscatlan" (Some 10%Z);
                                   row 2 "Santa Tecla" (Some 10%Z) ]
                         | _ => []
                         end)
           (fun level => Level_eqb level L2) 1).
  intros [| | |]; cbn; lia.
Defined.

(** *** The index of one level *)

Lemma assign_keys (k : Z) (entry : LocInfo) (level_data : LevelData) :
  NoDup (map fst level_data) -> NoDup (map fst (assign k entry level_data)).
Proof.
  intro Hnd.
  assert (Hin : forall k', In k' (map fst (assign k entry level_data)) ->
                           k' = k \/ In k' (map fst level_data)).
  { intros k' H. apply in_map_iff in H. destruct H as ([k0 i0] & <- & H).
    apply in_assign in H. destruct H as [[-> _] | H]; [left; reflexivity|].
    right. apply (in_map fst) in H. exact H. }
  induction level_data as [|[k0 info0] l IH]; cbn [assign map fst].
  - constructor; [intros [] | constructor].
  - cbn [map fst] in Hnd. inversion Hnd as [|? ? Hnotin Hnd']; subst.
    destruct (k0 =? k)%Z eqn:E; cbn [map fst].
    + constructor; assumption.
    + constructor.
      * intro H. apply in_map_iff in H. destruct H as ([k1 i1] & Hk & H).
        cbn [fst] in Hk. subst k1.
        apply in_assign in H. destruct H as [[-> _] | H].
        -- rewrite Z.eqb_refl in E. discriminate.
        -- apply Hnotin. apply (in_map fst) in H. exact H.
      * apply IH; [exact Hnd'|].
        intros k' H. apply in_map_iff in H. destruct H as ([k1 i1] & <- & H).
        apply in_assign in H. destruct H as [[-> _] | H]; [left; reflexivity|].
        right. apply (in_map fst) in H. exact H.
Qed.

Lemma lookup_assign_present (k k' : Z) (entry : LocInfo) (level_data : LevelData) :
  lookup k' level_data <> None -> lookup k' (assign k entry level_data) <> None.
Proof.
  intro H. destruct (Z.eq_dec k' k) as [-> | Hne].
  - rewrite lookup_assign_same. discriminate.
  - rewrite lookup_assign_other by exact Hne. exact H.
Qed.

(** The loop of [load_location_groups] over the rows of a level, from any
    index already built. *)
Lemma load_fold (level : Level) (rows : list Row) :
  forall acc : LevelData,
    let loaded :=
      fold_left (fun level_data row =>
                   let '(loc_id, entry) := load_entry level row in
                   assign loc_id entry level_data) rows acc in
    (NoDup (map fst acc) -> NoDup (map fst loaded))
    /\ (forall k info, In (k, info) loaded ->
          In (k, info) acc
          \/ exists row, In row rows /\ load_entry level row = (k, info))
    /\ (forall k, lookup k acc <> None -> lookup k loaded <> None)
    /\ (forall row, In row rows -> lookup (r_id row) loaded <> None).
Proof.
  induction rows as [|row rows IH]; intro acc; cbn [fold_left].
  - cbv zeta. split; [auto|]. split; [auto|]. split; [auto | intros row []].
  - destruct (load_entry level row) as [loc_id entry] eqn:E.
    assert (Hid : loc_id = r_id row).
    { unfold load_entry in E. injection E as <- _. reflexivity. }
    destruct (IH (assign loc_id entry acc)) as (H1 & H2 & H3 & H4).
    cbv zeta in *. split; [|split; [|split]].
    + intro Hnd. apply H1, assign_keys, Hnd.
    + intros k info Hin. destruct (H2 k info Hin) as [Ha | (r & Hr & Hl)].
      * apply in_assign in Ha. destruct Ha as [[-> ->] | Ha]; [|left; exact Ha].
        right. exists row. split; [left; reflexivity | exact E].
      * right. exists r. split; [right; exact Hr | exact Hl].
    + intros k Hk. apply H3, lookup_assign_present, Hk.
    + intros r [<- | Hr].
      * apply H3. rewrite <- Hid, lookup_assign_same. discriminate.
      * apply H4, Hr.
Qed.

Lemma load_entry_shape (level : Level) (row : Row) (k : Z) (info : LocInfo) :
  load_entry level row = (k, info) ->
  k = r_id row /\ id info = k /\ name info = r_loc_name row
  /\ parent_id info = r_parent_loc_group row
  /\ (latitude info = None <-> longitude info = None)
  /\ latitude info <> Some 0%R /\ longitude info <> Some 0%R
  /\ (level <> L2 -> latitude info = None).
Proof.
  unfold load_entry. intro H. injection H as <- <-.
  cbn [id name parent_id latitude longitude].
  split; [reflexivity|]. split; [reflexivity|]. split; [reflexivity|].
  split; [reflexivity|].
  assert (Hno : forall c : option (R * R),
             c = None ->
             (option_map fst c = None <-> option_map snd c = None)
             /\ option_map fst c <> Some 0%R /\ option_map snd c <> Some 0%R
             /\ (level <> L2 -> option_map fst c = None)).
  { intros c ->. cbn. repeat split; (discriminate || reflexivity || auto). }
  destruct level; try (apply Hno; destruct (r_cords row) as [[la lo]|]; reflexivity).
  destruct (r_cords row) as [[la lo]|]; [|apply Hno; reflexivity].
  unfold truthy_num.
  destruct (Req_dec_T la 0) as [Ea | Ea]; [apply Hno; reflexivity|].
  destruct (Req_dec_T lo 0) as [Eo | Eo]; [apply Hno; reflexivity|].
  cbn. split; [split; discriminate|].
  split; [congruence|]. split; [congruence|]. intro H. contradiction.
Qed.

(** The index that [load_location_groups] builds for a level is a
    dictionary: its ids are unique and include the id of every row; every
    entry is built from a row of the table and is filed under the id it
    carries; coordinates are loaded at level 2 only, both or none, and
    never 0. *)
Theorem loaded_level_is_a_dictionary :
  forall level rows,
    NoDup (map fst (load_level level rows))
    /\ (forall row, In row rows -> lookup (r_id row) (load_level level rows) <> None)
    /\ (forall k info,
          In (k, info) (load_level level rows) ->
          (exists row, In row rows /\ load_entry level row = (k, info))
          /\ id info = k
          /\ (latitude info = None <-> longitude info = None)
          /\ latitude info <> Some 0%R /\ longitude info <> Some 0%R
          /\ (level <> L2 -> latitude info = None)).
Proof.
  intros level rows. unfold load_level.
  destruct (load_fold level rows []) as (H1 & H2 & _ & H4). cbv zeta in *.
  split; [apply H1; constructor|]. split; [exact H4|].
  intros k info Hin. destruct (H2 k info Hin) as [[] | (row & Hr & Hl)].
  split; [exists row; split; assumption|].
  destruct (load_entry_shape level row k info Hl) as (_ & Hid & _ & _ & Hc).
  split; [exact Hid | exact Hc].
Qed.

End LoadingProperties.

(** ** Matching in bulk and ingesting *)

Section BatchProperties.

Open Scope string_scope.

Lemma batch_changes_refl (w : World) : batch_changes 0 w w.
Proof.
  split; [repeat split|]. split; [|auto].
  exists []. rewrite app_nil_r. split; [reflexivity | cbn; lia].
Qed.

Lemma batch_changes_step (n : nat) (w w1 w2 : World) :
  batch_changes n w w1 -> changes_little w1 w2 -> batch_changes (S n) w w2.
Proof.
  intros ((A3 & A4 & A5 & As) & (m1 & Hl1 & Hn1) & Hnd)
         ((B3 & B4 & B5 & Bs) & (m2 & Hl2 & Hn2) & Hassign).
  split; [|split].
  - repeat split; congruence.
  - exists (m1 ++ m2)%list. split.
    + rewrite Hl2, Hl1, app_assoc. reflexivity.
    + rewrite length_app. lia.
  - intro H. specialize (Hnd H).
    destruct Hassign as [-> | (i & entry & ->)]; [exact Hnd|].
    apply assign_keys. exact Hnd.
Qed.

Lemma batch_changes_skip (n : nat) (w w1 : World) :
  batch_changes n w w1 -> batch_changes (S n) w w1.
Proof.
  intros (Href & (m1 & Hl1 & Hn1) & Hnd).
  split; [exact Href|]. split; [|exact Hnd].
  exists m1. split; [exact Hl1 | lia].
Qed.

Lemma changes_little_listing (listing : Listing) (w : World) :
  changes_little w (snd (match_listing listing w)).
Proof.
  unfold match_listing. cbv zeta.
  destruct (coordinate_attempt_changes_little
              (extract_searchable_text listing)
              (loc_latitude (listing_location listing))
              (loc_longitude (listing_location listing))
              (external_id listing) w) as [Hc Hnone].
  destruct (coordinate_attempt _ _ _ _ w) as [[rc|] w1]; cbn [fst snd] in *.
  - exact Hc.
  - rewrite (Hnone eq_refl). unfold match_listing_text.
    destruct (find_best_match_in_level _ (groups_get (w_groups w) L3) None)
      as [[[[l3_id l3_score] l3_text] l3_source]|]; [|apply changes_little_refl].
    destruct (Qgeb l3_score MIN_SCORE); [|apply changes_little_refl].
    cbv zeta.
    match goal with
    | |- context [try_auto_l2 ?t ?la ?lo ?k ?tx ?e ?r0 w] =>
        assert (H := try_auto_l2_changes_little t la lo k tx e r0 w);
        destruct (try_auto_l2 t la lo k tx e r0 w) as [r2 w2]
    end.
    exact H.
Qed.

Lemma changes_little_texts (texts : Texts) (latitude longitude : option R)
    (ext_id : option Z) (w : World) :
  changes_little w (snd (match_listing_with_texts texts latitude longitude ext_id w)).
Proof.
  unfold match_listing_with_texts.
  destruct (coordinate_attempt_changes_little texts latitude longitude ext_id w)
    as [Hc Hnone].
  destruct (coordinate_attempt texts latitude longitude ext_id w) as [[rc|] w1];
    cbn [fst snd] in *.
  - exact Hc.
  - rewrite (Hnone eq_refl). unfold match_texts_text.
    destruct (find_match texts (groups_get (w_groups w) L3) None)
      as [[[[l3_id l3_score] l3_text] l3_source]|]; [|apply changes_little_refl].
    destruct (Qgeb l3_score MIN_SCORE); [|apply changes_little_refl].
    cbv zeta. apply try_auto_l2_changes_little.
Qed.

(** *** Loops that file every item in one of two lists *)

Section TwoListLoop.

Context {A M U : Type}.
Variable emit_m : A -> World -> list M.
Variable emit_u : A -> World -> list U.
Variable next : A -> World -> World.
Variable step : list M * list U * World -> A -> list M * list U * World.

Hypothesis step_spec :
  forall ms us w a,
    step (ms, us, w) a = ((ms ++ emit_m a w)%list, (us ++ emit_u a w)%list, next a w).

(** What the loop adds does not depend on what the lists held before. *)
Lemma loop_from (l : list A) :
  forall ms us w,
    fold_left step l (ms, us, w)
    = ((ms ++ fst (fst (fold_left step l ([], [], w))))%list,
       (us ++ snd (fst (fold_left step l ([], [], w))))%list,
       snd (fold_left step l ([], [], w))).
Proof.
  induction l as [|a l IH]; intros ms us w; cbn [fold_left fst snd].
  - rewrite !app_nil_r. reflexivity.
  - rewrite !step_spec. rewrite (IH (ms ++ emit_m a w)%list).
    rewrite (IH ([] ++ emit_m a w)%list). cbn [fst snd app].
    rewrite !app_assoc. reflexivity.
Qed.

Lemma loop_cons (a : A) (l : list A) (w : World) :
  fold_left step (a :: l) ([], [], w)
  = ((emit_m a w ++ fst (fst (fold_left step l ([], [], next a w))))%list,
     (emit_u a w ++ snd (fst (fold_left step l ([], [], next a w))))%list,
     snd (fold_left step l ([], [], next a w))).
Proof.
  cbn [fold_left]. rewrite step_spec, loop_from. reflexivity.
Qed.

(** An item is in the first list exactly when the step of some position
    put it there, in the state that the items before had left. *)
Lemma loop_first_list (l : list A) :
  forall w x,
    In x (fst (fst (fold_left step l ([], [], w))))
    <-> exists before a after,
          l = (before ++ a :: after)%list
          /\ In x (emit_m a (snd (fold_left step before ([], [], w)))).
Proof.
  induction l as [|a l IH]; intros w x.
  - cbn. split; [intros [] | intros (before & a & after & H & _)].
    destruct before; discriminate.
  - rewrite loop_cons. cbn [fst snd]. rewrite in_app_iff, IH. split.
    + intros [H | (before & a0 & after & Hl & H)].
      * exists [], a, l. split; [reflexivity | exact H].
      * exists (a :: before), a0, after. split; [rewrite Hl; reflexivity|].
        rewrite loop_cons. exact H.
    + intros (before & a0 & after & Hl & H). destruct before as [|b before].
      * cbn in Hl. injection Hl as <- <-. left. exact H.
      * cbn in Hl. injection Hl as <- ->. right.
        exists before, a0, after. split; [reflexivity|].
        rewrite loop_cons in H. exact H.
Qed.

Lemma loop_second_list (l : list A) :
  forall w x,
    In x (snd (fst (fold_left step l ([], [], w))))
    <-> exists before a after,
          l = (before ++ a :: after)%list
          /\ In x (emit_u a (snd (fold_left step before ([], [], w)))).
Proof.
  induction l as [|a l IH]; intros w x.
  - cbn. split; [intros [] | intros (before & a & after & H & _)].
    destruct before; discriminate.
  - rewrite loop_cons. cbn [fst snd]. rewrite in_app_iff, IH. split.
    + intros [H | (before & a0 & after & Hl & H)].
      * exists [], a, l. split; [reflexivity | exact H].
      * exists (a :: before), a0, after. split; [rewrite Hl; reflexivity|].
        rewrite loop_cons. exact H.
    + intros (before & a0 & after & Hl & H). destruct before as [|b before].
      * cbn in Hl. injection Hl as <- <-. left. exact H.
      * cbn in Hl. injection Hl as <- ->. right.
        exists before, a0, after. split; [reflexivity|].
        rewrite loop_cons in H. exact H.
Qed.

End TwoListLoop.

(** *** The matching loop of process_listings *)

Lemma process_step_spec (ms : list MatchResult) (us : list Listing) (w : World)
    (listing : Listing) :
  process_step (ms, us, w) listing
  = ((ms ++ match fst (match_listing listing w) with
            | Some r => [r]
            | None => []
            end)%list,
     (us ++ match fst (match_listing listing w) with
            | Some _ => []
            | None => [listing]
            end)%list,
     snd (match_listing listing w)).
Proof.
  unfold process_step. destruct (match_listing listing w) as [[r|] w2];
    cbn [fst snd]; rewrite app_nil_r; reflexivity.
Qed.

Lemma process_matches_count (listings : list Listing) (w : World) :
  let '(matches, unmatched, w') := process_matches listings w in
  (List.length matches + List.length unmatched = List.length listings)%nat
  /\ batch_changes (List.length listings) w w'.
Proof.
  unfold process_matches.
  induction listings as [|listing listings IH] using rev_ind.
  - cbn. split; [reflexivity | apply batch_changes_refl].
  - rewrite fold_left_app. cbn [fold_left].
    destruct (fold_left process_step listings ([], [], w))
      as [[matches unmatched] w1].
    destruct IH as (Hcount & Hw).
    unfold process_step.
    assert (Hc := changes_little_listing listing w1).
    destruct (match_listing listing w1) as [[r|] w2] eqn:E; cbn [snd] in Hc;
      rewrite !length_app; cbn [List.length];
      (split; [lia|]);
      replace (List.length listings + 1)%nat with (S (List.length listings)) by lia;
      exact (batch_changes_step _ _ _ _ Hw Hc).
Qed.

(** The matching loop of [process_listings] files every listing once, in
    [matches] or in [unmatched], by what [match_listing] returns for it
    in the state that the listings before it have left (discovery can
    have added colonias to the hierarchy).  [matches] holds exactly the
    records so returned, [unmatched] exactly the listings for which
    nothing was returned.  Over the whole run, levels 3 to 5 and the
    store stay as they are, at most three requests are made per listing,
    and the level-2 ids stay unique. *)
Theorem process_listings_accounts_for_every_listing :
  forall listings w,
    let '(matches, unmatched, w') := process_matches listings w in
    (List.length matches + List.length unmatched = List.length listings)%nat
    /\ (forall r,
          In r matches
          <-> exists before listing after,
                listings = (before ++ listing :: after)%list
                /\ fst (match_listing listing (snd (process_matches before w)))
                   = Some r)
    /\ (forall listing,
          In listing unmatched
          <-> exists before after,
                listings = (before ++ listing :: after)%list
                /\ fst (match_listing listing (snd (process_matches before w)))
                   = None)
    /\ batch_changes (List.length listings) w w'.
Proof.
  intros listings w.
  assert (Hcount := process_matches_count listings w).
  assert (Hm := fun r => loop_first_list _ _ _ _ process_step_spec listings w r).
  assert (Hu := fun l => loop_second_list _ _ _ _ process_step_spec listings w l).
  fold (process_matches listings w) in Hm, Hu.
  destruct (process_matches listings w) as [[matches unmatched] w'].
  cbn [fst snd] in Hm, Hu. destruct Hcount as [Hcount Hw].
  split; [exact Hcount|]. split; [|split; [|exact Hw]].
  - intro r. rewrite Hm. split.
    + intros (before & listing & after & Hl & Hin).
      exists before, listing, after. split; [exact Hl|].
      fold (process_matches before w) in Hin.
      destruct (fst (match_listing listing (snd (process_matches before w))))
        as [r0|]; [|destruct Hin].
      destruct Hin as [<- | []]. reflexivity.
    + intros (before & listing & after & Hl & Hr).
      exists before, listing, after. split; [exact Hl|].
      fold (process_matches before w). rewrite Hr. left. reflexivity.
  - intro l. rewrite Hu. split.
    + intros (before & listing & after & Hl & Hin).
      fold (process_matches before w) in Hin.
      destruct (fst (match_listing listing (snd (process_matches before w))))
        as [r0|] eqn:E; [destruct Hin|].
      destruct Hin as [<- | []].
      exists before, after. split; [exact Hl | exact E].
    + intros (before & after & Hl & Hr).
      exists before, l, after. split; [exact Hl|].
      fold (process_matches before w). rewrite Hr. left. reflexivity.
Qed.

(** *** The matching loop of match_scraped_listings *)

Section ScrapedLoop.

Variable int_of_str : string -> option Z.

Lemma scraped_step_spec (ms : list MatchResult) (us : list UnmatchedScraped)
    (w : World) (listing : Scraped) :
  scraped_step int_of_str (ms, us, w) listing
  = ((ms ++ match read_external_id int_of_str listing with
            | Some ext_id =>
                if has_location (scraped_result listing ext_id w)
                then [set_external_id (scraped_result listing ext_id w) (Some ext_id)]
                else []
            | None => []
            end)%list,
     (us ++ match read_external_id int_of_str listing with
            | Some ext_id =>
                if has_location (scraped_result listing ext_id w)
                then []
                else [unmatched_row ext_id listing]
            | None => []
            end)%list,
     match read_external_id int_of_str listing with
     | Some ext_id =>
         snd (match_listing_with_texts (scraped_texts listing)
                                       (scraped_latitude listing)
                                       (scraped_longitude listing) (Some ext_id) w)
     | None => w
     end).
Proof.
  unfold scraped_step, scraped_result.
  destruct (read_external_id int_of_str listing) as [ext_id|];
    [|rewrite !app_nil_r; reflexivity].
  cbv zeta.
  destruct (match_listing_with_texts _ _ _ _ w) as [match_result w2]. cbn [fst snd].
  destruct (has_location match_result); rewrite app_nil_r; reflexivity.
Qed.

Lemma with_external_id_app (a b : list Scraped) :
  with_external_id int_of_str (a ++ b)
  = (with_external_id int_of_str a ++ with_external_id int_of_str b)%list.
Proof. unfold with_external_id. apply filter_app. Qed.

Lemma scraped_matches_count (listings : list Scraped) (w : World) :
  let '(matches, unmatched, w') := scraped_matches int_of_str listings w in
  (List.length matches + List.length unmatched
   = List.length (with_external_id int_of_str listings))%nat
  /\ batch_changes (List.length listings) w w'.
Proof.
  unfold scraped_matches.
  induction listings as [|listing listings IH] using rev_ind.
  - cbn. split; [reflexivity | apply batch_changes_refl].
  - rewrite fold_left_app. cbn [fold_left].
    destruct (fold_left (scraped_step int_of_str) listings ([], [], w))
      as [[matches unmatched] w1].
    destruct IH as (Hcount & Hw).
    rewrite with_external_id_app, !length_app. cbn [List.length].
    replace (List.length listings + 1)%nat with (S (List.length listings)) by lia.
    unfold scraped_step, with_external_id at 2. cbn [filter].
    destruct (read_external_id int_of_str listing) as [ext_id|].
    + cbv zeta.
      assert (Hc := changes_little_texts
                      (scraped_texts listing) (scraped_latitude listing)
                      (scraped_longitude listing) (Some ext_id) w1).
      destruct (match_listing_with_texts
                  (scraped_texts listing) (scraped_latitude listing)
                  (scraped_longitude listing) (Some ext_id) w1)
        as [match_result w2].
      cbn [snd] in Hc.
      destruct (has_location match_result); rewrite ?length_app; cbn [List.length];
        (split; [lia | exact (batch_changes_step _ _ _ _ Hw Hc)]).
    + cbn [List.length]. split; [lia | apply batch_changes_skip; exact Hw].
Qed.

(** The matching loop of [match_scraped_listings] skips the listings
    whose external id is falsy ([None], [0], the empty string) or not
    accepted by [int], and files every other listing once, under the
    integer [int] gives for its id (a non-empty string is truthy whatever
    integer it denotes): by what [match_listing_with_texts] returns for its
    normalized texts in the state that the listings before it have left,
    the result goes to [matches], with that id, when it holds a location
    id, and a record of the listing goes to [unmatched] when it holds
    none.  Over the whole run, levels 3 to 5 and the store stay as they
    are, at most three requests are made per listing, and the level-2 ids
    stay unique. *)
Theorem scraped_listings_are_accounted_for :
  forall listings w,
    let '(matches, unmatched, w') := scraped_matches int_of_str listings w in
    (List.length matches + List.length unmatched
     = List.length (with_external_id int_of_str listings))%nat
    /\ (forall r,
          In r matches
          <-> exists before listing after ext_id,
                listings = (before ++ listing :: after)%list
                /\ read_external_id int_of_str listing = Some ext_id
                /\ let result :=
                     fst (match_listing_with_texts
                            (scraped_texts listing) (scraped_latitude listing)
                            (scraped_longitude listing) (Some ext_id)
                            (snd (scraped_matches int_of_str before w))) in
                   has_location result = true
                   /\ r = set_external_id result (Some ext_id))
    /\ (forall u,
          In u unmatched
          <-> exists before listing after ext_id,
                listings = (before ++ listing :: after)%list
                /\ read_external_id int_of_str listing = Some ext_id
                /\ has_location
                     (fst (match_listing_with_texts
                             (scraped_texts listing) (scraped_latitude listing)
                             (scraped_longitude listing) (Some ext_id)
                             (snd (scraped_matches int_of_str before w))))
                   = false
                /\ u = unmatched_row ext_id listing)
    /\ batch_changes (List.length listings) w w'.
Proof.
  intros listings w.
  assert (Hcount := scraped_matches_count listings w).
  assert (Hm := fun r => loop_first_list _ _ _ _ scraped_step_spec listings w r).
  assert (Hu := fun u => loop_second_list _ _ _ _ scraped_step_spec listings w u).
  fold (scraped_matches int_of_str listings w) in Hm, Hu.
  destruct (scraped_matches int_of_str listings w) as [[matches unmatched] w'].
  cbn [fst snd] in Hm, Hu. destruct Hcount as [Hcount Hw].
  split; [exact Hcount|]. split; [|split; [|exact Hw]].
  - intro r. rewrite Hm. split.
    + intros (before & listing & after & Hl & Hin).
      fold (scraped_matches int_of_str before w) in Hin.
      destruct (read_external_id int_of_str listing) as [ext_id|] eqn:Eid;
        [|destruct Hin].
      exists before, listing, after, ext_id.
      split; [exact Hl|]. split; [exact Eid|]. cbv zeta.
      fold (scraped_result listing ext_id (snd (scraped_matches int_of_str before w))).
      destruct (has_location _) eqn:Eloc; [|destruct Hin].
      destruct Hin as [<- | []]. split; reflexivity.
    + intros (before & listing & after & ext_id & Hl & Eid & Eloc & ->).
      exists before, listing, after. split; [exact Hl|].
      fold (scraped_matches int_of_str before w). rewrite Eid.
      unfold scraped_result. rewrite Eloc. left. reflexivity.
  - intro u. rewrite Hu. split.
    + intros (before & listing & after & Hl & Hin).
      fold (scraped_matches int_of_str before w) in Hin.
      destruct (read_external_id int_of_str listing) as [ext_id|] eqn:Eid;
        [|destruct Hin].
      exists before, listing, after, ext_id.
      split; [exact Hl|]. split; [exact Eid|].
      fold (scraped_result listing ext_id (snd (scraped_matches int_of_str before w))).
      destruct (has_location _) eqn:Eloc; [destruct Hin|].
      destruct Hin as [<- | []]. split; reflexivity.
    + intros (before & listing & after & ext_id & Hl & Eid & Eloc & ->).
      exists before, listing, after. split; [exact Hl|].
      fold (scraped_matches int_of_str before w). rewrite Eid.
      unfold scraped_result. rewrite Eloc. left. reflexivity.
Qed.

End ScrapedLoop.

(** *** The ingest batches *)

Lemma slices_cover {A : Type} (size : nat) (m : nat) :
  forall l : list A,
    (List.length l <= m * size)%nat ->
    List.concat (map (fun j => slice (j * size) (j * size + size) l) (seq 0 m)) = l.
Proof.
  induction m as [|m IH]; intros l Hlen.
  - destruct l; [reflexivity | cbn in Hlen; lia].
  - change (seq 0 (S m)) with (0%nat :: seq 1 m). cbn [map List.concat].
    rewrite <- seq_shift, map_map.
    assert (H0 : slice (0 * size) (0 * size + size) l = firstn size l).
    { unfold slice. cbn [Nat.mul Nat.add skipn]. f_equal. lia. }
    assert (Hrest : map (fun j => slice (S j * size) (S j * size + size) l) (seq 0 m)
                    = map (fun j => slice (j * size) (j * size + size) (skipn size l))
                          (seq 0 m)).
    { apply map_ext. intro j. unfold slice. rewrite skipn_skipn.
      f_equal; [lia|]. f_equal. lia. }
    rewrite H0, Hrest, IH; [apply firstn_skipn|].
    rewrite length_skipn. lia.
Qed.

Lemma batch_count (n size : nat) :
  (0 < size)%nat -> (n <= (n + size - 1) / size * size)%nat.
Proof.
  intro Hs.
  assert (H := Nat.div_mod_eq (n + size - 1) size).
  assert (Hm := Nat.mod_upper_bound (n + size - 1) size ltac:(lia)).
  nia.
Qed.

Lemma batches_cover {A : Type} (size : nat) (l : list A) :
  (0 < size)%nat -> List.concat (batches size l) = l.
Proof.
  intro Hs. unfold batches, range_step. rewrite map_map.
  apply slices_cover. apply batch_count. exact Hs.
Qed.

Lemma batches_bounded {A : Type} (size : nat) (l : list A) (batch : list A) :
  (0 < size)%nat -> In batch (batches size l) ->
  (0 < List.length batch <= size)%nat.
Proof.
  intros Hs Hin. unfold batches, range_step in Hin. rewrite map_map in Hin.
  apply in_map_iff in Hin. destruct Hin as (j & <- & Hj).
  apply in_seq in Hj. unfold slice.
  rewrite length_firstn, length_skipn.
  assert (Hlt : (j * size < List.length l)%nat).
  { assert (H := Nat.div_mod_eq (List.length l + size - 1) size).
    assert (Hm := Nat.mod_upper_bound (List.length l + size - 1) size ltac:(lia)).
    nia. }
  lia.
Qed.

Lemma ingest_fold (store : list (list MatchResult) -> list MatchResult -> bool)
    (bs : list (list MatchResult)) :
  forall posted success errors,
    let '(_, success', errors') :=
      fold_left (ingest_step store) bs (posted, success, errors) in
    (success' + errors' = success + errors + List.length (List.concat bs))%nat.
Proof.
  induction bs as [|b bs IH]; intros posted success errors; cbn [fold_left List.concat].
  - cbn. lia.
  - unfold ingest_step at 2. destruct (store posted b).
    + specialize (IH (posted ++ [b])%list (success + List.length b)%nat errors).
      destruct (fold_left (ingest_step store) bs _) as [[p s] e].
      rewrite length_app. lia.
    + specialize (IH (posted ++ [b])%list success (errors + List.length b)%nat).
      destruct (fold_left (ingest_step store) bs _) as [[p s] e].
      rewrite length_app. lia.
Qed.

(** The ingest loop cuts the matches into consecutive batches of 1 to
    [BATCH_SIZE] records that together are exactly the matches, and
    counts every match once, as a success or as an error: the two counts
    that [match_scraped_listings] returns add up to the number of
    matches, whatever the store answers. *)
Theorem every_match_is_ingested_once :
  forall store matches,
    List.concat (batches BATCH_SIZE matches) = matches
    /\ (forall batch, In batch (batches BATCH_SIZE matches) ->
          (0 < List.length batch <= BATCH_SIZE)%nat)
    /\ (fst (ingest store matches) + snd (ingest store matches)
        = List.length matches)%nat.
Proof.
  intros store matches.
  assert (Hs : (0 < BATCH_SIZE)%nat) by (unfold BATCH_SIZE; lia).
  split; [apply batches_cover; exact Hs|].
  split; [intros batch; apply batches_bounded; exact Hs|].
  unfold ingest. destruct matches as [|r matches]; [reflexivity|].
  assert (H := ingest_fold store (batches BATCH_SIZE (r :: matches)) [] 0%nat 0%nat).
  destruct (fold_left (ingest_step store) (batches BATCH_SIZE (r :: matches))
                      ([], 0%nat, 0%nat)) as [[p s] e].
  cbn [fst snd]. rewrite batches_cover in H by exact Hs. lia.
Qed.

End BatchProperties.

(** ** Prefix removal *)

Section PrefixProperties.

Open Scope string_scope.

Lemma drop_drop (a b : nat) (s : string) : drop a (drop b s) = drop (b + a) s.
Proof.
  revert s. induction b as [|b IH]; intro s; [reflexivity|].
  destruct s as [|c s]; cbn [drop Nat.add].
  - destruct a; reflexivity.
  - apply IH.
Qed.

Lemma strip_prefixes_drop (fuel : nat) (s : string) :
  exists k, strip_prefixes fuel s = drop k s.
Proof.
  revert s. induction fuel as [|fuel IH]; intro s; [exists 0%nat; reflexivity|].
  cbn [strip_prefixes]. destruct (first_prefix prefixes s) as [p|].
  - destruct (IH (drop (String.length p) s)) as [k Hk].
    rewrite Hk, drop_drop. eexists. reflexivity.
  - exists 0%nat. reflexivity.
Qed.

Lemma length_lstrip (s : string) : (String.length (lstrip s) <= String.length s)%nat.
Proof.
  induction s as [|c s IH]; [cbn; lia|].
  cbn [lstrip]. destruct (is_space c); cbn [String.length]; lia.
Qed.

Lemma length_rstrip (s : string) : (String.length (rstrip s) <= String.length s)%nat.
Proof.
  induction s as [|c s IH]; [cbn; lia|].
  rewrite rstrip_cons. destruct (rstrip s) as [|d r].
  - destruct (is_space c); cbn [String.length]; lia.
  - cbn [String.length] in *. lia.
Qed.

Lemma length_strip (s : string) : (String.length (strip s) <= String.length s)%nat.
Proof.
  unfold strip. eapply Nat.le_trans; [apply length_rstrip | apply length_lstrip].
Qed.

(** [remove_location_prefixes] answers with what is left of the
    normalized input after a head was cut off and the whitespace around
    the rest trimmed.  The rest, before trimming, starts with none of the
    listed prefixes, and the answer is never longer than the normalized
    input.  On text of ASCII characters, of the characters U+00A1 to
    U+00FF and of combining marks the answer is normalized:
    [normalize_text] leaves it as it is. *)
Theorem remove_location_prefixes_normal_form :
  forall text,
    (String.length (remove_location_prefixes text)
     <= String.length (normalize_text text))%nat
    /\ (exists k,
           remove_location_prefixes text = strip (drop k (normalize_text text))
           /\ first_prefix prefixes (drop k (normalize_text text)) = None)
    /\ (latin1_text text = true ->
        normalize_text (remove_location_prefixes text)
        = remove_location_prefixes text).
Proof.
  intro text. unfold remove_location_prefixes. cbv zeta.
  set (s := normalize_text text).
  assert (Hstable := strip_prefixes_stable (String.length s) s (Nat.le_refl _)).
  destruct (strip_prefixes_drop (String.length s) s) as [k Hk].
  rewrite Hk in *.
  split; [|split].
  - eapply Nat.le_trans; [apply length_strip|]. rewrite length_drop. lia.
  - exists k. split; [reflexivity | exact Hstable].
  - intro Htext. apply normalize_text_of_settled; [|apply strip_idem].
    apply settled_strip, settled_drop. subst s.
    apply normalize_text_settled. exact Htext.
Qed.

End PrefixProperties.

(** ** Searching below a department *)

Section DepartmentProperties.

Open Scope string_scope.

Lemma mem_id_in (x : Z) (ids : list Z) : mem_id x ids = true -> In x ids.
Proof.
  unfold mem_id. intro H. apply existsb_exists in H.
  destruct H as (y & Hin & Hy). apply Z.eqb_eq in Hy. subst y. exact Hin.
Qed.

Lemma in_keys_of_filter (f : Z * LocInfo -> bool) (level_data : LevelData) (k : Z) :
  In k (map fst (filter f level_data)) ->
  exists info, In (k, info) level_data /\ f (k, info) = true.
Proof.
  intro H. apply in_map_iff in H. destruct H as ([k' info] & Hk & Hin).
  cbn [fst] in Hk. subst k'. apply filter_In in Hin. exists info. exact Hin.
Qed.

Lemma parent_in_some (ids : list Z) (info : LocInfo) :
  parent_in ids info = true -> exists p, parent_id info = Some p /\ In p ids.
Proof.
  unfold parent_in. destruct (parent_id info) as [p|]; [|discriminate].
  intro H. exists p. split; [reflexivity | apply mem_id_in; exact H].
Qed.

(** The districts of a department lead to it. *)
Lemma chain_of_district (groups : Groups) (dept k : Z) :
  NoDup (map fst (level4 groups)) -> dept <> 0%Z ->
  In k (get_ids_under_department groups L4 dept) ->
  chain5 (get_parent_chain k L4 groups) = Some dept
  /\ exists info, In (k, info) (level4 groups) /\ parent_id info = Some dept.
Proof.
  intros Hnd Hdept Hin. cbn [get_ids_under_department groups_get] in Hin.
  apply in_keys_of_filter in Hin. destruct Hin as (info & Hin & Hp).
  cbn [snd] in Hp. apply opt_id_eqb_some in Hp.
  split; [|exists info; split; assumption].
  unfold get_parent_chain. cbn [levels_above climb groups_get].
  rewrite (lookup_unique _ _ _ Hnd Hin), Hp.
  destruct (dept =? 0)%Z eqn:E; [apply Z.eqb_eq in E; contradiction|].
  reflexivity.
Qed.

(** The municipalities of a department lead to it. *)
Lemma chain_of_municipality_under (groups : Groups) (dept k : Z) :
  NoDup (map fst (level3 groups)) -> NoDup (map fst (level4 groups)) ->
  nonzero_ids (level4 groups) -> dept <> 0%Z ->
  In k (get_ids_under_department groups L3 dept) ->
  chain5 (get_parent_chain k L3 groups) = Some dept
  /\ exists info, In (k, info) (level3 groups).
Proof.
  intros Hnd3 Hnd4 Hnz4 Hdept Hin.
  cbn [get_ids_under_department groups_get] in Hin.
  apply in_keys_of_filter in Hin. destruct Hin as (info & Hin & Hp).
  cbn [snd] in Hp. apply parent_in_some in Hp. destruct Hp as (p & Hp & Hp4).
  destruct (chain_of_district groups dept p Hnd4 Hdept Hp4)
    as (_ & info4 & Hin4 & Hp5).
  split; [|exists info; exact Hin].
  unfold get_parent_chain. cbn [levels_above climb groups_get].
  rewrite (lookup_unique _ _ _ Hnd3 Hin), Hp.
  destruct (p =? 0)%Z eqn:E;
    [apply Z.eqb_eq in E; exfalso; exact (Hnz4 p info4 Hin4 E)|].
  rewrite (lookup_unique _ _ _ Hnd4 Hin4), Hp5.
  destruct (dept =? 0)%Z eqn:E'; [apply Z.eqb_eq in E'; contradiction|].
  reflexivity.
Qed.

(** The colonias of a department lead to it. *)
Lemma chain_of_colonia_under (groups : Groups) (dept k : Z) :
  consistent_hierarchy groups -> dept <> 0%Z ->
  In k (get_ids_under_department groups L2 dept) ->
  chain5 (get_parent_chain k L2 groups) = Some dept
  /\ exists info, In (k, info) (level2 groups).
Proof.
  intros (Hnd2 & Hnd3 & Hnd4 & Hnz3 & Hnz4 & _) Hdept Hin.
  cbn [get_ids_under_department groups_get] in Hin.
  apply in_keys_of_filter in Hin. destruct Hin as (info & Hin & Hp).
  cbn [snd] in Hp. apply parent_in_some in Hp. destruct Hp as (p3 & Hp & Hp3).
  assert (H3 : In p3 (get_ids_under_department groups L3 dept)) by exact Hp3.
  apply in_keys_of_filter in Hp3. destruct Hp3 as (info3 & Hin3 & Hq).
  cbn [snd] in Hq. apply parent_in_some in Hq. destruct Hq as (p4 & Hq & Hp4).
  destruct (chain_of_district groups dept p4 Hnd4 Hdept Hp4)
    as (_ & info4 & Hin4 & Hp5).
  split; [|exists info; exact Hin].
  unfold get_parent_chain. cbn [levels_above climb groups_get].
  rewrite (lookup_unique _ _ _ Hnd2 Hin), Hp.
  destruct (p3 =? 0)%Z eqn:E3;
    [apply Z.eqb_eq in E3; exfalso; exact (Hnz3 p3 info3 Hin3 E3)|].
  rewrite (lookup_unique _ _ _ Hnd3 Hin3), Hq.
  destruct (p4 =? 0)%Z eqn:E4;
    [apply Z.eqb_eq in E4; exfalso; exact (Hnz4 p4 info4 Hin4 E4)|].
  rewrite (lookup_unique _ _ _ Hnd4 Hin4), Hp5.
  destruct (dept =? 0)%Z eqn:E'; [apply Z.eqb_eq in E'; contradiction|].
  reflexivity.
Qed.

Lemma chain_under_department (groups : Groups) (dept : Z) (level : Level) (k : Z) :
  consistent_hierarchy groups -> dept <> 0%Z ->
  In k (get_ids_under_department groups level dept) ->
  chain5 (get_parent_chain k level groups) = Some dept.
Proof.
  intros Hc Hdept Hin. destruct level.
  - apply (chain_of_colonia_under groups dept k Hc Hdept Hin).
  - destruct Hc as (_ & Hnd3 & Hnd4 & _ & Hnz4 & _).
    apply (chain_of_municipality_under groups dept k Hnd3 Hnd4 Hnz4 Hdept Hin).
  - destruct Hc as (_ & _ & Hnd4 & _).
    apply (chain_of_district groups dept k Hnd4 Hdept Hin).
  - destruct Hin.
Qed.

(** In a well-formed hierarchy, every id that
    [get_ids_under_department] offers for the search below a department
    is an entry of its level whose ancestor chain, as [get_parent_chain]
    follows it, ends in that department. *)
Theorem ids_under_a_department_lead_to_it :
  forall groups dept level k,
    consistent_hierarchy groups -> dept <> 0%Z ->
    In k (get_ids_under_department groups level dept) ->
    chain_get (get_parent_chain k level groups) L5 = Some dept
    /\ lookup k (groups_get groups level) <> None.
Proof.
  intros groups dept level k Hc Hdept Hin.
  split; [exact (chain_under_department groups dept level k Hc Hdept Hin)|].
  assert (Hentry : exists info, In (k, info) (groups_get groups level)).
  { destruct level.
    - apply (chain_of_colonia_under groups dept k Hc Hdept Hin).
    - destruct Hc as (_ & Hnd3 & Hnd4 & _ & Hnz4 & _).
      apply (chain_of_municipality_under groups dept k Hnd3 Hnd4 Hnz4 Hdept Hin).
    - destruct Hc as (_ & _ & Hnd4 & _).
      destruct (chain_of_district groups dept k Hnd4 Hdept Hin) as (_ & info & Hi & _).
      exists info. exact Hi.
    - destruct Hin. }
  destruct Hentry as (info & Hi).
  assert (Hnd : NoDup (map fst (groups_get groups level))).
  { destruct Hc as (Hnd2 & Hnd3 & Hnd4 & _).
    destruct level; cbn [groups_get]; try assumption. destruct Hin. }
  rewrite (lookup_unique _ _ _ Hnd Hi). discriminate.
Qed.

Lemma ex_groups_consistent : consistent_hierarchy ex_groups.
Proof.
  assert (Hnz : forall level_data : LevelData,
             forallb (fun kv => negb (fst kv =? 0)%Z) level_data = true ->
             nonzero_ids level_data).
  { intros level_data H k info Hin Hk.
    rewrite forallb_forall in H. specialize (H (k, info) Hin).
    cbn [fst] in H. rewrite Hk in H. discriminate. }
  split; [exact ex_level2_keys|]. split; [exact ex_level3_keys|].
  split; [vm_compute; repeat constructor; simpl; intuition discriminate|].
  split; [apply Hnz; reflexivity|]. split; apply Hnz; reflexivity.
Defined.

Lemma ids_under_a_department_lead_to_it_witness :
  chain_get (get_parent_chain 2 L3 ex_groups) L5 = Some 100%Z
  /\ lookup 2 (groups_get ex_groups L3) <> None.
Proof.
  apply (ids_under_a_department_lead_to_it ex_groups 100%Z L3 2%Z
           ex_groups_consistent).
  - discriminate.
  - right. left. reflexivity.
Defined.

(** *** A department match keeps its department *)

Lemma found_in_restricted (texts : Texts) (valid_ids : list Z)
    (level_data : LevelData) (k : Z) (sc : Q) (t : string) (source : Source) :
  find_best_match_in_level texts (restrict_to valid_ids level_data) None
  = Some (k, sc, t, source) ->
  In k valid_ids.
Proof.
  intro H. apply find_best_sound in H. destruct H as (info & raw & Hin & _).
  cbn [filter_by_parent] in Hin. unfold restrict_to in Hin.
  apply filter_In in Hin. destruct Hin as [_ Hm]. apply mem_id_in. exact Hm.
Qed.

Lemma found_in_restricted_texts (texts : Texts) (valid_ids : list Z)
    (level_data : LevelData) (k : Z) (sc : Q) (t : string) (source : Source) :
  find_match texts (restrict_to valid_ids level_data) None = Some (k, sc, t, source) ->
  In k valid_ids.
Proof.
  intro H. apply find_match_sound in H. destruct H as (info & Hin & _).
  unfold restrict_to in Hin.
  apply filter_In in Hin. destruct Hin as [_ Hm]. apply mem_id_in. exact Hm.
Qed.

Lemma Level_eqb_eq (a b : Level) : Level_eqb a b = true -> a = b.
Proof. destruct a, b; cbn; (reflexivity || discriminate). Qed.

Lemma lower_step_found (texts : Texts) (groups : Groups) (l5_id : Z)
    (st : LowerState) (level : Level) :
  lower_found groups l5_id st ->
  lower_found groups l5_id (lower_step texts groups l5_id st level).
Proof.
  intro H. unfold lower_step. destruct st as [[best lvl] sc].
  destruct (get_ids_under_department groups level l5_id) as [|a ids] eqn:E;
    [exact H|].
  destruct (restrict_to (a :: ids) (groups_get groups level)) as [|e fd] eqn:Er;
    [exact H|].
  destruct (find_best_match_in_level texts (e :: fd) None)
    as [[[[k s] t] src]|] eqn:Ef; [|exact H].
  rewrite <- Er in Ef. apply found_in_restricted in Ef. rewrite <- E in Ef.
  destruct (Qgeb s MIN_SCORE && (level_number level <? level_number lvl)%Z);
    [exact Ef|].
  destruct (Qgtb s sc && Level_eqb level lvl) eqn:Eq; [|exact H].
  apply andb_prop in Eq. destruct Eq as [_ Eq]. apply Level_eqb_eq in Eq.
  subst lvl. exact Ef.
Qed.

Lemma lower_step_texts_found (texts : Texts) (groups : Groups) (l5_id : Z)
    (st : LowerStateTexts) (level : Level) :
  lower_found_texts groups l5_id st ->
  lower_found_texts groups l5_id (lower_step_texts texts groups l5_id st level).
Proof.
  intro H. unfold lower_step_texts. destruct st as [best lvl].
  destruct (get_ids_under_department groups level l5_id) as [|a ids] eqn:E;
    [exact H|].
  cbv zeta.
  destruct (find_match texts (restrict_to (a :: ids) (groups_get groups level)) None)
    as [[[[k s] t] src]|] eqn:Ef; [|exact H].
  apply found_in_restricted_texts in Ef. rewrite <- E in Ef.
  destruct (Qgeb s MIN_SCORE && (level_number level <? level_number lvl)%Z);
    [exact Ef | exact H].
Qed.

(** In a well-formed hierarchy a match on a department that the
    disambiguation does not redirect keeps the department, in both
    orchestrators: whether the result stays at level 5 or moves to a node
    found below the department, its [locGroup5Id] is the department
    matched. *)
Theorem department_match_keeps_the_department :
  forall groups,
    consistent_hierarchy groups ->
    (forall texts result l5_id l5_score l5_text l5_source r,
        find_best_match_in_level texts (groups_get groups L5) None
        = Some (l5_id, l5_score, l5_text, l5_source) ->
        disambiguate texts groups l5_id = None ->
        department_step texts groups result = Some r ->
        locGroup5Id r = Some l5_id)
    /\ (forall texts result l5_id l5_score l5_text l5_source,
           find_match texts (groups_get groups L5) None
           = Some (l5_id, l5_score, l5_text, l5_source) ->
           disambiguate texts groups l5_id = None ->
           locGroup5Id (department_step_texts texts groups result) = Some l5_id).
Proof.
  intros groups Hc.
  assert (Hnz5 : nonzero_ids (level5 groups)) by (apply Hc).
  split.
  - intros texts result l5_id l5_score l5_text l5_source r Hf Hd Hs.
    assert (Hdept : l5_id <> 0%Z).
    { destruct (find_best_sound _ _ _ _ _ _ _ Hf) as (info & raw & Hin & _).
      exact (Hnz5 l5_id info Hin). }
    unfold department_step in Hs. rewrite Hf, Hd in Hs.
    assert (Hinv : lower_found groups l5_id
                     (fold_left (lower_step texts groups l5_id) [L2; L3; L4]
                                (None, L5, 0%Q))).
    { cbn [fold_left]. repeat apply lower_step_found. exact I. }
    destruct (fold_left (lower_step texts groups l5_id) [L2; L3; L4] (None, L5, 0%Q))
      as [[best lvl] sc].
    destruct best as [[[[loc_id score] t] src]|]; injection Hs as <-.
    + cbn [lower_found] in Hinv. cbn [set_match update_chain locGroup5Id].
      exact (chain_under_department groups l5_id lvl loc_id Hc Hdept Hinv).
    + reflexivity.
  - intros texts result l5_id l5_score l5_text l5_source Hf Hd.
    assert (Hdept : l5_id <> 0%Z).
    { destruct (find_match_sound _ _ _ _ _ _ _ Hf) as (info & Hin & _).
      exact (Hnz5 l5_id info Hin). }
    unfold department_step_texts. rewrite Hf, Hd.
    assert (Hinv : lower_found_texts groups l5_id
                     (fold_left (lower_step_texts texts groups l5_id) [L2; L3; L4]
                                (None, L5))).
    { cbn [fold_left]. repeat apply lower_step_texts_found. exact I. }
    destruct (fold_left (lower_step_texts texts groups l5_id) [L2; L3; L4] (None, L5))
      as [best lvl].
    destruct best as [[[[[loc_id level] score] t] src]|].
    + cbn [lower_found_texts] in Hinv. cbn [set_match update_chain locGroup5Id].
      exact (chain_under_department groups l5_id level loc_id Hc Hdept Hinv).
    + reflexivity.
Qed.

Lemma department_match_keeps_the_department_witness :
  locGroup5Id (set_match (set_l5 (empty_result None) 100) L5 1 Title
                         (evidence "La Libertad"))
  = Some 100%Z.
Proof.
  exact (proj1 (department_match_keeps_the_department ex_groups ex_groups_consistent)
               ex_texts_department (empty_result None) 100%Z 1%Q "La Libertad" Title
               (set_match (set_l5 (empty_result None) 100) L5 1 Title
                          (evidence "La Libertad"))
               eq_refl eq_refl eq_refl).
Defined.

End DepartmentProperties.
